(* ===== verification/_CoqProject ===== *)
-Q . S2P
Prelude.v
Prog.v
GoStrings.v
Model.v
Strconv.v
World.v
Config.v
Http.v
Auth.v
Alert.v
TestRepo.v
JobRepo.v
RunRepo.v
Secrets.v
Paths.v
Bundle.v
Runtime.v
Storage.v
Minio.v
Supabase.v
Demo.v
Screenshots.v
Worker.v
Scheduler.v
Retention.v
Handler.v
Endpoints.v
Effects.v
Variables.v
Secrecy.v
Requests.v
Stores.v
Access.v
Workspace.v
Jobs.v
Invariants.v
System.v
Pool.v
Startup.v
Main.v
Ticks.v
Witnesses.v
WitnessesServer.v
