(* ===== verification/Prelude.v ===== *)
(** * BYOT: a verification development

    BYOT (bring your own test) is a Go server that keeps test scripts and bundles,
    runs them in Docker containers on demand or by cron, records runs, logs and
    screenshots, and alerts on failures.  This library models the server in src/
    as executable Gallina definitions and proves what makes it correct.

    ** The program and its parts

    HTTP handlers (src/handler, src/auth, the routes of src/main.go) read and
    write the Postgres tables through src/repository and the object store
    through src/storage.  POST /run and the scheduler (src/scheduler,
    src/schedule) put jobs on the queue, the table jobs (src/queue).  Workers
    (src/worker) claim jobs, stage a workspace (src/bundle, src/runtime), run
    the container, redact the log (src/secrets), store it and the run, and send
    alerts (src/alert).  A sweep fails jobs whose worker died, another one
    (src/retention) removes old runs.  The parts share nothing but the tables,
    the bucket, the file system, the set of running commands and two flags.

    ** How the code is modelled

    [World.world] is that shared state, with the clock, the draws of identifiers
    and nonces, and the outcomes of the coming external calls ([w_faults],
    [w_http]), so that every call can fail at every point.  An atomic action
    (one SQL statement or transaction, one system call, one request to a
    service) is a function [act A := world -> A * world]; a handler or goroutine
    is a [prog world A], a tree of such actions (file Prog).  [Prog.run] executes
    a program alone; [Prog.sys_step] interleaves any number of programs action by
    action, lets the environment move the clock, choose coming outcomes and take
    commands down, and may kill a program anywhere.  A Go error is the [Err] of a
    [res]; a nil error is [Ok].  Each definition has the name of the Go function
    it translates where there is one.

    The file system maps paths to files, directories and symbolic links.  Its calls
    (file Paths) follow links the way the kernel does, also those a test has made in
    its workspace.  What os.RemoveAll cannot remove is the environment's choice,
    [World.ext_stuck].

    Code outside src/ is a parameter: the class [World.Ext] (uuid, cron, AES-GCM,
    archive/zip, the docker CLI, url.Parse, the process environment, embedded
    files, files that cannot be removed) with the documented facts the proofs use in [ExtLaws]; the object
    store behind [Storage.Storage], the MinIO client behind [Minio.MinioClient],
    Supabase's HTTP API behind [Supabase.SupabaseClient], and what main.go starts
    up with behind [Startup.Platform].  What a user of the store may rely on comes
    in steps: [StorageFrame] (calls touch only the bucket), [StorageCore] (uploads,
    downloads, deletions of one object), [StorageLaws] (prefixes too), and
    [StorageBlind] (the store does not read the tables).  MinIO has all of them,
    Supabase the first and the last, and the contract of single objects for keys a
    URL carries unchanged; each theorem asks for the least it needs.  The theorems that
    need prefixes, on the retention sweep and on deleting a test, are stated in
    Stores for the MinIO store; there too is what they come to on Supabase.  A call to a
    store or service that fails may have had its effect; a SQL statement that fails
    has not (a reply lost after the commit is not modelled).  File Demo
    instantiates all of them, and files Witnesses and WitnessesServer apply every
    theorem that has hypotheses.

    ** Files

    - Prelude: results, machine integers, sorting, tactics; Prog: programs,
      sequential and interleaved execution, the invariant rule; GoStrings,
      Strconv, Paths: what the code uses of strings, strconv, net/url,
      encoding/base64, fmt, path and path/filepath.
    - Model (src/model), World (the state, SQL statements and transactions),
      Config (src/config), Http (requests, JSON decoding, responses).
    - TestRepo, JobRepo (with queue.Queue), RunRepo (runs, screenshots, variables,
      retention): src/repository, one definition per method.
    - Auth (src/auth), Alert (src/alert), Secrets (src/secrets), Bundle
      (src/bundle), Runtime (src/runtime), Storage, Minio and Supabase (src/storage),
      Screenshots and Worker (src/worker), Scheduler (src/scheduler, src/schedule),
      Retention (src/retention).
    - Handler (configuration, schedules, stop, delete) and Endpoints (variables,
      listings, runs, uploads, the router of /tests, the routes of main.go and the
      pages of src/web).
    - Invariants, System: the invariant of all tables and of the history of
      claims, under every interleaving.
    - Effects (which parts of the state each program touches), Variables, Secrecy,
      Requests, Stores (sweeps and deletions on each of the two stores), Access,
      Workspace, Jobs, Ticks: what whole requests, jobs and ticks do, end to end.
    - Pool (src/worker/pool.go): the goroutines of [runPool], its semaphore, wake-up
      channel, wait group and context, for any [next] and [handle].
    - Startup (src/main.go up to the listener, src/db, the constructor of the MinIO
      store), Main (the running process: requests, pool, the three background
      loops, the signal and the shutdown).
    - Demo, Witnesses, WitnessesServer: concrete instances.

    ** What the theorems show

    - Under every interleaving, failure and crash the tables stay well-formed and
      no job is claimed twice (System).
    - The pool handles at most as many jobs as configured, loses no wake-up, and
      drains and returns when it is stopped (Pool).  The process that main.go wires
      refines the interleavings of System, so those invariants hold of it, and a
      shutdown within its deadline drops no request and no job (Main); it listens
      only when it is configured completely (Startup).
    - Secrets: no request ever reads one (Secrecy, a noninterference theorem over
      sessions of requests); what a PUT stores, and that it reaches the containers
      of the test's jobs (Variables); redaction, encryption and the stored log (Secrets, Jobs).
    - Access: reads change nothing, writes need a token (Access).
    - The queue is first in, first out, stale jobs are failed exactly, workers
      report exactly what executeJob returned, ticks fire each due test once (JobRepo, Jobs, Ticks).
    - Alerts follow the failure streak, and reach every channel whose URL parses
      (TestRepo, Alert).
    - Isolation: archives stay in their directory, docker arguments carry the
      sandbox and the limits, jobs leave no files but those os.RemoveAll could not
      remove (Bundle, Runtime, Workspace); which images a run keeps (Screenshots).
    - Retention keeps the newest run (Retention) and, on MinIO, deletes objects
      before rows (Stores).
    - Uploads, deletions, stops and configuration changes (Requests, Handler),
      the repositories' contracts, MinIO as an implementation of the storage
      interface (Minio), and how far Supabase is one: single objects and listings
      are right, deleting a prefix is not (Supabase).

    ** Bounds and fuel

    Loops over lists are structural.  [Retention.sweep_batches] counts down
    [maxBatches = 25] as the code does, so its bound is the code's own.  The loop of
    [Supabase.listObjects] has no bound in the code; [pages] bounds it in the model,
    and [listObjects_complete] shows that any bound above a thousandth of the number
    of entries gives one and the same run.  [Supabase.delete_batches] gets the number
    of objects, which is at least the number of batches; [TrimSpace] the length of
    its string.  [Paths.resolve] follows 40 symbolic links, as the kernel does, and
    fails after that.  [int] values are integers: those parsed from requests
    and the environment fit 64 bits ([Strconv.Atoi] rejects the others), INT
    columns reject what does not fit 32 bits, and the multiplication that can
    overflow ([Retention.max_age_of_days]) wraps around.  Floats are Standard
    Library binary64 [spec_float]s.

    ** What is not modelled, and why

    - The scanning of JSON and multipart bytes: a request carries the parsed
      value, the decoding into structs is modelled.  The encoding of responses
      ends at the value that is encoded.
    - Postgres rejects identifiers that are not UUIDs in syntax before it
      compares them; here they are strings that match no row.
    - What happens inside tickers and net/http's listener (they are events that may
      come at any time), the content of migrations and pages, the settings of the
      connection pool, logging.
    - SQL replies lost after a commit, see above.
    - Requests whose path is not well escaped, which net/http answers itself.  The
      router works on the escaped path, handlers see the unescaped one
      ([Http.Request.Path]).
    - Case mapping outside ASCII, except for the two letters that map into it
      ([GoStrings.ToLower]).
    - Permissions of files: a call can fail at any point, but not because of a mode.
    - File ownership; panics and the recover blocks for them; a WORKSPACE_DIR
      that is not an absolute path. *)

From Stdlib Require Export ZArith Lia Ascii.
From stdpp Require Export base gmap strings list sorting pretty.

#[export] Set Default Goal Selector "!".

(** ** Scope, hint databases *)

Declare Scope byot_scope.
Delimit Scope byot_scope with byot.
#[global] Open Scope byot_scope.

Create HintDb byot discriminated.
#[export] Hint Constants Opaque : byot.
#[export] Hint Variables Opaque : byot.

(** ** Go errors and two-valued results

    A Go function that returns [(T, error)] returns a [res T] here: the code
    always tests [err != nil] before it uses the value.  The errors the source
    compares with [errors.Is] keep their identity; every other error is its
    message.  [ErrExternal] is an error made by Postgres, the object store or
    another service. *)
Inductive error :=
| ErrNoRows
| ErrTooManyEnvVars
| ErrNoKey
| ErrExternal (msg : string)
| Errorf (msg : string)
| Wrap (prefix : string) (e : error).

Inductive res (A : Type) :=
| Ok (a : A)
| Err (e : error).
Arguments Ok {_} _.
Arguments Err {_} _.

#[export] Instance error_eq_dec : EqDecision error.
Proof. solve_decision. Defined.

#[export] Instance res_eq_dec `{EqDecision A} : EqDecision (res A).
Proof. solve_decision. Defined.

#[export] Instance res_ret : MRet res := λ A, Ok.
#[export] Instance res_bind : MBind res :=
  λ A B f m, match m with Ok a => f a | Err e => Err e end.
#[export] Instance res_fmap : FMap res :=
  λ A B f m, match m with Ok a => Ok (f a) | Err e => Err e end.

(** [err.Error()], with [fmt.Errorf("p: %w", err)] as [Wrap "p: " err]. *)
Fixpoint Error (e : error) : string :=
  match e with
  | ErrNoRows => "no rows in result set"
  | ErrTooManyEnvVars => "too many environment variables"
  | ErrNoKey => "SECRETS_KEY is not configured"
  | ErrExternal m => m
  | Errorf m => m
  | Wrap p e => p +:+ Error e
  end.

(** [errors.Is]: follows the chain of wrapped errors. *)
Fixpoint Is (e target : error) : bool :=
  bool_decide (e = target) ||
  match e with Wrap _ e' => Is e' target | _ => false end.

Definition is_ok {A} (r : res A) : bool :=
  match r with Ok _ => true | Err _ => false end.

(** ** Machine integers

    [int] is 64 bits wide in the Go builds the project ships; a Postgres
    [INT] column holds 32 bits. *)
Definition wrap64 (z : Z) : Z := ((z + 2^63) mod 2^64 - 2^63)%Z.
Definition fits_int64 (z : Z) : bool := ((- 2^63 <=? z) && (z <? 2^63))%Z.
Definition fits_int4 (z : Z) : bool := ((- 2^31 <=? z) && (z <? 2^31))%Z.

(** Durations are [time.Duration]s: nanoseconds. *)
Definition Nanosecond : Z := 1.
Definition Millisecond : Z := 1000000.
Definition Second : Z := 1000000000.
Definition Minute : Z := (60 * Second)%Z.
Definition Hour : Z := (60 * Minute)%Z.

(** ** Sorting by an integer key ([ORDER BY k ASC]) *)
Definition by_key {A} (k : A → Z) (x y : A) : Prop := (k x ≤ k y)%Z.
#[export] Instance by_key_dec {A} (k : A → Z) : RelDecision (by_key k) :=
  λ x y, decide (k x ≤ k y)%Z.
#[export] Instance by_key_total {A} (k : A → Z) : Total (by_key k).
Proof. intros x y. unfold by_key. lia. Qed.
#[export] Instance by_key_trans {A} (k : A → Z) : Transitive (by_key k).
Proof. intros x y z. unfold by_key. lia. Qed.

Definition sort_asc {A} (k : A → Z) (l : list A) : list A :=
  merge_sort (by_key k) l.
Definition sort_desc {A} (k : A → Z) (l : list A) : list A :=
  merge_sort (by_key (λ x, - k x)%Z) l.

(** ** Tactics *)

(** Case analysis on every [match] and [if] of the goal. *)
Ltac split_match :=
  repeat first
    [ progress simplify_eq/=
    | case_match
    | case_decide
    | case_bool_decide ].

(** Turns boolean tests that occur as hypotheses into propositions. *)
Ltac reflect_bools :=
  repeat match goal with
  | H : _ && _ = true |- _ => apply andb_true_iff in H; destruct H
  | H : _ || _ = false |- _ => apply orb_false_iff in H; destruct H
  | H : negb _ = true |- _ => apply negb_true_iff in H
  | H : negb _ = false |- _ => apply negb_false_iff in H
  | H : bool_decide _ = true |- _ => apply bool_decide_eq_true in H
  | H : bool_decide _ = false |- _ => apply bool_decide_eq_false in H
  | H : (_ <? _)%Z = true |- _ => apply Z.ltb_lt in H
  | H : (_ <? _)%Z = false |- _ => apply Z.ltb_ge in H
  | H : (_ <=? _)%Z = true |- _ => apply Z.leb_le in H
  | H : (_ <=? _)%Z = false |- _ => apply Z.leb_gt in H
  | H : (_ =? _)%Z = true |- _ => apply Z.eqb_eq in H
  | H : (_ =? _)%Z = false |- _ => apply Z.eqb_neq in H
  | H : (_ =? _)%string = true |- _ => apply String.eqb_eq in H
  | H : (_ =? _)%string = false |- _ => apply String.eqb_neq in H
  end.

(** ** Lemmas *)

Lemma res_bind_ok {A B} (f : A → res B) (m : res A) b :
  (m ≫= f) = Ok b ↔ ∃ a, m = Ok a ∧ f a = Ok b.
Proof.
  destruct m as [a|e]; simpl; split; [by eauto|by intros (? & [= ->] & ?)|done|].
  by intros (? & ? & _).
Qed.

Lemma wrap64_id z : fits_int64 z = true → wrap64 z = z.
Proof.
  unfold fits_int64, wrap64. intros. reflect_bools.
  rewrite Z.mod_small; lia.
Qed.

Lemma wrap64_fits z : fits_int64 (wrap64 z) = true.
Proof.
  unfold fits_int64, wrap64.
  pose proof (Z.mod_pos_bound (z + 2 ^ 63) (2 ^ 64) ltac:(lia)).
  apply andb_true_iff; rewrite Z.leb_le, Z.ltb_lt. lia.
Qed.

Lemma sort_asc_perm {A} (k : A → Z) l : sort_asc k l ≡ₚ l.
Proof. apply merge_sort_Permutation. Qed.

Lemma sort_desc_perm {A} (k : A → Z) l : sort_desc k l ≡ₚ l.
Proof. apply merge_sort_Permutation. Qed.

Lemma sort_asc_sorted {A} (k : A → Z) l :
  StronglySorted (by_key k) (sort_asc k l).
Proof. apply StronglySorted_merge_sort; apply _. Qed.

Lemma elem_of_sort_asc {A} (k : A → Z) l x : x ∈ sort_asc k l ↔ x ∈ l.
Proof. by rewrite sort_asc_perm. Qed.

Lemma elem_of_sort_desc {A} (k : A → Z) l x : x ∈ sort_desc k l ↔ x ∈ l.
Proof. by rewrite sort_desc_perm. Qed.

(** The head of an ascending sort is a least element. *)
Lemma sort_asc_head {A} (k : A → Z) l x l' :
  sort_asc k l = x :: l' → x ∈ l ∧ ∀ y, y ∈ l → (k x ≤ k y)%Z.
Proof.
  intros Hs. pose proof (sort_asc_sorted k l) as Hsort.
  assert (Hin : ∀ y, y ∈ l ↔ y ∈ x :: l') by (intros y; by rewrite <-Hs, elem_of_sort_asc).
  split; [apply Hin; left|].
  intros y [->|Hy]%Hin%elem_of_cons; [lia|].
  rewrite Hs in Hsort. apply StronglySorted_inv in Hsort as [_ Hall].
  rewrite Forall_forall in Hall. by apply Hall.
Qed.

Lemma sort_asc_nil {A} (k : A → Z) l : sort_asc k l = [] ↔ l = [].
Proof.
  split; [|by intros ->].
  intros H. pose proof (sort_asc_perm k l) as Hp. rewrite H in Hp.
  by apply Permutation_nil in Hp.
Qed.

(** The values of a map, as the rows a scan of a table returns. *)
Lemma elem_of_rows {K A} `{Countable K} (m : gmap K A) (x : A) :
  x ∈ (map_to_list m).*2 ↔ ∃ k, m !! k = Some x.
Proof.
  rewrite list_elem_of_fmap. split.
  - intros ([k y] & -> & Hy%elem_of_map_to_list). by exists k.
  - intros [k Hk]. exists (k, x). split; [done|]. by apply elem_of_map_to_list.
Qed.

#[export] Hint Resolve sort_asc_perm sort_desc_perm : byot.
