(* ===== verification/Prog.v ===== *)
(** * Programs as sequences of atomic actions

    The server runs many goroutines: HTTP handlers, the scheduler, the worker
    pool, the stale-job sweep and the retention sweep.  They share the
    database, the object store and a few process-wide maps, and they interleave
    at every call to one of them.  A goroutine is modelled as a [prog]: a tree
    of atomic actions on the shared state, each returning a value the rest
    depends on.

    - [run] executes a program alone; functional properties use it.
    - [sys_step] interleaves any number of programs, started at any time, with
      the environment; global invariants are proved for it.
    - [prog_ok] is the proof rule between the two: a program whose actions all
      preserve [I] preserves it under every interleaving. *)

From S2P Require Import Prelude.

(** ** State monad of one atomic action *)
Definition M (S A : Type) : Type := S → A * S.

#[export] Instance M_ret {S} : MRet (M S) := λ A a s, (a, s).
#[export] Instance M_bind {S} : MBind (M S) :=
  λ A B f m s, let '(a, s') := m s in f a s'.

(** ** Programs *)
Inductive prog (S : Type) (A : Type) : Type :=
| Ret (a : A)
| Step {R : Type} (m : M S R) (k : R → prog S A).
Arguments Ret {S A} a.
Arguments Step {S A R} m k.

Definition call {S A} (m : M S A) : prog S A := Step m Ret.

Fixpoint prog_bind {S A B} (p : prog S A) (f : A → prog S B) : prog S B :=
  match p with
  | Ret a => f a
  | Step m k => Step m (λ r, prog_bind (k r) f)
  end.

#[export] Instance prog_ret {S} : MRet (prog S) := λ A a, Ret a.
#[export] Instance prog_mbind {S} : MBind (prog S) := λ A B f p, prog_bind p f.

(** [for _, x := range l { body x }] for a body without [return]. *)
Fixpoint for_each {S A} (l : list A) (body : A → prog S unit) : prog S unit :=
  match l with
  | [] => mret tt
  | x :: l' => _ ← body x; for_each l' body
  end.

(** [return err] as soon as a call fails, with the error unchanged. *)
Notation "'try' x ':=' m 'in' k" :=
  (m ≫= λ r, match r with Err e => mret (Err e) | Ok x => k end)
  (at level 100, x pattern, m at next level, k at level 200, right associativity,
   format "'try'  x  ':='  m  'in' '//' k") : byot_scope.

(** A handler answers with [h] when a call fails. *)
Notation "'try' x ':=' m 'else' h 'in' k" :=
  (m ≫= λ r, match r with Err _ => h | Ok x => k end)
  (at level 100, x pattern, m at next level, h at next level, k at level 200,
   right associativity,
   format "'try'  x  ':='  m  'else'  h  'in' '//' k") : byot_scope.

(** ** Sequential execution *)
Fixpoint run {S A} (p : prog S A) (s : S) : A * S :=
  match p with
  | Ret a => (a, s)
  | Step m k => let '(r, s') := m s in run (k r) s'
  end.

(** ** Interleaved execution *)
Section interleaving.
Context {S : Type}.
(** The goroutines the server may start, and what the world may do meanwhile. *)
Variable allowed : prog S unit → Prop.
Variable env : S → S → Prop.

Inductive sys_step : S * list (prog S unit) → S * list (prog S unit) → Prop :=
| step_atom R (m : M S R) k s T1 T2 :
    sys_step (s, T1 ++ Step m k :: T2) ((m s).2, T1 ++ k (m s).1 :: T2)
| step_spawn p s T :
    allowed p → sys_step (s, T) (s, p :: T)
| step_env s s' T :
    env s s' → sys_step (s, T) (s', T)
(** A goroutine may end anywhere: its context is cancelled, or the server
    crashes and takes all of them with it. *)
| step_kill p s T1 T2 :
    sys_step (s, T1 ++ p :: T2) (s, T1 ++ T2).

Definition reachable (s0 : S) (c : S * list (prog S unit)) : Prop :=
  rtc sys_step (s0, []) c.
End interleaving.

(** ** Invariants *)

(** [m] preserves [I], and its result satisfies [Q] whatever happens next. *)
Definition preserves {S A} (I : S → Prop) (m : M S A) (Q : A → Prop) : Prop :=
  ∀ s, I s → I (m s).2 ∧ Q (m s).1.

Fixpoint prog_ok {S A} (I : S → Prop) (p : prog S A) (Q : A → Prop) : Prop :=
  match p with
  | Ret a => Q a
  | @Step _ _ R m k =>
      ∃ P : R → Prop, preserves I m P ∧ ∀ r, P r → prog_ok I (k r) Q
  end.

(** ** Lemmas *)

Lemma run_bind {S A B} (p : prog S A) (f : A → prog S B) s :
  run (p ≫= f) s = let '(a, s') := run p s in run (f a) s'.
Proof.
  revert s. induction p as [a|R m k IH]; intros s; [done|].
  cbn. destruct (m s) as [r s']. apply IH.
Qed.

Lemma run_call {S A} (m : M S A) s : run (call m) s = m s.
Proof. cbn. by destruct (m s). Qed.

Lemma run_call_bind {S A B} (m : M S A) (f : A → prog S B) s :
  run (call m ≫= f) s = let '(a, s') := m s in run (f a) s'.
Proof. by rewrite run_bind, run_call. Qed.

Lemma run_ret {S A} (a : A) (s : S) : run (mret a) s = (a, s).
Proof. done. Qed.

Lemma preserves_weaken {S A} (I : S → Prop) (m : M S A) (P Q : A → Prop) :
  preserves I m P → (∀ a, P a → Q a) → preserves I m Q.
Proof. intros H HPQ s Hs. destruct (H s Hs); auto. Qed.

Lemma preserves_ret {S A} (I : S → Prop) (a : A) (Q : A → Prop) :
  Q a → preserves I (mret a) Q.
Proof. by intros ? s ?. Qed.

Lemma preserves_bind {S A B} (I : S → Prop) (m : M S A) (f : A → M S B) P Q :
  preserves I m P → (∀ a, P a → preserves I (f a) Q) → preserves I (m ≫= f) Q.
Proof.
  intros Hm Hf s Hs. unfold mbind, M_bind.
  destruct (Hm s Hs) as [HI HP]. destruct (m s) as [a s']. by apply Hf.
Qed.

Section prog_rules.
Context {S : Type} (I : S → Prop).

Lemma prog_ok_ret {A} (a : A) (Q : A → Prop) : Q a → prog_ok I (mret a) Q.
Proof. done. Qed.

Lemma prog_ok_call {A} (m : M S A) (Q : A → Prop) :
  preserves I m Q → prog_ok I (call m) Q.
Proof. intros H. by exists Q. Qed.

Lemma prog_ok_weaken {A} (p : prog S A) (P Q : A → Prop) :
  prog_ok I p P → (∀ a, P a → Q a) → prog_ok I p Q.
Proof.
  intros H HPQ. induction p as [a|R m k IH]; simpl in *; [auto|].
  destruct H as (P' & Hm & Hk). exists P'. split; [done|]. intros r Hr. auto.
Qed.

Lemma prog_ok_bind {A B} (p : prog S A) (f : A → prog S B) P Q :
  prog_ok I p P → (∀ a, P a → prog_ok I (f a) Q) → prog_ok I (p ≫= f) Q.
Proof.
  intros Hp Hf. induction p as [a|R m k IH]; simpl in *; [by apply Hf|].
  destruct Hp as (P' & Hm & Hk). exists P'. split; [done|].
  intros r Hr. by apply IH, Hk.
Qed.

Lemma prog_ok_for_each {A} (l : list A) (body : A → prog S unit) :
  (∀ x, x ∈ l → prog_ok I (body x) (λ _, True)) →
  prog_ok I (for_each l body) (λ _, True).
Proof.
  induction l as [|x l IH]; intros H; simpl; [done|].
  eapply prog_ok_bind; [apply H; left|].
  intros _ _. apply IH. intros y Hy. apply H. by right.
Qed.

(** The rules for programs whose results do not matter to the invariant. *)
Lemma prog_ok_seq {A B} (p : prog S A) (f : A → prog S B) :
  prog_ok I p (λ _, True) → (∀ a, prog_ok I (f a) (λ _, True)) → prog_ok I (p ≫= f) (λ _, True).
Proof. intros Hp Hf. eapply prog_ok_bind; [exact Hp|auto]. Qed.

(** A program that runs alone keeps the invariant. *)
Lemma prog_ok_run {A} (p : prog S A) Q s :
  prog_ok I p Q → I s → I (run p s).2 ∧ Q (run p s).1.
Proof.
  revert s. induction p as [a|R m k IH]; intros s; simpl; [done|].
  intros (P & Hm & Hk) Hs. destruct (Hm s Hs) as [HI HP].
  destruct (m s) as [r s']. by apply IH; [apply Hk|].
Qed.

(** The rule that makes the model's interleavings tractable. *)
Theorem interleaving_invariant (allowed : prog S unit → Prop) (env : S → S → Prop) s0 c :
  I s0 →
  (∀ p, allowed p → prog_ok I p (λ _, True)) →
  (∀ s s', env s s' → I s → I s') →
  reachable allowed env s0 c → I c.1.
Proof.
  intros H0 Hallowed Henv Hreach.
  cut (I c.1 ∧ ∀ p, p ∈ c.2 → prog_ok I p (λ _, True)); [tauto|].
  unfold reachable in Hreach.
  remember (s0, @nil (prog S unit)) as c0 eqn:Hc0.
  assert (I c0.1 ∧ ∀ p, p ∈ c0.2 → prog_ok I p (λ _, True)) as Hinit.
  { subst. split; [done|]. intros p Hp. by apply elem_of_nil in Hp. }
  clear Hc0 H0. induction Hreach as [|c1 c2 c3 Hstep _ IH]; [done|].
  apply IH. clear IH. destruct Hinit as [HI HT].
  destruct Hstep as [R m k s T1 T2|p s T Hp|s s' T He|p s T1 T2]; simpl in *.
  - destruct (HT (Step m k)) as (P & Hm & Hk); [set_solver|].
    destruct (Hm s HI) as [HI' HP]. split; [done|].
    intros p [Hp|[->|Hp]%elem_of_cons]%elem_of_app; [|by apply Hk|]; apply HT; set_solver.
  - split; [done|]. intros q [->|Hq]%elem_of_cons; auto.
  - split; [by eapply Henv|done].
  - split; [done|]. intros q Hq. apply HT. set_solver.
Qed.
End prog_rules.

(** ** Configurations up to the order of their goroutines

    [reaches] is what a program with its own structure of goroutines is shown to
    refine: the multiset of its goroutines is one the interleaving can have. *)
Section multiset.
Context {S : Type}.
Variable allowed : prog S unit → Prop.
Variable env : S → S → Prop.
Variable s0 : S.

Definition reaches (s : S) (l : list (prog S unit)) : Prop :=
  ∃ T, T ≡ₚ l ∧ reachable allowed env s0 (s, T).

#[export] Instance reaches_proper : Proper ((=) ==> (≡ₚ) ==> iff) reaches.
Proof. intros s _ <- l l' Hl. split; intros (T & HT & H); exists T; (split; [|done]); [by rewrite HT|by rewrite HT, Hl]. Qed.

Lemma reaches_init : reaches s0 [].
Proof. exists []. split; [done|apply rtc_refl]. Qed.

Lemma reaches_step s T s' T' : reachable allowed env s0 (s, T) → sys_step allowed env (s, T) (s', T') → reaches s' T'.
Proof. intros H Hs. exists T'. split; [done|]. by eapply rtc_r. Qed.

Lemma reaches_spawn s p l : allowed p → reaches s l → reaches s (p :: l).
Proof. intros Hp (T & <- & H). eapply reaches_step; [exact H|by apply step_spawn]. Qed.

Lemma reaches_env s s' l : env s s' → reaches s l → reaches s' l.
Proof. intros He (T & <- & H). eapply reaches_step; [exact H|by apply step_env]. Qed.

Lemma reaches_split s p l :
  reaches s (p :: l) → ∃ T1 T2, reachable allowed env s0 (s, T1 ++ p :: T2) ∧ T1 ++ T2 ≡ₚ l.
Proof.
  intros (T & HT & H). assert (p ∈ T) as (T1 & T2 & ->)%list_elem_of_split by (rewrite HT; left).
  exists T1, T2. split; [done|]. apply (Permutation_cons_inv (a:=p)). by rewrite <-HT, Permutation_middle.
Qed.

Lemma reaches_atom {R} s (m : M S R) k l : reaches s (Step m k :: l) → reaches (m s).2 (k (m s).1 :: l).
Proof.
  intros (T1 & T2 & H & <-)%reaches_split. rewrite Permutation_middle.
  eapply reaches_step; [exact H|apply step_atom].
Qed.

Lemma reaches_end s p l : reaches s (p :: l) → reaches s l.
Proof. intros (T1 & T2 & H & <-)%reaches_split. eapply reaches_step; [exact H|apply step_kill]. Qed.

(** A goroutine that is started and at once makes its first step. *)
Lemma reaches_spawn_atom {R} s (m : M S R) k l :
  allowed (Step m k) → reaches s l → reaches (m s).2 (k (m s).1 :: l).
Proof. intros. by apply reaches_atom, reaches_spawn. Qed.

Lemma reaches_drop s l l' : reaches s (l ++ l') → reaches s l'.
Proof. intros H. induction l as [|p l IH]; [done|]. by apply IH, (reaches_end _ p). Qed.

Lemma reaches_invariant I s l :
  I s0 → (∀ p, allowed p → prog_ok I p (λ _, True)) → (∀ s s', env s s' → I s → I s') → reaches s l → I s.
Proof. intros H0 Ha He (T & _ & H). by apply (interleaving_invariant I allowed env s0 (s, T)). Qed.
End multiset.

#[export] Hint Resolve preserves_ret prog_ok_ret : byot.

(** Walks through a program: binds, branches and loops; the calls' own
    preservation lemmas come from [byot]. *)
Ltac prog_walk :=
  repeat match goal with
  | |- ∀ _, _ => intro
  | |- prog_ok _ (mret _) _ => exact I
  | |- prog_ok _ (call _) _ => apply prog_ok_call; solve [eauto 3 with byot]
  | |- prog_ok _ (for_each _ _) _ => apply prog_ok_for_each
  | |- prog_ok _ (match ?x with _ => _ end) _ => destruct x eqn:?
  | |- prog_ok _ _ _ => solve [eauto 3 with byot]
  | |- prog_ok _ (_ ≫= _) _ => apply prog_ok_seq
  | |- prog_ok _ ?p _ => progress cbv zeta
  end.
