(* ===== verification/GoStrings.v ===== *)
(** * Go strings

    A Go string is a sequence of bytes, here a [string] of 8-bit [ascii]s.
    The functions below are the ones the source takes from the packages
    [strings], [strconv], [encoding/base64] and [net/url]. *)

From S2P Require Import Prelude.

(** ** Slicing *)
Fixpoint str_drop (n : nat) (s : string) : string :=
  match n, s with
  | O, _ => s
  | S n, String _ s => str_drop n s
  | S _, EmptyString => ""
  end.

Fixpoint str_take (n : nat) (s : string) : string :=
  match n, s with
  | S n, String c s => String c (str_take n s)
  | _, _ => ""
  end.

Definition len (s : string) : Z := Z.of_nat (String.length s).

(** ** Package [strings] *)
Fixpoint HasPrefix (s p : string) {struct p} : bool :=
  match p, s with
  | EmptyString, _ => true
  | String a p, String b s => bool_decide (a = b) && HasPrefix s p
  | String _ _, EmptyString => false
  end.

Definition HasSuffix (s p : string) : bool :=
  bool_decide (String.length p ≤ String.length s) &&
  bool_decide (str_drop (String.length s - String.length p) s = p).

Definition TrimPrefix (s p : string) : string :=
  if HasPrefix s p then str_drop (String.length p) s else s.

Definition TrimSuffix (s p : string) : string :=
  if HasSuffix s p then str_take (String.length s - String.length p) s else s.

Fixpoint Contains (s sub : string) : bool :=
  HasPrefix s sub ||
  match s with EmptyString => false | String _ s => Contains s sub end.

(** [strings.Index(s, sub)], [None] for -1. *)
Fixpoint Index (s sub : string) : option nat :=
  if HasPrefix s sub then Some 0
  else match s with EmptyString => None | String _ s => S <$> Index s sub end.

(** [strings.ReplaceAll] for a non-empty [old] (every caller passes one):
    left to right, non-overlapping.  [skip] counts the bytes of a match that
    are still to be passed over. *)
Fixpoint replace_go (skip : nat) (s old new : string) : string :=
  match s with
  | EmptyString => ""
  | String c s' =>
      match skip with
      | S k => replace_go k s' old new
      | O =>
          if HasPrefix s old
          then new +:+ replace_go (String.length old - 1) s' old new
          else String c (replace_go 0 s' old new)
      end
  end.
Definition ReplaceAll (s old new : string) : string := replace_go 0 s old new.

(** [strings.Trim(s, cut)] for a one-byte cutset, and its halves. *)
Fixpoint TrimLeftByte (c : ascii) (s : string) : string :=
  match s with
  | String d s' => if decide (c = d) then TrimLeftByte c s' else s
  | EmptyString => ""
  end.
Fixpoint TrimRightByte (c : ascii) (s : string) : string :=
  match s with
  | String d s' =>
      match TrimRightByte c s' with
      | EmptyString => if decide (c = d) then "" else String d ""
      | t => String d t
      end
  | EmptyString => ""
  end.
Definition TrimByte (c : ascii) (s : string) : string :=
  TrimRightByte c (TrimLeftByte c s).

(** The UTF-8 encodings of the characters [unicode.IsSpace] accepts. *)
Definition byte (n : nat) : ascii := ascii_of_nat n.
Definition spaces : list string :=
  (λ l, String.string_of_list_ascii (byte <$> l)) <$>
  [[9]; [10]; [11]; [12]; [13]; [32]; [194; 133]; [194; 160]; [225; 154; 128];
   [226; 128; 128]; [226; 128; 129]; [226; 128; 130]; [226; 128; 131];
   [226; 128; 132]; [226; 128; 133]; [226; 128; 134]; [226; 128; 135];
   [226; 128; 136]; [226; 128; 137]; [226; 128; 138]; [226; 128; 168];
   [226; 128; 169]; [226; 128; 175]; [226; 129; 159]; [227; 128; 128]].

(** [strings.TrimSpace]: at most [length s] characters go on either side. *)
Fixpoint trim_left_go (fuel : nat) (s : string) : string :=
  match fuel with
  | O => s
  | S fuel =>
      match filter (λ sp, HasPrefix s sp = true) spaces with
      | sp :: _ => trim_left_go fuel (TrimPrefix s sp)
      | [] => s
      end
  end.
Fixpoint trim_right_go (fuel : nat) (s : string) : string :=
  match fuel with
  | O => s
  | S fuel =>
      match filter (λ sp, HasSuffix s sp = true) spaces with
      | sp :: _ => trim_right_go fuel (TrimSuffix s sp)
      | [] => s
      end
  end.
Definition TrimSpace (s : string) : string :=
  let s := trim_left_go (String.length s) s in
  trim_right_go (String.length s) s.

(** [strings.Split(s, sep)] for a one-byte separator. *)
Fixpoint SplitByte (c : ascii) (s : string) : list string :=
  match s with
  | EmptyString => [""]
  | String d s' =>
      if decide (c = d) then "" :: SplitByte c s'
      else match SplitByte c s' with
           | w :: ws => String d w :: ws
           | [] => [String d ""]
           end
  end.

Definition Join (l : list string) (sep : string) : string := String.concat sep l.

(** Case mapping.  The source applies [ToUpper] to names it has already
    checked to be ASCII, and compares the result of [ToLower] and [EqualFold]
    with ASCII literals, so the letters outside ASCII only matter when they map
    to ASCII: for [ToLower] that is U+0130, to i, and U+212A, to k. *)
Definition upper_byte (c : ascii) : ascii :=
  let n := nat_of_ascii c in
  if decide (97 ≤ n ∧ n ≤ 122) then ascii_of_nat (n - 32) else c.
Definition lower_byte (c : ascii) : ascii :=
  let n := nat_of_ascii c in
  if decide (65 ≤ n ∧ n ≤ 90) then ascii_of_nat (n + 32) else c.
Fixpoint str_map (f : ascii → ascii) (s : string) : string :=
  match s with
  | EmptyString => ""
  | String c s => String (f c) (str_map f s)
  end.
Definition ToUpper : string → string := str_map upper_byte.
Definition AsciiLower : string → string := str_map lower_byte.
Definition ToLower (s : string) : string :=
  AsciiLower (ReplaceAll (ReplaceAll s "İ" "i") "K" "k").

(** ** Package [strconv] *)
Definition Itoa (z : Z) : string := pretty z.

(** ** Package [encoding/base64]: [base64.StdEncoding] *)
Definition b64_char (n : N) : ascii :=
  (if n <? 26 then ascii_of_N (n + 65)
   else if n <? 52 then ascii_of_N (n + 71)
   else if n <? 62 then ascii_of_N (n - 4)
   else if n =? 62 then "+" else "/")%N%char.

Definition b64_val (c : ascii) : option N :=
  let n := N_of_ascii c in
  (if (65 <=? n) && (n <=? 90) then Some (n - 65)
   else if (97 <=? n) && (n <=? 122) then Some (n - 71)
   else if (48 <=? n) && (n <=? 57) then Some (n + 4)
   else if n =? 43 then Some 62
   else if n =? 47 then Some 63 else None)%N.

Definition b64_digits (v : N) : N * N * N * N :=
  (v / 262144, (v / 4096) mod 64, (v / 64) mod 64, v mod 64)%N.

(** [EncodeToString]: three bytes give four characters, padded with [=]. *)
Fixpoint b64_encode (s : string) : string :=
  match s with
  | String a (String b (String c s')) =>
      let '(d1, d2, d3, d4) :=
        b64_digits (N_of_ascii a * 65536 + N_of_ascii b * 256 + N_of_ascii c) in
      String (b64_char d1) (String (b64_char d2)
        (String (b64_char d3) (String (b64_char d4) (b64_encode s'))))
  | String a (String b EmptyString) =>
      let '(d1, d2, d3, _) := b64_digits (N_of_ascii a * 65536 + N_of_ascii b * 256) in
      String (b64_char d1) (String (b64_char d2) (String (b64_char d3) "="))
  | String a EmptyString =>
      let '(d1, d2, _, _) := b64_digits (N_of_ascii a * 65536) in
      String (b64_char d1) (String (b64_char d2) "==")
  | EmptyString => ""
  end.

(** [DecodeString] skips line breaks, and ignores the unused low bits of the
    last group ([StdEncoding] is not strict). *)
Fixpoint drop_newlines (s : string) : string :=
  match s with
  | EmptyString => ""
  | String c s =>
      if bool_decide (c = "010"%char) || bool_decide (c = "013"%char)
      then drop_newlines s else String c (drop_newlines s)
  end.

Fixpoint b64_decode_go (s : string) : option string :=
  match s with
  | EmptyString => Some ""
  | String w (String x (String y (String z s'))) =>
      d1 ← b64_val w; d2 ← b64_val x;
      if bool_decide (y = "="%char)
      then if bool_decide (z = "="%char) && bool_decide (s' = "")
           then Some (String (ascii_of_N (d1 * 4 + d2 / 16)) "") else None
      else d3 ← b64_val y;
      let v3 := (d1 * 4096 + d2 * 64 + d3)%N in
      if bool_decide (z = "="%char)
      then if bool_decide (s' = "")
           then Some (String (ascii_of_N (v3 / 1024))
                        (String (ascii_of_N (v3 / 4 mod 256)) ""))
           else None
      else d4 ← b64_val z;
      let v := (v3 * 64 + d4)%N in
      t ← b64_decode_go s';
      Some (String (ascii_of_N (v / 65536))
             (String (ascii_of_N (v / 256 mod 256))
               (String (ascii_of_N (v mod 256)) t)))
  | _ => None
  end%N.
Definition b64_decode (s : string) : option string := b64_decode_go (drop_newlines s).

(** ** Package [net/url]: [url.QueryEscape] *)
Definition hex_digit (n : nat) : ascii :=
  if decide (n < 10) then ascii_of_nat (n + 48) else ascii_of_nat (n + 55).
Definition unreserved (c : ascii) : bool :=
  let n := nat_of_ascii c in
  bool_decide (48 ≤ n ∧ n ≤ 57) || bool_decide (65 ≤ n ∧ n ≤ 90) ||
  bool_decide (97 ≤ n ∧ n ≤ 122) || bool_decide (c ∈ ["-"; "_"; "."; "~"]%char).
Fixpoint QueryEscape (s : string) : string :=
  match s with
  | EmptyString => ""
  | String c s =>
      if bool_decide (c = " "%char) then String "+" (QueryEscape s)
      else if unreserved c then String c (QueryEscape s)
      else String "%" (String (hex_digit (nat_of_ascii c / 16))
             (String (hex_digit (nat_of_ascii c mod 16)) (QueryEscape s)))
  end.

(** [url.PathEscape]: a path segment may also hold some punctuation. *)
Fixpoint PathEscape (s : string) : string :=
  match s with
  | EmptyString => ""
  | String c s =>
      if unreserved c || bool_decide (c ∈ ["$"; "&"; "+"; "="; ":"; "@"]%char) then String c (PathEscape s)
      else String "%" (String (hex_digit (nat_of_ascii c / 16))
             (String (hex_digit (nat_of_ascii c mod 16)) (PathEscape s)))
  end.

(** [url.PathUnescape]; an escape that is not two digits, an error there, is
    kept as it is. *)
Definition unhex (c : ascii) : option nat :=
  let n := nat_of_ascii c in
  if decide (48 ≤ n ∧ n ≤ 57) then Some (n - 48)
  else if decide (97 ≤ n ∧ n ≤ 102) then Some (n - 87)
  else if decide (65 ≤ n ∧ n ≤ 70) then Some (n - 55)
  else None.
Fixpoint PathUnescape (s : string) : string :=
  match s with
  | String c s1 =>
      match s1 with
      | String a (String b s2) =>
          match unhex a, unhex b with
          | Some x, Some y =>
              if decide (c = "%"%char) then String (ascii_of_nat (16 * x + y)) (PathUnescape s2)
              else String c (PathUnescape s1)
          | _, _ => String c (PathUnescape s1)
          end
      | _ => String c (PathUnescape s1)
      end
  | EmptyString => ""
  end.

(** [URL.String] of a URL that has only a path, which starts with one slash. *)
Fixpoint escape_path (s : string) : string :=
  match s with
  | EmptyString => ""
  | String c s =>
      if unreserved c || bool_decide (c ∈ ["$"; "&"; "+"; ","; "/"; ":"; ";"; "="; "@"]%char)
      then String c (escape_path s)
      else String "%" (String (hex_digit (nat_of_ascii c / 16))
             (String (hex_digit (nat_of_ascii c mod 16)) (escape_path s)))
  end.

(** ** Package [fmt] *)

(** [%q] of a string of printable characters. *)
Definition quote : string := String "034" "".
Fixpoint escape (s : string) : string :=
  match s with
  | "" => ""
  | String c s =>
      if decide (c = "034"%char ∨ c = "\"%char) then String "\" (String c (escape s))
      else String c (escape s)
  end.
Definition Quote (s : string) : string := quote +:+ escape s +:+ quote.

Example base64_example : b64_encode "abc123" = "YWJjMTIz".
Proof. reflexivity. Qed.
Example unescape_example : PathUnescape "/a%2Fb%3a%4" = "/a/b:%4" ∧ escape_path "/a b/%2F" = "/a%20b/%252F".
Proof. split; reflexivity. Qed.
Example base64_padding : b64_encode "hi" = "aGk=" ∧ b64_decode "aGk=" = Some "hi".
Proof. split; reflexivity. Qed.
Example replace_example : ReplaceAll "a./binaryb./binary" "./binary" "./artifact" = "a./artifactb./artifact".
Proof. reflexivity. Qed.
Example trim_example : TrimSpace "  a b
 " = "a b" ∧ TrimByte "/" "//x/y/" = "x/y" ∧ SplitByte "/" "a//b" = ["a"; ""; "b"].
Proof. repeat split; vm_compute; reflexivity. Qed.
Example path_escape_example : PathEscape "a b/c:@" = "a%20b%2Fc:@" ∧ Quote "x" = quote +:+ "x" +:+ quote.
Proof. split; reflexivity. Qed.
Example escape_example : QueryEscape "a b&c=1" = "a+b%26c%3D1".
Proof. reflexivity. Qed.

(** ** Lemmas on slicing and searching *)

Lemma app_cons c (s t : string) : String c s +:+ t = String c (s +:+ t).
Proof. done. Qed.
Lemma app_nil (t : string) : "" +:+ t = t.
Proof. done. Qed.
Create Rewrite HintDb gostr.
#[export] Hint Rewrite app_cons app_nil : gostr.

Lemma str_app_nil_r s : s +:+ "" = s.
Proof. induction s; rewrite ?app_cons; by f_equal. Qed.
Lemma str_app_assoc s t u : (s +:+ t) +:+ u = s +:+ t +:+ u.
Proof. induction s; rewrite ?app_cons; by f_equal. Qed.
Lemma str_length_app s t : String.length (s +:+ t) = String.length s + String.length t.
Proof. induction s; rewrite ?app_cons; simpl; by f_equal. Qed.
#[export] Hint Rewrite str_app_nil_r str_app_assoc str_length_app : gostr.

Lemma str_app_eq_nil s t : s +:+ t = "" → s = "" ∧ t = "".
Proof. by destruct s. Qed.

Lemma str_drop_app p t : str_drop (String.length p) (p +:+ t) = t.
Proof. induction p; [by destruct t|]. done. Qed.
Lemma str_take_app p t : str_take (String.length p) (p +:+ t) = p.
Proof. induction p; rewrite ?app_cons; simpl; [done|by f_equal]. Qed.
Lemma str_take_drop n s : str_take n s +:+ str_drop n s = s.
Proof.
  revert s. induction n as [|n IH]; intros [|c s]; simpl; try done.
  rewrite app_cons. by f_equal.
Qed.
Lemma str_length_drop n s : String.length (str_drop n s) = String.length s - n.
Proof. revert s. induction n as [|n IH]; intros [|c s]; simpl; auto; lia. Qed.
Lemma str_length_take n s : String.length (str_take n s) = n `min` String.length s.
Proof. revert s. induction n as [|n IH]; intros [|c s]; simpl; auto. Qed.

Lemma HasPrefix_true s p : HasPrefix s p = true ↔ ∃ t, s = p +:+ t.
Proof.
  revert s. induction p as [|a p IH]; intros s; simpl.
  { split; [intros _; by exists s|by destruct s]. }
  destruct s as [|b s]; simpl; [split; [done|by intros []]|].
  rewrite andb_true_iff, bool_decide_eq_true, IH. split.
  - intros [-> [t ->]]. by exists t.
  - intros [t [= -> ->]]. eauto.
Qed.
Lemma HasPrefix_app p t : HasPrefix (p +:+ t) p = true.
Proof. apply HasPrefix_true. by exists t. Qed.
Lemma HasPrefix_refl s : HasPrefix s s = true.
Proof. apply HasPrefix_true. exists "". by rewrite str_app_nil_r. Qed.
Lemma HasPrefix_nil_r s : HasPrefix s "" = true.
Proof. by destruct s. Qed.
Lemma HasPrefix_trans s p q : HasPrefix s p = true → HasPrefix p q = true → HasPrefix s q = true.
Proof.
  intros [t ->]%HasPrefix_true [u ->]%HasPrefix_true. apply HasPrefix_true.
  exists (u +:+ t). by rewrite str_app_assoc.
Qed.
#[export] Hint Resolve HasPrefix_app HasPrefix_refl HasPrefix_nil_r : byot.

Lemma TrimPrefix_app p t : TrimPrefix (p +:+ t) p = t.
Proof. unfold TrimPrefix. by rewrite HasPrefix_app, str_drop_app. Qed.

Lemma HasSuffix_true s p : HasSuffix s p = true ↔ ∃ t, s = t +:+ p.
Proof.
  unfold HasSuffix. rewrite andb_true_iff, !bool_decide_eq_true. split.
  - intros [Hlen Hd]. exists (str_take (String.length s - String.length p) s).
    rewrite <-Hd at 2. by rewrite str_take_drop.
  - intros [t ->]. rewrite str_length_app. split; [lia|].
    replace (String.length t + String.length p - String.length p) with (String.length t) by lia.
    apply str_drop_app.
Qed.

Lemma Contains_true s sub : Contains s sub = true ↔ ∃ a b, s = a +:+ sub +:+ b.
Proof.
  induction s as [|c s IH]; simpl; rewrite orb_true_iff.
  - rewrite HasPrefix_true. split.
    + intros [[t Ht]|]; [|done]. exists "", t. by rewrite app_nil.
    + intros (a & b & Hs). symmetry in Hs. apply str_app_eq_nil in Hs as [-> Hs].
      left. by exists b.
  - rewrite IH, HasPrefix_true. split.
    + intros [[t ->]|(a & b & ->)]; [by exists "", t|by exists (String c a), b].
    + intros ([|d a] & b & Hs); [left; by exists b|right].
      rewrite app_cons in Hs. simplify_eq. by exists a, b.
Qed.
Lemma Contains_nil_l sub : Contains "" sub = true → sub = "".
Proof. by destruct sub. Qed.
Lemma Contains_cons_false c s sub :
  Contains (String c s) sub = false ↔
  HasPrefix (String c s) sub = false ∧ Contains s sub = false.
Proof. simpl. by rewrite orb_false_iff. Qed.

(** ** Base64 round trip *)

Lemma b64_val_char n : (n < 64)%N → b64_val (b64_char n) = Some n.
Proof.
  intros Hn.
  assert (Forall (λ k, b64_val (b64_char (N.of_nat k)) = Some (N.of_nat k)) (seq 0 64)) as Hall.
  { repeat constructor. }
  rewrite Forall_forall in Hall. specialize (Hall (N.to_nat n)).
  rewrite N2Nat.id in Hall. apply Hall. apply elem_of_seq. lia.
Qed.

Lemma b64_char_not_pad n : (n < 64)%N → b64_char n ≠ "="%char ∧ b64_char n ≠ "010"%char ∧ b64_char n ≠ "013"%char.
Proof.
  intros Hn. pose proof (b64_val_char n Hn) as H.
  repeat split; intros Heq; rewrite Heq in H; vm_compute in H; congruence.
Qed.

Lemma N_of_ascii_bound c : (N_of_ascii c < 256)%N.
Proof. apply N_ascii_bounded. Qed.

Lemma b64_digits_bound v d1 d2 d3 d4 :
  (v < 16777216)%N → b64_digits v = (d1, d2, d3, d4) →
  (d1 < 64 ∧ d2 < 64 ∧ d3 < 64 ∧ d4 < 64)%N ∧
  v = (d1 * 262144 + d2 * 4096 + d3 * 64 + d4)%N.
Proof.
  unfold b64_digits. intros Hv [= <- <- <- <-].
  assert (v / 64 / 64 = v / 4096)%N as H1 by (by rewrite N.Div0.div_div).
  assert (v / 4096 / 64 = v / 262144)%N as H2 by (by rewrite N.Div0.div_div).
  pose proof (N.div_mod v 64 ltac:(done)). pose proof (N.div_mod (v / 64) 64 ltac:(done)).
  pose proof (N.div_mod (v / 4096) 64 ltac:(done)).
  pose proof (N.mod_lt v 64 ltac:(done)). pose proof (N.mod_lt (v / 64) 64 ltac:(done)).
  pose proof (N.mod_lt (v / 4096) 64 ltac:(done)).
  assert (v / 262144 < 64)%N by (apply N.Div0.div_lt_upper_bound; lia).
  lia.
Qed.

(** Base64 works on groups of three bytes. *)
Lemma string_ind3 (P : string → Prop) :
  P "" → (∀ a, P (String a "")) → (∀ a b, P (String a (String b ""))) →
  (∀ a b c s, P s → P (String a (String b (String c s)))) → ∀ s, P s.
Proof.
  intros H0 H1 H2 H3 s. remember (String.length s) as n eqn:Hn. revert s Hn.
  induction (lt_wf n) as [n _ IH]. intros [|a [|b [|c s]]] ->; auto.
  apply H3. apply (IH (String.length s)); simpl; lia.
Qed.

Lemma drop_newlines_char n s :
  (n < 64)%N → drop_newlines (String (b64_char n) s) = String (b64_char n) (drop_newlines s).
Proof.
  intros Hn. destruct (b64_char_not_pad n Hn) as (_ & H10 & H13).
  cbn [drop_newlines]. by rewrite !bool_decide_eq_false_2.
Qed.

Lemma byte_group_bound a b c :
  (N_of_ascii a * 65536 + N_of_ascii b * 256 + N_of_ascii c < 16777216)%N.
Proof.
  pose proof (N_of_ascii_bound a). pose proof (N_of_ascii_bound b).
  pose proof (N_of_ascii_bound c). lia.
Qed.

Lemma N_div_small_add x y k : (x < k)%N → ((y * k + x) / k = y)%N.
Proof. intros. rewrite N.div_add_l by lia. rewrite N.div_small by done. lia. Qed.
Lemma N_mod_small_add x y k : (x < k)%N → ((y * k + x) mod k = x)%N.
Proof. intros. rewrite N.add_comm, N.Div0.mod_add. by apply N.mod_small. Qed.

Lemma b64_group a b c :
  let v := (N_of_ascii a * 65536 + N_of_ascii b * 256 + N_of_ascii c)%N in
  ascii_of_N (v / 65536) = a ∧ ascii_of_N (v / 256 mod 256) = b ∧ ascii_of_N (v mod 256) = c.
Proof.
  intros v. unfold v. clear v.
  pose proof (N_of_ascii_bound a). pose proof (N_of_ascii_bound b).
  pose proof (N_of_ascii_bound c).
  assert (∀ x y z, (x < 256)%N → (y < 256)%N → (z < 256)%N →
    ((x * 65536 + y * 256 + z) / 65536 = x ∧ (x * 65536 + y * 256 + z) / 256 mod 256 = y
     ∧ (x * 65536 + y * 256 + z) mod 256 = z)%N) as Hg.
  { intros x y z Hx Hy Hz. split; [|split].
    - rewrite <-N.add_assoc. apply N_div_small_add. lia.
    - replace (x * 65536 + y * 256 + z)%N with ((x * 256 + y) * 256 + z)%N by lia.
      rewrite N_div_small_add by done. by apply N_mod_small_add.
    - replace (x * 65536 + y * 256 + z)%N with ((x * 256 + y) * 256 + z)%N by lia.
      by apply N_mod_small_add. }
  destruct (Hg (N_of_ascii a) (N_of_ascii b) (N_of_ascii c)) as (-> & -> & ->); [done..|].
  by rewrite !ascii_N_embedding.
Qed.

Lemma drop_newlines_encode s : drop_newlines (b64_encode s) = b64_encode s.
Proof.
  induction s as [|a|a b|a b c s IH] using string_ind3; [done|..]; cbn [b64_encode].
  - destruct (b64_digits _) as [[[d1 d2] d3] d4] eqn:E.
    pose proof (N_of_ascii_bound a).
    apply b64_digits_bound in E as [(? & ? & ? & ?) _]; [|lia].
    by rewrite !drop_newlines_char by done.
  - destruct (b64_digits _) as [[[d1 d2] d3] d4] eqn:E.
    pose proof (N_of_ascii_bound a). pose proof (N_of_ascii_bound b).
    apply b64_digits_bound in E as [(? & ? & ? & ?) _]; [|lia].
    by rewrite !drop_newlines_char by done.
  - destruct (b64_digits _) as [[[d1 d2] d3] d4] eqn:E.
    apply b64_digits_bound in E as [(? & ? & ? & ?) _]; [|apply byte_group_bound].
    rewrite !drop_newlines_char by done. by rewrite IH.
Qed.

Lemma b64_decode_go_encode s : b64_decode_go (b64_encode s) = Some s.
Proof.
  induction s as [|a|a b|a b c s IH] using string_ind3; [done|..]; cbn [b64_encode].
  - destruct (b64_digits _) as [[[d1 d2] d3] d4] eqn:E.
    destruct (b64_group a Ascii.zero Ascii.zero) as (Ha & _ & _). pose proof (N_of_ascii_bound a).
    change (N_of_ascii Ascii.zero) with 0%N in Ha.
    apply b64_digits_bound in E as [(? & ? & ? & ?) E]; [|lia].
    cbn. rewrite !b64_val_char by done. simpl. rewrite <-Ha at 1. do 3 f_equal.
    replace (N_of_ascii a * 65536 + 0 * 256 + 0)%N with (N_of_ascii a * 65536)%N by lia.
    rewrite E. pose proof (N.div_mod d2 16 ltac:(done)). pose proof (N.mod_lt d2 16 ltac:(done)).
    apply N.div_unique with (r := ((d2 mod 16) * 4096 + d3 * 64 + d4)%N); lia.
  - destruct (b64_digits _) as [[[d1 d2] d3] d4] eqn:E.
    destruct (b64_group a b Ascii.zero) as (Ha & Hb & _).
    pose proof (N_of_ascii_bound a). pose proof (N_of_ascii_bound b).
    change (N_of_ascii Ascii.zero) with 0%N in Ha, Hb.
    apply b64_digits_bound in E as [(? & ? & ? & ?) E]; [|lia].
    cbn. rewrite !b64_val_char by done. simpl. rewrite ?b64_val_char by done.
    rewrite (bool_decide_eq_false_2 (b64_char d3 = _)) by by apply b64_char_not_pad.
    simpl. replace (N_of_ascii a * 65536 + N_of_ascii b * 256 + 0)%N
      with (N_of_ascii a * 65536 + N_of_ascii b * 256)%N in * by lia.
    assert (d4 = 0 ∧ (d1 * 4096 + d2 * 64 + d3) = 4 * (N_of_ascii a * 256 + N_of_ascii b))%N as [-> E'].
    { lia. }
    rewrite E'. f_equal. f_equal; [etrans; [|exact Ha]|f_equal; etrans; [|exact Hb]]; f_equal;
      zify; Z.to_euclidean_division_equations; lia.
  - destruct (b64_digits _) as [[[d1 d2] d3] d4] eqn:E.
    apply b64_digits_bound in E as [(? & ? & ? & ?) E]; [|apply byte_group_bound].
    destruct (b64_group a b c) as (Ha & Hb & Hc).
    cbn. rewrite !b64_val_char by done. simpl. rewrite ?b64_val_char by done.
    rewrite !(bool_decide_eq_false_2 (b64_char _ = _)) by by apply b64_char_not_pad.
    rewrite IH. simpl.
    replace ((d1 * 4096 + d2 * 64 + d3) * 64 + d4)%N
      with (N_of_ascii a * 65536 + N_of_ascii b * 256 + N_of_ascii c)%N by lia.
    by rewrite Ha, Hb, Hc.
Qed.

Lemma b64_decode_encode s : b64_decode (b64_encode s) = Some s.
Proof. unfold b64_decode. by rewrite drop_newlines_encode, b64_decode_go_encode. Qed.
