(* ===== verification/Model.v ===== *)
(** * Package model (src/model/model.go)

    The structs the packages exchange, one Module per struct, with the fields'
    Go names.  [*T] fields are [option]s; times are [Z] nanoseconds since the
    Unix epoch; a [float64] is a [spec_float], the binary64 values of the
    standard library, NaN included.  [MaskKey] and [MaskWebhook] are the
    functions behind [Test.MarshalJSON]. *)

From Stdlib Require Export SpecFloat.
From S2P Require Import Prelude.
From S2P Require Import GoStrings.

#[export] Instance spec_float_eq_dec : EqDecision spec_float.
Proof. solve_decision. Defined.

(** [x < y] on [float64]; false as soon as one of them is NaN. *)
Definition flt (x y : spec_float) : bool := SFltb x y.
Definition f0 : spec_float := S754_zero false.

Module Test.
Record t := mk {
  UUID : string;
  Name : string;
  OriginalFilename : string;
  Runtime : string;
  Command : string;
  ArtifactKey : string;
  TimeoutSeconds : Z;
  ScheduleCron : string;
  ScheduleEnabled : bool;
  NextRunAt : option Z;
  WebhookURL : string;
  PagerDutyKey : string;
  FailureThreshold : Z;
  ConsecutiveFailures : Z;
  AlertActive : bool;
  AlertsEnabled : bool;
  CreatedAt : Z;
  DockerMemoryMB : option Z;
  DockerCPUs : option spec_float;
  DockerNetworkEnabled : option bool
}.
End Test.

Module RunOutcomeAlert.
Record t := mk {
  SendFailure : bool;
  SendRecovery : bool;
  WebhookURL : string;
  PagerDutyKey : string;
  TestName : string;
  Consecutive : Z;
  Threshold : Z
}.
End RunOutcomeAlert.

Module Screenshot.
Record t := mk {
  UUID : string;
  RunID : string;
  Filename : string;
  StorageKey : string;
  CreatedAt : Z
}.
End Screenshot.

Module TestRun.
Record t := mk {
  UUID : string;
  TestID : string;
  Status : string;
  DurationMs : Z;
  StartedAt : Z;
  FinishedAt : Z;
  LogURL : string;
  LogSizeBytes : Z
}.
End TestRun.

Module LastRunSummary.
Record t := mk {
  Status : string;
  StartedAt : Z;
  DurationMs : Z
}.
End LastRunSummary.

Module TestListItem.
Record t := mk {
  Test : Test.t;
  LastRun : option LastRunSummary.t;
  ActiveJob : bool
}.
End TestListItem.

Module Job.
Record t := mk {
  UUID : string;
  TestID : string;
  Status : string;
  Trigger : string;
  QueuedAt : Z;
  StartedAt : option Z;
  FinishedAt : option Z;
  WorkerID : option string;
  ErrorMessage : option string
}.
End Job.

Module EnvVar.
Record t := mk {
  Name : string;
  Value : string;
  IsSecret : bool;
  UpdatedAt : Z
}.
End EnvVar.

(** The character U+2026, three bytes of UTF-8. *)
Definition ellipsis : string := "…".

(** [s[len(s)-4:]] *)
Definition last4 (s : string) : string := str_drop (String.length s - 4) s.

Definition MaskKey (raw : string) : string :=
  if decide (raw = "") then ""
  else if (len raw <=? 4)%Z then ellipsis
  else ellipsis +:+ last4 raw.

Section masking.
(** [url.Parse] of the Go library, with the two fields the code reads: the
    URL's scheme and host, [None] for an error. *)
Variable url_Parse : string → option (string * string).

Definition MaskWebhook (raw : string) : string :=
  if decide (raw = "") then ""
  else
    let tail := if (4 <? len raw)%Z then last4 raw else raw in
    match url_Parse raw with
    | Some (Scheme, Host) =>
        if decide (Host = "") then ellipsis +:+ tail
        else Scheme +:+ "://" +:+ Host +:+ "/" +:+ ellipsis +:+ tail
    | None => ellipsis +:+ tail
    end.

(** [Test.MarshalJSON] encodes the test with its two credentials masked; the
    tag of [ArtifactKey] leaves that field out. *)
Definition MarshalJSON (t : Test.t) : Test.t :=
  {| Test.UUID := t.(Test.UUID);
     Test.Name := t.(Test.Name);
     Test.OriginalFilename := t.(Test.OriginalFilename);
     Test.Runtime := t.(Test.Runtime);
     Test.Command := t.(Test.Command);
     Test.ArtifactKey := "";
     Test.TimeoutSeconds := t.(Test.TimeoutSeconds);
     Test.ScheduleCron := t.(Test.ScheduleCron);
     Test.ScheduleEnabled := t.(Test.ScheduleEnabled);
     Test.NextRunAt := t.(Test.NextRunAt);
     Test.WebhookURL := MaskWebhook t.(Test.WebhookURL);
     Test.PagerDutyKey := MaskKey t.(Test.PagerDutyKey);
     Test.FailureThreshold := t.(Test.FailureThreshold);
     Test.ConsecutiveFailures := t.(Test.ConsecutiveFailures);
     Test.AlertActive := t.(Test.AlertActive);
     Test.AlertsEnabled := t.(Test.AlertsEnabled);
     Test.CreatedAt := t.(Test.CreatedAt);
     Test.DockerMemoryMB := t.(Test.DockerMemoryMB);
     Test.DockerCPUs := t.(Test.DockerCPUs);
     Test.DockerNetworkEnabled := t.(Test.DockerNetworkEnabled) |}.
End masking.

Example ellipsis_bytes : nat_of_ascii <$> String.list_ascii_of_string ellipsis = [226; 128; 166].
Proof. reflexivity. Qed.

(** ** Lemmas *)

Lemma MaskKey_last4 k : (4 < len k)%Z → MaskKey k = ellipsis +:+ last4 k.
Proof.
  intros Hk. unfold MaskKey. rewrite decide_False by (intros ->; by compute in Hk).
  by rewrite (proj2 (Z.leb_gt _ _)).
Qed.

Lemma MaskKey_nil k : MaskKey k = "" ↔ k = "".
Proof. unfold MaskKey. repeat case_decide; [done|]. by case_match. Qed.
