(* ===== verification/Strconv.v ===== *)
(** * Parsing numbers (package strconv)

    [strconv.Atoi], [strconv.ParseInt(s, 10, 64)] and
    [strconv.ParseFloat(s, 64)], by their documented syntax; [None] is an
    error.  Rounding to binary64 is the standard library's [SpecFloat]. *)

From S2P Require Import Prelude.
From S2P Require Import GoStrings.
From S2P Require Import Model.

(** ** Integers *)

Definition digit_val (c : ascii) : option Z :=
  let n := Z.of_nat (nat_of_ascii c) in
  if ((48 <=? n) && (n <=? 57))%Z then Some (n - 48)%Z else None.

Fixpoint digits_val (acc : Z) (s : string) : option Z :=
  match s with
  | EmptyString => Some acc
  | String c s => d ← digit_val c; digits_val (acc * 10 + d)%Z s
  end.

(** An optional sign. *)
Definition split_sign (s : string) : bool * string :=
  match s with
  | String c s' =>
      if decide (c = "-"%char) then (true, s')
      else if decide (c = "+"%char) then (false, s') else (false, s)
  | EmptyString => (false, s)
  end.

Definition Atoi (s : string) : option Z :=
  let '(neg, digits) := split_sign s in
  if decide (digits = "") then None
  else
    v ← digits_val 0 digits;
    let v := if neg : bool then (- v)%Z else v in
    if fits_int64 v then Some v else None.

Definition ParseInt : string → option Z := Atoi.

(** ** Floating-point numbers *)

Definition hex_val (c : ascii) : option Z :=
  let n := Z.of_nat (nat_of_ascii (lower_byte c)) in
  match digit_val c with
  | Some d => Some d
  | None => if ((97 <=? n) && (n <=? 102))%Z then Some (n - 87)%Z else None
  end.

(** The mantissa: its digits as an integer, how many of them follow the point,
    whether there was a digit, and the rest of the input.  Underscores are
    checked separately. *)
Fixpoint read_mantissa (hex dot seen : bool) (m frac : Z) (s : string)
    : Z * Z * bool * string :=
  match s with
  | EmptyString => (m, frac, seen, s)
  | String c s' =>
      if decide (c = "_"%char) then read_mantissa hex dot seen m frac s'
      else if decide (c = "."%char) then
        if dot then (m, frac, seen, s) else read_mantissa hex true seen m frac s'
      else
        match (if hex then hex_val c else digit_val c) with
        | Some d =>
            read_mantissa hex dot true ((if hex then 16 else 10) * m + d)%Z
              (if dot then frac + 1 else frac)%Z s'
        | None => (m, frac, seen, s)
        end
  end.

(** The digits of an exponent, capped as strconv does. *)
Fixpoint read_exp (e : Z) (s : string) : option Z :=
  match s with
  | EmptyString => Some e
  | String c s =>
      if decide (c = "_"%char) then read_exp e s
      else d ← digit_val c; read_exp (if e <? 10000 then e * 10 + d else e)%Z s
  end.

(** underscoreOK: an underscore stands between digits, or after the prefix.
    [saw] is the class of the character before. *)
Inductive seen_char := SawStart | SawDigit | SawUnderscore | SawOther.
Fixpoint underscore_go (hex : bool) (saw : seen_char) (s : string) : bool :=
  match s with
  | EmptyString => match saw with SawUnderscore => false | _ => true end
  | String c s =>
      if match (if hex then hex_val c else digit_val c) with Some _ => true | None => false end
      then underscore_go hex SawDigit s
      else if decide (c = "_"%char) then
        match saw with SawDigit => underscore_go hex SawUnderscore s | _ => false end
      else
        match saw with SawUnderscore => false | _ => underscore_go hex SawOther s end
  end.

(** m * b^(exp) rounded to the nearest binary64; [None] when it overflows. *)
Definition finite (x : spec_float) : option spec_float :=
  match x with S754_infinity _ | S754_nan => None | _ => Some x end.
Definition scale10 (neg : bool) (m e : Z) : spec_float :=
  match m with
  | Zpos p =>
      if (0 <=? e)%Z then binary_normalize 53 1024 (if neg then - m * 10 ^ e else m * 10 ^ e) 0 neg
      else
        let '(q, e', loc) := SFdiv_core_binary 53 1024 m 0 (10 ^ (- e)) 0 in
        binary_round_aux 53 1024 neg q e' loc
  | _ => S754_zero neg
  end.
Definition scale2 (neg : bool) (m e : Z) : spec_float :=
  match m with
  | Zpos p => binary_normalize 53 1024 (if neg then - m else m)%Z e neg
  | _ => S754_zero neg
  end.

(** Past these bounds the value is certainly infinite or rounds to zero. *)
Definition decimal (neg : bool) (m e : Z) (digits : nat) : option spec_float :=
  if (m =? 0)%Z then Some (S754_zero neg)
  else if (310 <? e)%Z then None
  else if (e <? - 350 - Z.of_nat digits)%Z then Some (S754_zero neg)
  else finite (scale10 neg m e).

Definition special (s : string) : option spec_float :=
  let l := AsciiLower s in
  let '(neg, u) := split_sign l in
  if bool_decide (u = "inf") || bool_decide (u = "infinity") then Some (S754_infinity neg)
  else if bool_decide (l = "nan") then Some S754_nan else None.

Definition ParseFloat (s : string) : option spec_float :=
  match special s with
  | Some x => Some x
  | None =>
      let '(neg, u) := split_sign s in
      let hex := HasPrefix (AsciiLower u) "0x" in
      let body := if hex then str_drop 2 u else u in
      if negb (underscore_go hex (if hex then SawDigit else SawStart) body) then None
      else
        let '(m, frac, seen, rest) := read_mantissa hex false false 0 0 body in
        if negb seen then None
        else
          match rest with
          | EmptyString => if hex then None else decimal neg m (- frac) (String.length s)
          | String c rest =>
              if decide (lower_byte c = (if hex then "p" else "e")%char) then
                let '(eneg, digits) := split_sign rest in
                match digits with
                | String d _ =>
                    if decide (digit_val d = None) then None
                    else
                      e ← read_exp 0 digits;
                      let e := if eneg : bool then (- e)%Z else e in
                      if hex then finite (scale2 neg m (e - 4 * frac))
                      else decimal neg m (e - frac) (String.length s)
                | EmptyString => None
                end
              else None
          end
  end.

Example atoi_examples :
  Atoi <$> ["42"; "-7"; "+3"; ""; "-"; "1_0"; "9223372036854775807"; "9223372036854775808"; " 1"]
  = [Some 42%Z; Some (-7)%Z; Some 3%Z; None; None; None; Some 9223372036854775807%Z; None; None].
Proof. vm_compute. reflexivity. Qed.

(** 0.5 = 2^52 * 2^-53, 1.5, 0.1 as the nearest double, and the specials. *)
Example parse_float_examples :
  ParseFloat <$> ["0.5"; "15e-1"; "0.1"; "0x1p-1"; "NaN"; "-inf"; "1e400"; "."; "1e"; "1__0"; "-0"]
  = [Some (S754_finite false 4503599627370496 (-53)); Some (S754_finite false 6755399441055744 (-52));
     Some (S754_finite false 7205759403792794 (-56)); Some (S754_finite false 4503599627370496 (-53));
     Some S754_nan; Some (S754_infinity true); None; None; None; None; Some (S754_zero true)].
Proof. vm_compute. reflexivity. Qed.

(** ** Lemmas *)

Lemma Atoi_fits s z : Atoi s = Some z → fits_int64 z = true.
Proof.
  unfold Atoi. destruct (split_sign s) as [neg digits]. case_decide; [done|].
  destruct (digits_val 0 digits) as [v|]; [|done]. simpl. case_match; by intros [= <-].
Qed.
