(* ===== verification/World.v ===== *)
(** * The state the server's goroutines share

    [world] holds the Postgres tables, the objects in the bucket, the file
    system the workspaces live in, the process-wide state of the Go program
    (the map of running commands, the scheduler's pause flag) and what the
    outside world will answer next.  Third-party code and services are the
    fields of the class [Ext], with their documented behaviour in [ExtLaws]. *)

From S2P Require Import Prelude.
From S2P Require Import Prog.
From S2P Require Import GoStrings.
From S2P Require Import Model.

(** ** Postgres tables (src/migrations) *)

(** The columns of [tests]; a nullable column is an [option]. *)
Module TestRow.
Record t := mk {
  uuid : string;
  name : option string;
  runtime : string;
  original_filename : string;
  command : option string;
  artifact_key : option string;
  created_at : Z;
  timeout_seconds : Z;
  schedule_cron : option string;
  schedule_enabled : bool;
  next_run_at : option Z;
  webhook_url : option string;
  pagerduty_routing_key : option string;
  failure_threshold : Z;
  consecutive_failures : Z;
  alert_active : bool;
  alerts_enabled : bool;
  docker_memory_mb : option Z;
  docker_cpus : option spec_float;
  docker_network_enabled : option bool
}.
End TestRow.

(** Each table is a map from its primary key to its rows. *)
Record db := DB {
  d_tests : gmap string TestRow.t;
  d_runs : gmap string TestRun.t;
  d_jobs : gmap string Job.t;
  d_shots : gmap string Screenshot.t;
  d_env : gmap (string * string) EnvVar.t
}.

Definition set_tests f d := DB (f d.(d_tests)) d.(d_runs) d.(d_jobs) d.(d_shots) d.(d_env).
Definition set_runs f d := DB d.(d_tests) (f d.(d_runs)) d.(d_jobs) d.(d_shots) d.(d_env).
Definition set_jobs f d := DB d.(d_tests) d.(d_runs) (f d.(d_jobs)) d.(d_shots) d.(d_env).
Definition set_shots f d := DB d.(d_tests) d.(d_runs) d.(d_jobs) (f d.(d_shots)) d.(d_env).
Definition set_env f d := DB d.(d_tests) d.(d_runs) d.(d_jobs) d.(d_shots) (f d.(d_env)).

(** ** Effects outside the database *)

(** A file of a workspace: a directory, a regular file with its permission
    bits, modification time and content, or a symbolic link. *)
Inductive fnode :=
| Dir
| File (mode : Z) (mtime : Z) (content : string)
| Symlink (to : string).

(** The answer of an HTTP server: a status, or no answer at all. *)
Inductive http_outcome :=
| HttpStatus (code : Z)
| HttpError (msg : string).

(** The HTTP requests the server makes: to the alert channels, and to Supabase
    Auth. *)
Record pd_payload := PDPayload {
  pd_summary : string;
  pd_source : string;
  pd_severity : string;
  pd_component : string;
  pd_test_id : string;
  pd_run_id : string;
  pd_consecutive_failures : Z;
  pd_failure_threshold : Z
}.
Inductive http_request :=
| SlackPost (url text : string)
| PagerDutyPost (url routing_key event_action dedup_key : string) (payload : option pd_payload)
| AuthGet (url token apikey : string).

(** The log lines and external commands the theorems talk about. *)
Inductive event :=
| EvEnqueued (job test trigger : string)
| EvDequeued (job worker : string)
| EvCompleted (job status : string)
| EvKillProcess (job : string)
| EvDockerRm (container : string)
| EvDockerRun (args env : list string)
| EvHttp (r : http_request).

Record world := World {
  w_now : Z;                          (* the clock *)
  w_uuids : nat;                      (* calls to uuid.NewString so far *)
  w_rand : nat;                       (* reads from crypto/rand so far *)
  w_faults : list (option string);    (* outcome of the coming external calls *)
  w_http : list http_outcome;         (* answers to the coming HTTP requests *)
  w_db : db;
  w_blobs : gmap string string;       (* the bucket *)
  w_fs : gmap (list string) fnode;    (* the file system; a clean absolute path is its components *)
  w_active : gset string;             (* runtime.activeCommands: job IDs *)
  w_paused : bool;                    (* scheduler.paused *)
  w_cache : gmap string Z;            (* auth: token to expiry of its approval *)
  w_events : list event               (* newest last *)
}.

Definition with_now x w :=
  World x w.(w_uuids) w.(w_rand) w.(w_faults) w.(w_http)
    w.(w_db) w.(w_blobs) w.(w_fs) w.(w_active) w.(w_paused) w.(w_cache) w.(w_events).
Definition with_uuids x w :=
  World w.(w_now) x w.(w_rand) w.(w_faults) w.(w_http)
    w.(w_db) w.(w_blobs) w.(w_fs) w.(w_active) w.(w_paused) w.(w_cache) w.(w_events).
Definition with_rand x w :=
  World w.(w_now) w.(w_uuids) x w.(w_faults) w.(w_http)
    w.(w_db) w.(w_blobs) w.(w_fs) w.(w_active) w.(w_paused) w.(w_cache) w.(w_events).
Definition with_faults x w :=
  World w.(w_now) w.(w_uuids) w.(w_rand) x w.(w_http)
    w.(w_db) w.(w_blobs) w.(w_fs) w.(w_active) w.(w_paused) w.(w_cache) w.(w_events).
Definition with_http x w :=
  World w.(w_now) w.(w_uuids) w.(w_rand) w.(w_faults) x
    w.(w_db) w.(w_blobs) w.(w_fs) w.(w_active) w.(w_paused) w.(w_cache) w.(w_events).
Definition with_db x w :=
  World w.(w_now) w.(w_uuids) w.(w_rand) w.(w_faults)
    w.(w_http) x w.(w_blobs) w.(w_fs) w.(w_active) w.(w_paused) w.(w_cache) w.(w_events).
Definition with_blobs x w :=
  World w.(w_now) w.(w_uuids) w.(w_rand) w.(w_faults)
    w.(w_http) w.(w_db) x w.(w_fs) w.(w_active) w.(w_paused) w.(w_cache) w.(w_events).
Definition with_fs x w :=
  World w.(w_now) w.(w_uuids) w.(w_rand) w.(w_faults)
    w.(w_http) w.(w_db) w.(w_blobs) x w.(w_active) w.(w_paused) w.(w_cache) w.(w_events).
Definition with_active x w :=
  World w.(w_now) w.(w_uuids) w.(w_rand) w.(w_faults)
    w.(w_http) w.(w_db) w.(w_blobs) w.(w_fs) x w.(w_paused) w.(w_cache) w.(w_events).
Definition with_paused x w :=
  World w.(w_now) w.(w_uuids) w.(w_rand) w.(w_faults)
    w.(w_http) w.(w_db) w.(w_blobs) w.(w_fs) w.(w_active) x w.(w_cache) w.(w_events).
Definition with_cache x w :=
  World w.(w_now) w.(w_uuids) w.(w_rand) w.(w_faults)
    w.(w_http) w.(w_db) w.(w_blobs) w.(w_fs) w.(w_active) w.(w_paused) x w.(w_events).
Definition with_events x w :=
  World w.(w_now) w.(w_uuids) w.(w_rand) w.(w_faults)
    w.(w_http) w.(w_db) w.(w_blobs) w.(w_fs) w.(w_active) w.(w_paused) w.(w_cache) x.

(** ** Third-party code *)

Record zip_entry := ZipEntry {
  z_name : string;
  z_is_dir : bool;
  z_mode : Z;
  z_content : res string        (* what reading the entry gives *)
}.

(** How a [docker run] started by [Execute] ends. *)
Inductive wait_result :=
| WaitDeadline                   (* the context's deadline passed *)
| WaitExit (code : Z)            (* the CLI exited, 0 or an ExitError *)
| WaitFailed (msg : string).     (* Wait failed for another reason *)

Record docker_outcome := DockerOutcome {
  do_start : option string;                   (* why it could not start *)
  do_lines : list (string * string * string); (* timestamp, stream, line *)
  do_files : list (list string * option fnode); (* files it left below /app, or removed *)
  do_wait : wait_result;
  do_elapsed : Z
}.

Class Ext := {
  (** google/uuid: the n-th [uuid.NewString()] *)
  ext_uuid : nat → string;
  (** robfig/cron: [cron.ParseStandard(s)] and its [Next] *)
  ext_cron : string → option (Z → Z);
  (** AES-256-GCM under a 32-byte key; the n-th nonce read from crypto/rand *)
  ext_nonce : nat → string;
  ext_seal : string → string → string → string;
  ext_open : string → string → string → option string;
  (** archive/zip: the entries of an archive *)
  ext_zip : string → res (list zip_entry);
  (** the docker CLI and whatever runs in the container *)
  ext_docker : list string → list string → Z → docker_outcome;
  (** [url.Parse], see [Model.MaskWebhook] *)
  ext_url_Parse : string → option (string * string);
  (** the environment the server was started with: [os.Getenv] *)
  ext_getenv : string → string;
  (** ... and [os.Environ], [os.Getuid], [os.Getgid] *)
  ext_environ : list string;
  ext_uid : Z;
  ext_gid : Z;
  (** the content of a file embedded with //go:embed, by its path *)
  ext_embedded : string → string;
  (** the operating system: an entry of the file system that cannot be removed at
      some time (not permitted, busy, on a read-only mount, ...) *)
  ext_stuck : Z → gmap (list string) fnode → list string → bool
}.

(** The zero [time.Time], 1 January of year 1, UTC. *)
Definition zero_time : Z := (-62135596800 * Second)%Z.

Class ExtLaws (E : Ext) : Prop := {
  (** UUIDs do not repeat. *)
  ext_uuid_inj : Inj (=) (=) ext_uuid;
  (** cron: "Next returns the next activation time, later than the given time";
      "if no time can be found to satisfy the schedule, return the zero time". *)
  ext_cron_next s next t : ext_cron s = Some next → next t = zero_time ∨ (t < next t)%Z;
  (** GCM: nonces have 12 bytes, and [Open] inverts [Seal]. *)
  ext_nonce_size n : String.length (ext_nonce n) = 12;
  ext_open_seal key nonce plain :
    String.length nonce = 12 →
    ext_open key nonce (ext_seal key nonce plain) = Some plain;
  (** a test cannot make the clock go backwards *)
  ext_docker_elapsed args env timeout : (0 ≤ do_elapsed (ext_docker args env timeout))%Z
}.

(** ** Atomic actions *)

Abbreviation act := (M world).

Definition gets {A} (f : world → A) : act A := λ w, (f w, w).
Definition modify (f : world → world) : act unit := λ w, (tt, f w).

(** [time.Now()] *)
Definition Now : act Z := gets w_now.

Definition NewString `{Ext} : act string :=
  λ w, (ext_uuid w.(w_uuids), with_uuids (S w.(w_uuids)) w).

Definition emit (e : event) : act unit :=
  λ w, (tt, with_events (w.(w_events) ++ [e]) w).

(** The next external call: [None] if it goes through, or its error. *)
Definition next_fault : act (option string) :=
  λ w, match w.(w_faults) with
       | [] => (None, w)
       | f :: fs => (f, with_faults fs w)
       end.

(** One SQL statement.  [q] is its effect at time [NOW()]; a connection,
    timeout or cancellation error leaves the tables alone. *)
Definition sql {A} (q : Z → db → res A * db) : act (res A) :=
  λ w, match next_fault w with
       | (Some msg, w) => (Err (ErrExternal msg), w)
       | (None, w) => let '(r, d) := q w.(w_now) w.(w_db) in (r, with_db d w)
       end.

Definition sql_query {A} (q : db → res A) : act (res A) := sql (λ _ d, (q d, d)).

(** [pool.Begin] ... [tx.Commit] with a deferred [tx.Rollback].  The row locks
    the bodies take make a transaction one atomic step; whatever error ends it,
    nothing it did is kept. *)
Definition transaction {A} (body : act (res A)) : act (res A) :=
  λ w,
    let '(r, w') :=
      (try _ := sql (λ _ d, (Ok tt, d)) in
       try a := body in
       try _ := sql (λ _ d, (Ok tt, d)) in
       mret (Ok a)) w in
    match r with
    | Ok _ => (r, w')
    | Err _ => (r, with_db w.(w_db) w')
    end.

(** [http.DefaultClient.Do]: the request is recorded, then answered. *)
Definition http_do (r : http_request) : act http_outcome :=
  λ w, let w := with_events (w.(w_events) ++ [EvHttp r]) w in
       match w.(w_http) with
       | [] => (HttpStatus 200, w)
       | o :: os => (o, with_http os w)
       end.

(** ** Lemmas *)

(** What an action may change. *)
Definition frame {A B} (f : world → B) (m : act A) : Prop := ∀ w, f (m w).2 = f w.

Lemma frame_bind {A B C} (f : world → C) (m : act A) (k : A → act B) :
  frame f m → (∀ a, frame f (k a)) → frame f (m ≫= k).
Proof.
  intros Hm Hk w. unfold mbind, M_bind. specialize (Hm w).
  destruct (m w) as [a w']. simpl in *. by rewrite Hk.
Qed.

Lemma frame_ret {A C} (f : world → C) (a : A) : frame f (mret a).
Proof. by intros w. Qed.

Lemma next_fault_spec w :
  next_fault w = (None, w) ∨ ∃ f fs, w.(w_faults) = f :: fs ∧ next_fault w = (f, with_faults fs w).
Proof. unfold next_fault. destruct (w_faults w); eauto 10. Qed.

(** A statement on a fault-free world runs. *)
Lemma sql_no_fault {A} (q : Z → db → res A * db) w :
  w.(w_faults) = [] → sql q w = let '(r, d) := q w.(w_now) w.(w_db) in (r, with_db d w).
Proof. intros Hf. unfold sql, next_fault. by rewrite Hf. Qed.

Lemma query_no_fault {A} (q : db → res A) w : w.(w_faults) = [] → sql_query q w = (q w.(w_db), w).
Proof. intros Hf. unfold sql_query. rewrite sql_no_fault by done. by destruct w. Qed.

(** A statement either fails or takes effect on the tables; nothing else but
    the list of faults changes. *)
Lemma sql_spec {A} (q : Z → db → res A * db) w :
  (∃ msg fs, sql q w = (Err (ErrExternal msg), with_faults fs w)) ∨
  (∃ fs, sql q w = ((q w.(w_now) w.(w_db)).1,
                    with_db (q w.(w_now) w.(w_db)).2 (with_faults fs w))).
Proof.
  unfold sql, next_fault. destruct (w_faults w) as [|[msg|] fs] eqn:E.
  - right. exists []. destruct (q _ _). destruct w; simpl in *. by subst.
  - left. by exists msg, fs.
  - right. exists fs. simpl. by destruct (q _ _).
Qed.

(** Case analysis on the next statement of a goal: it fails, or it runs. *)
Ltac sql_cases :=
  unfold sql_query; cbn beta iota;
  match goal with |- context [sql ?q ?w0] =>
    destruct (sql_spec q w0) as [(? & ? & ->)|(? & ->)] end;
  cbn beta iota delta [fst snd].

(** The next statement runs: there are no faults. *)
Ltac sql_runs :=
  unfold sql_query; rewrite sql_no_fault by done;
  cbn beta iota delta [fst snd with_db w_db w_now w_faults].

(** An invariant of the tables is kept by a statement that keeps it. *)
Definition db_inv (P : db → Prop) (w : world) : Prop := P w.(w_db).

Lemma sql_preserves {A} (I : world → Prop) (q : Z → db → res A * db) (Q : res A → Prop) :
  (∀ w fs, I w → I (with_faults fs w)) →
  (∀ msg, Q (Err (ErrExternal msg))) →
  (∀ w, I w → I (with_db (q w.(w_now) w.(w_db)).2 w) ∧ Q (q w.(w_now) w.(w_db)).1) →
  preserves I (sql q) Q.
Proof.
  intros Hf HE Hq w Hw.
  destruct (sql_spec q w) as [(msg & fs & ->)|(fs & ->)]; simpl; [auto|].
  destruct (Hq w Hw) as [HI HQ]. split; [|done].
  change (with_db ?d (with_faults ?fs w)) with (with_faults fs (with_db d w)). auto.
Qed.

(** A transaction that commits did its body's work; one that fails did nothing. *)
Lemma transaction_spec {A} (body : act (res A)) w :
  match transaction body w with
  | (Ok a, w') => ∃ fs w2 fs2, body (with_faults fs w) = (Ok a, w2) ∧ w' = with_faults fs2 w2
  | (Err _, w') => w'.(w_db) = w.(w_db)
  end.
Proof.
  unfold transaction, mbind, M_bind.
  destruct (sql_spec (λ _ d, (Ok tt, d)) w) as [(msg & fs & ->)|(fs & ->)]; simpl; [done|].
  replace (with_db (w_db w) (with_faults fs w)) with (with_faults fs w) by done.
  destruct (body (with_faults fs w)) as [[a|e] w2] eqn:E; simpl; [|done].
  destruct (sql_spec (λ _ d, (Ok tt, d)) w2) as [(msg & fs2 & ->)|(fs2 & ->)]; simpl; [done|].
  exists fs, w2, fs2. split; [done|]. by destruct w2.
Qed.

Lemma with_fs_id w : with_fs w.(w_fs) w = w.
Proof. by destruct w. Qed.

Lemma with_faults_id w : w.(w_faults) = [] → with_faults [] w = w.
Proof. intros E. destruct w; simpl in *; by subst. Qed.

(** Without faults it is its body, undone if the body fails. *)
Lemma transaction_no_fault {A} (body : act (res A)) w :
  w.(w_faults) = [] → (∀ a w', body w = (Ok a, w') → w'.(w_faults) = []) →
  transaction body w =
    match body w with
    | (Ok a, w') => (Ok a, w')
    | (Err e, w') => (Err e, with_db w.(w_db) w')
    end.
Proof.
  intros Hf Hb. unfold transaction, mbind, M_bind. rewrite sql_no_fault by done.
  replace (with_db (w_db w) w) with w by by destruct w.
  destruct (body w) as [[a|e] w2] eqn:E; [|done].
  rewrite sql_no_fault by eauto. simpl. by destruct w2.
Qed.

#[export] Hint Resolve frame_bind frame_ret : byot.
