(* ===== verification/Config.v ===== *)
(** * Package config (src/config/config.go)

    [LoadConfig] on the environment [ext_getenv], as it is once godotenv has
    added what a [.env] file holds. *)

From S2P Require Import Prelude.
From S2P Require Import GoStrings.
From S2P Require Import Strconv.
From S2P Require Import Model.
From S2P Require Import World.

Module Config.
Record t := mk {
  StorageProvider : string;
  MinioEndpoint : string;
  MinioAccessKey : string;
  MinioSecretKey : string;
  MinioBucket : string;
  MinioRegion : string;
  SupabaseURL : string;
  SupabaseKey : string;
  SupabasePublishableKey : string;
  SupabaseBucket : string;
  SecretsKey : string;
  DBUrl : string;
  WorkerConcurrency : Z;
  RetentionMaxRuns : Z;
  RetentionDays : Z;
  MaxDockerMemoryMB : Z;
  MaxDockerCPUs : spec_float;
  MaxTimeoutSeconds : Z
}.
End Config.

(** 4.0 *)
Definition four : spec_float := S754_finite false 4503599627370496 (-50).

Section config.
Context `{Ext}.

Definition getEnv (key fallback : string) : string :=
  if decide (ext_getenv key = "") then fallback else ext_getenv key.

Definition envInt (key : string) (def : Z) : Z :=
  if decide (ext_getenv key = "") then def
  else match Atoi (ext_getenv key) with
       | Some n => if (0 <=? n)%Z then n else def
       | None => def
       end.

(** A variable that must be positive to count. *)
Definition envPositive (key : string) (def : Z) : Z :=
  if decide (ext_getenv key = "") then def
  else match Atoi (ext_getenv key) with
       | Some n => if (0 <? n)%Z then n else def
       | None => def
       end.

Definition concurrency : Z :=
  if decide (ext_getenv "WORKER_CONCURRENCY" = "") then 3
  else match Atoi (ext_getenv "WORKER_CONCURRENCY") with
       | Some n => if (0 <? n)%Z then Z.min n 32 else 3
       | None => 3
       end.

Definition maxCPUs : spec_float :=
  if decide (ext_getenv "MAX_DOCKER_CPUS" = "") then four
  else match ParseFloat (ext_getenv "MAX_DOCKER_CPUS") with
       | Some x => if flt f0 x then x else four
       | None => four
       end.

Definition LoadConfig : Config.t :=
  let maxTimeout := envInt "MAX_TIMEOUT_SECONDS" 900 in
  let maxTimeout := if (maxTimeout =? 0)%Z then 900%Z else maxTimeout in
  {| Config.StorageProvider := getEnv "STORAGE_PROVIDER" "minio";
     Config.MinioEndpoint := ext_getenv "MINIO_ENDPOINT";
     Config.MinioAccessKey := ext_getenv "MINIO_ACCESS_KEY";
     Config.MinioSecretKey := ext_getenv "MINIO_SECRET_KEY";
     Config.MinioBucket := ext_getenv "MINIO_BUCKET";
     Config.MinioRegion := getEnv "MINIO_REGION" "us-east-1";
     Config.SupabaseURL := ext_getenv "SUPABASE_URL";
     Config.SupabaseKey := ext_getenv "SUPABASE_KEY";
     Config.SupabasePublishableKey := ext_getenv "SUPABASE_PUBLISHABLE_KEY";
     Config.SupabaseBucket := ext_getenv "SUPABASE_BUCKET";
     Config.SecretsKey := ext_getenv "SECRETS_KEY";
     Config.DBUrl := ext_getenv "DB_URL";
     Config.WorkerConcurrency := concurrency;
     Config.RetentionMaxRuns := envInt "RETENTION_MAX_RUNS_PER_TEST" 100;
     Config.RetentionDays := envInt "RETENTION_DAYS" 30;
     Config.MaxDockerMemoryMB := envPositive "MAX_DOCKER_MEMORY_MB" 2048;
     Config.MaxDockerCPUs := maxCPUs;
     Config.MaxTimeoutSeconds := maxTimeout |}.
End config.

(** ** Theorems *)

Lemma envInt_range `{Ext} key def :
  (0 ≤ def)%Z → fits_int64 def = true → (0 ≤ envInt key def)%Z ∧ fits_int64 (envInt key def) = true.
Proof.
  intros Hd Hf. unfold envInt. case_decide; [done|].
  destruct (Atoi _) as [n|] eqn:Hn; [|done]. destruct (0 <=? n)%Z eqn:Hz; [|done].
  apply Atoi_fits in Hn. by reflect_bools.
Qed.
Lemma envPositive_range `{Ext} key def :
  (0 < def)%Z → fits_int64 def = true → (0 < envPositive key def)%Z ∧ fits_int64 (envPositive key def) = true.
Proof.
  intros Hd Hf. unfold envPositive. case_decide; [done|].
  destruct (Atoi _) as [n|] eqn:Hn; [|done]. destruct (0 <? n)%Z eqn:Hz; [|done].
  apply Atoi_fits in Hn. by reflect_bools.
Qed.

Lemma concurrency_range `{Ext} : (1 ≤ LoadConfig.(Config.WorkerConcurrency) ≤ 32)%Z.
Proof.
  simpl. unfold concurrency. case_decide; [lia|]. destruct (Atoi _) as [n|]; [|lia].
  destruct (Z.ltb_spec 0 n); lia.
Qed.

(** Whatever the environment says, the server starts with limits that make
    sense: between 1 and 32 workers, a positive timeout and memory limit, retention
    limits that are not negative, and a CPU limit that is a number above zero. *)
Theorem LoadConfig_limits `{Ext} :
  (1 ≤ LoadConfig.(Config.WorkerConcurrency) ≤ 32)%Z ∧
  (0 < LoadConfig.(Config.MaxTimeoutSeconds) < 2^63)%Z ∧
  (0 < LoadConfig.(Config.MaxDockerMemoryMB) < 2^63)%Z ∧
  (0 ≤ LoadConfig.(Config.RetentionMaxRuns) < 2^63)%Z ∧
  (0 ≤ LoadConfig.(Config.RetentionDays) < 2^63)%Z ∧
  flt f0 LoadConfig.(Config.MaxDockerCPUs) = true ∧
  (ext_getenv "WORKER_CONCURRENCY" = "" → LoadConfig.(Config.WorkerConcurrency) = 3%Z).
Proof.
  assert (∀ z, fits_int64 z = true → (z < 2^63)%Z) as Hlt by (intros z Hz; unfold fits_int64 in Hz; by reflect_bools).
  unfold LoadConfig. cbn [Config.WorkerConcurrency Config.MaxTimeoutSeconds Config.MaxDockerMemoryMB
    Config.RetentionMaxRuns Config.RetentionDays Config.MaxDockerCPUs].
  destruct (envInt_range "MAX_TIMEOUT_SECONDS" 900) as [Ht Htf%Hlt]; [done..|].
  destruct (envPositive_range "MAX_DOCKER_MEMORY_MB" 2048) as [Hm Hmf%Hlt]; [done..|].
  destruct (envInt_range "RETENTION_MAX_RUNS_PER_TEST" 100) as [Hr Hrf%Hlt]; [done..|].
  destruct (envInt_range "RETENTION_DAYS" 30) as [Hd Hdf%Hlt]; [done..|].
  split; [apply concurrency_range|split; [|split; [|split; [|split; [|split]]]]]; try lia.
  - destruct (Z.eqb_spec (envInt "MAX_TIMEOUT_SECONDS" 900) 0); lia.
  - unfold maxCPUs. case_decide; [reflexivity|]. destruct (ParseFloat _) as [x|]; [|reflexivity].
    by destruct (flt f0 x) eqn:E.
  - intros He. unfold concurrency. by rewrite decide_True.
Qed.
