(* ===== verification/Http.v ===== *)
(** * Requests, responses and JSON bodies

    What the handlers read of an [*http.Request] and write to an
    [http.ResponseWriter], and how [encoding/json] fills the request structs.
    Scanning the bytes of a body into a JSON value is left out: a request
    carries the first value of its body, if there is a well-formed one, and the
    offset at which it ends. *)

From S2P Require Import Prelude.
From S2P Require Import Prog.
From S2P Require Import GoStrings.
From S2P Require Import Strconv.
From S2P Require Import Model.
From S2P Require Import World.

(** ** Requests *)

(** A JSON value; a number is its literal. *)
Inductive json :=
| JNull
| JBool (b : bool)
| JNum (lit : string)
| JStr (s : string)
| JArr (l : list json)
| JObj (members : list (string * json)).

Module Body.
Record t := mk { Value : option json; End : Z }.
End Body.

(** The file of a multipart field: name and content. *)
Module FileHeader.
Record t := mk { Filename : string; Content : string }.
Definition Size (h : t) : Z := len h.(Content).
End FileHeader.

(** A parsed multipart form: [FormValue] is "" for an absent field. *)
Module Form.
Record t := mk { Values : gmap string string; Binary : option FileHeader.t }.
Definition FormValue (f : t) (k : string) : string := default "" (f.(Values) !! k).
End Form.

Module Request.
Record t := mk {
  Method : string;
  EscapedPath : string;      (* r.URL.EscapedPath() *)
  Authorization : string;    (* the header, "" when absent *)
  Body : Body.t;
  Multipart : option Form.t  (* None: ParseMultipartForm fails *)
}.
(** [r.URL.Path]; a request whose path is not well escaped reaches no handler. *)
Definition Path (r : t) : string := PathUnescape r.(EscapedPath).
End Request.

(** ** Responses *)

(** The values the handlers encode. *)
Inductive payload :=
| Fields (l : list (string * string))            (* map[string]string *)
| PausedFlag (paused : bool)
| StopResult (cancelled killed : nat)
| TestJSON (t : Test.t)                          (* after MarshalJSON *)
| TestList (l : list TestListItem.t)             (* after MarshalJSON *)
| RunList (l : list TestRun.t)
| JobJSON (j : Job.t)
| EnvList (vars : list EnvVar.t) (secrets_enabled : bool)
| EnvSaved (name : string) (is_secret : bool)
| ScreenshotList (l : list Screenshot.t)         (* nil encodes as null *)
| AuthConfig (enabled : bool) (url publishable_key : string)
| Content (s : string)                           (* a blob or a page, not JSON *)
| Redirect (location : string)
| NoContent.

Module Response.
Record t := mk { Status : Z; Payload : payload }.
End Response.

Definition error_json (msg : string) : payload := Fields [("error", msg)].

(** [json.Marshal] refuses a float that is not a number. *)
Definition float_ok (x : spec_float) : bool :=
  match x with S754_nan | S754_infinity _ => false | _ => true end.
Definition test_ok (t : Test.t) : bool :=
  match t.(Test.DockerCPUs) with Some x => float_ok x | None => true end.
Definition encodable (p : payload) : bool :=
  match p with
  | TestJSON t => test_ok t
  | TestList l => forallb (λ i, test_ok i.(TestListItem.Test)) l
  | _ => true
  end.

Definition jsonResponse (status : Z) (p : payload) : Response.t :=
  Response.mk status (if encodable p then p else error_json "internal error").

Definition StatusOK := 200%Z.
Definition StatusAccepted := 202%Z.
Definition StatusMovedPermanently := 301%Z.
Definition StatusTemporaryRedirect := 307%Z.
Definition StatusBadRequest := 400%Z.
Definition StatusUnauthorized := 401%Z.
Definition StatusNotFound := 404%Z.
Definition StatusMethodNotAllowed := 405%Z.
Definition StatusRequestEntityTooLarge := 413%Z.
Definition StatusInternalServerError := 500%Z.
Definition StatusServiceUnavailable := 503%Z.

Abbreviation handler := (Request.t → prog world Response.t).

(** The handler answers with an error and returns. *)
Definition fail (status : Z) (msg : string) : prog world Response.t :=
  mret (jsonResponse status (error_json msg)).

Section encoding.
Context `{Ext}.
Definition test_json (t : Test.t) : payload := TestJSON (MarshalJSON ext_url_Parse t).
Definition test_list_json (l : list TestListItem.t) : payload :=
  TestList ((λ i, TestListItem.mk (MarshalJSON ext_url_Parse i.(TestListItem.Test))
                    i.(TestListItem.LastRun) i.(TestListItem.ActiveJob)) <$> l).
(** [TestRun.LogURL] is tagged [-] in JSON. *)
Definition run_list_json (l : list TestRun.t) : payload :=
  RunList ((λ r, TestRun.mk r.(TestRun.UUID) r.(TestRun.TestID) r.(TestRun.Status)
                   r.(TestRun.DurationMs) r.(TestRun.StartedAt) r.(TestRun.FinishedAt) ""
                   r.(TestRun.LogSizeBytes)) <$> l).
End encoding.

(** ** Decoding into a struct

    A struct is filled member by member, in the order of the body.  A member
    goes to the field whose tag matches up to case; others are ignored.  A value
    of the wrong type makes [Decode] fail. *)

(** The two characters outside ASCII that fold to ASCII letters. *)
Definition fold_name (s : string) : string :=
  AsciiLower (ReplaceAll (ReplaceAll s "K" "k") "ſ" "s").

(** A decoder of one member, with the struct so far. *)
Definition decode_struct {T} (fields : list (string * (json → T → option T)))
    (zero : T) (b : Body.t) : option T :=
  match b.(Body.Value) with
  | Some JNull => Some zero
  | Some (JObj members) =>
      foldl (λ acc m,
        t ← acc;
        match filter (λ f, f.1 = fold_name m.1) fields with
        | (_, dec) :: _ => dec m.2 t
        | [] => Some t
        end) (Some zero) members
  | _ => None
  end.

(** Values, with [null] leaving a plain field alone and clearing a pointer. *)
Definition as_string (j : json) : option string :=
  match j with JStr s => Some s | _ => None end.
Definition as_bool (j : json) : option bool :=
  match j with JBool b => Some b | _ => None end.
Definition as_int (j : json) : option Z :=
  match j with JNum lit => ParseInt lit | _ => None end.
Definition as_float (j : json) : option spec_float :=
  match j with JNum lit => ParseFloat lit | _ => None end.

Definition plain {A T} (as_A : json → option A) (set : A → T → T) : json → T → option T :=
  λ j t, match j with JNull => Some t | _ => a ← as_A j; Some (set a t) end.
Definition pointer {A T} (as_A : json → option A) (set : option A → T → T) : json → T → option T :=
  λ j t, match j with JNull => Some (set None t) | _ => a ← as_A j; Some (set (Some a) t) end.

Example fold_example : fold_name "testID" = "testid" ∧ fold_name "iſ_SECRET" = "is_secret".
Proof. vm_compute. done. Qed.

(** ** Lemmas *)

Lemma jsonResponse_status s p : (jsonResponse s p).(Response.Status) = s.
Proof. done. Qed.
Lemma run_fail s msg w : run (fail s msg) w = (jsonResponse s (error_json msg), w).
Proof. done. Qed.
Lemma prog_ok_fail I s msg : prog_ok I (fail s msg) (λ _, True).
Proof. done. Qed.
#[export] Hint Resolve prog_ok_fail : byot.
