(* ===== verification/Auth.v ===== *)
(** * Package auth (src/auth/supabase.go)

    Which requests go through to a handler.  [None] is the nil [*Verifier]:
    authentication is not configured. *)

From S2P Require Import Prelude.
From S2P Require Import Prog.
From S2P Require Import GoStrings.
From S2P Require Import Model.
From S2P Require Import World.
From S2P Require Import Http.

Definition cacheTTL : Z := (60 * Second)%Z.

Module Verifier.
Record t := mk { url : string; publishableKey : string }.
End Verifier.

Definition New (supabaseURL publishableKey : string) : option Verifier.t :=
  let supabaseURL := TrimRightByte "/" supabaseURL in
  if bool_decide (supabaseURL = "") || bool_decide (publishableKey = "") then None
  else Some (Verifier.mk supabaseURL publishableKey).

Definition Enabled (v : option Verifier.t) : bool :=
  match v with Some _ => true | None => false end.

Definition PublicConfig (v : option Verifier.t) : handler := λ r,
  mret (Response.mk StatusOK
    match v with
    | None => AuthConfig false "" ""
    | Some v => AuthConfig true v.(Verifier.url) v.(Verifier.publishableKey)
    end).

(** [exp, ok := v.cache[token]; ok && now.Before(exp)] *)
Definition cached (token : string) (now : Z) (cache : gmap string Z) : bool :=
  match cache !! token with Some exp => (now <? exp)%Z | None => false end.

(** The expired entries go, then the token is approved until [now + cacheTTL]. *)
Definition approve (token : string) (now : Z) (cache : gmap string Z) : gmap string Z :=
  <[token := (now + cacheTTL)%Z]> (filter (λ kv, ¬ (kv.2 < now)%Z) cache).

Section verifier.
Context `{Ext}.

Definition valid (v : Verifier.t) (token : string) : prog world bool :=
  now ← call Now;
  hit ← call (gets (λ w, cached token now w.(w_cache)));
  if hit : bool then mret true
  else
    let url := v.(Verifier.url) +:+ "/auth/v1/user" in
    match ext_url_Parse url with
    | None => mret false                    (* NewRequestWithContext fails *)
    | Some _ =>
        o ← call (http_do (AuthGet url token v.(Verifier.publishableKey)));
        match o with
        | HttpError _ => mret false
        | HttpStatus code =>
            if negb (code =? StatusOK)%Z then mret false
            else
              _ ← call (modify (λ w, with_cache (approve token now w.(w_cache)) w));
              mret true
        end
    end.

Definition unauthorized : Response.t :=
  Response.mk StatusUnauthorized (error_json "authentication required").

Definition Require (v : option Verifier.t) (next : handler) : handler :=
  match v with
  | None => next
  | Some v => λ r,
      let header := r.(Request.Authorization) in
      let token := TrimPrefix header "Bearer " in
      if bool_decide (token = "") || bool_decide (token = header) then mret unauthorized
      else
        ok ← valid v token;
        if ok : bool then next r else mret unauthorized
  end.

Definition read_only (method : string) : bool :=
  bool_decide (method ∈ ["GET"; "HEAD"; "OPTIONS"]).

Definition RequireWrites (v : option Verifier.t) (next : handler) : handler :=
  match v with
  | None => next
  | Some _ => λ r,
      if read_only r.(Request.Method) then next r else Require v next r
  end.
End verifier.
