(* ===== verification/Alert.v ===== *)
(** * Package alert (src/alert)

    When a failure alert is due ([policy.go]) and how alerts reach the
    channels ([notify.go], [webhook.go], [pagerduty.go]).  Each HTTP request is
    one atomic action; the answer comes from the world. *)

From S2P Require Import Prelude.
From S2P Require Import Prog.
From S2P Require Import GoStrings.
From S2P Require Import Model.
From S2P Require Import World.

(** ** policy.go *)

(** Go's [%] truncates towards zero. *)
Definition FailureAlertDue (consecutive threshold : Z) : bool :=
  let threshold := if (threshold <=? 0)%Z then 3%Z else threshold in
  (threshold <=? consecutive)%Z && (Z.rem consecutive threshold =? 0)%Z.

(** ** notify.go, webhook.go, pagerduty.go *)

Module Targets.
Record t := mk { WebhookURL : string; PagerDutyKey : string }.
Definition Any (t : t) : bool :=
  negb (bool_decide (t.(WebhookURL) = "")) || negb (bool_decide (t.(PagerDutyKey) = "")).
End Targets.

Module Payload.
Record t := mk {
  TestID : string;
  TestName : string;
  ConsecutiveFailures : Z;
  FailureThreshold : Z;
  RunID : string
}.
End Payload.

(** [errors.Join] *)
Definition errors_Join (errs : list error) : res unit :=
  match errs with
  | [] => Ok tt
  | _ => Err (Errorf (Join (Error <$> errs) (String "010" "")))
  end.

(** What [postSlack] and [postPagerDuty] do with the answer; [who] names the
    service in the error. *)
Definition check_status (who : string) (o : http_outcome) : res unit :=
  match o with
  | HttpError msg => Err (ErrExternal msg)
  | HttpStatus code =>
      if (code <? 200)%Z || (300 <=? code)%Z
      then Err (Errorf (who +:+ " returned status " +:+ Itoa code))
      else Ok tt
  end.

Section channels.
Context `{Ext}.

(** [http.NewRequestWithContext], which fails on a URL that does not parse, and
    [http.DefaultClient.Do]. *)
Definition post (who url : string) (r : http_request) : prog world (res unit) :=
  match ext_url_Parse url with
  | None => mret (Err (ErrExternal ("parse " +:+ url)))
  | Some _ => o ← call (http_do r); mret (check_status who o)
  end.

Definition postSlack (webhookURL text : string) : prog world (res unit) :=
  if decide (webhookURL = "") then mret (Ok tt)
  else post "webhook" webhookURL (SlackPost webhookURL text).

Definition newline : string := String "010" "".

Definition failure_text (p : Payload.t) : string :=
    (":rotating_light: *BYOT alert* · " +:+ p.(Payload.TestName) +:+ " (" +:+
     p.(Payload.TestID) +:+ ")" +:+ newline +:+ p.(Payload.TestName) +:+ " failed *" +:+
     Itoa p.(Payload.ConsecutiveFailures) +:+ "* times in a row (threshold " +:+
     Itoa p.(Payload.FailureThreshold) +:+ ") · run `" +:+ p.(Payload.RunID) +:+ "`").
Definition SendFailure (webhookURL : string) (p : Payload.t) : prog world (res unit) :=
  postSlack webhookURL (failure_text p).

Definition recovery_text (p : Payload.t) : string :=
    (":white_check_mark: *BYOT recovered* · " +:+ p.(Payload.TestName) +:+ " (" +:+
     p.(Payload.TestID) +:+ ")" +:+ newline +:+ "Latest run passed after consecutive failures.").
Definition SendRecovery (webhookURL : string) (p : Payload.t) : prog world (res unit) :=
  postSlack webhookURL (recovery_text p).

Definition pagerDutyDedupKey (testID : string) : string := "byot-" +:+ testID.

Definition defaultPagerDutyEventsURL := "https://events.pagerduty.com/v2/enqueue".

Definition pagerDutyEventsURL : string :=
  let u := ext_getenv "PAGERDUTY_EVENTS_URL" in
  if decide (u = "") then defaultPagerDutyEventsURL else u.

Definition postPagerDuty (RoutingKey EventAction DedupKey : string)
    (p : option pd_payload) : prog world (res unit) :=
  if decide (RoutingKey = "") then mret (Ok tt)
  else post "pagerduty" pagerDutyEventsURL
         (PagerDutyPost pagerDutyEventsURL RoutingKey EventAction DedupKey p).

Definition failure_detail (p : Payload.t) : pd_payload :=
         {| pd_summary := "BYOT: " +:+ p.(Payload.TestName) +:+ " failed " +:+
               Itoa p.(Payload.ConsecutiveFailures) +:+ " times in a row";
             pd_source := "byot";
             pd_severity := "critical";
             pd_component := p.(Payload.TestName);
             pd_test_id := p.(Payload.TestID);
             pd_run_id := p.(Payload.RunID);
             pd_consecutive_failures := p.(Payload.ConsecutiveFailures);
             pd_failure_threshold := p.(Payload.FailureThreshold) |}.
Definition TriggerPagerDuty (routingKey : string) (p : Payload.t) : prog world (res unit) :=
  postPagerDuty routingKey "trigger" (pagerDutyDedupKey p.(Payload.TestID))
    (Some (failure_detail p)).

Definition ResolvePagerDuty (routingKey : string) (p : Payload.t) : prog world (res unit) :=
  postPagerDuty routingKey "resolve" (pagerDutyDedupKey p.(Payload.TestID)) None.

(** The error, if any, goes on the list with the channel's name. *)
Definition channel_err (who : string) (r : res unit) : list error :=
  match r with Ok _ => [] | Err e => [Wrap (who +:+ ": ") e] end.

Definition NotifyFailure (t : Targets.t) (p : Payload.t) : prog world (res unit) :=
  errs ← (if decide (t.(Targets.WebhookURL) = "") then mret []
          else r ← SendFailure t.(Targets.WebhookURL) p; mret (channel_err "webhook" r));
  errs ← (if decide (t.(Targets.PagerDutyKey) = "") then mret errs
          else r ← TriggerPagerDuty t.(Targets.PagerDutyKey) p;
               mret (errs ++ channel_err "pagerduty" r));
  mret (errors_Join errs).

Definition NotifyRecovery (t : Targets.t) (p : Payload.t) : prog world (res unit) :=
  errs ← (if decide (t.(Targets.WebhookURL) = "") then mret []
          else r ← SendRecovery t.(Targets.WebhookURL) p; mret (channel_err "webhook" r));
  errs ← (if decide (t.(Targets.PagerDutyKey) = "") then mret errs
          else r ← ResolvePagerDuty t.(Targets.PagerDutyKey) p;
               mret (errs ++ channel_err "pagerduty" r));
  mret (errors_Join errs).
End channels.

Example due_examples :
  (λ n, FailureAlertDue n 3) <$> [1; 2; 3; 4; 5; 6; 9; 10]%Z
  = [false; false; true; false; false; true; true; false].
Proof. reflexivity. Qed.

(** ** Lemmas and theorems *)

(** The answer the next request will get, and the world after it. *)
Definition answer (w : world) : http_outcome := default (HttpStatus 200) (head w.(w_http)).
Definition sent (r : http_request) (w : world) : world :=
  with_http (tail w.(w_http)) (with_events (w.(w_events) ++ [EvHttp r]) w).

Lemma http_do_spec r w : http_do r w = (answer w, sent r w).
Proof. unfold http_do, answer, sent. destruct w as [??? ? [|o os]]; done. Qed.

Definition delivered (o : http_outcome) : bool :=
  match o with HttpStatus c => (200 <=? c)%Z && (c <? 300)%Z | HttpError _ => false end.

Lemma check_status_ok who o : is_ok (check_status who o) = delivered o.
Proof.
  destruct o as [c|m]; simpl; [|done].
  destruct (c <? 200)%Z eqn:E1, (300 <=? c)%Z eqn:E2; simpl; reflect_bools; symmetry;
    rewrite ?andb_true_iff, ?andb_false_iff, ?Z.leb_le, ?Z.ltb_lt, ?Z.leb_gt, ?Z.ltb_ge; lia.
Qed.

Lemma errors_Join_ok errs : is_ok (errors_Join errs) = bool_decide (errs = []).
Proof. by destruct errs. Qed.

Section delivery.
Context `{Ext}.

(** What the two notifications ask of the channels. *)
Definition failure_requests (t : Targets.t) (p : Payload.t) : list http_request :=
  (if decide (t.(Targets.WebhookURL) = "") then [] else [SlackPost t.(Targets.WebhookURL) (failure_text p)]) ++
  (if decide (t.(Targets.PagerDutyKey) = "") then []
   else [PagerDutyPost pagerDutyEventsURL t.(Targets.PagerDutyKey) "trigger"
           ("byot-" +:+ p.(Payload.TestID)) (Some (failure_detail p))]).
Definition recovery_requests (t : Targets.t) (p : Payload.t) : list http_request :=
  (if decide (t.(Targets.WebhookURL) = "") then [] else [SlackPost t.(Targets.WebhookURL) (recovery_text p)]) ++
  (if decide (t.(Targets.PagerDutyKey) = "") then []
   else [PagerDutyPost pagerDutyEventsURL t.(Targets.PagerDutyKey) "resolve"
           ("byot-" +:+ p.(Payload.TestID)) None]).

(** A request can be made when its URL parses.  Each one that can goes out,
    whatever came of the one before. *)
Definition can_post (r : http_request) : bool :=
  bool_decide (is_Some (ext_url_Parse match r with
    | SlackPost url _ | PagerDutyPost url _ _ _ _ | AuthGet url _ _ => url end)).
Definition send_all (rs : list http_request) (w : world) : world := foldl (flip sent) w rs.
Definition all_delivered (n : nat) (w : world) : bool :=
  forallb delivered (take n (w.(w_http) ++ replicate n (HttpStatus 200))).

Definition posted (who : string) (r : http_request) (w : world) : res unit * world :=
  if can_post r then (check_status who (answer w), sent r w)
  else (Err (ErrExternal ("parse " +:+ match r with
    | SlackPost url _ | PagerDutyPost url _ _ _ _ | AuthGet url _ _ => url end)), w).

Lemma postSlack_run u text w :
  u ≠ "" → run (postSlack u text) w = posted "webhook" (SlackPost u text) w.
Proof.
  intros Hu. unfold postSlack, post, posted, can_post. rewrite decide_False by done.
  destruct (ext_url_Parse u) as [x|]; [rewrite bool_decide_eq_true_2 by eauto|done].
  by rewrite run_call_bind, http_do_spec.
Qed.
Lemma postPagerDuty_run k a d p w :
  k ≠ "" → run (postPagerDuty k a d p) w =
    posted "pagerduty" (PagerDutyPost pagerDutyEventsURL k a d p) w.
Proof.
  intros Hu. unfold postPagerDuty, post, posted, can_post. rewrite decide_False by done.
  destruct (ext_url_Parse pagerDutyEventsURL) as [x|]; [rewrite bool_decide_eq_true_2 by eauto|done].
  by rewrite run_call_bind, http_do_spec.
Qed.
Lemma channel_err_nil who r : bool_decide (channel_err who r = []) = is_ok r.
Proof. by destruct r. Qed.

Lemma channel_errs_nil who r who' r' :
  bool_decide (channel_err who r ++ channel_err who' r' = []) = is_ok r && is_ok r'.
Proof. by destruct r, r'. Qed.

Lemma snoc_not_nil {A} (l : list A) x : l ++ [x] ≠ [].
Proof. by destruct l. Qed.

(** C35: a failure notification posts to every configured channel whose URL
    parses, Slack first, even when the first post fails; it reports an error
    exactly when some configured channel's URL does not parse or some post was
    not answered with a 2xx status.  The same holds of a recovery, which resolves
    the PagerDuty incident under the key the failure opened it with. *)
Theorem notify_reaches_every_channel t p w :
  let fs := failure_requests t p in
  let rs := recovery_requests t p in
  let possible := List.filter can_post in
  ((run (NotifyFailure t p) w).2 = send_all (possible fs) w ∧
   is_ok (run (NotifyFailure t p) w).1 = forallb can_post fs && all_delivered (length (possible fs)) w) ∧
  ((run (NotifyRecovery t p) w).2 = send_all (possible rs) w ∧
   is_ok (run (NotifyRecovery t p) w).1 = forallb can_post rs && all_delivered (length (possible rs)) w).
Proof.
  split;
    unfold NotifyFailure, NotifyRecovery, SendFailure, SendRecovery, TriggerPagerDuty,
      ResolvePagerDuty, failure_requests, recovery_requests, pagerDutyDedupKey, all_delivered;
    destruct t as [u k]; simpl; repeat case_decide; simplify_eq/=;
    repeat first [rewrite run_bind | rewrite run_ret | rewrite postSlack_run by done
                 | rewrite postPagerDuty_run by done
                 | unfold posted; match goal with |- context [if can_post ?r then _ else _] =>
                     destruct (can_post r) eqn:? end ];
    cbn [List.filter forallb app];
    repeat match goal with H : can_post _ = _ |- _ => rewrite H; clear H end; simpl;
    rewrite ?errors_Join_ok, ?channel_errs_nil, ?channel_err_nil, ?check_status_ok;
    unfold answer, sent; destruct w as [??? ? [|o1 [|o2 os]]]; simpl;
    rewrite ?(bool_decide_eq_false_2 _ (snoc_not_nil _ _)), ?andb_true_r, ?andb_false_r; done.
Qed.
End delivery.

(** A failure alert is due exactly at the positive multiples of the
    threshold, which counts as 3 when it is not positive. *)
Theorem FailureAlertDue_spec n t :
  FailureAlertDue n t = true ↔
  ∃ k, (0 < k)%Z ∧ n = (k * (if (t <=? 0)%Z then 3 else t))%Z.
Proof.
  unfold FailureAlertDue. set (t' := (if (t <=? 0)%Z then 3 else t)%Z).
  assert (0 < t')%Z as Ht. { unfold t'. destruct (t <=? 0)%Z eqn:E; reflect_bools; lia. }
  rewrite andb_true_iff, Z.leb_le, Z.eqb_eq. split.
  - intros [Hle Hr]. apply Z.rem_divide in Hr as [k ->]; [|lia]. exists k. nia.
  - intros (k & Hk & ->). split; [nia|]. apply Z.rem_mul. lia.
Qed.
