(* ===== verification/TestRepo.v ===== *)
(** * The tests table (src/repository/test_repository.go)

    Each method of [postgresTestRepository] is one atomic action: its SQL
    statement, or its transaction, on the table [tests]. *)

From S2P Require Import Prelude.
From S2P Require Import Prog.
From S2P Require Import GoStrings.
From S2P Require Import Model.
From S2P Require Import World.
From S2P Require Import Alert.

Module TestConfigUpdate.
Record t := mk {
  Command : string;
  TimeoutSeconds : Z;
  ScheduleCron : string;
  ScheduleEnabled : bool;
  NextRunAt : option Z;
  WebhookURL : string;
  PagerDutyKey : string;
  FailureThreshold : Z;
  AlertsEnabled : bool;
  DockerMemoryMB : option Z;
  DockerCPUs : option spec_float;
  DockerNetworkEnabled : option bool
}.
End TestConfigUpdate.

Definition normalizeFailureThreshold (n : Z) : Z := if (n <=? 0)%Z then 3%Z else n.

(** An empty string is stored as NULL. *)
Definition nullIfEmpty (s : string) : option string :=
  if decide (s = "") then None else Some s.

(** [COALESCE(col, '')] *)
Definition coalesce (o : option string) : string := default "" o.

(** An [INT] column refuses a value outside 32 bits. *)
Definition int4_error : error := ErrExternal "integer out of range".

Definition fits_row (r : TestRow.t) : bool :=
  fits_int4 r.(TestRow.timeout_seconds) && fits_int4 r.(TestRow.failure_threshold) &&
  fits_int4 r.(TestRow.consecutive_failures) &&
  match r.(TestRow.docker_memory_mb) with Some m => fits_int4 m | None => true end.

(** INSERT INTO tests: the columns the statement does not name take their
    defaults, and an existing primary key is an error. *)
Definition insert_test (now : Z) (t : Test.t) (d : db) : res unit * db :=
  let row :=
    {| TestRow.uuid := t.(Test.UUID);
       TestRow.name := Some t.(Test.Name);
       TestRow.runtime := t.(Test.Runtime);
       TestRow.original_filename := t.(Test.OriginalFilename);
       TestRow.command := Some t.(Test.Command);
       TestRow.artifact_key := Some t.(Test.ArtifactKey);
       TestRow.created_at := now;
       TestRow.timeout_seconds := t.(Test.TimeoutSeconds);
       TestRow.schedule_cron := nullIfEmpty t.(Test.ScheduleCron);
       TestRow.schedule_enabled := t.(Test.ScheduleEnabled);
       TestRow.next_run_at := t.(Test.NextRunAt);
       TestRow.webhook_url := nullIfEmpty t.(Test.WebhookURL);
       TestRow.pagerduty_routing_key := nullIfEmpty t.(Test.PagerDutyKey);
       TestRow.failure_threshold := normalizeFailureThreshold t.(Test.FailureThreshold);
       TestRow.consecutive_failures := 0;
       TestRow.alert_active := false;
       TestRow.alerts_enabled := t.(Test.AlertsEnabled);
       TestRow.docker_memory_mb := t.(Test.DockerMemoryMB);
       TestRow.docker_cpus := t.(Test.DockerCPUs);
       TestRow.docker_network_enabled := t.(Test.DockerNetworkEnabled) |} in
  match d.(d_tests) !! t.(Test.UUID) with
  | Some _ => (Err (ErrExternal "duplicate key value violates unique constraint"), d)
  | None =>
      if fits_row row
      then (Ok tt, set_tests (<[t.(Test.UUID) := row]>) d)
      else (Err int4_error, d)
  end.

(** SELECT ... with [COALESCE] for the nullable text columns, then [Scan]. *)
Definition scan_test (r : TestRow.t) : Test.t :=
  {| Test.UUID := r.(TestRow.uuid);
     Test.Name := coalesce r.(TestRow.name);
     Test.OriginalFilename := r.(TestRow.original_filename);
     Test.Runtime := r.(TestRow.runtime);
     Test.Command := coalesce r.(TestRow.command);
     Test.ArtifactKey := coalesce r.(TestRow.artifact_key);
     Test.TimeoutSeconds := r.(TestRow.timeout_seconds);
     Test.ScheduleCron := coalesce r.(TestRow.schedule_cron);
     Test.ScheduleEnabled := r.(TestRow.schedule_enabled);
     Test.NextRunAt := r.(TestRow.next_run_at);
     Test.WebhookURL := coalesce r.(TestRow.webhook_url);
     Test.PagerDutyKey := coalesce r.(TestRow.pagerduty_routing_key);
     Test.FailureThreshold := r.(TestRow.failure_threshold);
     Test.ConsecutiveFailures := r.(TestRow.consecutive_failures);
     Test.AlertActive := r.(TestRow.alert_active);
     Test.AlertsEnabled := r.(TestRow.alerts_enabled);
     Test.CreatedAt := r.(TestRow.created_at);
     Test.DockerMemoryMB := r.(TestRow.docker_memory_mb);
     Test.DockerCPUs := r.(TestRow.docker_cpus);
     Test.DockerNetworkEnabled := r.(TestRow.docker_network_enabled) |}.

(** [ListDueScheduled] does not select [pagerduty_routing_key] and
    [alerts_enabled]: those fields keep Go's zero values. *)
Definition scan_due (r : TestRow.t) : Test.t :=
  let t := scan_test r in
  {| Test.UUID := t.(Test.UUID);
     Test.Name := t.(Test.Name);
     Test.OriginalFilename := t.(Test.OriginalFilename);
     Test.Runtime := t.(Test.Runtime);
     Test.Command := t.(Test.Command);
     Test.ArtifactKey := t.(Test.ArtifactKey);
     Test.TimeoutSeconds := t.(Test.TimeoutSeconds);
     Test.ScheduleCron := t.(Test.ScheduleCron);
     Test.ScheduleEnabled := t.(Test.ScheduleEnabled);
     Test.NextRunAt := t.(Test.NextRunAt);
     Test.WebhookURL := t.(Test.WebhookURL);
     Test.PagerDutyKey := "";
     Test.FailureThreshold := t.(Test.FailureThreshold);
     Test.ConsecutiveFailures := t.(Test.ConsecutiveFailures);
     Test.AlertActive := t.(Test.AlertActive);
     Test.AlertsEnabled := false;
     Test.CreatedAt := t.(Test.CreatedAt);
     Test.DockerMemoryMB := t.(Test.DockerMemoryMB);
     Test.DockerCPUs := t.(Test.DockerCPUs);
     Test.DockerNetworkEnabled := t.(Test.DockerNetworkEnabled) |}.

(** UPDATE tests SET ... : the twelve columns of [UpdateConfig]. *)
Definition apply_config (cfg : TestConfigUpdate.t) (r : TestRow.t) : TestRow.t :=
  {| TestRow.uuid := r.(TestRow.uuid);
     TestRow.name := r.(TestRow.name);
     TestRow.runtime := r.(TestRow.runtime);
     TestRow.original_filename := r.(TestRow.original_filename);
     TestRow.command := Some cfg.(TestConfigUpdate.Command);
     TestRow.artifact_key := r.(TestRow.artifact_key);
     TestRow.created_at := r.(TestRow.created_at);
     TestRow.timeout_seconds := cfg.(TestConfigUpdate.TimeoutSeconds);
     TestRow.schedule_cron := nullIfEmpty cfg.(TestConfigUpdate.ScheduleCron);
     TestRow.schedule_enabled := cfg.(TestConfigUpdate.ScheduleEnabled);
     TestRow.next_run_at := cfg.(TestConfigUpdate.NextRunAt);
     TestRow.webhook_url := nullIfEmpty cfg.(TestConfigUpdate.WebhookURL);
     TestRow.pagerduty_routing_key := nullIfEmpty cfg.(TestConfigUpdate.PagerDutyKey);
     TestRow.failure_threshold := normalizeFailureThreshold cfg.(TestConfigUpdate.FailureThreshold);
     TestRow.consecutive_failures := r.(TestRow.consecutive_failures);
     TestRow.alert_active := r.(TestRow.alert_active);
     TestRow.alerts_enabled := cfg.(TestConfigUpdate.AlertsEnabled);
     TestRow.docker_memory_mb := cfg.(TestConfigUpdate.DockerMemoryMB);
     TestRow.docker_cpus := cfg.(TestConfigUpdate.DockerCPUs);
     TestRow.docker_network_enabled := cfg.(TestConfigUpdate.DockerNetworkEnabled) |}.

(** UPDATE tests SET consecutive_failures = ..., alert_active = ... *)
Definition set_outcome (consecutive : Z) (alertActive : bool) (r : TestRow.t) : TestRow.t :=
  TestRow.mk r.(TestRow.uuid) r.(TestRow.name) r.(TestRow.runtime)
    r.(TestRow.original_filename) r.(TestRow.command) r.(TestRow.artifact_key)
    r.(TestRow.created_at) r.(TestRow.timeout_seconds) r.(TestRow.schedule_cron)
    r.(TestRow.schedule_enabled) r.(TestRow.next_run_at) r.(TestRow.webhook_url)
    r.(TestRow.pagerduty_routing_key) r.(TestRow.failure_threshold)
    consecutive alertActive
    r.(TestRow.alerts_enabled) r.(TestRow.docker_memory_mb) r.(TestRow.docker_cpus)
    r.(TestRow.docker_network_enabled).

(** UPDATE tests SET next_run_at = ... *)
Definition set_next_run_at (next : Z) (r : TestRow.t) : TestRow.t :=
  TestRow.mk r.(TestRow.uuid) r.(TestRow.name) r.(TestRow.runtime)
    r.(TestRow.original_filename) r.(TestRow.command) r.(TestRow.artifact_key)
    r.(TestRow.created_at) r.(TestRow.timeout_seconds) r.(TestRow.schedule_cron)
    r.(TestRow.schedule_enabled) (Some next) r.(TestRow.webhook_url)
    r.(TestRow.pagerduty_routing_key) r.(TestRow.failure_threshold)
    r.(TestRow.consecutive_failures) r.(TestRow.alert_active)
    r.(TestRow.alerts_enabled) r.(TestRow.docker_memory_mb) r.(TestRow.docker_cpus)
    r.(TestRow.docker_network_enabled).

(** The Go code between the two statements of [RecordRunOutcome]: from the row
    and the run's result, the new streak, the new flag and the alert to send. *)
Definition outcome_of (passed : bool) (r : TestRow.t) : Z * bool * RunOutcomeAlert.t :=
  let targets := Targets.mk (coalesce r.(TestRow.webhook_url))
                            (coalesce r.(TestRow.pagerduty_routing_key)) in
  let threshold := normalizeFailureThreshold r.(TestRow.failure_threshold) in
  let out recovery failure consecutive :=
    {| RunOutcomeAlert.SendFailure := failure;
       RunOutcomeAlert.SendRecovery := recovery;
       RunOutcomeAlert.WebhookURL := targets.(Targets.WebhookURL);
       RunOutcomeAlert.PagerDutyKey := targets.(Targets.PagerDutyKey);
       RunOutcomeAlert.TestName := coalesce r.(TestRow.name);
       RunOutcomeAlert.Consecutive := consecutive;
       RunOutcomeAlert.Threshold := r.(TestRow.failure_threshold) |} in
  if passed then
    (0%Z, false,
     out (r.(TestRow.alert_active) && Targets.Any targets && r.(TestRow.alerts_enabled)) false 0%Z)
  else
    let consecutive := (r.(TestRow.consecutive_failures) + 1)%Z in
    (consecutive, (threshold <=? consecutive)%Z,
     out false (Targets.Any targets && r.(TestRow.alerts_enabled) &&
                FailureAlertDue consecutive threshold) consecutive).

(** ListDueScheduled's WHERE clause. *)
Definition is_due (now : Z) (r : TestRow.t) : bool :=
  r.(TestRow.schedule_enabled) &&
  match r.(TestRow.schedule_cron) with Some _ => true | None => false end &&
  match r.(TestRow.next_run_at) with Some next => (next <=? now)%Z | None => false end.

(** The rows of tests are stored under their keys. *)
Definition tests_keyed (d : db) : Prop := map_Forall (λ k r, r.(TestRow.uuid) = k) d.(d_tests).

Module TestRepo.
Definition Create (t : Test.t) : act (res unit) := sql (λ now d, insert_test now t d).

Definition GetByID (uuid : string) : act (res Test.t) :=
  sql_query (λ d, match d.(d_tests) !! uuid with
                  | Some r => Ok (scan_test r)
                  | None => Err ErrNoRows
                  end).

(** The lateral join takes the run with the latest [started_at]. *)
Definition list_item (d : db) (r : TestRow.t) : TestListItem.t :=
  {| TestListItem.Test := scan_test r;
     TestListItem.LastRun :=
       (λ run, LastRunSummary.mk run.(TestRun.Status) run.(TestRun.StartedAt) run.(TestRun.DurationMs)) <$>
       head (sort_desc TestRun.StartedAt
         (filter (λ run, run.(TestRun.TestID) = r.(TestRow.uuid)) (map_to_list d.(d_runs)).*2));
     TestListItem.ActiveJob :=
       existsb (λ j, bool_decide (j.(Job.TestID) = r.(TestRow.uuid)) &&
                     bool_decide (j.(Job.Status) ∈ ["queued"; "running"]))
         (map_to_list d.(d_jobs)).*2 |}.

Definition ListWithLastRun : act (res (list TestListItem.t)) :=
  sql_query (λ d,
    Ok (list_item d <$> sort_desc TestRow.created_at (map_to_list d.(d_tests)).*2)).

(** An UPDATE that matches no row is not an error. *)
Definition UpdateConfig (testID : string) (cfg : TestConfigUpdate.t) : act (res unit) :=
  sql (λ _ d,
    match d.(d_tests) !! testID with
    | None => (Ok tt, d)
    | Some r =>
        if fits_row (apply_config cfg r)
        then (Ok tt, set_tests (alter (apply_config cfg) testID) d)
        else (Err int4_error, d)
    end).

Definition ListDueScheduled (now : Z) : act (res (list Test.t)) :=
  sql_query (λ d,
    Ok (scan_due <$>
        take 100 (sort_asc (λ r, default 0%Z r.(TestRow.next_run_at))
                   (filter (λ r, is_due now r = true) (map_to_list d.(d_tests)).*2)))).

Definition UpdateNextRunAt (testID : string) (next : Z) : act (res unit) :=
  sql (λ _ d, (Ok tt, set_tests (alter (set_next_run_at next) testID) d)).

Definition RecordRunOutcome (testID : string) (passed : bool)
    : act (res (option RunOutcomeAlert.t)) :=
  transaction (
    try r := sql_query (λ d, match d.(d_tests) !! testID with
                             | Some r => Ok r
                             | None => Err ErrNoRows
                             end) in
    let '(consecutive, alertActive, out) := outcome_of passed r in
    try _ := sql (λ _ d,
      if fits_row (set_outcome consecutive alertActive r)
      then (Ok tt, set_tests (alter (set_outcome consecutive alertActive) testID) d)
      else (Err int4_error, d)) in
    mret (Ok (if negb out.(RunOutcomeAlert.SendFailure) &&
                 negb out.(RunOutcomeAlert.SendRecovery)
              then None else Some out))).

(** A foreign key without CASCADE: the row must not be referenced any more. *)
Definition delete_test_row (testID : string) (d : db) : res nat * db :=
  if bool_decide (map_Forall (λ _ run, run.(TestRun.TestID) ≠ testID) d.(d_runs)) &&
     bool_decide (map_Forall (λ _ j, j.(Job.TestID) ≠ testID) d.(d_jobs))
  then (Ok (match d.(d_tests) !! testID with Some _ => 1 | None => 0 end),
        set_env (filter (λ kv, kv.1.1 ≠ testID)) (set_tests (delete testID) d))
  else (Err (ErrExternal "update or delete on table tests violates foreign key constraint"), d).

(** Deleting runs takes their screenshots along (ON DELETE CASCADE). *)
Definition shot_of (P : TestRun.t → bool) (d : db) (s : Screenshot.t) : bool :=
  match d.(d_runs) !! s.(Screenshot.RunID) with Some run => P run | None => false end.
Definition delete_runs_where (P : TestRun.t → bool) (d : db) : db :=
  set_shots (filter (λ kv, shot_of P d kv.2 = false))
    (set_runs (filter (λ kv, P kv.2 = false)) d).

Definition Delete (testID : string) : act (res unit) :=
  transaction (
    try _ := sql (λ _ d, (Ok tt, delete_runs_where (λ run, bool_decide (run.(TestRun.TestID) = testID)) d)) in
    try _ := sql (λ _ d, (Ok tt, set_jobs (filter (λ kv, kv.2.(Job.TestID) ≠ testID)) d)) in
    try n := sql (λ _ d, delete_test_row testID d) in
    if decide (n = 0) then mret (Err ErrNoRows) else mret (Ok tt)).
End TestRepo.

(** ** Lemmas and theorems *)

#[global] Arguments set_outcome : simpl never.

(** Without faults, [RecordRunOutcome] stores what [outcome_of] computes. *)
Lemma RecordRunOutcome_run testID passed w r :
  w.(w_faults) = [] → w.(w_db).(d_tests) !! testID = Some r →
  TestRepo.RecordRunOutcome testID passed w =
    let '(consecutive, alertActive, out) := outcome_of passed r in
    if fits_row (set_outcome consecutive alertActive r)
    then (Ok (if negb out.(RunOutcomeAlert.SendFailure) && negb out.(RunOutcomeAlert.SendRecovery)
              then None else Some out),
          with_db (set_tests (alter (set_outcome consecutive alertActive) testID) w.(w_db)) w)
    else (Err int4_error, w).
Proof.
  intros Hf Hr. unfold TestRepo.RecordRunOutcome, sql_query.
  rewrite transaction_no_fault.
  - unfold mbind, M_bind. rewrite sql_no_fault by done. rewrite Hr.
    destruct (outcome_of passed r) as [[c a] out].
    rewrite sql_no_fault by done. simpl. destruct (fits_row _); simpl; [done|].
    by destruct w.
  - done.
  - intros a w'. unfold mbind, M_bind. rewrite sql_no_fault by done. rewrite Hr.
    destruct (outcome_of passed r) as [[c a'] out].
    rewrite sql_no_fault by done. destruct (fits_row _); simpl; by intros [= <- <-].
Qed.

(** The outcomes of a test's runs, oldest first, recorded one after the other. *)
Definition record_all (testID : string) (outcomes : list bool) (w : world) : world :=
  foldl (λ w passed, (TestRepo.RecordRunOutcome testID passed w).2) w outcomes.

(** [n] failures end the list, and no more. *)
Definition ends_with_failures (outcomes : list bool) (n : nat) : Prop :=
  ∃ l, outcomes = l ++ replicate n false ∧ (l = [] ∨ last l = Some true).

Definition channels_on (r : TestRow.t) : bool :=
  (negb (bool_decide (coalesce r.(TestRow.webhook_url) = "")) ||
   negb (bool_decide (coalesce r.(TestRow.pagerduty_routing_key) = ""))) &&
  r.(TestRow.alerts_enabled).

Lemma fits_row_outcome r c a :
  fits_row r = true → fits_int4 c = true → fits_row (set_outcome c a r) = true.
Proof. unfold fits_row. simpl. intros H ->. reflect_bools. by rewrite !andb_true_iff. Qed.

Lemma set_outcome_twice c a c' a' r : set_outcome c a (set_outcome c' a' r) = set_outcome c a r.
Proof. done. Qed.

(** The same when the streak is that of a row the table already holds. *)
Lemma RecordRunOutcome_streak testID passed w r n b :
  w.(w_faults) = [] → w.(w_db).(d_tests) !! testID = Some (set_outcome (Z.of_nat n) b r) →
  fits_row r = true → (Z.of_nat n < 2 ^ 31 - 1)%Z →
  let '(consecutive, alertActive, out) := outcome_of passed (set_outcome (Z.of_nat n) b r) in
  TestRepo.RecordRunOutcome testID passed w =
    (Ok (if negb out.(RunOutcomeAlert.SendFailure) && negb out.(RunOutcomeAlert.SendRecovery)
         then None else Some out),
     with_db (set_tests (alter (set_outcome consecutive alertActive) testID) w.(w_db)) w).
Proof.
  intros Hf Hr Hfit Hn. rewrite (RecordRunOutcome_run _ _ _ _ Hf Hr).
  destruct (outcome_of passed _) as [[c a] out] eqn:E.
  rewrite set_outcome_twice, fits_row_outcome; [done..|].
  unfold outcome_of in E. unfold fits_int4. destruct passed; injection E as <- _ _; [done|].
  simpl. apply andb_true_iff; rewrite Z.leb_le, Z.ltb_lt. lia.
Qed.

Lemma ends_with_failures_snoc l n passed :
  ends_with_failures l n → ends_with_failures (l ++ [passed]) (if passed then 0 else S n).
Proof.
  intros (l0 & -> & Hl). destruct passed.
  - exists ((l0 ++ replicate n false) ++ [true]). split; [by rewrite app_nil_r|].
    right. by rewrite last_snoc.
  - exists l0. split; [|done]. by rewrite replicate_S_end, <-app_assoc.
Qed.

Lemma ends_with_failures_length l n : ends_with_failures l n → n ≤ length l.
Proof. intros (l0 & -> & _). rewrite length_app, length_replicate. lia. Qed.

Lemma normalize_positive n : ((normalizeFailureThreshold n <=? 0) = false)%Z.
Proof. unfold normalizeFailureThreshold. apply Z.leb_gt. case_match; reflect_bools; lia. Qed.

(** The row after a history of outcomes: [n] failures in a row. *)
Lemma record_all_row testID outcomes w r :
  w.(w_faults) = [] → w.(w_db).(d_tests) !! testID = Some r →
  fits_row r = true → r.(TestRow.consecutive_failures) = 0%Z → r.(TestRow.alert_active) = false →
  (Z.of_nat (length outcomes) < 2 ^ 31)%Z →
  ∃ n, ends_with_failures outcomes n ∧
    (record_all testID outcomes w).(w_faults) = [] ∧
    (record_all testID outcomes w).(w_db).(d_tests) !! testID =
      Some (set_outcome (Z.of_nat n)
              (normalizeFailureThreshold r.(TestRow.failure_threshold) <=? Z.of_nat n)%Z r).
Proof.
  intros Hf Hr Hfit Hc Ha Hlen. induction outcomes as [|passed l IH] using rev_ind.
  - exists 0. split; [exists []; auto|]. split; [done|]. simpl. rewrite Hr. f_equal.
    change (Z.of_nat 0) with 0%Z. rewrite normalize_positive.
    destruct r; simpl in *; by subst.
  - rewrite length_app in Hlen. simpl in Hlen.
    destruct IH as (n & Hn & Hf' & Hr'); [lia|].
    exists (if passed then 0 else S n). split; [by apply ends_with_failures_snoc|].
    pose proof (ends_with_failures_length _ _ Hn) as Hnl.
    unfold record_all in *. rewrite foldl_app. simpl.
    pose proof (RecordRunOutcome_streak testID passed _ r n _ Hf' Hr' Hfit ltac:(lia)) as Hrun.
    destruct passed; cbn [outcome_of] in Hrun; rewrite Hrun; simpl;
      rewrite lookup_alter_eq, Hr'; (split; [done|]); simpl; rewrite set_outcome_twice.
    + change (Z.of_nat 0) with 0%Z. by rewrite normalize_positive.
    + by replace (Z.of_nat n + 1)%Z with (Z.of_nat (S n)) by lia.
Qed.

(** Which alert comes out of a run, from a streak of [n] failures. *)
Lemma streak_alert testID passed w r n b :
  w.(w_faults) = [] → w.(w_db).(d_tests) !! testID = Some (set_outcome (Z.of_nat n) b r) →
  fits_row r = true → (Z.of_nat n < 2 ^ 31 - 1)%Z →
  ∃ a, (TestRepo.RecordRunOutcome testID passed w).1 = Ok a ∧
    ((∃ out, a = Some out ∧ out.(RunOutcomeAlert.SendFailure) = true) ↔
     passed = false ∧ channels_on r = true ∧
     FailureAlertDue (Z.of_nat (S n)) (normalizeFailureThreshold r.(TestRow.failure_threshold)) = true) ∧
    ((∃ out, a = Some out ∧ out.(RunOutcomeAlert.SendRecovery) = true) ↔
     passed = true ∧ channels_on r = true ∧ b = true).
Proof.
  intros Hf Hr Hfit Hn. pose proof (RecordRunOutcome_streak _ passed _ _ _ _ Hf Hr Hfit Hn) as Hrun.
  destruct (outcome_of passed _) as [[c a] out] eqn:E. rewrite Hrun.
  eexists; split; [reflexivity|].
  assert (out.(RunOutcomeAlert.SendFailure) = negb passed && channels_on r &&
     FailureAlertDue (Z.of_nat (S n)) (normalizeFailureThreshold r.(TestRow.failure_threshold)) ∧
    out.(RunOutcomeAlert.SendRecovery) = passed && channels_on r && b) as [HF HR].
  { unfold outcome_of in E. replace (Z.of_nat (S n)) with (Z.of_nat n + 1)%Z by lia.
    unfold channels_on. destruct passed; injection E as _ _ <-; cbn; split; try done.
    by destruct b; rewrite ?andb_true_r, ?andb_false_r. }
  split; (split; [intros (? & Hout & Hflag); destruct (_ && negb _); [done|]; injection Hout as <-|]).
  - rewrite HF in Hflag. by destruct passed, (channels_on r), (FailureAlertDue _ _).
  - intros (-> & Hc & Hd). exists out. rewrite HF, Hc, Hd. done.
  - rewrite HR in Hflag. by destruct passed, (channels_on r), b.
  - intros (-> & Hc & ->). exists out. rewrite HF, HR, Hc. done.
Qed.

Lemma FailureAlertDue_mod n t :
  (0 < t)%Z → FailureAlertDue (Z.of_nat (S n)) t = true ↔ (Z.of_nat (S n) mod t = 0)%Z.
Proof.
  intros Ht. unfold FailureAlertDue. rewrite (proj2 (Z.leb_gt t 0)) by done.
  rewrite andb_true_iff, Z.leb_le, Z.eqb_eq, Z.rem_mod_nonneg by lia. split; [tauto|].
  intros Hm. split; [|done]. apply Z.mod_divide in Hm as [k Hk]; [|lia].
  rewrite Hk. assert (0 < k)%Z by nia. nia.
Qed.

(** C7: the alert state is a function of the history.  Recorded without errors
    from a fresh test, [consecutive_failures] is the number of failures that end
    the history and [alert_active] says whether it reached the threshold; the next
    failure alerts exactly when the streak becomes a multiple of the threshold, and
    the next success sends a recovery exactly when the streak had reached it. *)
Theorem record_outcome_streak testID outcomes w r :
  w.(w_faults) = [] → w.(w_db).(d_tests) !! testID = Some r →
  fits_row r = true → r.(TestRow.consecutive_failures) = 0%Z → r.(TestRow.alert_active) = false →
  (Z.of_nat (length outcomes) < 2 ^ 31 - 1)%Z →
  let w' := record_all testID outcomes w in
  let threshold := normalizeFailureThreshold r.(TestRow.failure_threshold) in
  ∃ n r', ends_with_failures outcomes n ∧
    w'.(w_db).(d_tests) !! testID = Some r' ∧
    r'.(TestRow.consecutive_failures) = Z.of_nat n ∧
    r'.(TestRow.alert_active) = (threshold <=? Z.of_nat n)%Z ∧
    (∃ a, (TestRepo.RecordRunOutcome testID false w').1 = Ok a ∧
      (channels_on r = true ∧ (Z.of_nat (S n) mod threshold = 0)%Z ↔
       ∃ out, a = Some out ∧ out.(RunOutcomeAlert.SendFailure) = true)) ∧
    (∃ a, (TestRepo.RecordRunOutcome testID true w').1 = Ok a ∧
      (channels_on r = true ∧ (threshold ≤ Z.of_nat n)%Z ↔
       ∃ out, a = Some out ∧ out.(RunOutcomeAlert.SendRecovery) = true)).
Proof.
  intros Hf Hr Hfit Hc Ha Hlen w' threshold.
  destruct (record_all_row testID outcomes w r) as (n & Hn & Hf' & Hr'); try done; [lia|].
  exists n. eexists. split; [done|]. split; [exact Hr'|]. simpl. split; [done|]. split; [done|].
  pose proof (ends_with_failures_length _ _ Hn) as Hnl.
  assert (0 < threshold)%Z as Ht.
  { apply Z.leb_gt, normalize_positive. }
  destruct (streak_alert testID false _ r n _ Hf' Hr' Hfit ltac:(lia)) as (a & Ha' & Hfail & _).
  destruct (streak_alert testID true _ r n _ Hf' Hr' Hfit ltac:(lia)) as (a' & Ha'' & _ & Hrec).
  fold threshold in Hfail, Hrec. rewrite FailureAlertDue_mod in Hfail by done. rewrite Z.leb_le in Hrec.
  split; [exists a|exists a']; naive_solver.
Qed.

(** The tables once a test is gone. *)
Definition without_test (testID : string) (d : db) : db :=
  let d1 := TestRepo.delete_runs_where (λ run, bool_decide (run.(TestRun.TestID) = testID)) d in
  set_env (filter (λ kv, kv.1.1 ≠ testID)) (set_tests (delete testID)
    (set_jobs (filter (λ kv, kv.2.(Job.TestID) ≠ testID)) d1)).

Lemma delete_test_row_ok testID d :
  (∀ k run, d.(d_runs) !! k = Some run → run.(TestRun.TestID) ≠ testID) →
  (∀ k j, d.(d_jobs) !! k = Some j → j.(Job.TestID) ≠ testID) →
  TestRepo.delete_test_row testID d =
    (Ok (match d.(d_tests) !! testID with Some _ => 1 | None => 0 end),
     set_env (filter (λ kv, kv.1.1 ≠ testID)) (set_tests (delete testID) d)).
Proof.
  intros Hr Hj. unfold TestRepo.delete_test_row.
  rewrite !bool_decide_eq_true_2; [done| |]; intros k x; simpl; eauto.
Qed.

(** The body of [Delete], between BEGIN and COMMIT. *)
Lemma Delete_run testID w :
  match TestRepo.Delete testID w with
  | (Ok _, w') => is_Some (w.(w_db).(d_tests) !! testID) ∧ w'.(w_db) = without_test testID w.(w_db)
  | (Err _, w') => w'.(w_db) = w.(w_db)
  end.
Proof.
  unfold TestRepo.Delete. match goal with |- context [transaction ?b w] => pose proof (transaction_spec b w) as H end.
  destruct (transaction _ w) as [[u|e] w']; [|done].
  destruct H as (fs & w2 & fs2 & Hb & ->). revert Hb. unfold mbind, M_bind.
  do 3 (sql_cases; [done|]).
  simpl. rewrite delete_test_row_ok.
  - simpl. destruct (d_tests (w_db w) !! testID) as [r|]; simpl; [|done].
    intros [= <- <-]. split; [by eexists|done].
  - simpl. intros k run [_ H]%map_lookup_filter_Some. by apply bool_decide_eq_false in H.
  - simpl. by intros k j [_ H]%map_lookup_filter_Some.
Qed.

(** Deleting a test removes its row, its runs with their screenshots, its
    jobs and its variables, and nothing else; a deletion that fails, whichever
    statement fails, changes no table. *)
Theorem Delete_removes_test_only testID w :
  let d := w.(w_db) in
  match TestRepo.Delete testID w with
  | (Ok _, w') =>
      let d' := w'.(w_db) in
      is_Some (d.(d_tests) !! testID) ∧
      d'.(d_tests) = delete testID d.(d_tests) ∧
      (∀ k r, d'.(d_runs) !! k = Some r ↔ d.(d_runs) !! k = Some r ∧ r.(TestRun.TestID) ≠ testID) ∧
      (∀ k j, d'.(d_jobs) !! k = Some j ↔ d.(d_jobs) !! k = Some j ∧ j.(Job.TestID) ≠ testID) ∧
      (∀ k s, d'.(d_shots) !! k = Some s ↔ d.(d_shots) !! k = Some s ∧
         ∀ r, d.(d_runs) !! s.(Screenshot.RunID) = Some r → r.(TestRun.TestID) ≠ testID) ∧
      (∀ k v, d'.(d_env) !! k = Some v ↔ d.(d_env) !! k = Some v ∧ k.1 ≠ testID)
  | (Err _, w') => w'.(w_db) = d
  end.
Proof.
  intros d. pose proof (Delete_run testID w) as H.
  destruct (TestRepo.Delete testID w) as [[u|e] w']; [|done]. destruct H as [Hex Hd].
  fold d in Hex, Hd. simpl. rewrite Hd. simpl. split; [done|]. split; [done|].
  split; [|split; [|split]]; intros k x; rewrite map_lookup_filter_Some; simpl.
  - by rewrite bool_decide_eq_false.
  - done.
  - unfold TestRepo.shot_of. split; intros [Hk Hx]; split; try done.
    + intros r Hr. rewrite Hr in Hx. by apply bool_decide_eq_false in Hx.
    + case_match; [|done]. apply bool_decide_eq_false. by apply Hx.
  - done.
Qed.

(** The scheduler is given at most a hundred tests, each with a due, enabled
    schedule, the longest overdue first; a due test is left out only when a
    hundred others are ahead of it. *)
Theorem ListDueScheduled_spec now w :
  match TestRepo.ListDueScheduled now w with
  | (Ok due, w') =>
      w'.(w_db) = w.(w_db) ∧ length due ≤ 100 ∧
      StronglySorted (by_key (λ t, default 0%Z t.(Test.NextRunAt))) due ∧
      (∀ t, t ∈ due → ∃ k r, w.(w_db).(d_tests) !! k = Some r ∧ is_due now r = true ∧ t = scan_due r) ∧
      (∀ k r, w.(w_db).(d_tests) !! k = Some r → is_due now r = true →
         scan_due r ∈ due ∨
         (length due = 100 ∧ ∀ t, t ∈ due → by_key (λ t, default 0%Z t.(Test.NextRunAt)) t (scan_due r)))
  | (Err _, w') => w'.(w_db) = w.(w_db)
  end.
Proof.
  unfold TestRepo.ListDueScheduled, sql_query.
  match goal with |- context [sql ?q w] => destruct (sql_spec q w) as [(m & f & ->)|(f & ->)] end; [done|].
  simpl. set (rows := filter _ _). set (key := λ r : TestRow.t, default 0%Z r.(TestRow.next_run_at)).
  pose proof (sort_asc_sorted key rows) as Hs.
  assert (∀ r, r ∈ sort_asc key rows ↔ is_due now r = true ∧ ∃ k, d_tests (w_db w) !! k = Some r) as Hin.
  { intros r. rewrite elem_of_sort_asc. unfold rows. by rewrite list_elem_of_filter, elem_of_rows. }
  set (l := sort_asc key rows) in *. split; [done|].
  split; [rewrite length_fmap, length_take; lia|]. split; [|split].
  - assert (StronglySorted (by_key key) (take 100 l)) as Ht.
    { rewrite <-(take_drop 100 l) in Hs. by eapply StronglySorted_app_1_l. }
    clear -Ht. induction Ht as [|r l' Hl IH Hr]; simpl; constructor; [done|].
    by apply Forall_fmap.
  - intros t (r & -> & Hr)%list_elem_of_fmap. apply elem_of_take in Hr as (i & Hi & _).
    apply list_elem_of_lookup_2, Hin in Hi as [Hdue [k Hk]]. eauto.
  - intros k r Hk Hdue. assert (r ∈ l) as Hr by (apply Hin; eauto).
    rewrite <-(take_drop 100 l) in Hr, Hs. apply elem_of_app in Hr as [Hr|Hr].
    + left. by apply list_elem_of_fmap_2.
    + right. apply list_elem_of_lookup_1 in Hr as Hi. destruct Hi as [i Hi%lookup_lt_Some].
      rewrite length_drop in Hi. split; [rewrite length_fmap, length_take; lia|].
      intros t (r' & -> & Hr')%list_elem_of_fmap.
      change (by_key key r' r). by eapply (StronglySorted_app_1_elem_of _ _ _ _ _ Hs).
Qed.
