(* ===== verification/JobRepo.v ===== *)
(** * The job queue (src/repository/job_repository.go, src/queue/queue.go)

    The table [jobs] as a queue.  Every method is one SQL statement, hence one
    atomic action; [Queue]'s methods add the log lines the global theorems
    refer to. *)

From S2P Require Import Prelude.
From S2P Require Import Prog.
From S2P Require Import GoStrings.
From S2P Require Import Model.
From S2P Require Import World.

(** ** UPDATEs of one row *)
Definition set_job_status (status : string) (finished_at : Z) (msg : option string)
    (j : Job.t) : Job.t :=
  Job.mk j.(Job.UUID) j.(Job.TestID) status j.(Job.Trigger) j.(Job.QueuedAt)
    j.(Job.StartedAt) (Some finished_at) j.(Job.WorkerID) msg.

Definition set_job_running (worker : string) (started_at : Z) (j : Job.t) : Job.t :=
  Job.mk j.(Job.UUID) j.(Job.TestID) "running" j.(Job.Trigger) j.(Job.QueuedAt)
    (Some started_at) j.(Job.FinishedAt) (Some worker) j.(Job.ErrorMessage).

(** status IN ('queued', 'running') *)
Definition is_active (j : Job.t) : bool := bool_decide (j.(Job.Status) ∈ ["queued"; "running"]).

Definition active_for (testID : string) (j : Job.t) : bool :=
  bool_decide (j.(Job.TestID) = testID) && is_active j.

(** UPDATE jobs SET ... WHERE p *)
Definition update_jobs (p : Job.t → bool) (f : Job.t → Job.t) (d : db) : db :=
  set_jobs (fmap (λ j, if p j then f j else j)) d.

(** The rows a WHERE clause selects. *)
Definition jobs_where (p : Job.t → bool) (d : db) : list Job.t :=
  filter (λ j, p j = true) (map_to_list d.(d_jobs)).*2.

Definition stale_message : string := "job abandoned: worker stopped or crashed before finishing".

(** FailStale's WHERE clause: joined with the job's test, running, and started
    more than the test's timeout and the grace period ago. *)
Definition is_stale (grace now : Z) (d : db) (j : Job.t) : bool :=
  match d.(d_tests) !! j.(Job.TestID) with
  | None => false
  | Some t =>
      bool_decide (j.(Job.Status) = "running") &&
      match j.(Job.StartedAt) with
      | None => false
      | Some started =>
          (started + t.(TestRow.timeout_seconds) * Second + grace <? now)%Z
      end
  end.

Module JobRepo.
(** The row is stored as given; [jobs.test_id] references [tests]. *)
Definition Create (job : Job.t) : act (res unit) :=
  sql (λ _ d,
    match d.(d_jobs) !! job.(Job.UUID), d.(d_tests) !! job.(Job.TestID) with
    | Some _, _ => (Err (ErrExternal "duplicate key value violates unique constraint"), d)
    | None, None => (Err (ErrExternal "insert or update on table jobs violates foreign key constraint"), d)
    | None, Some _ =>
        let row := Job.mk job.(Job.UUID) job.(Job.TestID) job.(Job.Status) job.(Job.Trigger)
                     job.(Job.QueuedAt) None None None None in
        (Ok tt, set_jobs (<[job.(Job.UUID) := row]>) d)
    end).

Definition ListActiveForTest (testID : string) : act (res (list Job.t)) :=
  sql_query (λ d, Ok (sort_asc Job.QueuedAt (jobs_where (active_for testID) d))).

Definition CancelActiveForTest (testID reason : string) : act (res nat) :=
  sql (λ now d,
    (Ok (length (jobs_where (active_for testID) d)),
     update_jobs (active_for testID) (set_job_status "cancelled" now (Some reason)) d)).

Definition HasActiveJob (testID : string) : act (res bool) :=
  sql_query (λ d, Ok (bool_decide (jobs_where (active_for testID) d ≠ []))).

Definition GetByID (id : string) : act (res Job.t) :=
  sql_query (λ d, match d.(d_jobs) !! id with Some j => Ok j | None => Err ErrNoRows end).

(** The oldest queued job, if any, becomes this worker's. *)
Definition Dequeue (workerID : string) : act (res (option Job.t)) :=
  sql (λ now d,
    match sort_asc Job.QueuedAt (jobs_where (λ j, bool_decide (j.(Job.Status) = "queued")) d) with
    | [] => (Ok None, d)
    | j :: _ =>
        let j' := set_job_running workerID now j in
        (Ok (Some j'), set_jobs (<[j.(Job.UUID) := j']>) d)
    end).

(** Unconditional: the row takes the new status whatever the old one is. *)
Definition UpdateStatus (jobID status : string) (msg : option string) : act (res unit) :=
  sql (λ now d, (Ok tt, set_jobs (alter (set_job_status status now msg) jobID) d)).

Definition ListByTestID (testID : string) : act (res (list Job.t)) :=
  sql_query (λ d, Ok (sort_desc Job.QueuedAt
    (jobs_where (λ j, bool_decide (j.(Job.TestID) = testID)) d))).

Definition FailStale (grace : Z) : act (res (list string)) :=
  sql (λ now d,
    (Ok (Job.UUID <$> jobs_where (is_stale grace now d) d),
     update_jobs (is_stale grace now d) (set_job_status "failed" now (Some stale_message)) d)).
End JobRepo.

Definition TriggerManual : string := "manual".
Definition TriggerScheduled : string := "scheduled".

Module Queue.
Section queue.
Context `{Ext}.

(** [uuid.NewString] and [time.Now] are local to the goroutine, so drawing
    them and inserting the row is one atomic action. *)
Definition Enqueue (testID trigger : string) : act (res Job.t) :=
  let trigger := if decide (trigger = "") then TriggerManual else trigger in
  uuid ← NewString;
  now ← Now;
  let job := Job.mk uuid testID "queued" trigger now None None None None in
  try _ := JobRepo.Create job in
  _ ← emit (EvEnqueued uuid testID trigger);
  mret (Ok job).
End queue.

Definition Dequeue (workerID : string) : act (res (option Job.t)) :=
  try job := JobRepo.Dequeue workerID in
  match job with
  | None => mret (Ok None)
  | Some j => _ ← emit (EvDequeued j.(Job.UUID) workerID); mret (Ok (Some j))
  end.

Definition Complete (jobID status : string) (msg : option string) : act (res unit) :=
  try _ := JobRepo.UpdateStatus jobID status msg in
  _ ← emit (EvCompleted jobID status);
  mret (Ok tt).

Definition GetStatus : string → act (res Job.t) := JobRepo.GetByID.
Definition ListActiveForTest : string → act (res (list Job.t)) := JobRepo.ListActiveForTest.
Definition CancelActiveForTest : string → string → act (res nat) := JobRepo.CancelActiveForTest.
Definition FailStale : Z → act (res (list string)) := JobRepo.FailStale.
End Queue.

(** ** Lemmas and theorems *)

(** Every row is stored under its primary key. *)
Definition jobs_keyed (d : db) : Prop := map_Forall (λ k j, j.(Job.UUID) = k) d.(d_jobs).

Lemma elem_of_jobs_where p d j :
  j ∈ jobs_where p d ↔ p j = true ∧ ∃ k, d.(d_jobs) !! k = Some j.
Proof. unfold jobs_where. by rewrite list_elem_of_filter, elem_of_rows. Qed.

Lemma jobs_where_nil p d :
  jobs_where p d = [] ↔ ∀ k j, d.(d_jobs) !! k = Some j → p j = false.
Proof.
  split.
  - intros Hnil k j Hk. destruct (p j) eqn:Hp; [|done].
    assert (j ∈ jobs_where p d) as Hj by (apply elem_of_jobs_where; eauto).
    rewrite Hnil in Hj. by apply elem_of_nil in Hj.
  - intros H. destruct (jobs_where p d) as [|j l] eqn:E; [done|].
    assert (j ∈ jobs_where p d) as [Hp [k Hk]]%elem_of_jobs_where by (rewrite E; left).
    by rewrite (H k j Hk) in Hp.
Qed.

Lemma update_jobs_lookup p f d k :
  (update_jobs p f d).(d_jobs) !! k = (λ j, if p j then f j else j) <$> d.(d_jobs) !! k.
Proof. unfold update_jobs. simpl. by rewrite lookup_fmap. Qed.

Lemma sort_asc_jobs_nil p d : sort_asc Job.QueuedAt (jobs_where p d) = [] ↔ jobs_where p d = [].
Proof. apply sort_asc_nil. Qed.

Lemma Dequeue_run workerID w :
  jobs_keyed w.(w_db) →
  let jobs := w.(w_db).(d_jobs) in
  match JobRepo.Dequeue workerID w with
  | (Ok (Some j'), w') => ∃ j,
      j' = set_job_running workerID w.(w_now) j ∧
      jobs !! j.(Job.UUID) = Some j ∧ j.(Job.Status) = "queued" ∧
      (∀ k j2, jobs !! k = Some j2 → j2.(Job.Status) = "queued" → (j.(Job.QueuedAt) ≤ j2.(Job.QueuedAt))%Z) ∧
      w'.(w_db) = set_jobs (<[j.(Job.UUID) := j']>) w.(w_db)
  | (Ok None, w') =>
      (∀ k j, jobs !! k = Some j → j.(Job.Status) ≠ "queued") ∧ w'.(w_db) = w.(w_db)
  | (Err _, w') => w'.(w_db) = w.(w_db)
  end.
Proof.
  intros Hkeyed jobs. unfold JobRepo.Dequeue. sql_cases; [done|].
  set (queued := λ j, bool_decide (j.(Job.Status) = "queued")).
  destruct (sort_asc _ _) as [|j l] eqn:E; simpl.
  - split; [|done]. apply sort_asc_jobs_nil in E. intros k j Hk.
    by apply (proj1 (jobs_where_nil queued _) E k j), bool_decide_eq_false in Hk.
  - apply sort_asc_head in E as [[Hq [k Hk]]%elem_of_jobs_where Hmin].
    apply bool_decide_eq_true in Hq. pose proof (Hkeyed k j Hk) as Hkk. simpl in Hkk.
    exists j. rewrite Hkk. repeat split; try done.
    intros k2 j2 Hk2 Hq2. apply Hmin, elem_of_jobs_where. split; [by apply bool_decide_eq_true|eauto].
Qed.

(** C5: the queue is first in, first out.  A claim takes a queued job none of
    which was queued earlier, marks exactly that row as running for the worker
    and returns it; it comes back empty only when nothing is queued, and a claim
    that fails changes nothing. *)
Theorem Dequeue_fifo workerID w :
  jobs_keyed w.(w_db) →
  let jobs := w.(w_db).(d_jobs) in
  match JobRepo.Dequeue workerID w with
  | (Ok (Some j'), w') => ∃ j,
      j' = set_job_running workerID w.(w_now) j ∧
      jobs !! j.(Job.UUID) = Some j ∧ j.(Job.Status) = "queued" ∧
      (∀ k j2, jobs !! k = Some j2 → j2.(Job.Status) = "queued" → (j.(Job.QueuedAt) ≤ j2.(Job.QueuedAt))%Z) ∧
      w'.(w_db) = set_jobs (<[j.(Job.UUID) := j']>) w.(w_db)
  | (Ok None, w') =>
      (∀ k j, jobs !! k = Some j → j.(Job.Status) ≠ "queued") ∧ w'.(w_db) = w.(w_db)
  | (Err _, w') => w'.(w_db) = w.(w_db)
  end.
Proof. apply Dequeue_run. Qed.

(** C6: the stale sweep fails exactly the jobs that are running and started
    longer ago than their test's timeout and the grace period together, and names
    them; a job within its time, a queued one or a finished one is left alone. *)
Theorem FailStale_exact grace w :
  jobs_keyed w.(w_db) →
  let d := w.(w_db) in
  match JobRepo.FailStale grace w with
  | (Ok ids, w') =>
      (∀ k, k ∈ ids ↔ ∃ j t started,
         d.(d_jobs) !! k = Some j ∧ d.(d_tests) !! j.(Job.TestID) = Some t ∧
         j.(Job.Status) = "running" ∧ j.(Job.StartedAt) = Some started ∧
         (started + t.(TestRow.timeout_seconds) * Second + grace < w.(w_now))%Z) ∧
      (∀ k j, d.(d_jobs) !! k = Some j →
         w'.(w_db).(d_jobs) !! k =
           Some (if decide (k ∈ ids) then set_job_status "failed" w.(w_now) (Some stale_message) j else j)) ∧
      (∀ k, d.(d_jobs) !! k = None → w'.(w_db).(d_jobs) !! k = None) ∧
      d_tests w'.(w_db) = d.(d_tests)
  | (Err _, w') => w'.(w_db) = d
  end.
Proof.
  intros Hkeyed d. unfold JobRepo.FailStale. sql_cases; [done|]. fold d.
  assert (∀ k, k ∈ Job.UUID <$> jobs_where (is_stale grace (w_now w) d) d ↔
    ∃ j, d.(d_jobs) !! k = Some j ∧ is_stale grace (w_now w) d j = true) as Hids.
  { intros k. rewrite list_elem_of_fmap. split.
    - intros (j & -> & [Hs [k' Hk]]%elem_of_jobs_where). exists j. by rewrite (Hkeyed k' j Hk).
    - intros (j & Hk & Hs). exists j. rewrite elem_of_jobs_where. rewrite (Hkeyed k j Hk). eauto. }
  split; [|split; [|split; [|done]]].
  - intros k. rewrite Hids. unfold is_stale. split.
    + intros (j & Hk & Hs). destruct (d_tests d !! _) as [t|] eqn:Ht; [|done].
      reflect_bools. destruct (Job.StartedAt j) as [st|] eqn:Hst; [|done]. reflect_bools. eauto 10.
    + intros (j & t & st & Hk & Ht & Hr & Hst & Hlt). exists j. split; [done|].
      rewrite Ht, Hst. rewrite bool_decide_eq_true_2 by done. by apply Z.ltb_lt.
  - intros k j Hk. unfold with_db at 1; cbn [w_db]. rewrite update_jobs_lookup, Hk. simpl. f_equal.
    destruct (is_stale grace (w_now w) d j) eqn:Hs; case_decide as Hin; try done.
    + destruct Hin. apply Hids. eauto.
    + apply Hids in Hin as (j' & Hk' & Hs'). simplify_eq. congruence.
  - intros k Hk. unfold with_db; cbn [w_db]. by rewrite update_jobs_lookup, Hk.
Qed.

(** Cancelling a test's jobs leaves none of them active, counts the ones it
    changed, and touches no other row. *)
Theorem CancelActiveForTest_spec testID reason w :
  match JobRepo.CancelActiveForTest testID reason w with
  | (Ok n, w') =>
      n = length (jobs_where (active_for testID) w.(w_db)) ∧
      jobs_where (active_for testID) w'.(w_db) = [] ∧
      (∀ k j, w.(w_db).(d_jobs) !! k = Some j →
         w'.(w_db).(d_jobs) !! k =
           Some (if active_for testID j
                 then set_job_status "cancelled" w.(w_now) (Some reason) j else j)) ∧
      d_tests w'.(w_db) = w.(w_db).(d_tests) ∧ d_runs w'.(w_db) = w.(w_db).(d_runs)
  | (Err _, w') => w'.(w_db) = w.(w_db)
  end.
Proof.
  unfold JobRepo.CancelActiveForTest. sql_cases; [done|]. split; [done|]. split; [|split; [|done]].
  - apply jobs_where_nil. intros k j. simpl. rewrite lookup_fmap.
    destruct (d_jobs (w_db w) !! k) as [j0|]; simpl; [|done]. intros [= <-].
    destruct (active_for testID j0) eqn:E; [|done].
    unfold active_for, is_active. simpl. apply andb_false_r.
  - intros k j Hk. simpl. by rewrite lookup_fmap, Hk.
Qed.
