(* ===== verification/RunRepo.v ===== *)
(** * The other tables (src/repository: test_run, screenshot, env, retention)

    Runs, screenshots, environment variables and what retention asks of them.
    Each method is one atomic action. *)

From S2P Require Import Prelude.
From S2P Require Import Prog.
From S2P Require Import GoStrings.
From S2P Require Import Model.
From S2P Require Import World.
From S2P Require Import JobRepo.
From S2P Require Import TestRepo.

Definition duplicate_key : error := ErrExternal "duplicate key value violates unique constraint".
Definition foreign_key : error := ErrExternal "insert or update violates foreign key constraint".

Module TestRunRepo.
Definition Create (run : TestRun.t) : act (res unit) :=
  sql (λ _ d,
    match d.(d_runs) !! run.(TestRun.UUID), d.(d_tests) !! run.(TestRun.TestID) with
    | Some _, _ => (Err duplicate_key, d)
    | None, None => (Err foreign_key, d)
    | None, Some _ =>
        if fits_int4 run.(TestRun.DurationMs) && fits_int4 run.(TestRun.LogSizeBytes)
        then (Ok tt, set_runs (<[run.(TestRun.UUID) := run]>) d)
        else (Err int4_error, d)
    end).

Definition GetByID (runID : string) : act (res TestRun.t) :=
  sql_query (λ d, match d.(d_runs) !! runID with Some r => Ok r | None => Err ErrNoRows end).

Definition ListByTestID (testID : string) : act (res (list TestRun.t)) :=
  sql_query (λ d, Ok (sort_desc TestRun.StartedAt
    (filter (λ r, r.(TestRun.TestID) = testID) (map_to_list d.(d_runs)).*2))).
End TestRunRepo.

(** The characters of a UTF-8 text, for VARCHAR(n). *)
Fixpoint char_count (s : string) : Z :=
  match s with
  | EmptyString => 0
  | String c s =>
      (if bool_decide (128 ≤ nat_of_ascii c ∧ nat_of_ascii c < 192) then 0 else 1) + char_count s
  end.
Definition fits_varchar (n : Z) (s : string) : bool := (char_count s <=? n)%Z.

Module ScreenshotRepo.
Definition Create (s : Screenshot.t) : act (res unit) :=
  sql (λ _ d,
    match d.(d_shots) !! s.(Screenshot.UUID), d.(d_runs) !! s.(Screenshot.RunID) with
    | Some _, _ => (Err duplicate_key, d)
    | None, None => (Err foreign_key, d)
    | None, Some _ =>
        if fits_varchar 255 s.(Screenshot.Filename) && fits_varchar 512 s.(Screenshot.StorageKey)
        then (Ok tt, set_shots (<[s.(Screenshot.UUID) := s]>) d)
        else (Err (ErrExternal "value too long for type character varying"), d)
    end).

Definition ListByRunID (runID : string) : act (res (list Screenshot.t)) :=
  sql_query (λ d, Ok (sort_asc Screenshot.CreatedAt
    (filter (λ s, s.(Screenshot.RunID) = runID) (map_to_list d.(d_shots)).*2))).

Definition GetByUUID (uuid : string) : act (res Screenshot.t) :=
  sql_query (λ d, match d.(d_shots) !! uuid with Some s => Ok s | None => Err ErrNoRows end).
End ScreenshotRepo.

(** The variables of one test. *)
Definition env_of (testID : string) (d : db) : gmap (string * string) EnvVar.t :=
  filter (λ kv, kv.1.1 = testID) d.(d_env).

(** ORDER BY on a text column. *)
Definition sort_names {A} (name : A → string) (l : list A) : list A :=
  merge_sort (λ x y, String.le (name x) (name y)) l.

Module EnvRepo.
Definition List (testID : string) : act (res (list EnvVar.t)) :=
  sql_query (λ d, Ok (sort_names EnvVar.Name (map_to_list (env_of testID d)).*2)).

(** The FOR UPDATE on the test's row serialises the writers of one test. *)
Definition Upsert (testID : string) (v : EnvVar.t) (maxVars : nat) : act (res unit) :=
  transaction (
    try _ := sql (λ _ d, (Ok tt, d)) in
    try existing := sql_query (λ d, Ok (bool_decide (is_Some (d.(d_env) !! (testID, v.(EnvVar.Name)))))) in
    let insert :=
      sql (λ now d,
        match d.(d_tests) !! testID with
        | None => (Err foreign_key, d)
        | Some _ =>
            (Ok tt, set_env (<[(testID, v.(EnvVar.Name)) :=
               EnvVar.mk v.(EnvVar.Name) v.(EnvVar.Value) v.(EnvVar.IsSecret) now]>) d)
        end) in
    if existing : bool then insert
    else
      try n := sql_query (λ d, Ok (size (env_of testID d))) in
      if decide (maxVars ≤ n) then mret (Err ErrTooManyEnvVars) else insert).

Definition Delete (testID name : string) : act (res unit) :=
  try n := sql (λ _ d,
    (Ok (match d.(d_env) !! (testID, name) with Some _ => 1 | None => 0 end),
     set_env (delete (testID, name)) d)) in
  if decide (n = 0) then mret (Err ErrNoRows) else mret (Ok tt).
End EnvRepo.

Module ExpiredRun.
Record t := mk { RunID : string; TestID : string; LogURL : string }.
End ExpiredRun.

(** ROW_NUMBER() OVER (PARTITION BY test_id ORDER BY started_at DESC, uuid):
    one more than the number of the test's runs that come first. *)
Definition run_before (r r' : TestRun.t) : bool :=
  bool_decide (r.(TestRun.TestID) = r'.(TestRun.TestID)) &&
  ((r'.(TestRun.StartedAt) <? r.(TestRun.StartedAt))%Z ||
   ((r.(TestRun.StartedAt) =? r'.(TestRun.StartedAt))%Z &&
    String.ltb r.(TestRun.UUID) r'.(TestRun.UUID))).
Definition row_number (d : db) (r : TestRun.t) : nat :=
  S (length (filter (λ r', run_before r' r = true) (map_to_list d.(d_runs)).*2)).

Definition is_expired (maxRuns : Z) (cutoff : option Z) (d : db) (r : TestRun.t) : bool :=
  let rn := Z.of_nat (row_number d r) in
  (1 <? rn)%Z &&
  (((0 <? maxRuns)%Z && (maxRuns <? rn)%Z) ||
   match cutoff with Some c => (r.(TestRun.StartedAt) <? c)%Z | None => false end).

Module RetentionRepo.
Definition ListExpiredRuns (maxRuns : Z) (cutoff : option Z) (limit : nat)
    : act (res (list ExpiredRun.t)) :=
  sql_query (λ d, Ok (
    (λ r, ExpiredRun.mk r.(TestRun.UUID) r.(TestRun.TestID) r.(TestRun.LogURL)) <$>
    take limit (sort_asc TestRun.StartedAt
      (filter (λ r, is_expired maxRuns cutoff d r = true) (map_to_list d.(d_runs)).*2)))).

Definition DeleteRuns (runIDs : list string) : act (res unit) :=
  if decide (runIDs = []) then mret (Ok tt)
  else sql (λ _ d,
    (Ok tt, TestRepo.delete_runs_where (λ r, bool_decide (r.(TestRun.UUID) ∈ runIDs)) d)).

(** A finished job past the cutoff. *)
Definition is_old_job (cutoff : Z) (j : Job.t) : bool :=
  bool_decide (j.(Job.Status) ∈ ["completed"; "failed"; "cancelled"]) &&
  match j.(Job.FinishedAt) with Some f => (f <? cutoff)%Z | None => false end.

Definition DeleteFinishedJobsBefore (cutoff : Z) : act (res nat) :=
  sql (λ _ d,
    (Ok (length (jobs_where (is_old_job cutoff) d)),
     set_jobs (filter (λ kv, is_old_job cutoff kv.2 = false)) d)).
End RetentionRepo.

(** ** Lemmas and theorems: variables *)

Lemma env_of_insert testID k v d :
  env_of testID (set_env (<[k := v]>) d) =
    if decide (k.1 = testID) then <[k := v]> (env_of testID d) else env_of testID d.
Proof.
  unfold env_of. simpl. case_decide as Hk.
  - by rewrite map_filter_insert_True.
  - rewrite map_filter_insert_False by done. apply map_filter_delete_not.
    intros v' Hv'. done.
Qed.

Lemma env_of_lookup testID name d : env_of testID d !! (testID, name) = d.(d_env) !! (testID, name).
Proof.
  unfold env_of. destruct (d_env d !! (testID, name)) as [v|] eqn:E.
  - by apply map_lookup_filter_Some.
  - apply map_lookup_filter_None. by left.
Qed.

(** What a committed [Upsert] did. *)
Lemma Upsert_run testID v maxVars w :
  match EnvRepo.Upsert testID v maxVars w with
  | (Ok _, w') => is_Some (w.(w_db).(d_tests) !! testID) ∧
      (is_Some (w.(w_db).(d_env) !! (testID, v.(EnvVar.Name))) ∨ size (env_of testID w.(w_db)) < maxVars) ∧
      w'.(w_db) = set_env (<[(testID, v.(EnvVar.Name)) :=
        EnvVar.mk v.(EnvVar.Name) v.(EnvVar.Value) v.(EnvVar.IsSecret) w.(w_now)]>) w.(w_db)
  | (Err _, w') => w'.(w_db) = w.(w_db)
  end.
Proof.
  unfold EnvRepo.Upsert. match goal with |- context [transaction ?b w] => pose proof (transaction_spec b w) as H end.
  destruct (transaction _ w) as [[u|e] w']; [|done].
  destruct H as (fs & w2 & fs2 & Hb & ->). revert Hb. unfold mbind, M_bind.
  do 2 (sql_cases; [done|]). cbn [with_db with_faults w_db].
  case_bool_decide as Hex.
  - sql_cases; [done|]. cbn [with_db with_faults w_db w_now].
    destruct (d_tests (w_db w) !! testID); simpl; [|done]. intros [= <- <-]. eauto.
  - sql_cases; [done|]. cbn [with_db with_faults w_db w_now]. case_decide as Hn; [done|].
    sql_cases; [done|]. cbn [with_db with_faults w_db w_now].
    destruct (d_tests (w_db w) !! testID); simpl; [|done]. intros [= <- <-].
    split; [eauto|]. split; [right; lia|done].
Qed.

(** An upsert with room, or to a name that exists, stays within the limit. *)
Lemma upsert_size testID name v maxVars d :
  (∀ t, size (env_of t d) ≤ maxVars) →
  is_Some (d.(d_env) !! (testID, name)) ∨ size (env_of testID d) < maxVars →
  ∀ t, size (env_of t (set_env (<[(testID, name) := v]>) d)) ≤ maxVars.
Proof.
  intros Hlim Hroom t. rewrite env_of_insert. simpl. case_decide as Ht; [subst t|done].
  destruct (d_env d !! (testID, name)) as [v0|] eqn:E.
  - rewrite map_size_insert_Some; [done|]. by rewrite env_of_lookup, E.
  - rewrite map_size_insert_None by by rewrite env_of_lookup.
    destruct Hroom as [[? [=]]|]; lia.
Qed.

(** No sequence of writes takes a test past the limit of variables: an
    upsert keeps every test within it, stores the value under its name when it
    succeeds, and changes nothing when it fails. *)
Theorem Upsert_keeps_limit testID v maxVars w :
  (∀ t, size (env_of t w.(w_db)) ≤ maxVars) →
  let '(r, w') := EnvRepo.Upsert testID v maxVars w in
  (∀ t, size (env_of t w'.(w_db)) ≤ maxVars) ∧
  (∀ k, k ≠ (testID, v.(EnvVar.Name)) → w'.(w_db).(d_env) !! k = w.(w_db).(d_env) !! k) ∧
  (if is_ok r
   then w'.(w_db).(d_env) !! (testID, v.(EnvVar.Name)) =
          Some (EnvVar.mk v.(EnvVar.Name) v.(EnvVar.Value) v.(EnvVar.IsSecret) w.(w_now))
   else w'.(w_db) = w.(w_db)).
Proof.
  intros Hlim. pose proof (Upsert_run testID v maxVars w) as H.
  destruct (EnvRepo.Upsert testID v maxVars w) as [[u|e] w']; simpl; [|by rewrite H].
  destruct H as (_ & Hroom & ->). split; [|split].
  - by apply upsert_size.
  - intros k Hk. simpl. by rewrite lookup_insert_ne.
  - simpl. by rewrite lookup_insert_eq.
Qed.

(** A test has room for a variable: a new one, or a new value for an old one. *)
Definition has_room (testID name : string) (maxVars : nat) (d : db) : Prop :=
  is_Some (d.(d_env) !! (testID, name)) ∨ size (env_of testID d) < maxVars.
#[export] Instance has_room_dec testID name maxVars d : Decision (has_room testID name maxVars d) := _.

Lemma Upsert_no_fault testID v maxVars w :
  w.(w_faults) = [] → is_Some (w.(w_db).(d_tests) !! testID) →
  EnvRepo.Upsert testID v maxVars w =
    if decide (has_room testID v.(EnvVar.Name) maxVars w.(w_db))
    then (Ok tt, with_db (set_env (<[(testID, v.(EnvVar.Name)) :=
            EnvVar.mk v.(EnvVar.Name) v.(EnvVar.Value) v.(EnvVar.IsSecret) w.(w_now)]>) w.(w_db)) w)
    else (Err ErrTooManyEnvVars, w).
Proof.
  intros Hf [t Ht]. unfold EnvRepo.Upsert, has_room. rewrite transaction_no_fault; [|done|].
  - unfold mbind, M_bind. do 2 sql_runs. case_bool_decide as Hex.
    + sql_runs. rewrite Ht, decide_True by auto. done.
    + sql_runs. case_decide as Hn.
      * rewrite decide_False; [by destruct w|]. intros [?|?]; [done|lia].
      * sql_runs. rewrite Ht, decide_True; [done|]. right. lia.
  - intros a w'. unfold mbind, M_bind. do 2 sql_runs.
    case_bool_decide as Hex; sql_runs.
    + rewrite Ht. by intros [= <- <-].
    + case_decide; [done|]. sql_runs. rewrite Ht. by intros [= <- <-].
Qed.

(** Without database errors an upsert to an existing test succeeds exactly
    when it replaces a variable or the test has room for one more; otherwise the
    error is [ErrTooManyEnvVars]. *)
Theorem Upsert_decides testID v maxVars w :
  w.(w_faults) = [] → is_Some (w.(w_db).(d_tests) !! testID) →
  (EnvRepo.Upsert testID v maxVars w).1 =
    if decide (has_room testID v.(EnvVar.Name) maxVars w.(w_db))
    then Ok tt else Err ErrTooManyEnvVars.
Proof. intros Hf Ht. rewrite Upsert_no_fault by done. by case_decide. Qed.

(** ** Lemmas and theorems: expired runs *)

Definition runs_keyed (d : db) : Prop := map_Forall (λ k r, r.(TestRun.UUID) = k) d.(d_runs).

(** The run of its test that no other run comes before. *)
Definition newest (d : db) (r : TestRun.t) : Prop :=
  d.(d_runs) !! r.(TestRun.UUID) = Some r ∧
  ∀ k r', d.(d_runs) !! k = Some r' → run_before r' r = false.

Lemma row_number_newest d r : newest d r → row_number d r = 1.
Proof.
  intros [_ H]. unfold row_number. f_equal. apply length_zero_iff_nil.
  destruct (filter _ _) as [|r' l] eqn:E; [done|].
  assert (r' ∈ filter (λ r', run_before r' r = true) (map_to_list (d_runs d)).*2) as Hr'
    by (rewrite E; left).
  apply list_elem_of_filter in Hr' as [Hb [k Hk]%elem_of_rows]. by rewrite (H k r' Hk) in Hb.
Qed.

Lemma newest_not_expired maxRuns cutoff d r : newest d r → is_expired maxRuns cutoff d r = false.
Proof. intros H. unfold is_expired. by rewrite row_number_newest. Qed.

Lemma ListExpiredRuns_run maxRuns cutoff limit w :
  match RetentionRepo.ListExpiredRuns maxRuns cutoff limit w with
  | (Ok l, w') => (∃ fs, w' = with_faults fs w) ∧ length l ≤ limit ∧
      ∀ e, e ∈ l → ∃ k r, w.(w_db).(d_runs) !! k = Some r ∧
        is_expired maxRuns cutoff w.(w_db) r = true ∧
        e = ExpiredRun.mk r.(TestRun.UUID) r.(TestRun.TestID) r.(TestRun.LogURL)
  | (Err _, w') => ∃ fs, w' = with_faults fs w
  end.
Proof.
  unfold RetentionRepo.ListExpiredRuns. sql_cases; [by eexists|].
  split; [by eexists|]. split; [rewrite length_fmap, length_take; lia|].
  intros e (r & -> & Hr)%list_elem_of_fmap. apply elem_of_take in Hr as (i & Hi & _).
  apply list_elem_of_lookup_2 in Hi. rewrite elem_of_sort_asc in Hi.
  apply list_elem_of_filter in Hi as [He [k Hk]%elem_of_rows]. eauto.
Qed.

Lemma delete_runs_lookup P d k :
  (TestRepo.delete_runs_where P d).(d_runs) !! k =
    r ← d.(d_runs) !! k; if P r then None else Some r.
Proof.
  simpl. rewrite map_lookup_filter. destruct (d_runs d !! k) as [r|]; simpl; [|done].
  by destruct (P r).
Qed.

Lemma DeleteRuns_run ids w :
  match RetentionRepo.DeleteRuns ids w with
  | (Ok _, w') => ∃ fs, w' = with_db
      (TestRepo.delete_runs_where (λ r, bool_decide (r.(TestRun.UUID) ∈ ids)) w.(w_db))
      (with_faults fs w) ∨ (ids = [] ∧ w' = w)
  | (Err _, w') => ∃ fs, w' = with_faults fs w
  end.
Proof.
  unfold RetentionRepo.DeleteRuns. case_decide; [subst; exists []; by right|].
  sql_cases; [by eexists|]. eexists; by left.
Qed.

(** With a count limit, the newest [maxRuns] runs of a test are kept unless
    they are too old: a run the query lists is never the newest of its test, and
    it ranks beyond the limit or started before the cutoff. *)
Theorem expired_runs_are_old maxRuns cutoff limit w l e :
  (RetentionRepo.ListExpiredRuns maxRuns cutoff limit w).1 = Ok l → e ∈ l →
  runs_keyed w.(w_db) →
  ∃ r r', w.(w_db).(d_runs) !! e.(ExpiredRun.RunID) = Some r ∧
    w.(w_db).(d_runs) !! r'.(TestRun.UUID) = Some r' ∧
    run_before r' r = true ∧ r'.(TestRun.TestID) = r.(TestRun.TestID) ∧
    ((0 < maxRuns)%Z ∧ (maxRuns < Z.of_nat (row_number w.(w_db) r))%Z ∨
     ∃ c, cutoff = Some c ∧ (r.(TestRun.StartedAt) < c)%Z).
Proof.
  intros Hl He Hkeyed. pose proof (ListExpiredRuns_run maxRuns cutoff limit w) as H.
  destruct (RetentionRepo.ListExpiredRuns maxRuns cutoff limit w) as [r0 w']; simpl in Hl; subst r0.
  destruct H as (_ & _ & H). destruct (H e He) as (k & r & Hk & Hexp & ->). simpl.
  pose proof (Hkeyed k r Hk) as Hkk. simpl in Hkk. subst k. exists r.
  unfold is_expired in Hexp. reflect_bools. unfold row_number in H0 at 1.
  destruct (filter (λ r', run_before r' r = true) (map_to_list (d_runs (w_db w))).*2) as [|r' l'] eqn:E;
    [simpl in *; lia|].
  assert (r' ∈ filter (λ r', run_before r' r = true) (map_to_list (d_runs (w_db w))).*2) as Hr'
    by (rewrite E; left).
  apply list_elem_of_filter in Hr' as [Hb [k' Hk']%elem_of_rows].
  pose proof (Hkeyed k' r' Hk') as Hkk'. simpl in Hkk'. subst k'.
  exists r'. split; [done|]. split; [done|]. split; [done|]. split.
  - unfold run_before in Hb. by reflect_bools.
  - apply orb_true_iff in H1 as [H1|H1]; [left; by reflect_bools|right].
    destruct cutoff as [c|]; [|done]. exists c. by reflect_bools.
Qed.

(** The identifiers a query returns are distinct. *)
Lemma uuids_of_rows d :
  runs_keyed d → TestRun.UUID <$> (map_to_list d.(d_runs)).*2 = (map_to_list d.(d_runs)).*1.
Proof.
  intros Hkeyed. rewrite <-list_fmap_compose. apply list_fmap_ext.
  intros i [k r] Hi. simpl. apply (Hkeyed k r). apply elem_of_map_to_list. by eapply list_elem_of_lookup_2.
Qed.

Lemma ListExpiredRuns_NoDup maxRuns cutoff limit w l :
  runs_keyed w.(w_db) → (RetentionRepo.ListExpiredRuns maxRuns cutoff limit w).1 = Ok l →
  NoDup (ExpiredRun.RunID <$> l).
Proof.
  intros Hkeyed. unfold RetentionRepo.ListExpiredRuns. sql_cases; [done|]. intros [= <-].
  rewrite <-list_fmap_compose. unfold compose. simpl.
  set (rows := filter _ _).
  assert (NoDup (TestRun.UUID <$> sort_asc TestRun.StartedAt rows)) as H.
  { rewrite sort_asc_perm. eapply sublist_NoDup; [|apply fmap_sublist, sublist_filter].
    rewrite uuids_of_rows by done. apply NoDup_fst_map_to_list. }
  eapply sublist_NoDup; [exact H|]. apply fmap_sublist, sublist_take.
Qed.

(** Deleting rows by their identifiers deletes as many rows. *)
Lemma delete_runs_size d ids :
  runs_keyed d → NoDup ids → (∀ id, id ∈ ids → is_Some (d.(d_runs) !! id)) →
  size d.(d_runs) =
    size (TestRepo.delete_runs_where (λ r, bool_decide (r.(TestRun.UUID) ∈ ids)) d).(d_runs) + length ids.
Proof.
  intros Hkeyed Hnd Hin. simpl.
  set (P := λ kv : string * TestRun.t, bool_decide (kv.2.(TestRun.UUID) ∈ ids) = false).
  change (filter (λ kv : string * TestRun.t, bool_decide (kv.2.(TestRun.UUID) ∈ ids) = false)) with (filter P).
  rewrite <-(map_filter_union_complement P (d_runs d)) at 1.
  rewrite map_size_disj_union by apply map_disjoint_filter_complement. f_equal.
  rewrite <-size_dom, <-(size_list_to_set (C:=gset string) ids) by done. f_equal.
  apply leibniz_equiv. intros k. rewrite elem_of_dom, elem_of_list_to_set. split.
  - intros [r [Hk HP]%map_lookup_filter_Some]. unfold P in HP. simpl in HP.
    apply not_false_iff_true, bool_decide_eq_true in HP. by rewrite (Hkeyed k r Hk) in HP.
  - intros Hk. destruct (Hin k Hk) as [r Hr]. exists r. apply map_lookup_filter_Some. split; [done|].
    unfold P. simpl. rewrite (Hkeyed k r Hr : r.(TestRun.UUID) = k). by rewrite bool_decide_eq_true_2.
Qed.
