(* ===== verification/Secrets.v ===== *)
(** * Package secrets (src/secrets/secrets.go)

    Encryption of secret values at rest, redaction of log output, and the rules
    for the names and values of environment variables. *)

From S2P Require Import Prelude.
From S2P Require Import Prog.
From S2P Require Import GoStrings.
From S2P Require Import Model.
From S2P Require Import World.

Definition prefix : string := "v1:".

(** A [*Box]: [None] is the nil box, [Some key] holds the AEAD of a key. *)
Abbreviation Box := (option string).

Definition New (b64Key : string) : res Box :=
  if decide (TrimSpace b64Key = "") then Ok None
  else match b64_decode (TrimSpace b64Key) with
       | None => Err (Wrap "SECRETS_KEY is not valid base64: " (Errorf "illegal base64 data"))
       | Some key =>
           if (len key =? 32)%Z then Ok (Some key)
           else Err (Errorf ("SECRETS_KEY must decode to 32 bytes, got " +:+ Itoa (len key)))
       end.

Definition Enabled (b : Box) : bool := match b with Some _ => true | None => false end.

(** GCM's standard nonce size. *)
Definition NonceSize : nat := 12.

Section box.
Context `{Ext}.

(** [rand.Read] does not fail (it never returns an error since Go 1.24). *)
Definition Encrypt (b : Box) (plain : string) : act (res string) :=
  match b with
  | None => mret (Err ErrNoKey)
  | Some key => λ w,
      let nonce := ext_nonce w.(w_rand) in
      let sealed := nonce +:+ ext_seal key nonce plain in
      (Ok (prefix +:+ b64_encode sealed), with_rand (S w.(w_rand)) w)
  end.

Definition Decrypt (b : Box) (stored : string) : res string :=
  match b with
  | None => Err ErrNoKey
  | Some key =>
      if negb (HasPrefix stored prefix) then Err (Errorf "unknown secret format")
      else match b64_decode (TrimPrefix stored prefix) with
           | None => Err (Errorf "illegal base64 data")
           | Some raw =>
               if (len raw <? Z.of_nat NonceSize)%Z then Err (Errorf "secret ciphertext too short")
               else match ext_open key (str_take NonceSize raw) (str_drop NonceSize raw) with
                    | None => Err (Errorf "cannot decrypt (wrong SECRETS_KEY?)")
                    | Some plain => Ok plain
                    end
           end
  end.
End box.

(** ** Redaction *)

(** The forms of one value that are replaced. *)
Definition needles_of (v : string) : list string :=
  if decide (v = "") then [] else [v; b64_encode v; QueryEscape v].

(** [sort.Slice] by descending length. *)
Definition longest_first (needles : list string) : list string := sort_desc len needles.

Definition Redact (output : string) (secretValues : list string) : string :=
  foldl (λ s n, ReplaceAll s n "***") output
    (longest_first (mjoin (needles_of <$> secretValues))).

(** ** Names and values *)

Definition is_letter_ (c : ascii) : bool :=
  let n := nat_of_ascii c in
  bool_decide (65 ≤ n ∧ n ≤ 90) || bool_decide (97 ≤ n ∧ n ≤ 122) || bool_decide (n = 95).
Definition is_digit (c : ascii) : bool :=
  let n := nat_of_ascii c in bool_decide (48 ≤ n ∧ n ≤ 57).

Fixpoint all_bytes (p : ascii → bool) (s : string) : bool :=
  match s with EmptyString => true | String c s => p c && all_bytes p s end.

(** [^[A-Za-z_][A-Za-z0-9_]{0,63}$] *)
Definition nameRe (name : string) : bool :=
  match name with
  | EmptyString => false
  | String c rest =>
      is_letter_ c && all_bytes (λ c, is_letter_ c || is_digit c) rest &&
      bool_decide (String.length rest ≤ 63)
  end.

Definition reserved : list string := ["PATH"; "HOME"; "USER"; "SHELL"; "PWD"; "HOSTNAME"].
Definition reservedPrefixes : list string := ["DOCKER_"; "LD_"; "BASH_"; "SUDO_"].

Definition MaxVars : nat := 50.
Definition MaxValueBytes : Z := (4 * 1024)%Z.

(** The loop over [reservedPrefixes]. *)
Fixpoint check_prefixes (up : string) (ps : list string) : res unit :=
  match ps with
  | [] => Ok tt
  | p :: ps =>
      if HasPrefix up p then Err (Errorf ("names starting with " +:+ p +:+ " are reserved"))
      else check_prefixes up ps
  end.

Definition ValidateName (name : string) : res unit :=
  if negb (nameRe name)
  then Err (Errorf "name must match [A-Za-z_][A-Za-z0-9_]* and be at most 64 characters")
  else if bool_decide (ToUpper name ∈ reserved) then Err (Errorf (name +:+ " is reserved"))
  else check_prefixes (ToUpper name) reservedPrefixes.

Definition ValidateValue (v : string) : res unit :=
  if (MaxValueBytes <? len v)%Z
  then Err (Errorf ("value exceeds " +:+ Itoa MaxValueBytes +:+ " bytes"))
  else if Contains v (String zero "") then Err (Errorf "value must not contain NUL")
  else Ok tt.

Example redact_example :
  Redact "tok=abc123 b64=YWJjMTIz ok" ["abc123"; ""] = "tok=*** b64=*** ok".
Proof. vm_compute. reflexivity. Qed.
Example name_examples :
  (λ n, is_ok (ValidateName n)) <$>
    ["BASE_URL"; "_x1"; ""; "1A"; "A-B"; "PATH"; "path"; "DOCKER_HOST"; "ld_preload"]
  = [true; true; false; false; false; false; false; false; false].
Proof. vm_compute. reflexivity. Qed.

(** ** Lemmas and theorems *)

(** What [Encrypt] stores under a key with a nonce. *)
Definition sealed_with `{Ext} (key nonce plain : string) : string :=
  prefix +:+ b64_encode (nonce +:+ ext_seal key nonce plain).

Lemma Decrypt_sealed `{E : Ext} `{!ExtLaws E} key n plain :
  Decrypt (Some key) (sealed_with key (ext_nonce n) plain) = Ok plain.
Proof.
  unfold Decrypt, sealed_with. rewrite HasPrefix_app. simpl negb. cbv iota.
  rewrite TrimPrefix_app, b64_decode_encode.
  pose proof (ext_nonce_size n) as Hn. unfold len. rewrite str_length_app, Hn.
  rewrite (proj2 (Z.ltb_ge _ _)) by (unfold NonceSize; lia).
  change NonceSize with 12. rewrite <-Hn. rewrite str_take_app, str_drop_app.
  by rewrite ext_open_seal.
Qed.

(** C23: decryption inverts encryption under the same key, whatever nonce was
    drawn; what is stored carries the format's prefix, and without a key nothing
    is encrypted or decrypted. *)
Theorem Decrypt_Encrypt `{E : Ext} `{!ExtLaws E} key plain w :
  ∃ stored w', Encrypt (Some key) plain w = (Ok stored, w') ∧
    HasPrefix stored prefix = true ∧
    Decrypt (Some key) stored = Ok plain ∧
    Decrypt None stored = Err ErrNoKey ∧
    (Encrypt None plain w).1 = Err ErrNoKey.
Proof.
  eexists _, _. split; [reflexivity|]. split; [apply HasPrefix_app|].
  split; [apply Decrypt_sealed|done].
Qed.

(** *** Redaction *)

Fixpoint star_free (s : string) : bool :=
  match s with
  | EmptyString => true
  | String c s => negb (bool_decide (c = "*"%char)) && star_free s
  end.

Lemma star_prefix t n : star_free n = true → n ≠ "" → HasPrefix (String "*" t) n = false.
Proof.
  destruct n as [|c n]; [done|]. simpl. intros Hs _. reflect_bools.
  by rewrite bool_decide_eq_false_2.
Qed.

(** An occurrence in the output was one in the input. *)
Lemma replace_prefix k s m n :
  star_free n = true → HasPrefix (replace_go k s m "***") n = true →
  HasPrefix (str_drop k s) n = true.
Proof.
  revert k n. induction s as [|c s IH]; intros k n Hn; simpl.
  { intros H. by destruct k. }
  destruct k as [|k]; [|by apply IH]. destruct (HasPrefix (String c s) m).
  - intros H. destruct (decide (n = "")) as [->|Hne]; [done|].
    change ("***" +:+ ?t) with (String "*" ("**" +:+ t)) in H. by rewrite star_prefix in H.
  - destruct n as [|d n]; [done|]. simpl in *. reflect_bools. intros H'. reflect_bools.
    rewrite bool_decide_eq_true_2 by done. simpl. by apply (IH 0).
Qed.

Lemma Contains_star t n : star_free n = true → n ≠ "" → Contains ("***" +:+ t) n = Contains t n.
Proof.
  intros Hs Hn. change ("***" +:+ t) with (String "*" (String "*" (String "*" t))).
  cbn [Contains]. by rewrite !star_prefix.
Qed.

Lemma Contains_drop k s n : Contains (str_drop k s) n = true → Contains s n = true.
Proof.
  revert k. induction s as [|c s IH]; intros [|k]; simpl; try done.
  intros H. rewrite (IH k H). apply orb_true_r.
Qed.

Lemma replace_contains k s m n :
  star_free n = true → n ≠ "" → Contains (replace_go k s m "***") n = true →
  Contains (str_drop k s) n = true.
Proof.
  intros Hs Hn. revert k. induction s as [|c s IH]; intros k; simpl; [by destruct k|].
  destruct k as [|k]; [|apply IH]. destruct (HasPrefix (String c s) m) eqn:E.
  - rewrite Contains_star by done. intros H%IH%Contains_drop. simpl. rewrite H. apply orb_true_r.
  - simpl. rewrite !orb_true_iff. intros [H|H]; [left|right; by apply (IH 0)].
    apply (replace_prefix 0 (String c s) m n Hs). simpl. by rewrite E.
Qed.

Lemma replace_removes k s n :
  star_free n = true → n ≠ "" → Contains (replace_go k s n "***") n = false.
Proof.
  intros Hs Hn. revert k. induction s as [|c s IH]; intros k; simpl; [by destruct n|].
  destruct k as [|k]; [|apply IH]. destruct (HasPrefix (String c s) n) eqn:E.
  - by rewrite Contains_star.
  - apply Contains_cons_false. split; [|apply IH].
    destruct (HasPrefix (String c (replace_go 0 s n "***")) n) eqn:E'; [|done].
    rewrite <-E. symmetry. apply (replace_prefix 0 (String c s) n n Hs). simpl. by rewrite E.
Qed.

Lemma replace_id k s n : Contains s n = false → k = 0 → replace_go k s n "***" = s.
Proof.
  revert k. induction s as [|c s IH]; intros k; simpl; [done|]. intros H ->.
  apply orb_false_iff in H as [-> H]. f_equal. by apply IH.
Qed.

Definition redact_with (needles : list string) (s : string) : string :=
  foldl (λ s n, ReplaceAll s n "***") s needles.

Lemma redact_with_not_new needles s n :
  star_free n = true → n ≠ "" → Contains s n = false → Contains (redact_with needles s) n = false.
Proof.
  intros Hs Hn. revert s. induction needles as [|m needles IH]; intros s H; simpl; [done|].
  apply IH. destruct (Contains (ReplaceAll s m "***") n) eqn:E; [|done].
  apply (replace_contains 0) in E; [|done..]. simpl in E. congruence.
Qed.

Lemma redact_with_removes needles s n :
  star_free n = true → n ≠ "" → n ∈ needles → Contains (redact_with needles s) n = false.
Proof.
  intros Hs Hn. revert s. induction needles as [|m needles IH]; intros s Hin; [by apply elem_of_nil in Hin|].
  simpl. apply elem_of_cons in Hin as [->|Hin]; [|by apply IH].
  apply redact_with_not_new; [done..|]. by apply replace_removes.
Qed.

Lemma redact_with_id needles s :
  (∀ n, n ∈ needles → Contains s n = false) → redact_with needles s = s.
Proof.
  induction needles as [|m needles IH]; intros H; simpl; [done|].
  assert (ReplaceAll s m "***" = s) as Hm by (apply replace_id; [apply H; left|done]).
  rewrite Hm. apply IH. intros n Hn. apply H. by right.
Qed.

Lemma elem_of_needles n vals :
  n ∈ longest_first (mjoin (needles_of <$> vals)) ↔ ∃ v, v ∈ vals ∧ n ∈ needles_of v.
Proof.
  unfold longest_first. rewrite elem_of_sort_desc, list_elem_of_join. setoid_rewrite list_elem_of_fmap.
  naive_solver.
Qed.

(** C22: redaction leaves no secret behind: for every non-empty secret, neither
    its value nor its base64 form nor its URL-escaped form occurs in the output,
    unless that form itself contains the character of the mask; and a text in
    which no form of a secret occurs is left as it is. *)
Theorem Redact_leaves_no_secret output secretValues :
  (∀ v n, v ∈ secretValues → v ≠ "" → n ∈ [v; b64_encode v; QueryEscape v] →
     star_free n = true → Contains (Redact output secretValues) n = false) ∧
  ((∀ v n, v ∈ secretValues → v ≠ "" → n ∈ [v; b64_encode v; QueryEscape v] →
      Contains output n = false) →
   Redact output secretValues = output).
Proof.
  assert (∀ s, s ≠ "" → b64_encode s ≠ "" ∧ QueryEscape s ≠ "") as Hnil.
  { intros [|a [|b [|c s]]]; [done|..]; intros _; (split; [|by simpl; repeat case_match]);
      cbn [b64_encode]; by destruct (b64_digits _) as [[[? ?] ?] ?]. }
  split.
  - intros v n Hv Hne Hn Hs. apply redact_with_removes; [done| |].
    + destruct (Hnil v Hne). set_solver.
    + apply elem_of_needles. exists v. unfold needles_of. by rewrite decide_False.
  - intros H. apply redact_with_id. intros n (v & Hv & Hn)%elem_of_needles.
    unfold needles_of in Hn. case_decide; [set_solver|]. by eapply H.
Qed.

(** *** Names *)

Lemma check_prefixes_ok up ps :
  is_ok (check_prefixes up ps) = true ↔ ∀ p, p ∈ ps → HasPrefix up p = false.
Proof.
  induction ps as [|p ps IH]; simpl; [set_solver|]. destruct (HasPrefix up p) eqn:E; simpl.
  - split; [done|]. intros H. specialize (H p). set_solver.
  - rewrite IH. set_solver.
Qed.

Lemma upper_byte_idemp c : upper_byte (upper_byte c) = upper_byte c.
Proof. destruct c as [[] [] [] [] [] [] [] []]; reflexivity. Qed.
Lemma ToUpper_idemp s : ToUpper (ToUpper s) = ToUpper s.
Proof. unfold ToUpper. induction s as [|c s IH]; simpl; [done|]. by rewrite upper_byte_idemp, IH. Qed.
Lemma name_class_upper c :
  is_letter_ (upper_byte c) = is_letter_ c ∧ is_digit (upper_byte c) = is_digit c.
Proof. by destruct c as [[] [] [] [] [] [] [] []]. Qed.
Lemma all_bytes_upper p s : (∀ c, p (upper_byte c) = p c) → all_bytes p (ToUpper s) = all_bytes p s.
Proof. intros Hp. unfold ToUpper. induction s as [|c s IH]; simpl; [done|]. by rewrite Hp, IH. Qed.
Lemma nameRe_upper s : nameRe (ToUpper s) = nameRe s.
Proof.
  destruct s as [|c s]; [done|]. change (ToUpper (String c s)) with (String (upper_byte c) (ToUpper s)).
  unfold nameRe. rewrite (proj1 (name_class_upper c)), all_bytes_upper.
  - assert (∀ t, String.length (ToUpper t) = String.length t) as ->; [|done].
    unfold ToUpper. induction t; simpl; auto.
  - intros d. by destruct (name_class_upper d) as [-> ->].
Qed.

Lemma all_bytes_contains p s c : all_bytes p s = true → p c = false → Contains s (String c "") = false.
Proof.
  intros H Hc. induction s as [|d s IH]; simpl in *; [done|]. reflect_bools.
  rewrite IH by done. rewrite andb_true_r, orb_false_r. apply bool_decide_eq_false.
  intros ->. congruence.
Qed.

(** C39: a name is accepted exactly when it has the shape of a shell identifier
    of at most 64 characters and, in any mix of cases, is not a reserved name and
    does not start with a reserved prefix; an accepted name holds no character
    that could end it in an environment entry or a docker argument. *)
Theorem ValidateName_spec name :
  (is_ok (ValidateName name) = true ↔
   nameRe name = true ∧ ToUpper name ∉ reserved ∧
   ∀ p, p ∈ reservedPrefixes → HasPrefix (ToUpper name) p = false) ∧
  is_ok (ValidateName (ToUpper name)) = is_ok (ValidateName name) ∧
  (is_ok (ValidateName name) = true →
   1 ≤ String.length name ≤ 64 ∧
   ∀ c, c ∈ ["="; " "; "-"; "000"; "010"]%char → Contains name (String c "") = false).
Proof.
  assert (∀ n, is_ok (ValidateName n) = true ↔
   nameRe n = true ∧ ToUpper n ∉ reserved ∧
   ∀ p, p ∈ reservedPrefixes → HasPrefix (ToUpper n) p = false) as Hspec.
  { intros n. unfold ValidateName. destruct (nameRe n); cbn [negb]; [|split; [done|by intros []]].
    case_bool_decide as Hr; [split; [done|by intros (_ & [])]|]. rewrite check_prefixes_ok. tauto. }
  split; [done|]. split.
  - apply eq_bool_prop_intro. rewrite !Is_true_true, !Hspec.
    by rewrite ToUpper_idemp, nameRe_upper.
  - intros (Hre & _ & _)%Hspec. destruct name as [|c s]; [done|]. unfold nameRe in Hre. reflect_bools.
    split; [simpl; lia|]. intros d Hd.
    apply (all_bytes_contains (λ c, is_letter_ c || is_digit c)).
    + simpl. by rewrite H, H1.
    + set_solver.
Qed.
