(* ===== verification/Paths.v ===== *)
(** * Slash-separated paths and the file system

    The functions of the packages [path] and [path/filepath] (identical on the
    systems the server runs on) that the source uses, by their documented
    lexical rules, and the operations of package [os] on the file system of
    the world.  A path is decoded to whether it is rooted and its components;
    a file is known by the components of its clean absolute path. *)

From S2P Require Import Prelude.
From S2P Require Import Prog.
From S2P Require Import GoStrings.
From S2P Require Import Model.
From S2P Require Import World.

(** ** Lexical processing *)

(** [acc] holds the components kept so far, last one first. *)
Fixpoint clean_go (rooted : bool) (acc l : list string) : list string :=
  match l with
  | [] => reverse acc
  | c :: l =>
      if decide (c = "..") then
        match acc with
        | [] => if rooted then clean_go rooted [] l else clean_go rooted [".."] l
        | top :: acc' =>
            if decide (top = "..") then clean_go rooted (".." :: acc) l
            else clean_go rooted acc' l
        end
      else clean_go rooted (c :: acc) l
  end.

Definition raw_parts (s : string) : list string :=
  filter (λ c, c ≠ "" ∧ c ≠ ".") (SplitByte "/" s).

Definition IsAbs (s : string) : bool := HasPrefix s "/".

Definition path_parts (s : string) : bool * list string :=
  (IsAbs s, clean_go (IsAbs s) [] (raw_parts s)).

Definition path_string (p : bool * list string) : string :=
  let '(rooted, comps) := p in
  if rooted : bool then "/" +:+ Join comps "/"
  else if decide (comps = []) then "." else Join comps "/".

(** [path.Clean] *)
Definition Clean (s : string) : string := path_string (path_parts s).

(** [filepath.Join(a, b)] *)
Definition PathJoin (a b : string) : string :=
  if decide (a = "") then (if decide (b = "") then "" else Clean b)
  else if decide (b = "") then Clean a
  else Clean (a +:+ "/" +:+ b).

(** [filepath.Dir] *)
Definition PathDir (s : string) : string :=
  let '(rooted, comps) := path_parts s in
  path_string (rooted, take (length comps - 1) comps).

(** [filepath.Ext]: from the last dot of the last element. *)
Fixpoint PathExt (s : string) : string :=
  match s with
  | EmptyString => ""
  | String c s' =>
      let e := PathExt s' in
      if decide (e ≠ "") then e
      else if decide (c = "."%char) then (if Contains s' "/" then "" else s)
      else ""
  end.

(** [filepath.Rel(base, target)] *)
Fixpoint rel_parts (b t : list string) : option (list string) :=
  match b, t with
  | x :: b', y :: t' =>
      if decide (x = y) then rel_parts b' t'
      else if decide (".." ∈ b) then None else Some (((λ _, "..") <$> b) ++ t)
  | [], t => Some t
  | b, [] => if decide (".." ∈ b) then None else Some ((λ _, "..") <$> b)
  end.
Definition Rel (base target : string) : option string :=
  let '(rb, b) := path_parts base in
  let '(rt, t) := path_parts target in
  if eqb rb rt then (λ c, path_string (false, c)) <$> rel_parts b t else None.

(** ** Package os on the world's files *)

(** The key of a path; a relative one counts from the root. *)
Definition key (path : string) : list string := (path_parts path).2.

Abbreviation files := (gmap (list string) fnode).

Definition is_dir (o : option fnode) : bool := match o with Some Dir => true | _ => false end.
Definition is_link (o : option fnode) : bool := match o with Some (Symlink _) => true | _ => false end.

(** A directory that can be searched; the root always exists. *)
Definition walkable (fs : files) (k : list string) : bool :=
  bool_decide (k = []) || is_dir (fs !! k).

(** What the kernel does with a path: from the directory [cur], component by
    component; a symbolic link is replaced by its target, which counts from the
    root or from the link's directory, and [..] leaves the directory reached. *)
Fixpoint walk (follow : list string → list string → option (list string)) (fs : files)
    (cur todo : list string) : option (list string) :=
  match todo with
  | [] => Some cur
  | c :: todo =>
      if negb (walkable fs cur) then None
      else if decide (c = "..") then walk follow fs (take (length cur - 1) cur) todo
      else
        match fs !! (cur ++ [c]) with
        | Some (Symlink to) => follow (if IsAbs to then [] else cur) (raw_parts to ++ todo)
        | _ => walk follow fs (cur ++ [c]) todo
        end
  end.

(** [links] more links are followed, then the call fails with ELOOP. *)
Fixpoint resolve_go (links : nat) (fs : files) : list string → list string → option (list string) :=
  walk (match links with 0 => λ _ _, None | S links => resolve_go links fs end) fs.

(** Where a path leads: to an existing file or to a free name in an existing
    directory. *)
Definition resolve (fs : files) (k : list string) : option (list string) := resolve_go 40 fs [] k.

(** The same for the calls that do not follow a link at the end of the path. *)
Definition lresolve (fs : files) (k : list string) : option (list string) :=
  match last k with
  | None => Some []
  | Some c =>
      match resolve fs (take (length k - 1) k) with
      | Some d => if walkable fs d then Some (d ++ [c]) else None
      | None => None
      end
  end.

(** [os.Stat] and [os.Lstat]: what is there. *)
Definition stat (fs : files) (k : list string) : option fnode :=
  match resolve fs k with
  | Some k => if decide (k = []) then Some Dir else fs !! k
  | None => None
  end.
Definition lstat (fs : files) (k : list string) : option fnode :=
  match lresolve fs k with Some k => fs !! k | None => None end.

(** The directories on the way to a file, itself included. *)
Definition ancestors (k : list string) : list (list string) :=
  (λ n, take n k) <$> seq 1 (length k).

Definition os_error (msg : string) : error := ErrExternal msg.

(** One system call: it may fail, or acts on the file system. *)
Definition syscall {A} (f : Z → gmap (list string) fnode → res A * gmap (list string) fnode)
    : act (res A) :=
  λ w, match next_fault w with
       | (Some msg, w) => (Err (os_error msg), w)
       | (None, w) => let '(r, fs) := f w.(w_now) w.(w_fs) in (r, with_fs fs w)
       end.

(** A directory that is there, possibly through a link, is left alone. *)
Definition mkdir_at (fs : files) (a : list string) : res files :=
  match stat fs a with
  | Some Dir => Ok fs
  | Some _ => Err (os_error "not a directory")
  | None =>
      match lresolve fs a with
      | None => Err (os_error "no such file or directory")
      | Some k =>
          match fs !! k with
          | Some _ => Err (os_error "file exists")
          | None => Ok (<[k := Dir]> fs)
          end
      end
  end.

Fixpoint mkdir_all (fs : files) (l : list (list string)) : res unit * files :=
  match l with
  | [] => (Ok tt, fs)
  | a :: l => match mkdir_at fs a with Ok fs => mkdir_all fs l | Err e => (Err e, fs) end
  end.

Definition MkdirAll (path : string) : act (res unit) :=
  syscall (λ _ fs, mkdir_all fs (ancestors (key path))).

(** [OpenFile(path, O_CREATE|O_WRONLY|O_TRUNC, mode)]: an existing file keeps
    its mode, and a link at the end of the path is followed. *)
Definition create_file (path : string) (mode : Z) : act (res unit) :=
  syscall (λ now fs,
    match resolve fs (key path) with
    | None => (Err (os_error "no such file or directory"), fs)
    | Some k =>
        if walkable fs k then (Err (os_error "is a directory"), fs)
        else
          let mode := match fs !! k with Some (File m _ _) => m | _ => mode end in
          (Ok tt, <[k := File mode now ""]> fs)
    end).

(** The bytes [io.Copy] writes to an open file. *)
Definition write_file (path content : string) : act (res unit) :=
  syscall (λ now fs,
    match resolve fs (key path) with
    | None => (Ok tt, fs)
    | Some k =>
        match fs !! k with
        | Some (File mode _ _) => (Ok tt, <[k := File mode now content]> fs)
        | _ => (Ok tt, fs)      (* unlinked meanwhile: the bytes go nowhere *)
        end
    end).

(** What [os.Open] and a read give. *)
Definition file_content (fs : files) (path : string) : option string :=
  match stat fs (key path) with Some (File _ _ c) => Some c | _ => None end.

(** Files at or below [k]. *)
Definition below (k : list string) (fs : files) : files :=
  filter (λ kv, k `prefix_of` kv.1) fs.

(** A file, a link or an empty directory. *)
Definition os_Remove (path : string) : act (res unit) :=
  syscall (λ _ fs,
    match lresolve fs (key path) with
    | None => (Err (os_error "no such file or directory"), fs)
    | Some k =>
        match fs !! k with
        | None => (Err (os_error "no such file or directory"), fs)
        | Some _ =>
            if decide (size (below k fs) = 1) then (Ok tt, delete k fs)
            else (Err (os_error "directory not empty"), fs)
        end
    end).

(** Everything at or below the path, links themselves and not what they lead to.
    What the operating system refuses to remove ([ext_stuck]) stays, with the
    directories it is in, and makes the call fail after the rest is gone. *)
Definition stays `{Ext} (now : Z) (fs : files) (k : list string) : Prop :=
  map_Exists (λ k' _, ext_stuck now fs k' = true) (below k fs).
#[export] Instance stays_dec `{Ext} now fs k : Decision (stays now fs k).
Proof. unfold stays. apply _. Defined.

Definition os_RemoveAll `{Ext} (path : string) : act (res unit) :=
  λ w,
    match lresolve w.(w_fs) (key path) with
    | None => (Ok tt, w)
    | Some k =>
        let kept := filter (λ kv, k `prefix_of` kv.1 → stays w.(w_now) w.(w_fs) kv.1) w.(w_fs) in
        (if decide (below k kept = ∅) then Ok tt else Err (os_error "operation not permitted"),
         with_fs kept w)
    end.

(** A write through a link ends where the link leads, unless that loops; and
    removing a directory leaves what its links lead to. *)
Example links_followed :
  let fs : files := list_to_map [(["etc"], Dir); (["ws"], Dir); (["ws"; "d"], Symlink "../etc");
    (["ws"; "up"], Symlink "/ws/d/x"); (["ws"; "loop"], Symlink "loop")] in
  resolve fs ["ws"; "up"] = Some ["etc"; "x"] ∧ lresolve fs ["ws"; "up"] = Some ["ws"; "up"] ∧
  resolve fs ["ws"; "loop"; "x"] = None ∧
  (mkdir_all fs (ancestors ["ws"; "d"; "new"])).2 !! ["etc"; "new"] = Some Dir.
Proof. vm_compute. done. Qed.

Example clean_examples :
  Clean <$> ["a//b/./c/.."; "../x"; "/../a"; ""; "./proj/x"; "a/../.."]
  = ["a/b"; "../x"; "/a"; "."; "proj/x"; ".."].
Proof. vm_compute. reflexivity. Qed.
Example ext_examples :
  PathExt <$> ["a.b.zip"; "x.d/y"; "noext"; ".git"; "p/q.PNG"] = [".zip"; ""; ""; ".git"; ".PNG"].
Proof. vm_compute. reflexivity. Qed.
Example rel_examples :
  (λ p, Rel p.1 p.2) <$> [("/t/ws", "/t/ws/a/b"); ("/t/ws", "/t/x"); ("/t/ws", "/t/ws")]
  = [Some "a/b"; Some "../x"; Some "."].
Proof. vm_compute. reflexivity. Qed.

(** ** Lemmas: splitting and joining *)

Definition no_slash (s : string) : Prop := Contains s "/" = false.

Lemma SplitByte_nonnil c s : SplitByte c s ≠ [].
Proof. destruct s as [|d s]; simpl; [done|]. case_decide; [done|]. by destruct (SplitByte c s). Qed.

Lemma SplitByte_no_slash s p : p ∈ SplitByte "/" s → no_slash p.
Proof.
  revert p. induction s as [|d s IH]; intros p; simpl.
  - by intros ->%list_elem_of_singleton.
  - case_decide as Hd.
    + intros [->|Hp]%elem_of_cons; [done|auto].
    + pose proof (SplitByte_nonnil "/" s) as Hne. destruct (SplitByte "/" s) as [|w ws]; [done|].
      intros [->|Hp]%elem_of_cons; [|apply IH; by right].
      unfold no_slash. simpl. rewrite (IH w) by left.
      rewrite bool_decide_eq_false_2 by done. done.
Qed.

Lemma no_slash_split s : no_slash s → SplitByte "/" s = [s].
Proof.
  unfold no_slash. induction s as [|d s IH]; simpl; [done|]. intros H.
  apply orb_false_iff in H as [Hd Hs]. rewrite IH by done.
  rewrite andb_true_r in Hd. apply bool_decide_eq_false in Hd. by rewrite decide_False.
Qed.

Lemma no_slash_split_app s t : no_slash s → SplitByte "/" (s +:+ "/" +:+ t) = s :: SplitByte "/" t.
Proof.
  unfold no_slash. induction s as [|d s IH]; intros H; [done|]. rewrite app_cons.
  cbn [Contains HasPrefix] in H. apply orb_false_iff in H as [Hd Hs].
  rewrite andb_true_r in Hd. apply bool_decide_eq_false in Hd.
  cbn [SplitByte]. rewrite IH by done. by rewrite decide_False.
Qed.

Lemma Join_cons s l : l ≠ [] → Join (s :: l) "/" = s +:+ "/" +:+ Join l "/".
Proof. by destruct l. Qed.

Lemma SplitByte_Join l : l ≠ [] → Forall no_slash l → SplitByte "/" (Join l "/") = l.
Proof.
  intros Hne H. induction H as [|s l Hs Hl IH]; [done|].
  destruct (decide (l = [])) as [->|Hnl]; [by apply no_slash_split|].
  by rewrite Join_cons, no_slash_split_app, IH.
Qed.

(** ** Lemmas: the normal form of a path *)

(** A component that processing keeps. *)
Definition good (c : string) : Prop := (c ≠ "" ∧ c ≠ ".") ∧ no_slash c.

Definition canonical (rooted : bool) (l : list string) : Prop :=
  ∃ n l', l = replicate n ".." ++ l' ∧ ".." ∉ l' ∧ (rooted = true → n = 0).

Lemma clean_go_plain rooted acc l : ".." ∉ l → clean_go rooted acc l = reverse acc ++ l.
Proof.
  revert acc. induction l as [|c l IH]; intros acc Hl; simpl; [by rewrite app_nil_r|].
  rewrite decide_False by set_solver. rewrite IH by set_solver.
  by rewrite reverse_cons, <-app_assoc.
Qed.

Lemma clean_go_dots m n l :
  clean_go false (replicate m "..") (replicate n ".." ++ l) = clean_go false (replicate (n + m) "..") l.
Proof.
  revert m. induction n as [|n IH]; intros m; simpl; [done|].
  change (".." :: replicate (n + m) "..") with (replicate (S (n + m)) "..").
  rewrite <-Nat.add_succ_r, <-(IH (S m)). by destruct m.
Qed.

Lemma clean_go_canonical rooted l : canonical rooted l → clean_go rooted [] l = l.
Proof.
  intros (n & l' & -> & Hl & Hr). destruct rooted.
  - rewrite Hr by done. simpl. by rewrite clean_go_plain.
  - rewrite (clean_go_dots 0), Nat.add_0_r, clean_go_plain by done.
    by rewrite reverse_replicate.
Qed.

Lemma canonical_nil rooted : canonical rooted [].
Proof. exists 0, []. split; [done|]. split; [set_solver|done]. Qed.

Lemma clean_go_is_canonical rooted acc l :
  canonical rooted (reverse acc) → canonical rooted (clean_go rooted acc l).
Proof.
  revert acc. induction l as [|c l IH]; intros acc Hacc; simpl; [done|].
  destruct Hacc as (n & a & Ha & Hna & Hr). case_decide as Hc.
  - destruct acc as [|top acc].
    + destruct rooted; apply IH; [apply canonical_nil|].
      exists 1, []. split; [done|]. split; [set_solver|done].
    + rewrite reverse_cons in Ha. case_decide as Ht.
      * subst top c. apply IH. rewrite !reverse_cons, Ha.
        destruct a as [|x a] using rev_ind.
        -- exists (S n), []. rewrite replicate_S_end, !app_nil_r. split; [done|]. split; [set_solver|].
           intros Hrt. specialize (Hr Hrt). subst n. by destruct (reverse acc).
        -- rewrite app_assoc in Ha. simplify_list_eq. set_solver.
      * apply IH. destruct a as [|x a _] using rev_ind.
        -- rewrite app_nil_r in Ha. destruct n as [|n]; [by destruct (reverse acc)|].
           rewrite replicate_S_end in Ha. by simplify_list_eq.
        -- rewrite app_assoc in Ha. simplify_list_eq. exists n, a. set_solver.
  - apply IH. rewrite reverse_cons, Ha, <-app_assoc. exists n, (a ++ [c]). set_solver.
Qed.

Lemma clean_go_good rooted acc l : Forall good acc → Forall good l → Forall good (clean_go rooted acc l).
Proof.
  intros Hacc Hl. revert acc Hacc. induction Hl as [|c l Hc _ IH]; intros acc Hacc; simpl.
  { by apply Forall_reverse. }
  case_decide; [|by apply IH; constructor].
  subst c. destruct Hacc as [|top acc Htop Hacc].
  - destruct rooted; apply IH; [done|by constructor].
  - case_decide; apply IH; [by do 2 constructor|done].
Qed.

Lemma raw_parts_good s : Forall good (raw_parts s).
Proof.
  apply Forall_forall. intros c [Hc Hin]%list_elem_of_filter. split; [done|].
  by apply SplitByte_no_slash in Hin.
Qed.

Lemma path_parts_good s : Forall good (path_parts s).2.
Proof. apply clean_go_good; [done|apply raw_parts_good]. Qed.
Lemma path_parts_canonical s : canonical (path_parts s).1 (path_parts s).2.
Proof. apply clean_go_is_canonical, canonical_nil. Qed.

Lemma raw_parts_Join l : Forall good l → l ≠ [] → raw_parts (Join l "/") = l.
Proof.
  intros H Hne. unfold raw_parts. rewrite SplitByte_Join; [|done|].
  - induction H as [|c l [Hc _] _ IH]; [done|]. rewrite filter_cons_True by done.
    destruct l; [done|]. by rewrite IH.
  - eapply Forall_impl; [exact H|]. by intros c [_ ?].
Qed.

Lemma IsAbs_Join l : Forall good l → l ≠ [] → IsAbs (Join l "/") = false.
Proof.
  intros [|c l' [[Hne _] Hc] _]; [done|]. intros _. unfold IsAbs.
  destruct (HasPrefix (Join (c :: l') "/") "/") eqn:E; [|done].
  destruct c as [|a c]; [done|]. unfold no_slash in Hc. simpl in Hc.
  assert (∃ t, Join (String a c :: l') "/" = String a t) as [t Ht].
  { destruct l'; simpl; eauto. }
  rewrite Ht in E. simpl in E. rewrite andb_true_r in *.
  apply orb_false_iff in Hc as [Hc _]. congruence.
Qed.

(** Printing a processed path and reading it again gives the path back. *)
Lemma path_parts_string rooted l :
  Forall good l → canonical rooted l → path_parts (path_string (rooted, l)) = (rooted, l).
Proof.
  intros Hg Hc. destruct (decide (l = [])) as [->|Hne]; [by destruct rooted|].
  unfold path_string, path_parts. destruct rooted.
  - change (IsAbs ("/" +:+ Join l "/")) with true. f_equal.
    assert (raw_parts ("/" +:+ Join l "/") = raw_parts (Join l "/")) as -> by done.
    rewrite raw_parts_Join by done. by apply clean_go_canonical.
  - rewrite decide_False by done. rewrite IsAbs_Join by done. f_equal.
    rewrite raw_parts_Join by done. by apply clean_go_canonical.
Qed.

Lemma path_parts_Clean s : path_parts (Clean s) = path_parts s.
Proof.
  unfold Clean. rewrite (surjective_pairing (path_parts s)) at 1.
  rewrite path_parts_string; [by destruct (path_parts s)|apply path_parts_good|apply path_parts_canonical].
Qed.

(** Cleaning a path is idempotent and does not change the file it names; a
    clean rooted path has no [..] in it. *)
Theorem Clean_normal_form s :
  Clean (Clean s) = Clean s ∧ key (Clean s) = key s ∧
  (IsAbs s = true → IsAbs (Clean s) = true ∧ ".." ∉ key s).
Proof.
  split; [unfold Clean at 1; by rewrite path_parts_Clean|].
  split; [unfold key; by rewrite path_parts_Clean|].
  intros Hs. split.
  - change (IsAbs (Clean s)) with (path_parts (Clean s)).1. by rewrite path_parts_Clean.
  - destruct (path_parts_canonical s) as (n & l & Hl & Hnl & Hr).
    unfold key. rewrite Hl, Hr by done. done.
Qed.

(** ** Lemmas: relative paths *)

Lemma rel_parts_spec b t r :
  rel_parts b t = Some r → t = b ++ r ∨ ∃ r', r = ".." :: r'.
Proof.
  revert t. induction b as [|x b IH]; intros t; simpl; [intros [= ->]; by left|].
  destruct t as [|y t].
  - case_decide; [done|]. intros [= <-]. right. by eexists.
  - case_decide as Hxy.
    + subst y. intros [->|?]%IH; [by left|by right].
    + case_decide; [done|]. intros [= <-]. right. by eexists.
Qed.

Lemma path_string_dots r : HasPrefix (path_string (false, ".." :: r)) "../" = true ∨ path_string (false, ".." :: r) = "..".
Proof. destruct r as [|c r]; [by right|]. left. done. Qed.

Lemma canonical_take rooted m l : canonical rooted l → canonical rooted (take m l).
Proof.
  intros (n & l' & -> & Hl & Hr). rewrite take_app, take_replicate, length_replicate.
  exists (n `min` m), (take (m - n) l'). split; [by rewrite Nat.min_comm|]. split.
  - intros H. apply Hl. rewrite <-(take_drop (m - n) l'). set_solver.
  - intros H. specialize (Hr H). lia.
Qed.

Lemma key_PathDir s : key (PathDir s) = take (length (key s) - 1) (key s).
Proof.
  unfold PathDir, key. pose proof (path_parts_good s) as Hg. pose proof (path_parts_canonical s) as Hc.
  destruct (path_parts s) as [rooted comps]. cbn [fst snd] in *.
  rewrite path_parts_string; [done|by apply Forall_take|by apply canonical_take].
Qed.

(** ** Lemmas: paths that cross no link *)

Definition no_links (touch : list string → Prop) (fs : files) : Prop :=
  ∀ k, touch k → is_link (fs !! k) = false.

Lemma walk_plain follow fs cur k q :
  (∀ a, a `prefix_of` k → is_link (fs !! (cur ++ a)) = false) → ".." ∉ k →
  walk follow fs cur k = Some q → q = cur ++ k.
Proof.
  revert cur. induction k as [|c k IH]; intros cur Hl Hd; simpl.
  { intros [= <-]. by rewrite app_nil_r. }
  destruct (negb _); [done|]. rewrite decide_False by set_solver.
  pose proof (Hl [c]) as Hc. intros Hq.
  assert (walk follow fs (cur ++ [c]) k = Some q) as Hw.
  { destruct (fs !! (cur ++ [c])) as [[| |to]|]; try done.
    discriminate Hc. by exists k. }
  apply IH in Hw; [by rewrite <-app_assoc in Hw| |set_solver].
  intros a Ha. rewrite <-app_assoc. apply Hl. by apply prefix_cons.
Qed.

(** Every prefix of the path is in [touch], and no step of it goes up. *)
Definition reaches (touch : list string → Prop) (k : list string) : Prop :=
  ".." ∉ k ∧ ∀ a, a `prefix_of` k → touch a.

Lemma reaches_self touch k : reaches touch k → touch k.
Proof. intros [_ H]. by apply H. Qed.

Lemma reaches_prefix touch a k : a `prefix_of` k → reaches touch k → reaches touch a.
Proof.
  intros [l ->] [Hd H]. split; [set_solver|]. intros a' Ha. apply H. etrans; [exact Ha|]. by exists l.
Qed.

Lemma reaches_take touch n k : reaches touch k → reaches touch (take n k).
Proof. apply reaches_prefix. exists (drop n k). by rewrite take_drop. Qed.

Lemma resolve_plain touch fs k q :
  no_links touch fs → reaches touch k → resolve fs k = Some q → q = k.
Proof.
  intros Hl [Hd Hk] Hq. by apply (walk_plain _ fs []) in Hq; [|intros a Ha; apply Hl, Hk|].
Qed.

Lemma lresolve_plain touch fs k q :
  no_links touch fs → reaches touch k → lresolve fs k = Some q → q = k.
Proof.
  intros Hl Hk. unfold lresolve. destruct (last k) as [c|] eqn:Hc.
  2:{ apply last_None in Hc as ->. by intros [= <-]. }
  apply last_Some in Hc as [k' ->]. rewrite length_app, Nat.add_sub, take_app_length.
  destruct (resolve fs k') as [d|] eqn:Hd; [|done]. apply (resolve_plain touch) in Hd as ->; [|done|].
  - destruct (walkable _ _); [by intros [= <-]|done].
  - eapply reaches_prefix; [|exact Hk]. by exists [c].
Qed.

(** A path without links leads to a name in its directory exactly when that
    directory and those on the way to it are there. *)
Definition dirs_to (fs : files) (k : list string) : Prop :=
  ∀ a, a `prefix_of` k → walkable fs a = true.

Lemma walk_dirs follow fs cur k q :
  (∀ a, a `prefix_of` k → is_link (fs !! (cur ++ a)) = false) → ".." ∉ k →
  walk follow fs cur k = Some q → walkable fs (cur ++ k) = true →
  ∀ a, a `prefix_of` k → walkable fs (cur ++ a) = true.
Proof.
  revert cur. induction k as [|x k IH]; intros cur Hl Hd Hq Hk a Ha.
  { by apply prefix_nil_inv in Ha as ->. }
  simpl in Hq. destruct (walkable fs cur) eqn:Hw; [|done]. simpl in Hq. rewrite decide_False in Hq by set_solver.
  destruct a as [|y a]; [by rewrite app_nil_r|]. rewrite (cons_middle x cur k), app_assoc in Hk.
  apply prefix_cons_inv_1 in Ha as Hy. apply prefix_cons_inv_2 in Ha. subst y.
  rewrite cons_middle, app_assoc. eapply IH; [|set_solver| |exact Hk|exact Ha].
  - intros b Hb. rewrite <-app_assoc. apply Hl. by apply prefix_cons.
  - pose proof (Hl [x] ltac:(by exists k)) as Hx. by destruct (fs !! (cur ++ [x])) as [[| |to]|].
Qed.

Lemma walk_some follow fs cur k :
  (∀ a, a `prefix_of` k → walkable fs (cur ++ a) = true) → ".." ∉ k →
  walk follow fs cur k = Some (cur ++ k).
Proof.
  revert cur. induction k as [|x k IH]; intros cur Hw Hd; simpl; [by rewrite app_nil_r|].
  pose proof (Hw [] ltac:(by eexists)) as H0. rewrite app_nil_r in H0. rewrite H0. simpl.
  rewrite decide_False by set_solver. pose proof (Hw [x] ltac:(by exists k)) as Hx.
  unfold walkable in Hx. rewrite bool_decide_eq_false_2 in Hx by by destruct cur.
  assert (walk follow fs (cur ++ [x]) k = Some (cur ++ x :: k)) as <-.
  { rewrite IH, <-app_assoc; [done| |set_solver]. intros a Ha. rewrite <-app_assoc.
    apply Hw. by apply prefix_cons. }
  by destruct (fs !! (cur ++ [x])) as [[| |to]|].
Qed.

Lemma lresolve_dirs touch fs k c q :
  no_links touch fs → reaches touch k → lresolve fs (k ++ [c]) = Some q → dirs_to fs k ∧ q = k ++ [c].
Proof.
  intros Hl Hk. unfold lresolve. rewrite last_snoc, length_app, Nat.add_sub, take_app_length.
  destruct (resolve fs k) as [d|] eqn:Hd; [|done]. destruct (walkable fs d) eqn:Hw; [|done].
  pose proof Hd as ->%(resolve_plain touch); try done. intros [= <-]. split; [|done].
  destruct Hk as [Hup Hk]. intros a Ha.
  apply (walk_dirs _ fs [] k k) with (1 := λ b Hb, Hl b (Hk b Hb)) (3 := Hd); done.
Qed.

Lemma lresolve_some fs k c : dirs_to fs k → ".." ∉ k → lresolve fs (k ++ [c]) = Some (k ++ [c]).
Proof.
  intros Hk Hd. unfold lresolve. rewrite last_snoc, length_app, Nat.add_sub, take_app_length.
  assert (resolve fs k = Some k) as -> by by apply (walk_some _ fs []). by rewrite Hk.
Qed.

Lemma dirs_to_kept fs fs' k :
  (∀ a, a `prefix_of` k → fs !! a = Some Dir → fs' !! a = Some Dir) → dirs_to fs k → dirs_to fs' k.
Proof.
  intros Hk Hd a Ha. specialize (Hd a Ha). unfold walkable in *. apply orb_true_iff in Hd as [->|Hd]; [done|].
  destruct (fs !! a) as [[]|] eqn:E; try done. rewrite (Hk a Ha E). apply orb_true_r.
Qed.

(** ** Lemmas: what a call may touch *)

(** Nothing a file operation does can break [J]. *)
Definition fs_insensitive (J : world → Prop) : Prop :=
  ∀ w fs faults, J w → J (with_fs fs (with_faults faults w)).

(** [fs'] differs from [fs] in [touch] only, where it has no links; and the
    directories among [kept] are still there. *)
Definition changes (touch kept : list string → Prop) (fs fs' : files) : Prop :=
  (∀ k, ¬ touch k → fs' !! k = fs !! k) ∧ no_links touch fs' ∧
  (∀ k, kept k → fs !! k = Some Dir → fs' !! k = Some Dir).

(** The files are those of [w0], but for [changes]; and [J] holds of the rest. *)
Definition fs_frame (touch kept : list string → Prop) (J : world → Prop) (w0 w : world) : Prop :=
  changes touch kept w0.(w_fs) w.(w_fs) ∧ J w.

Lemma changes_refl touch kept fs : no_links touch fs → changes touch kept fs fs.
Proof. done. Qed.

Lemma changes_insert touch kept fs k node :
  touch k → is_link (Some node) = false → fs !! k ≠ Some Dir → no_links touch fs →
  changes touch kept fs (<[k := node]> fs).
Proof.
  intros Hk Hn Hd Hl. split; [|split]; intros k' Hk'.
  - rewrite lookup_insert_ne; [done|by intros ->].
  - destruct (decide (k' = k)) as [->|]; [by rewrite lookup_insert_eq|].
    rewrite lookup_insert_ne by done. by apply Hl.
  - intros Hdir. rewrite lookup_insert_ne; [done|by intros ->].
Qed.

Lemma changes_delete touch kept fs k :
  touch k → ¬ kept k → no_links touch fs → changes touch kept fs (delete k fs).
Proof.
  intros Hk Hn Hl. split; [|split]; intros k' Hk'.
  - rewrite lookup_delete_ne; [done|by intros ->].
  - destruct (decide (k' = k)) as [->|]; [by rewrite lookup_delete_eq|].
    rewrite lookup_delete_ne by done. by apply Hl.
  - intros Hdir. rewrite lookup_delete_ne; [done|by intros ->].
Qed.

Lemma changes_trans touch kept fs1 fs2 fs3 :
  changes touch kept fs1 fs2 → changes touch kept fs2 fs3 → changes touch kept fs1 fs3.
Proof. intros (H1 & _ & H2) (H3 & H4 & H5). split; [|auto]. intros k Hk. by rewrite H3, H1. Qed.

Lemma mkdir_at_changes touch kept fs a fs' :
  no_links touch fs → reaches touch a → mkdir_at fs a = Ok fs' →
  changes touch kept fs fs' ∧ ∀ k, is_Some (fs !! k) → is_Some (fs' !! k).
Proof.
  intros Hl Ha. unfold mkdir_at. destruct (stat fs a) as [[]|]; try done; [by intros [= <-]|].
  destruct (lresolve fs a) as [k|] eqn:Hk; [|done]. apply (lresolve_plain touch) in Hk as ->; try done.
  destruct (fs !! a) eqn:E; [done|]. intros [= <-]. split.
  - apply changes_insert; [by apply reaches_self|done|congruence|done].
  - intros k Hk. by apply lookup_insert_is_Some'; right.
Qed.

Lemma mkdir_all_changes touch kept fs l :
  no_links touch fs → (∀ a, a ∈ l → reaches touch a) →
  changes touch kept fs (mkdir_all fs l).2 ∧ ∀ k, is_Some (fs !! k) → is_Some ((mkdir_all fs l).2 !! k).
Proof.
  revert fs. induction l as [|a l IH]; intros fs Hl Ha; simpl; [done|].
  destruct (mkdir_at fs a) as [fs'|e] eqn:E; [|done].
  apply (mkdir_at_changes touch kept) in E as [Hc Hm]; [|done|apply Ha; left].
  destruct (IH fs') as [Hc' Hm']; [apply Hc|intros; apply Ha; by right|].
  split; [by eapply changes_trans|]. auto.
Qed.

Lemma elem_of_ancestors a k : a ∈ ancestors k → a `prefix_of` k.
Proof. unfold ancestors. intros (n & -> & _)%list_elem_of_fmap. exists (drop n k). by rewrite take_drop. Qed.

Section frames.
Variables (touch kept : list string → Prop) (J : world → Prop) (w0 : world).
Hypothesis HJ : fs_insensitive J.

Lemma syscall_frame {A} (f : Z → files → res A * files) :
  (∀ now fs, no_links touch fs → changes touch kept fs (f now fs).2) →
  preserves (fs_frame touch kept J w0) (syscall f) (λ _, True).
Proof.
  intros Hf w [Hfs Hw]. split; [|done].
  assert (∃ fs faults, (syscall f w).2 = with_fs fs (with_faults faults w) ∧
    changes touch kept w.(w_fs) fs) as (fs & faults & -> & Hk).
  { unfold syscall. destruct Hfs as (_ & Hl & _). destruct (next_fault_spec w) as [->|(f0 & fs & _ & ->)].
    - pose proof (Hf (w_now w) (w_fs w)) as Hk. destruct (f (w_now w) (w_fs w)) as [r fs].
      exists fs, w.(w_faults). split; [by destruct w|auto].
    - destruct f0 as [msg|]; [by exists (w_fs w), fs; destruct w|].
      cbn [with_faults w_now w_fs]. pose proof (Hf (w_now w) (w_fs w)) as Hk.
      destruct (f (w_now w) (w_fs w)) as [r fs']. exists fs', fs. auto. }
  split; [|by apply HJ]. by eapply changes_trans.
Qed.

Lemma MkdirAll_frame p :
  reaches touch (key p) → preserves (fs_frame touch kept J w0) (MkdirAll p) (λ _, True).
Proof.
  intros Ht. apply syscall_frame. intros _ fs Hl. apply mkdir_all_changes; [done|].
  intros a Ha%elem_of_ancestors. by eapply reaches_prefix.
Qed.

Lemma create_file_frame p mode :
  reaches touch (key p) → preserves (fs_frame touch kept J w0) (create_file p mode) (λ _, True).
Proof.
  intros Ht. apply syscall_frame. intros now fs Hl. destruct (resolve fs (key p)) as [k|] eqn:Hk; [|done].
  apply (resolve_plain touch) in Hk as ->; try done. destruct (walkable _ _) eqn:Hw; [done|].
  apply changes_insert; [by apply reaches_self|done| |done]. intros Hd.
  unfold walkable in Hw. rewrite Hd, orb_true_r in Hw. done.
Qed.

Lemma write_file_frame p c :
  reaches touch (key p) → preserves (fs_frame touch kept J w0) (write_file p c) (λ _, True).
Proof.
  intros Ht. apply syscall_frame. intros now fs Hl. destruct (resolve fs (key p)) as [k|] eqn:Hk; [|done].
  apply (resolve_plain touch) in Hk as ->; try done. destruct (fs !! key p) as [[| |]|] eqn:Hf; try done.
  apply changes_insert; [by apply reaches_self|done|congruence|done].
Qed.

Lemma os_Remove_frame p :
  reaches touch (key p) → ¬ kept (key p) → preserves (fs_frame touch kept J w0) (os_Remove p) (λ _, True).
Proof.
  intros Ht Hn. apply syscall_frame. intros now fs Hl. destruct (lresolve fs (key p)) as [k|] eqn:Hk; [|done].
  apply (lresolve_plain touch) in Hk as ->; try done. destruct (fs !! key p); [|done]. case_decide; [|done].
  apply changes_delete; [by apply reaches_self|done..].
Qed.

Lemma noop_frame {A} (r : res A) :
  preserves (fs_frame touch kept J w0) (syscall (λ _ fs, (r, fs))) (λ _, True).
Proof. by apply syscall_frame. Qed.
End frames.

#[export] Hint Resolve MkdirAll_frame create_file_frame write_file_frame os_Remove_frame noop_frame : byot.

(** ** Lemmas: joining one component *)

Lemma SplitByte_app s t : SplitByte "/" (s +:+ "/" +:+ t) = SplitByte "/" s ++ SplitByte "/" t.
Proof.
  induction s as [|d s IH]; [done|]. rewrite app_cons. cbn [SplitByte]. rewrite IH.
  case_decide; [done|]. pose proof (SplitByte_nonnil "/" s). by destruct (SplitByte "/" s).
Qed.

Lemma clean_go_snoc rooted acc l c :
  c ≠ ".." → clean_go rooted acc (l ++ [c]) = clean_go rooted acc l ++ [c].
Proof.
  intros Hc. revert acc. induction l as [|x l IH]; intros acc; simpl.
  - rewrite decide_False by done. by rewrite reverse_cons.
  - repeat case_match; apply IH.
Qed.

Lemma key_join a c : a ≠ "" → good c → c ≠ ".." → key (PathJoin a c) = key a ++ [c].
Proof.
  intros Ha [[Hc1 Hc2] Hc3] Hc. unfold PathJoin. rewrite !decide_False by done.
  unfold key. rewrite path_parts_Clean. unfold path_parts. cbn [snd].
  assert (IsAbs (a +:+ "/" +:+ c) = IsAbs a) as -> by by destruct a.
  rewrite <-clean_go_snoc by done. f_equal. unfold raw_parts.
  rewrite SplitByte_app, (no_slash_split c) by done. rewrite filter_app. f_equal.
  rewrite filter_cons_True by done. done.
Qed.
