(* ===== verification/Bundle.v ===== *)
(** * Package bundle (src/bundle/unzip.go)

    Unpacking an uploaded archive into a workspace.  Reading the archive's
    directory is archive/zip's work ([ext_zip]); everything the package decides
    about names, and every file it makes, is modelled. *)

From S2P Require Import Prelude.
From S2P Require Import Prog.
From S2P Require Import GoStrings.
From S2P Require Import Model.
From S2P Require Import World.
From S2P Require Import Paths.

(** The first component of each entry must be the same directory. [root] is ""
    until one is seen. *)
Fixpoint single_root_go (root : string) (files : list zip_entry) : string :=
  match files with
  | [] => if decide (root = "") then "" else root +:+ "/"
  | f :: files =>
      let p := Clean f.(z_name) in
      if decide (p = ".") then single_root_go root files
      else
        match SplitByte "/" (TrimSuffix p "/") with
        | [] => ""
        | first :: _ =>
            if decide (first = "" ∨ first = "..") then ""
            else if decide (root = "") then single_root_go first files
            else if decide (first ≠ root) then "" else single_root_go root files
        end
  end.
Definition singleRootPrefix (files : list zip_entry) : string := single_root_go "" files.

Definition withinDir (base target : string) : bool :=
  match Rel base target with
  | None => false
  | Some rel => negb (bool_decide (rel = "..")) && negb (HasPrefix rel "../")
  end.

(** [f.Mode()&0777|0200] *)
Definition file_mode (m : Z) : Z := Z.lor (Z.land m 511) 128.

Definition extractFile (f : zip_entry) (target : string) : prog world (res unit) :=
  try rc := call (f ← next_fault; mret (match f with Some m => Err (ErrExternal m) | None => Ok tt end)) in
  try _ := call (create_file target (file_mode f.(z_mode))) in
  match f.(z_content) with
  | Err e => mret (Err e)
  | Ok content => call (write_file target content)
  end.

(** What the loop decides about one entry, before it touches the disk. *)
Inductive verdict :=
| Skip
| Reject (e : error)
| Target (path : string).

Definition entry_target (destClean strip : string) (f : zip_entry) : verdict :=
  if decide (strip ≠ "" ∧ f.(z_name) = strip) then Skip
  else
    let name := if decide (strip = "") then f.(z_name) else TrimPrefix f.(z_name) strip in
    let name := Clean name in
    if decide (name = "." ∨ name = "") then Skip
    else if HasPrefix name ".." || IsAbs name
    then Reject (Errorf ("illegal path in zip: " +:+ f.(z_name)))
    else
      let target := PathJoin destClean name in
      if withinDir destClean target then Target target
      else Reject (Errorf ("zip slip: " +:+ f.(z_name))).

Definition unpack_entry (destClean strip : string) (f : zip_entry) : prog world (res unit) :=
  match entry_target destClean strip f with
  | Skip => mret (Ok tt)
  | Reject e => mret (Err e)
  | Target target =>
      if f.(z_is_dir) then call (MkdirAll target)
      else
        try _ := call (MkdirAll (PathDir target)) in
        extractFile f target
  end.

Fixpoint unpack_all (destClean strip : string) (files : list zip_entry) : prog world (res unit) :=
  match files with
  | [] => mret (Ok tt)
  | f :: files =>
      try _ := unpack_entry destClean strip f in
      unpack_all destClean strip files
  end.

Section unzip.
Context `{Ext}.

(** [zipPath] is read from the file system, then decoded. *)
Definition UnzipFile (destDir zipPath : string) : prog world (res unit) :=
  content ← call (gets (λ w, file_content w.(w_fs) zipPath));
  match content with
  | None => mret (Err (Wrap "open zip: " (os_error "no such file or directory")))
  | Some c =>
      match ext_zip c with
      | Err e => mret (Err (Wrap "open zip: " e))
      | Ok files =>
          let strip := singleRootPrefix files in
          let destClean := Clean destDir in
          try _ := call (MkdirAll destClean) in
          unpack_all destClean strip files
      end
  end.
End unzip.

Example strip_example :
  singleRootPrefix [ZipEntry "proj/package.json" false 420 (Ok ""); ZipEntry "proj/tests/a.js" false 420 (Ok "")]
  = "proj/".
Proof. vm_compute. reflexivity. Qed.
Example slip_example :
  entry_target "/ws" "" (ZipEntry "../escape.txt" false 420 (Ok "nope"))
  = Reject (Errorf "illegal path in zip: ../escape.txt").
Proof. vm_compute. reflexivity. Qed.

(** ** Lemmas and theorems *)

(** A path within [dest] extends it, without a step up. *)
Lemma withinDir_prefix dest t :
  withinDir (Clean dest) t = true → key dest `prefix_of` key t ∧ (".." ∉ key dest → ".." ∉ key t).
Proof.
  unfold withinDir, Rel, key. rewrite path_parts_Clean. pose proof (path_parts_canonical t) as Hc.
  destruct (path_parts dest) as [rb b], (path_parts t) as [rt l]. cbn [fst snd] in *.
  destruct (eqb rb rt); [|done]. destruct (rel_parts b l) as [r|] eqn:E; [|done].
  change ((λ c, path_string (false, c)) <$> Some r) with (Some (path_string (false, r))).
  intros [H1 H2]%andb_true_iff. apply negb_true_iff in H1, H2. apply bool_decide_eq_false in H1.
  assert (∀ r', r ≠ ".." :: r') as Hr.
  { intros r' ->. destruct (path_string_dots r') as [Hd|Hd]; [by rewrite Hd in H2|done]. }
  apply rel_parts_spec in E as [->|[r' ->]]; [|by destruct (Hr r')]. split; [by exists r|].
  intros Hb. destruct Hc as ([|n] & l' & Hl & Hl' & _); [by rewrite Hl|].
  destruct b as [|x b]; simpl in Hl; [by destruct (Hr (replicate n ".." ++ l'))|].
  injection Hl as -> _. set_solver.
Qed.

(** Every entry that is unpacked goes below the destination. *)
Lemma entry_target_inside dest strip f p :
  entry_target (Clean dest) strip f = Target p →
  key dest `prefix_of` key p ∧ (".." ∉ key dest → ".." ∉ key p).
Proof.
  unfold entry_target. case_decide; [done|]. cbv zeta. generalize (Clean (if decide (strip = "") then z_name f else TrimPrefix (z_name f) strip)).
  intros name. case_decide; [done|]. destruct (_ || _); [done|].
  destruct (withinDir _ _) eqn:E; [|done]. intros [= <-]. by apply withinDir_prefix.
Qed.

Section frame.
Variables (dest : string) (kept : list string → Prop) (J : world → Prop) (w0 : world).
Hypothesis HJ : fs_insensitive J.
Hypothesis Hdest : ".." ∉ key dest.

(** Below the destination, or a directory on the way to it. *)
Definition at_or_above (k : list string) : Prop :=
  key dest `prefix_of` k ∨ k `prefix_of` key dest.

Lemma on_the_way p : key dest `prefix_of` key p → ".." ∉ key p → reaches at_or_above (key p).
Proof. intros Hp Hd. split; [done|]. intros a Ha. destruct (prefix_weak_total _ _ _ Hp Ha); [by left|by right]. Qed.

Lemma fault_frame {A} (f : option string → res A) touch :
  preserves (fs_frame touch kept J w0) (x ← next_fault; mret (f x)) (λ _, True).
Proof.
  intros w [Hfs Hw]. split; [|done]. unfold mbind, M_bind.
  destruct (next_fault_spec w) as [->|(m & fs & _ & ->)]; [done|].
  split; [done|]. simpl. rewrite <-(with_fs_id (with_faults fs w)). by apply HJ.
Qed.

Lemma extractFile_frame f p :
  reaches at_or_above (key p) →
  prog_ok (fs_frame at_or_above kept J w0) (extractFile f p) (λ _, True).
Proof.
  intros Hp. unfold extractFile.
  eapply prog_ok_bind; [apply prog_ok_call, fault_frame|]. intros [u|e] _; [|done].
  eapply prog_ok_bind; [apply prog_ok_call; auto with byot|]. intros [u'|e] _; [|done].
  destruct (z_content f); [|done]. apply prog_ok_call; auto with byot.
Qed.

Lemma unpack_all_frame strip files :
  prog_ok (fs_frame at_or_above kept J w0) (unpack_all (Clean dest) strip files) (λ _, True).
Proof.
  induction files as [|f files IH]; cbn [unpack_all]; [done|].
  eapply (prog_ok_bind _ _ _ (λ _, True)); [|intros [u|e] _; [exact IH|done]].
  unfold unpack_entry. destruct (entry_target _ strip f) as [|e|p] eqn:E; [done..|].
  apply entry_target_inside in E as [Hp Hd]. assert (reaches at_or_above (key p)) by (apply on_the_way; auto).
  destruct (z_is_dir f); [by apply prog_ok_call, MkdirAll_frame|]. eapply prog_ok_bind.
  - apply prog_ok_call, MkdirAll_frame; [done|]. rewrite key_PathDir. by apply reaches_take.
  - intros [u|e] _; [|done]. by apply extractFile_frame.
Qed.

Lemma UnzipFile_frame `{Ext} zipPath :
  prog_ok (fs_frame at_or_above kept J w0) (UnzipFile dest zipPath) (λ _, True).
Proof.
  unfold UnzipFile. eapply prog_ok_bind.
  { apply (prog_ok_call _ _ (λ _, True)). by intros w Hw. }
  intros [c|] _; [|done]. destruct (ext_zip c) as [files|e]; [|done].
  eapply prog_ok_bind.
  - apply prog_ok_call, MkdirAll_frame; [done|]. unfold key at 1. rewrite path_parts_Clean.
    by apply on_the_way.
  - intros [u|e] _; [|done]. apply unpack_all_frame.
Qed.
End frame.

(** C24: no archive writes outside the directory it is unpacked to.  System calls
    follow symbolic links, so this is for a destination with none on the way to it
    and none below it, as in a workspace just made: whatever the entries are
    called, a file that is neither below the destination nor on the way to it is
    the same afterwards, as are the database and the bucket; no link has been made;
    and no directory has been removed or replaced.  (A rooted [dest] has no [..] in its key, [Paths.Clean_normal_form].) *)
Theorem UnzipFile_stays_inside `{Ext} dest zipPath w :
  ".." ∉ key dest → no_links (at_or_above dest) w.(w_fs) →
  let w' := (run (UnzipFile dest zipPath) w).2 in
  (∀ k, ¬ key dest `prefix_of` k → ¬ k `prefix_of` key dest → w'.(w_fs) !! k = w.(w_fs) !! k) ∧
  no_links (at_or_above dest) w'.(w_fs) ∧
  (∀ k, w.(w_fs) !! k = Some Dir → w'.(w_fs) !! k = Some Dir) ∧
  w'.(w_db) = w.(w_db) ∧ w'.(w_blobs) = w.(w_blobs).
Proof.
  intros Hd Hl w'.
  assert (fs_insensitive (λ w', w'.(w_db) = w.(w_db) ∧ w'.(w_blobs) = w.(w_blobs))) as HJ by (by intros w1 fs fl ?).
  destruct (prog_ok_run _ _ _ w (UnzipFile_frame dest (λ _, True) _ w HJ Hd zipPath)) as [[(Hfs & Hl' & Hdir) HJw] _]; [done|].
  split; [|split; [done|split; [auto|done]]]. intros k H1 H2. apply Hfs. by intros [?|?].
Qed.
