(* ===== verification/Runtime.v ===== *)
(** * Package runtime (src/runtime)

    How a test is turned into a [docker run] command line ([docker_args.go]),
    run under a timeout ([runtime.go]) and cancelled ([cancel.go]).  What docker
    does with the command line is the parameter [ext_docker]. *)

From S2P Require Import Prelude.
From S2P Require Import Prog.
From S2P Require Import GoStrings.
From S2P Require Import Model.
From S2P Require Import World.
From S2P Require Import Paths.

(** ** images.go *)
Definition ImageNode := "node:24-alpine".
Definition ImageGo := "ubuntu:24.04".
Definition ImagePython := "python:3.12-alpine".
Definition ImageK6 := "grafana/k6:2.3.0".
Definition ImageLocust := "locustio/locust:2.46.7".
Definition ImagePlaywright := "mcr.microsoft.com/playwright:v1.49.1-jammy".
Definition Images : list string :=
  [ImageNode; ImageGo; ImagePython; ImageK6; ImageLocust; ImagePlaywright].

(** ** runtime.go: the table of runtimes *)
Module RuntimeSpec.
Record t := mk {
  Image : string;
  Command : string;
  NetworkEnabled : bool;
  MemoryMB : option Z;
  CPUs : option spec_float;
  NetworkOverride : option bool;
  Env : gmap string string;
  Name : string
}.
Definition base (image command : string) (network : bool) : t :=
  mk image command network None None None ∅ "".
End RuntimeSpec.

Definition runtimes : gmap string RuntimeSpec.t :=
  list_to_map [
    ("node", RuntimeSpec.base ImageNode "node ./artifact" false);
    ("go", RuntimeSpec.base ImageGo "./artifact" false);
    ("python", RuntimeSpec.base ImagePython "python ./artifact" false);
    ("k6", RuntimeSpec.base ImageK6 "k6 run ./artifact" true);
    ("locust", RuntimeSpec.base ImageLocust "sh /app/.byot/run.sh" true);
    ("playwright", RuntimeSpec.base ImagePlaywright "npx playwright test" true) ].

Definition GetRuntime (name : string) : option RuntimeSpec.t := runtimes !! name.

(** ** docker_args.go *)

(** [fmt.Sprintf("%.2f", x)]: the exact value to two decimals, halves to even. *)
Definition round_half_even (num den : Z) : Z :=
  let q := (num / den)%Z in
  let r := (2 * (num mod den))%Z in
  if (r <? den)%Z then q
  else if (den <? r)%Z then (q + 1)%Z
  else if Z.even q then q else (q + 1)%Z.
Definition hundredths (m : positive) (e : Z) : Z :=
  if (0 <=? e)%Z then (Zpos m * 2 ^ e * 100)%Z
  else round_half_even (Zpos m * 100) (2 ^ (- e)).
Definition fmt_2f (x : spec_float) : string :=
  let digits h := Itoa (h / 100)%Z +:+ "." +:+ Itoa (h / 10 mod 10)%Z +:+ Itoa (h mod 10)%Z in
  match x with
  | S754_zero s => (if s then "-" else "") +:+ "0.00"
  | S754_infinity s => if s then "-Inf" else "+Inf"
  | S754_nan => "NaN"
  | S754_finite s m e => (if s then "-" else "") +:+ digits (hundredths m e)
  end.

Definition sandboxUID : Z := 65534.
Definition sandboxGID : Z := 65534.

(** [sort.Strings] of the map's keys. *)
Definition envNames (env : gmap string string) : list string :=
  merge_sort String.le (map_to_list env).*1.

Definition ContainerName (jobID : string) : string :=
  if decide (jobID = "") then "" else "byot-" +:+ jobID.

(** ** support.go *)
Definition SupportDir : string := ".byot".

(** [strings.EqualFold] with [".zip"], of whose letters only ASCII ones are variants. *)
Definition EqualFold (s t : string) : bool := bool_decide (AsciiLower s = AsciiLower t).

Definition IsBundle (runtimeName originalFilename : string) : bool :=
  if decide (runtimeName = "playwright") then true
  else if decide (runtimeName = "locust") then EqualFold (PathExt originalFilename) ".zip"
  else false.

Section support.
Context `{Ext}.

Definition supportFiles (runtimeName : string) : option (list (string * string)) :=
  if decide (runtimeName = "locust")
  then Some ((λ name, (name, ext_embedded ("locust/" +:+ name))) <$> ["byot_checks.py"; "run.sh"])
  else None.

(** [os.WriteFile] *)
Definition WriteFile (path content : string) (mode : Z) : prog world (res unit) :=
  try _ := call (create_file path mode) in
  call (write_file path content).

Fixpoint stage_all (dir : string) (files : list (string * string)) : prog world (res unit) :=
  match files with
  | [] => mret (Ok tt)
  | (name, data) :: files =>
      try _ := WriteFile (PathJoin dir name) data 420 in
      stage_all dir files
  end.

Definition StageSupportFiles (runtimeName workspace : string) : prog world (res unit) :=
  match supportFiles runtimeName with
  | None => mret (Ok tt)
  | Some files =>
      let dir := PathJoin workspace SupportDir in
      try _ := call (MkdirAll dir) in
      stage_all dir files
  end.

(** Lchown on every file; ownership itself is not part of the model. *)
Definition ChownWorkspace (workspace : string) : prog world (res unit) :=
  if negb (ext_uid =? 0)%Z then mret (Ok tt)
  else call (syscall (λ _ fs, (Ok tt, fs))).
End support.

Section runtime.
Context `{Ext}.

Definition sandboxUser : Z * Z :=
  if (ext_uid =? 0)%Z then (sandboxUID, sandboxGID) else (ext_uid, ext_gid).

Definition userArg : string :=
  let '(uid, gid) := sandboxUser in "--user=" +:+ Itoa uid +:+ ":" +:+ Itoa gid.

Definition network_of (spec : RuntimeSpec.t) : string :=
  match spec.(RuntimeSpec.NetworkOverride) with
  | Some b => if b : bool then "bridge" else "none"
  | None => if spec.(RuntimeSpec.NetworkEnabled) then "bridge" else "none"
  end.
Definition memory_of (spec : RuntimeSpec.t) : string :=
  match spec.(RuntimeSpec.MemoryMB) with
  | Some m => if (0 <? m)%Z then Itoa m +:+ "m" else "512m"
  | None => "512m"
  end.
Definition cpus_of (spec : RuntimeSpec.t) : string :=
  match spec.(RuntimeSpec.CPUs) with
  | Some c => if flt f0 c then fmt_2f c else "1"
  | None => "1"
  end.

(** The slice [args] as it is first written. *)
Definition baseArgs (workspace : string) (spec : RuntimeSpec.t) : list string :=
  [ "run"; "--rm";
    "--network=" +:+ network_of spec;
    "--memory=" +:+ memory_of spec;
    "--cpus=" +:+ cpus_of spec;
    "--pids-limit=128";
    "--cap-drop=ALL";
    "--security-opt=no-new-privileges";
    "--read-only";
    "--tmpfs=/tmp:rw,exec,nosuid,size=256m";
    userArg;
    "-e"; "HOME=/tmp";
    "-v"; workspace +:+ ":/app";
    "-w"; "/app";
    "--entrypoint"; "sh" ].

Definition dockerRunArgs (workspace : string) (spec : RuntimeSpec.t) : list string :=
  let envArgs := mjoin ((λ name, ["-e"; name]) <$> envNames spec.(RuntimeSpec.Env)) in
  let args := baseArgs workspace spec in
  let args := if decide (spec.(RuntimeSpec.Name) = "") then args
              else args ++ ["--name"; spec.(RuntimeSpec.Name)] in
  (args ++ envArgs) ++ [spec.(RuntimeSpec.Image); "-c"; spec.(RuntimeSpec.Command)].

(** ** cancel.go *)
Definition registerActive (jobID : string) : act unit :=
  if decide (jobID = "") then mret tt
  else modify (λ w, with_active ({[jobID]} ∪ w.(w_active)) w).
Definition unregisterActive (jobID : string) : act unit :=
  if decide (jobID = "") then mret tt
  else modify (λ w, with_active (w.(w_active) ∖ {[jobID]}) w).

Definition KillContainer (name : string) : act unit :=
  if decide (name = "") then mret tt else emit (EvDockerRm name).

(** A registered command has a started process. *)
Definition Cancel (jobID : string) : prog world bool :=
  active ← call (gets (λ w, bool_decide (jobID ∈ w.(w_active))));
  if negb active then mret false
  else
    killed ← call (f ← next_fault; _ ← emit (EvKillProcess jobID); mret (bool_decide (f = None)));
    _ ← call (KillContainer (ContainerName jobID));
    mret killed.

(** ** runtime.go: Execute *)

(** "%s [%s] %s\n", one for each line a stream's scanner returns. *)
Definition log_line (l : string * string * string) : string :=
  let '(stamp, stream, text) := l in
  stamp +:+ " [" +:+ stream +:+ "] " +:+ text +:+ String "010" "".

(** [time.Duration.String] matters only in the text of the timeout error. *)
Variable Duration_String : Z → string.

Definition Result : Type := string * Z.   (* Output, ExitCode *)

Definition cmd_env (spec : RuntimeSpec.t) : list string :=
  if decide (spec.(RuntimeSpec.Env) = ∅) then ext_environ
  else ext_environ ++
    ((λ name, name +:+ "=" +:+ default "" (spec.(RuntimeSpec.Env) !! name))
     <$> envNames spec.(RuntimeSpec.Env)).

(** From the way [Wait] ended to the result, the error and whether the
    deadline passed. *)
Definition wait_outcome (output : string) (timeout : Z) (r : wait_result)
    : Result * option error :=
  match r with
  | WaitDeadline =>
      ((output, -1)%Z, Some (Errorf ("execution timed out after " +:+ Duration_String timeout)))
  | WaitExit code => ((output, code), None)
  | WaitFailed msg =>
      ((output, -1)%Z, Some (Wrap "docker execution failed: " (ErrExternal msg)))
  end.

(** The workspace is mounted at /app: what the container wrote there. *)
Definition apply_files (ws : list string) (files : list (list string * option fnode))
    (fs : gmap (list string) fnode) : gmap (list string) fnode :=
  foldl (λ fs f, match f.2 with
                 | Some node => <[ws ++ f.1 := node]> fs
                 | None => delete (ws ++ f.1) fs
                 end) fs files.
Definition mounted_files (workspace : string) (files : list (list string * option fnode))
    (fs : gmap (list string) fnode) : gmap (list string) fnode :=
  match resolve fs (key workspace) with
  | Some ws => apply_files ws files fs
  | None => fs
  end.

Definition Execute (jobID workspace : string) (spec : RuntimeSpec.t) (timeout : Z)
    : prog world (Result * option error) :=
  let spec := RuntimeSpec.mk spec.(RuntimeSpec.Image)
                (ReplaceAll spec.(RuntimeSpec.Command) "./binary" "./artifact")
                spec.(RuntimeSpec.NetworkEnabled) spec.(RuntimeSpec.MemoryMB)
                spec.(RuntimeSpec.CPUs) spec.(RuntimeSpec.NetworkOverride)
                spec.(RuntimeSpec.Env) (ContainerName jobID) in
  let args := dockerRunArgs workspace spec in
  let env := cmd_env spec in
  stdout ← call next_fault;
  if stdout is Some m then
    mret (("", -1)%Z, Some (Wrap "create stdout pipe: " (ErrExternal m))) else
  stderr ← call next_fault;
  if stderr is Some m then
    mret (("", -1)%Z, Some (Wrap "create stderr pipe: " (ErrExternal m))) else
  let o := ext_docker args env timeout in
  if do_start o is Some m then
    mret (("", -1)%Z, Some (Wrap "start docker: " (ErrExternal m))) else
  _ ← call (emit (EvDockerRun args env));
  _ ← call (registerActive jobID);
  _ ← call (modify (λ w, with_fs (mounted_files workspace (do_files o) w.(w_fs))
                          (with_now (w.(w_now) + do_elapsed o)%Z w)));
  let output := String.concat "" (log_line <$> do_lines o) in
  _ ← (if do_wait o is WaitDeadline
       then call (KillContainer spec.(RuntimeSpec.Name)) else mret tt);
  _ ← call (unregisterActive jobID);
  mret (wait_outcome output timeout (do_wait o)).
End runtime.

(** ** Lemmas and theorems *)

Lemma envNames_dom (env env' : gmap string string) : dom env = dom env' → envNames env = envNames env'.
Proof.
  intros Hdom. unfold envNames.
  apply (StronglySorted_unique String.le); [apply StronglySorted_merge_sort; apply _..|].
  rewrite !merge_sort_Permutation.
  apply NoDup_Permutation; [apply NoDup_fst_map_to_list..|]. intros k.
  assert (∀ m : gmap string string, k ∈ (map_to_list m).*1 ↔ k ∈ dom m) as H; [|by rewrite !H, Hdom].
  intros m. rewrite elem_of_dom, list_elem_of_fmap. split.
  - intros ([k' v] & -> & Hk%elem_of_map_to_list). by exists v.
  - intros [v Hv]. exists (k, v). split; [done|]. by apply elem_of_map_to_list.
Qed.

Lemma elem_of_envNames env n : n ∈ envNames env ↔ n ∈ dom env.
Proof.
  unfold envNames. rewrite merge_sort_Permutation, elem_of_dom, list_elem_of_fmap. split.
  - intros ([k' v] & -> & Hk%elem_of_map_to_list). by exists v.
  - intros [v Hv]. exists (n, v). split; [done|]. by apply elem_of_map_to_list.
Qed.

Definition with_command (c : string) (s : RuntimeSpec.t) : RuntimeSpec.t :=
  RuntimeSpec.mk s.(RuntimeSpec.Image) c s.(RuntimeSpec.NetworkEnabled) s.(RuntimeSpec.MemoryMB)
    s.(RuntimeSpec.CPUs) s.(RuntimeSpec.NetworkOverride) s.(RuntimeSpec.Env) s.(RuntimeSpec.Name).
Definition with_env (env : gmap string string) (s : RuntimeSpec.t) : RuntimeSpec.t :=
  RuntimeSpec.mk s.(RuntimeSpec.Image) s.(RuntimeSpec.Command) s.(RuntimeSpec.NetworkEnabled)
    s.(RuntimeSpec.MemoryMB) s.(RuntimeSpec.CPUs) s.(RuntimeSpec.NetworkOverride) env s.(RuntimeSpec.Name).

Section theorems.
Context `{E : Ext}.

(** C25: every container is sandboxed.  The command line is options, then the
    image, then the command as one argument of [sh -c], so that a command cannot
    add an option; the hardening flags are always there and the user is never
    root; the network is off unless the runtime or the test turns it on; memory and
    CPU are set, to what the test has if that is positive (the CPUs with two
    decimals) and to 512 MB and one CPU if not; each variable is passed by its
    name alone, after the options, so that the line is the same for all values. *)
Theorem dockerRunArgs_sandbox workspace spec :
  ∃ opts names,
    (∀ c, dockerRunArgs workspace (with_command c spec) =
            "run" :: opts ++ mjoin ((λ n, ["-e"; n]) <$> names) ++ [spec.(RuntimeSpec.Image); "-c"; c]) ∧
    (∀ f, f ∈ ["--rm"; "--cap-drop=ALL"; "--security-opt=no-new-privileges"; "--read-only";
               "--pids-limit=128"; "--tmpfs=/tmp:rw,exec,nosuid,size=256m"; userArg] → f ∈ opts) ∧
    (∃ uid gid, userArg = "--user=" +:+ Itoa uid +:+ ":" +:+ Itoa gid ∧ uid ≠ 0%Z) ∧
    opts !! 1 = Some ("--network=" +:+
      if default spec.(RuntimeSpec.NetworkEnabled) spec.(RuntimeSpec.NetworkOverride)
      then "bridge" else "none") ∧
    opts !! 2 = Some ("--memory=" +:+
      match spec.(RuntimeSpec.MemoryMB) with
      | Some m => if (0 <? m)%Z then Itoa m +:+ "m" else "512m" | None => "512m" end) ∧
    opts !! 3 = Some ("--cpus=" +:+
      match spec.(RuntimeSpec.CPUs) with
      | Some c => if flt f0 c then fmt_2f c else "1" | None => "1" end) ∧
    (∀ n, n ∈ names ↔ n ∈ dom spec.(RuntimeSpec.Env)) ∧
    (∀ env', dom env' = dom spec.(RuntimeSpec.Env) →
       dockerRunArgs workspace (with_env env' spec) = dockerRunArgs workspace spec).
Proof.
  exists (tail (baseArgs workspace spec) ++ (if decide (spec.(RuntimeSpec.Name) = "") then [] else ["--name"; spec.(RuntimeSpec.Name)])),
    (envNames spec.(RuntimeSpec.Env)).
  split; [|split; [|split; [|split; [|split; [|split; [|split]]]]]].
  - intros c. unfold dockerRunArgs. cbn [with_command RuntimeSpec.Name RuntimeSpec.Env
      RuntimeSpec.Image RuntimeSpec.Command].
    change (baseArgs workspace (with_command c spec)) with (baseArgs workspace spec).
    rewrite <-app_assoc. case_decide; [by rewrite app_nil_r|]. by rewrite <-!app_assoc.
  - intros f Hf. apply elem_of_app. left. set_solver.
  - unfold userArg, sandboxUser. destruct (ext_uid =? 0)%Z eqn:Hu; reflect_bools; eexists _, _; by split.
  - cbn. unfold network_of. by destruct (RuntimeSpec.NetworkOverride spec).
  - done.
  - done.
  - intros n. by rewrite elem_of_envNames.
  - intros env' Hdom. unfold dockerRunArgs. cbn [with_env RuntimeSpec.Env].
    by rewrite (envNames_dom _ _ Hdom).
Qed.

(** The specification the container runs under. *)
Definition spec_for (jobID : string) (spec : RuntimeSpec.t) : RuntimeSpec.t :=
  RuntimeSpec.mk spec.(RuntimeSpec.Image)
    (ReplaceAll spec.(RuntimeSpec.Command) "./binary" "./artifact")
    spec.(RuntimeSpec.NetworkEnabled) spec.(RuntimeSpec.MemoryMB)
    spec.(RuntimeSpec.CPUs) spec.(RuntimeSpec.NetworkOverride)
    spec.(RuntimeSpec.Env) (ContainerName jobID).

(** C26: a run that starts ends cleanly.  Whatever the container does, the job is
    no longer registered as running afterwards; past the deadline the container
    is removed by its name and the result is an error with exit code -1; when the
    CLI exits, its code is the result and there is no error; and the output is
    the container's lines, each with its stream and time stamp. *)
Theorem Execute_outcome ds jobID workspace spec timeout w :
  w.(w_faults) = [] → jobID ≠ "" →
  let o := ext_docker (dockerRunArgs workspace (spec_for jobID spec)) (cmd_env spec) timeout in
  do_start o = None →
  let '((output, exitCode), err, w') := run (Execute ds jobID workspace spec timeout) w in
  output = String.concat "" (log_line <$> do_lines o) ∧
  w'.(w_active) = w.(w_active) ∖ {[jobID]} ∧
  w'.(w_db) = w.(w_db) ∧ w'.(w_blobs) = w.(w_blobs) ∧
  match do_wait o with
  | WaitDeadline => exitCode = (-1)%Z ∧ is_Some err ∧
      last w'.(w_events) = Some (EvDockerRm ("byot-" +:+ jobID))
  | WaitExit code => exitCode = code ∧ err = None
  | WaitFailed _ => exitCode = (-1)%Z ∧ is_Some err
  end.
Proof.
  intros Hf Hj o Hstart. unfold Execute. cbv zeta.
  change (cmd_env (RuntimeSpec.mk _ _ _ _ _ _ _ _)) with (cmd_env spec).
  fold (spec_for jobID spec). fold o.
  do 2 (rewrite run_call_bind; unfold next_fault at 1; rewrite Hf; cbv iota beta).
  rewrite Hstart. rewrite run_call_bind. unfold emit at 1. rewrite run_call_bind.
  unfold registerActive, unregisterActive, KillContainer, ContainerName, modify.
  rewrite decide_False by done. rewrite run_call_bind. rewrite run_bind.
  destruct (do_wait o); cbn -[decide]; rewrite ?decide_False by (by destruct jobID); cbn;
    rewrite ?decide_False by done; cbn; (split; [done|]); (split; [set_solver|]); split_and!; try done.
  rewrite last_snoc. unfold ContainerName. by rewrite decide_False.
Qed.
End theorems.
