(* ===== verification/Storage.v ===== *)
(** * Package storage: the interface (src/storage/storage.go)

    [Storage] is the Go interface, one field per method; a reader together
    with its size is its content.  What the rest of the program relies on is
    split in three classes, each extending the one before: [StorageFrame],
    [StorageCore] and [StorageLaws].  [Minio] proves all of them for its store;
    the store of [Supabase] has only the first. *)

From S2P Require Import Prelude.
From S2P Require Import Prog.
From S2P Require Import GoStrings.
From S2P Require Import Model.
From S2P Require Import World.

Class Storage := {
  UploadArtifact : string → string → prog world (res string);
  UploadLog : string → string → string → prog world (res string);
  UploadBlob : string → string → prog world (res string);
  DownloadBlob : string → prog world (res string);
  DeletePrefix : string → prog world (res unit);
  DeleteObject : string → prog world (res unit)
}.

Definition artifact_key (testUUID : string) : string := testUUID +:+ "/artifact".
Definition log_key (testUUID runID : string) : string := testUUID +:+ "/log/" +:+ runID +:+ "/log".

(** The part of the world a storage call may touch: the bucket, and the
    outcomes of coming calls. *)
Definition storage_step (w w' : world) : Prop :=
  ∃ blobs faults http, w' = with_blobs blobs (with_faults faults (with_http http w)).

(** Invariants that storage calls cannot break. *)
Definition storage_insensitive (I : world → Prop) : Prop :=
  ∀ w w', storage_step w w' → I w → I w'.

Definition under (prefix k : string) : Prop := HasPrefix k prefix = true.

(** What every store guarantees: its calls act on nothing but the bucket, and
    a download not even on that. *)
Class StorageFrame (St : Storage) : Prop := {
  upload_artifact_ok I u c : storage_insensitive I → prog_ok I (UploadArtifact u c) (λ _, True);
  upload_log_ok I u r c : storage_insensitive I → prog_ok I (UploadLog u r c) (λ _, True);
  upload_blob_ok I k c : storage_insensitive I → prog_ok I (UploadBlob k c) (λ _, True);
  download_ok I k : storage_insensitive I → prog_ok I (DownloadBlob k) (λ _, True);
  delete_prefix_ok I p : storage_insensitive I → prog_ok I (DeletePrefix p) (λ _, True);
  delete_object_ok I k : storage_insensitive I → prog_ok I (DeleteObject k) (λ _, True);
  download_frame k w : (run (DownloadBlob k) w).2.(w_blobs) = w.(w_blobs)
}.

(** A store that keeps objects under their keys, whatever the key.  A call that
    fails may have had its effect all the same, its answer lost on the way. *)
Class StorageCore (St : Storage) : Prop := {
  storage_frame :: StorageFrame St;
  upload_artifact_run uuid content w :
    match run (UploadArtifact uuid content) w with
    | (Ok k, w') => k = artifact_key uuid ∧ w'.(w_blobs) = <[artifact_key uuid := content]> w.(w_blobs)
    | (Err _, w') => w'.(w_blobs) = w.(w_blobs) ∨ w'.(w_blobs) = <[artifact_key uuid := content]> w.(w_blobs)
    end;
  upload_log_run uuid rid content w :
    match run (UploadLog uuid rid content) w with
    | (Ok k, w') => k = log_key uuid rid ∧ w'.(w_blobs) = <[log_key uuid rid := content]> w.(w_blobs)
    | (Err _, w') => w'.(w_blobs) = w.(w_blobs) ∨ w'.(w_blobs) = <[log_key uuid rid := content]> w.(w_blobs)
    end;
  upload_blob_run k0 content w :
    match run (UploadBlob k0 content) w with
    | (Ok k, w') => k = k0 ∧ w'.(w_blobs) = <[k0 := content]> w.(w_blobs)
    | (Err _, w') => w'.(w_blobs) = w.(w_blobs) ∨ w'.(w_blobs) = <[k0 := content]> w.(w_blobs)
    end;
  download_run k w :
    match run (DownloadBlob k) w with
    | (Ok c, w') => w.(w_blobs) !! k = Some c ∧ w'.(w_blobs) = w.(w_blobs)
    | (Err _, w') => w'.(w_blobs) = w.(w_blobs)
    end;
  delete_object_run k w :
    match run (DeleteObject k) w with
    | (Ok _, w') => w'.(w_blobs) = delete k w.(w_blobs)
    | (Err _, w') => w'.(w_blobs) = w.(w_blobs) ∨ w'.(w_blobs) = delete k w.(w_blobs)
    end
}.

(** A store whose prefixes can be deleted: what the interface's users rely on. *)
Class StorageLaws (St : Storage) : Prop := {
  storage_core :: StorageCore St;
  (** A deletion that reports success is complete; one that fails may be
      partial, but it never touches an object outside the prefix. *)
  delete_prefix_run p w :
    match run (DeletePrefix p) w with
    | (Ok _, w') => ∀ k, w'.(w_blobs) !! k = if HasPrefix k p then None else w.(w_blobs) !! k
    | (Err _, w') => ∀ k, w'.(w_blobs) !! k = w.(w_blobs) !! k ∨
                          (under p k ∧ w'.(w_blobs) !! k = None)
    end
}.

(** Neither the object store nor any other service sees the tables. *)
Definition act_blind {A} (m : act A) : Prop :=
  ∀ d w, m (with_db d w) = ((m w).1, with_db d (m w).2).
Definition blind {A} (p : prog world A) : Prop :=
  ∀ d w, run p (with_db d w) = ((run p w).1, with_db d (run p w).2).

Class StorageBlind (St : Storage) : Prop := {
  upload_artifact_blind u c : blind (UploadArtifact u c);
  upload_log_blind u r c : blind (UploadLog u r c);
  upload_blob_blind k c : blind (UploadBlob k c);
  download_blind k : blind (DownloadBlob k);
  delete_prefix_blind p : blind (DeletePrefix p);
  delete_object_blind k : blind (DeleteObject k)
}.

(** ** Lemmas *)

Lemma blind_ret {A} (a : A) : blind (mret a).
Proof. done. Qed.
Lemma blind_call {A} (m : act A) : act_blind m → blind (call m).
Proof. intros H d w. by rewrite !run_call. Qed.
Lemma blind_bind {A B} (p : prog world A) (f : A → prog world B) :
  blind p → (∀ a, blind (f a)) → blind (p ≫= f).
Proof.
  intros Hp Hf d w. rewrite !run_bind, Hp. destruct (run p w) as [a w']. apply Hf.
Qed.
Lemma act_blind_db {A} (m : act A) w : act_blind m → (m w).2.(w_db) = w.(w_db).
Proof. intros H. specialize (H w.(w_db) w). replace (with_db (w_db w) w) with w in H by by destruct w. by rewrite H. Qed.
Lemma blind_db {A} (p : prog world A) w : blind p → (run p w).2.(w_db) = w.(w_db).
Proof. intros H. specialize (H w.(w_db) w). replace (with_db (w_db w) w) with w in H by by destruct w. by rewrite H. Qed.

Lemma storage_step_refl w : storage_step w w.
Proof. exists w.(w_blobs), w.(w_faults), w.(w_http). by destruct w. Qed.

Lemma storage_step_trans w1 w2 w3 :
  storage_step w1 w2 → storage_step w2 w3 → storage_step w1 w3.
Proof. intros (b & f & h & ->) (b' & f' & h' & ->). by exists b', f', h'. Qed.

(** Running a storage call changes nothing else. *)
Lemma storage_run_step {A} (p : prog world A) w :
  (∀ I, storage_insensitive I → prog_ok I p (λ _, True)) → storage_step w (run p w).2.
Proof.
  intros H. destruct (prog_ok_run (storage_step w) p (λ _, True) w) as [? _]; [|apply storage_step_refl|done].
  apply H. intros w1 w2 H12 H1. by eapply storage_step_trans.
Qed.
