(* ===== verification/Minio.v ===== *)
(** * MinIO storage (src/storage/minio.go)

    [MinioStorage] over the operations of the MinIO client, which is
    third-party: [MinioClient] lists the calls the source makes and
    [MinioClientLaws] what the client documents about them. *)

From S2P Require Import Prelude.
From S2P Require Import Prog.
From S2P Require Import GoStrings.
From S2P Require Import Model.
From S2P Require Import World.
From S2P Require Import Storage.

Class MinioClient := {
  PutObject : string → string → act (res unit);
  GetObject : string → act (res unit);             (* lazy: only opens *)
  ObjectStat : string → act (res string);          (* then the content can be read *)
  ListObjects : string → act (list (res string));  (* recursive; an entry may be an error *)
  RemoveObject : string → act (res unit)
}.

(** What one client call may do to the bucket. *)
Record call_effect {A} (m : act (res A)) (ok : A → gmap string string → gmap string string → Prop) : Prop := {
  ce_step w : storage_step w (m w).2;
  ce_result w :
    match m w with
    | (Ok a, w') => ok a w.(w_blobs) w'.(w_blobs)
    | (Err _, w') => w'.(w_blobs) = w.(w_blobs) ∨ ∃ a, ok a w.(w_blobs) w'.(w_blobs)
    end
}.

Class MinioClientLaws (C : MinioClient) : Prop := {
  put_object k c : call_effect (PutObject k c) (λ _ b b', b' = <[k := c]> b);
  get_object k : call_effect (GetObject k) (λ _ b b', b' = b);
  object_stat k : call_effect (ObjectStat k) (λ c b b', b !! k = Some c ∧ b' = b);
  remove_object k : call_effect (RemoveObject k) (λ _ b b', b' = delete k b);
  list_step p w : storage_step w (ListObjects p w).2;
  list_frame p w : (ListObjects p w).2.(w_blobs) = w.(w_blobs);
  (** Only keys with the prefix, and all of them unless an error is listed. *)
  list_sound p w k : Ok k ∈ (ListObjects p w).1 → HasPrefix k p = true;
  list_complete p w k c :
    (∀ e, Err e ∉ (ListObjects p w).1) →
    w.(w_blobs) !! k = Some c → HasPrefix k p = true → Ok k ∈ (ListObjects p w).1
}.

Class MinioClientBlind (C : MinioClient) : Prop := {
  put_object_blind k c : act_blind (PutObject k c);
  get_object_blind k : act_blind (GetObject k);
  object_stat_blind k : act_blind (ObjectStat k);
  list_objects_blind p : act_blind (ListObjects p);
  remove_object_blind k : act_blind (RemoveObject k)
}.

(** [fmt.Errorf("minio ...: %w", err)] *)
Definition wrapped {A} (pre : string) (r : res A) : res A :=
  match r with Ok a => Ok a | Err e => Err (Wrap pre e) end.

Section minio.
Context `{MinioClient}.

(** The three uploads differ in the object's name and the content type. *)
Definition put (what objectName content : string) : prog world (res string) :=
  r ← call (PutObject objectName content);
  mret (match r with
        | Err e => Err (Wrap ("minio upload " +:+ what +:+ ": ") e)
        | Ok _ => Ok objectName
        end).

Definition minio_UploadArtifact (filepath content : string) : prog world (res string) :=
  put "artifact" (filepath +:+ "/artifact") content.
Definition minio_UploadLog (testUUID runID content : string) : prog world (res string) :=
  put "log" (testUUID +:+ "/log/" +:+ runID +:+ "/log") content.
Definition minio_UploadBlob (objectName content : string) : prog world (res string) :=
  put "blob" objectName content.

Definition minio_DownloadBlob (objectName : string) : prog world (res string) :=
  r ← call (GetObject objectName);
  match r with
  | Err e => mret (Err (Wrap "minio get object: " e))
  | Ok _ =>
      r ← call (ObjectStat objectName);
      mret (wrapped "minio object does not exist: " r)
  end.

Fixpoint remove_all (prefix : string) (objects : list (res string)) : prog world (res unit) :=
  match objects with
  | [] => mret (Ok tt)
  | Err e :: _ => mret (Err (Wrap ("minio list objects for prefix " +:+ Quote prefix +:+ ": ") e))
  | Ok k :: objects =>
      r ← call (RemoveObject k);
      match r with
      | Err e => mret (Err (Wrap ("minio delete object " +:+ Quote k +:+ ": ") e))
      | Ok _ => remove_all prefix objects
      end
  end.
Definition minio_DeletePrefix (prefix : string) : prog world (res unit) :=
  objects ← call (ListObjects prefix);
  remove_all prefix objects.

Definition minio_DeleteObject (objectName : string) : prog world (res unit) :=
  r ← call (RemoveObject objectName);
  mret (wrapped "minio delete object: " r).

Definition MinioStorage : Storage := {|
  UploadArtifact := minio_UploadArtifact;
  UploadLog := minio_UploadLog;
  UploadBlob := minio_UploadBlob;
  DownloadBlob := minio_DownloadBlob;
  DeletePrefix := minio_DeletePrefix;
  DeleteObject := minio_DeleteObject
|}.
End minio.

(** ** The laws of the interface *)
Section laws.
Context `{C : MinioClient} {L : MinioClientLaws C}.

Lemma call_effect_preserves {A} (m : act (res A)) P I :
  call_effect m P → storage_insensitive I → preserves I m (λ _, True).
Proof. intros Hm HI w Hw. split; [|done]. eapply HI; [by eapply ce_step|done]. Qed.

Lemma put_run what k c w :
  match run (put what k c) w with
  | (Ok k', w') => k' = k ∧ w'.(w_blobs) = <[k := c]> w.(w_blobs)
  | (Err _, w') => w'.(w_blobs) = w.(w_blobs) ∨ w'.(w_blobs) = <[k := c]> w.(w_blobs)
  end.
Proof.
  unfold put. rewrite run_call_bind.
  pose proof (ce_result _ _ (put_object k c) w) as Hr.
  destruct (PutObject k c w) as [[u|e] w']; simpl; naive_solver.
Qed.

Lemma put_ok what k c I : storage_insensitive I → prog_ok I (put what k c) (λ _, True).
Proof.
  intros HI. eapply prog_ok_bind; [|intros r _; exact Logic.I].
  apply prog_ok_call. eapply call_effect_preserves; [apply put_object|done].
Qed.

Lemma remove_all_run p objects w :
  (∀ k, Ok k ∈ objects → HasPrefix k p = true) →
  match run (remove_all p objects) w with
  | (Ok _, w') => (∀ e, Err e ∉ objects) ∧
      ∀ k, (Ok k ∈ objects → w'.(w_blobs) !! k = None) ∧
           (Ok k ∉ objects → w'.(w_blobs) !! k = w.(w_blobs) !! k)
  | (Err _, w') => ∀ k, w'.(w_blobs) !! k = w.(w_blobs) !! k ∨
                        (under p k ∧ w'.(w_blobs) !! k = None)
  end.
Proof.
  revert w. induction objects as [|[k|e] objects IH]; intros w Hp; cbn [remove_all].
  - rewrite run_ret. split; [set_solver|]. intros k. set_solver.
  - rewrite run_call_bind. pose proof (ce_result _ _ (remove_object k) w) as Hr.
    destruct (RemoveObject k w) as [[u|e] w'].
    2:{ rewrite run_ret. intros k'. destruct Hr as [->|[_ ->]]; [by left|].
        destruct (decide (k' = k)) as [->|Hkk']; [right|left; by rewrite lookup_delete_ne].
        split; [apply Hp; left|apply lookup_delete_eq]. }
    specialize (IH w' ltac:(set_solver)). destruct (run _ w') as [[?|?] w'']; rewrite Hr in IH.
    + destruct IH as [Hne Hk]. split; [set_solver|]. intros k'. specialize (Hk k').
      destruct (decide (k' = k)) as [->|Hkk'].
      * rewrite lookup_delete_eq in Hk. split; [|set_solver]. intros _.
        destruct (decide (Ok k ∈ objects)) as [?|?]; [|naive_solver].
        naive_solver.
      * rewrite lookup_delete_ne in Hk by done. set_solver.
    + intros k'. destruct (IH k') as [Hk'|?]; [|auto]. destruct (decide (k' = k)) as [->|Hkk'].
      * right. rewrite lookup_delete_eq in Hk'. split; [apply Hp; left|done].
      * left. by rewrite lookup_delete_ne in Hk' by done.
  - rewrite run_ret. auto.
Qed.

Lemma minio_delete_prefix_run p w :
  match run (minio_DeletePrefix p) w with
  | (Ok _, w') => ∀ k, w'.(w_blobs) !! k = if HasPrefix k p then None else w.(w_blobs) !! k
  | (Err _, w') => ∀ k, w'.(w_blobs) !! k = w.(w_blobs) !! k ∨
                        (under p k ∧ w'.(w_blobs) !! k = None)
  end.
Proof.
  unfold minio_DeletePrefix. rewrite run_call_bind.
  pose proof (list_sound p w) as Hsound. pose proof (list_complete p w) as Hcomplete.
  pose proof (list_frame p w) as Hframe.
  destruct (ListObjects p w) as [objects w1]; simpl in *.
  pose proof (remove_all_run p objects w1 Hsound) as Hrun. rewrite Hframe in Hrun.
  destruct (run _ w1) as [[?|?] w']; [|done].
  destruct Hrun as [Hne Hk]. intros k. specialize (Hk k).
  destruct (HasPrefix k p) eqn:Hkp.
  - destruct (w_blobs w !! k) as [c|] eqn:Hwk; [naive_solver|].
    destruct (decide (Ok k ∈ objects)) as [?|?]; naive_solver.
  - destruct (decide (Ok k ∈ objects)) as [?|?]; [|naive_solver].
    rewrite Hsound in Hkp by done. done.
Qed.

Lemma remove_all_ok p objects I :
  storage_insensitive I → prog_ok I (remove_all p objects) (λ _, True).
Proof.
  intros HI. induction objects as [|[k|e] objects IH]; cbn [remove_all]; [done| |done].
  eapply prog_ok_bind; [apply prog_ok_call; eapply call_effect_preserves; [apply remove_object|done]|].
  intros [u|e] _; [apply IH|done].
Qed.

Lemma minio_download_run k w :
  match run (minio_DownloadBlob k) w with
  | (Ok c, w') => w.(w_blobs) !! k = Some c ∧ w'.(w_blobs) = w.(w_blobs)
  | (Err _, w') => w'.(w_blobs) = w.(w_blobs)
  end.
Proof.
  unfold minio_DownloadBlob. rewrite run_call_bind.
  pose proof (ce_result _ _ (get_object k) w) as Hg.
  destruct (GetObject k w) as [[u|e] w1]; [|rewrite run_ret; by destruct Hg as [?|[_ ?]]].
  rewrite run_call_bind. pose proof (ce_result _ _ (object_stat k) w1) as Hs.
  destruct (ObjectStat k w1) as [[c|e] w2]; rewrite run_ret; simpl in *; rewrite <-Hg; [tauto|naive_solver].
Qed.

#[export] Instance MinioStorageFrame : StorageFrame MinioStorage.
Proof.
  split; intros.
  - by apply put_ok.
  - by apply put_ok.
  - by apply put_ok.
  - eapply prog_ok_bind; [apply prog_ok_call; eapply call_effect_preserves; [apply get_object|done]|].
    intros [u|e] _; [|done].
    eapply prog_ok_bind; [apply prog_ok_call; eapply call_effect_preserves; [apply object_stat|done]|done].
  - eapply prog_ok_bind; [|intros; by apply remove_all_ok].
    apply (prog_ok_call _ _ (λ _, True)). intros w Hw. split; [|done].
    eapply H; [apply list_step|done].
  - eapply prog_ok_bind; [apply prog_ok_call; eapply call_effect_preserves; [apply remove_object|done]|done].
  - pose proof (minio_download_run k w) as H. change (DownloadBlob k) with (minio_DownloadBlob k).
    destruct (run (minio_DownloadBlob k) w) as [[c|e] w']; simpl; tauto.
Qed.

#[export] Instance MinioStorageCore : StorageCore MinioStorage.
Proof.
  split; [apply _|intros..].
  - exact (put_run "artifact" (artifact_key uuid) content w).
  - exact (put_run "log" (log_key uuid rid) content w).
  - exact (put_run "blob" k0 content w).
  - apply minio_download_run.
  - change (DeleteObject k) with (minio_DeleteObject k).
    unfold minio_DeleteObject. rewrite run_call_bind.
    pose proof (ce_result _ _ (remove_object k) w) as Hr.
    destruct (RemoveObject k w) as [[u|e] w']; rewrite run_ret; simpl; naive_solver.
Qed.

#[export] Instance MinioStorageLaws : StorageLaws MinioStorage.
Proof. split; [apply _|]. intros p w. apply minio_delete_prefix_run. Qed.
End laws.

#[export] Instance MinioStorageBlind `{C : MinioClient} {L : MinioClientBlind C} : StorageBlind MinioStorage.
Proof.
  assert (∀ what k c, blind (put what k c)) as Hput.
  { intros. apply blind_bind; [apply blind_call, put_object_blind|intros r; apply blind_ret]. }
  assert (∀ p objects, blind (remove_all p objects)) as Hremove.
  { intros p objects. induction objects as [|[k|e] objects IH]; cbn [remove_all]; [apply blind_ret| |apply blind_ret].
    apply blind_bind; [apply blind_call, remove_object_blind|]. intros [u|e]; [exact IH|apply blind_ret]. }
  split; intros; [apply Hput..| | |].
  - apply blind_bind; [apply blind_call, get_object_blind|]. intros [u|e]; [|apply blind_ret].
    apply blind_bind; [apply blind_call, object_stat_blind|intros r; apply blind_ret].
  - apply blind_bind; [apply blind_call, list_objects_blind|]. intros objects. apply Hremove.
  - apply blind_bind; [apply blind_call, remove_object_blind|intros r; apply blind_ret].
Qed.

(** C32: the MinIO store keeps the promises of the interface the server relies on.
    Over a client that works as documented an upload stores exactly the object it
    names, a download returns what is stored, and deleting a prefix either empties
    it, reading the listing's errors as failures, or fails and has removed only
    objects below it. *)
Theorem Minio_refines_Storage `{C : MinioClient} `{!MinioClientLaws C} `{!MinioClientBlind C} :
  StorageLaws MinioStorage ∧ StorageBlind MinioStorage.
Proof. split; apply _. Qed.
