(* ===== verification/Supabase.v ===== *)
(** * Package storage: Supabase (src/storage/supabase.go)

    [SupabaseStorage] speaks to Supabase's storage API over HTTP.  [Do] is
    [s.httpClient.Do(req)] with the reading of the body; what the API does with a
    request is in [SupabaseLaws], after its documentation.  The store has the
    frame of a [Storage] for all keys, and its contract for keys that survive in
    a URL; deleting a prefix does not do what the interface promises. *)

From S2P Require Import Prelude.
From S2P Require Import Prog.
From S2P Require Import GoStrings.
From S2P Require Import Model.
From S2P Require Import World.
From S2P Require Import Storage.

(** ** Requests and responses *)

Inductive sb_body :=
| NoBody
| Data (content : string)
| ListQuery (prefix : string) (limit offset : Z) (column order : string)  (* supabaseListRequest *)
| Prefixes (prefixes : list string).

Module SbRequest.
Record t := mk { Method : string; URL : string; Header : list (string * string); Body : sb_body }.
End SbRequest.

(** [Names] is what [json.Unmarshal] makes of the body: the names of the objects. *)
Module SbResponse.
Record t := mk { StatusCode : Z; Body : string; ReadErr : option string; Names : option (list string) }.
End SbResponse.

Class SupabaseClient := {
  Do : SbRequest.t → act (res SbResponse.t);
  (** what the API lists for a prefix, in order *)
  entries : string → gmap string string → list string
}.

Module SupabaseStorage.
Record t := mk { baseURL : string; key : string; bucketName : string }.
End SupabaseStorage.

Definition NewSupabaseStorage (baseURL key bucketName : string) : res SupabaseStorage.t :=
  if decide (baseURL = "") then Err (Errorf "supabase URL is required")
  else if decide (key = "") then Err (Errorf "supabase key is required")
  else if decide (bucketName = "") then Err (Errorf "supabase bucket is required")
  else
    let baseURL := TrimSpace baseURL in
    let baseURL := TrimRightByte "/" baseURL in
    let baseURL := TrimSuffix baseURL "/storage/v1" in
    Ok (SupabaseStorage.mk baseURL key bucketName).

Definition is_2xx (code : Z) : bool := ((200 <=? code) && (code <? 300))%Z.

(** [status=%d body=%s], of at most [limit] bytes of the body. *)
Definition failed (what : string) (limit : nat) (resp : SbResponse.t) : error :=
  Errorf (what +:+ " failed: status=" +:+ Itoa resp.(SbResponse.StatusCode) +:+
          " body=" +:+ str_take limit resp.(SbResponse.Body)).

Definition pageSize : nat := 1000.
Definition deleteBatch : nat := 1000.

(** The loop of [listObjects] has no bound of its own; the model stops it here. *)
Definition out_of_pages : error := Errorf "listing does not end".

Section supabase.
Context `{Ext} `{SupabaseClient}.
Variable s : SupabaseStorage.t.

Definition objectURL (objectName : string) : string :=
  s.(SupabaseStorage.baseURL) +:+ "/storage/v1/object/" +:+
  PathEscape s.(SupabaseStorage.bucketName) +:+ "/" +:+ objectName.
Definition listURL : string :=
  s.(SupabaseStorage.baseURL) +:+ "/storage/v1/object/list/" +:+ PathEscape s.(SupabaseStorage.bucketName).
Definition deleteURL : string :=
  s.(SupabaseStorage.baseURL) +:+ "/storage/v1/object/" +:+ PathEscape s.(SupabaseStorage.bucketName).

(** [setHeaders]: the key, not as a bearer token. *)
Definition setHeaders (header : list (string * string)) : list (string * string) :=
  ("apikey", s.(SupabaseStorage.key)) :: header.

(** [http.NewRequest], which fails on a URL that does not parse, then [Do]. *)
Definition send (method url : string) (header : list (string * string)) (body : sb_body)
    (create request : string) : prog world (res SbResponse.t) :=
  match ext_url_Parse url with
  | None => mret (Err (Wrap create (Errorf "parse")))
  | Some _ =>
      r ← call (Do (SbRequest.mk method url (setHeaders header) body));
      mret (match r with Err e => Err (Wrap request e) | Ok resp => Ok resp end)
  end.

Definition upload (objectName data contentType : string) : prog world (res unit) :=
  try resp := send "POST" (objectURL objectName)
    [("Content-Type", contentType); ("x-upsert", "true")] (Data data)
    "create upload request: " "upload request failed: " in
  if negb (is_2xx resp.(SbResponse.StatusCode)) then mret (Err (failed "upload" 4096 resp))
  else mret (Ok tt).

(** The three uploads wrap the error and return the key. *)
Definition upload_as (what objectName data contentType : string) : prog world (res string) :=
  r ← upload objectName data contentType;
  mret (match r with
        | Err e => Err (Wrap ("supabase upload " +:+ what +:+ ": ") e)
        | Ok _ => Ok objectName
        end).

Definition sb_UploadArtifact (filepath data : string) : prog world (res string) :=
  upload_as "artifact" (filepath +:+ "/artifact") data "application/octet-stream".
Definition sb_UploadLog (testUUID runID data : string) : prog world (res string) :=
  upload_as "log" (testUUID +:+ "/log/" +:+ runID +:+ "/log") data "text/plain".
Definition sb_UploadBlob (objectName data : string) : prog world (res string) :=
  upload_as "blob" objectName data "application/octet-stream".

(** The caller reads the body: a reader that fails is an error here. *)
Definition sb_DownloadBlob (objectName : string) : prog world (res string) :=
  try resp := send "GET" (objectURL objectName) [] NoBody
    "create download request: " "download request failed: " in
  if negb (is_2xx resp.(SbResponse.StatusCode)) then mret (Err (failed "download" 4096 resp))
  else
    match resp.(SbResponse.ReadErr) with
    | Some msg => mret (Err (ErrExternal msg))
    | None => mret (Ok resp.(SbResponse.Body))
    end.

Definition json_header : list (string * string) := [("Content-Type", "application/json")].

(** One turn of the loop: the names of a page. *)
Definition list_page (prefix : string) (offset : Z) : prog world (res (list string)) :=
  try resp := send "POST" listURL json_header
    (ListQuery prefix (Z.of_nat pageSize) offset "name" "asc")
    "create list request: " "list request failed: " in
  match resp.(SbResponse.ReadErr) with
  | Some msg => mret (Err (Wrap "read list response: " (ErrExternal msg)))
  | None =>
      if negb (is_2xx resp.(SbResponse.StatusCode))
      then mret (Err (failed "list" (Z.to_nat (10 * 2 ^ 20)) resp))
      else
        match resp.(SbResponse.Names) with
        | None => mret (Err (Wrap "decode list response: " (Errorf "json")))
        | Some page => mret (Ok page)
        end
  end.

Fixpoint list_pages (pages : nat) (prefix : string) (offset : Z) (objects : list string)
    : prog world (res (list string)) :=
  match pages with
  | O => mret (Err out_of_pages)
  | S pages =>
      try page := list_page prefix offset in
      let objects := objects ++ filter (λ name, name ≠ "") page in
      if decide (length page < pageSize) then mret (Ok objects)
      else list_pages pages prefix (offset + Z.of_nat pageSize) objects
  end.

Definition listObjects (pages : nat) (prefix : string) : prog world (res (list string)) :=
  list_pages pages prefix 0 [].

(** [objects[start:end]], batch after batch; [n] bounds the number of batches. *)
Fixpoint delete_batches (n : nat) (objects : list string) : prog world (res unit) :=
  match n, objects with
  | O, _ | _, [] => mret (Ok tt)
  | S n, _ =>
      try resp := send "DELETE" deleteURL json_header (Prefixes (take deleteBatch objects))
        "create delete request: " "delete request failed: " in
      match resp.(SbResponse.ReadErr) with
      | Some msg => mret (Err (Wrap "read delete response: " (ErrExternal msg)))
      | None =>
          if negb (is_2xx resp.(SbResponse.StatusCode)) then mret (Err (failed "delete" 4096 resp))
          else delete_batches n (drop deleteBatch objects)
      end
  end.

Definition sb_DeletePrefix (pages : nat) (prefix : string) : prog world (res unit) :=
  r ← listObjects pages prefix;
  match r with
  | Err e => mret (Err (Wrap ("list objects for prefix " +:+ Quote prefix +:+ ": ") e))
  | Ok objects => delete_batches (length objects) objects
  end.

Definition sb_DeleteObject (objectName : string) : prog world (res unit) :=
  try resp := send "DELETE" deleteURL json_header (Prefixes [objectName])
    "create delete object request: " "delete object request failed: " in
  if negb (is_2xx resp.(SbResponse.StatusCode)) then mret (Err (failed "delete object" 4096 resp))
  else mret (Ok tt).

(** The store, its listings cut off after [pages] pages. *)
Definition Supabase (pages : nat) : Storage := {|
  UploadArtifact := sb_UploadArtifact;
  UploadLog := sb_UploadLog;
  UploadBlob := sb_UploadBlob;
  DownloadBlob := sb_DownloadBlob;
  DeletePrefix := sb_DeletePrefix pages;
  DeleteObject := sb_DeleteObject
|}.
End supabase.

(** ** What the API does *)

(** A key that a URL carries as it is: no part of it ends the path or is an
    escape, and no segment is empty or a dot segment. *)
Definition path_byte (c : ascii) : bool :=
  let n := nat_of_ascii c in
  bool_decide (32 ≤ n) && bool_decide (n ≠ 127) && negb (bool_decide (c ∈ ["?"; "#"; "%"]%char)).
Fixpoint all_path_bytes (s : string) : bool :=
  match s with EmptyString => true | String c s => path_byte c && all_path_bytes s end.
Definition url_safe (name : string) : bool :=
  all_path_bytes name && forallb (λ seg, bool_decide (seg ∉ [""; "."; ".."])) (SplitByte "/" name).

(** The first segment of a path. *)
Fixpoint first_segment (s : string) : string :=
  match s with
  | EmptyString => ""
  | String c s => if bool_decide (c = "/"%char) then "" else String c (first_segment s)
  end.

(** The documented API of Supabase Storage.  An upload with [x-upsert] creates or
    replaces the object; a bulk delete removes the objects it names; a listing
    lists a folder: for each object below it, the next segment of its path, as
    the file or the subfolder it is. *)
Class SupabaseLaws `{Ext} (C : SupabaseClient) (s : SupabaseStorage.t) : Prop := {
  do_step r w : storage_step w (Do r w).2;
  do_blind r : act_blind (Do r);
  do_get r w : r.(SbRequest.Method) = "GET" → (Do r w).2.(w_blobs) = w.(w_blobs);
  do_list r w p l o c d :
    r.(SbRequest.Body) = ListQuery p l o c d → (Do r w).2.(w_blobs) = w.(w_blobs);
  do_upload name h content w :
    url_safe name = true →
    ("apikey", s.(SupabaseStorage.key)) ∈ h → ("x-upsert", "true") ∈ h →
    match Do (SbRequest.mk "POST" (objectURL s name) h (Data content)) w with
    | (Ok resp, w') =>
        if is_2xx resp.(SbResponse.StatusCode) then w'.(w_blobs) = <[name := content]> w.(w_blobs)
        else w'.(w_blobs) = w.(w_blobs) ∨ w'.(w_blobs) = <[name := content]> w.(w_blobs)
    | (Err _, w') => w'.(w_blobs) = w.(w_blobs) ∨ w'.(w_blobs) = <[name := content]> w.(w_blobs)
    end;
  do_download name h w :
    url_safe name = true → ("apikey", s.(SupabaseStorage.key)) ∈ h →
    match Do (SbRequest.mk "GET" (objectURL s name) h NoBody) w with
    | (Ok resp, _) =>
        is_2xx resp.(SbResponse.StatusCode) = true → resp.(SbResponse.ReadErr) = None →
        w.(w_blobs) !! name = Some resp.(SbResponse.Body)
    | (Err _, _) => True
    end;
  do_delete names h w :
    ("apikey", s.(SupabaseStorage.key)) ∈ h → ("Content-Type", "application/json") ∈ h →
    match Do (SbRequest.mk "DELETE" (deleteURL s) h (Prefixes names)) w with
    | (Ok resp, w') =>
        if is_2xx resp.(SbResponse.StatusCode)
        then ∀ k, w'.(w_blobs) !! k = if decide (k ∈ names) then None else w.(w_blobs) !! k
        else ∀ k, w'.(w_blobs) !! k = w.(w_blobs) !! k ∨ k ∈ names ∧ w'.(w_blobs) !! k = None
    | (Err _, w') => ∀ k, w'.(w_blobs) !! k = w.(w_blobs) !! k ∨ k ∈ names ∧ w'.(w_blobs) !! k = None
    end;
  do_page p limit offset h w :
    ("apikey", s.(SupabaseStorage.key)) ∈ h → ("Content-Type", "application/json") ∈ h →
    match (Do (SbRequest.mk "POST" (listURL s) h (ListQuery p (Z.of_nat limit) (Z.of_nat offset) "name" "asc")) w).1 with
    | Ok resp =>
        is_2xx resp.(SbResponse.StatusCode) = true → resp.(SbResponse.ReadErr) = None →
        ∀ page, resp.(SbResponse.Names) = Some page → page = take limit (drop offset (entries p w.(w_blobs)))
    | Err _ => True
    end;
  entries_folder p b n :
    n ∈ entries (p +:+ "/") b ↔
    ∃ k, is_Some (b !! k) ∧ HasPrefix k (p +:+ "/") = true ∧ n = first_segment (TrimPrefix k (p +:+ "/"))
}.

(** ** The loop of [listObjects] *)
Section laws.
Context `{E : Ext} `{C : SupabaseClient} (s : SupabaseStorage.t) `{!SupabaseLaws C s}.

Lemma send_run m u h b cr rq w :
  match run (send s m u h b cr rq) w with
  | (Ok resp, w') => Do (SbRequest.mk m u (setHeaders s h) b) w = (Ok resp, w')
  | (Err e, w') => w' = w ∨ ∃ e', Do (SbRequest.mk m u (setHeaders s h) b) w = (Err e', w')
  end.
Proof.
  unfold send. destruct (ext_url_Parse u); [|by left]. rewrite run_call_bind.
  destruct (Do _ w) as [[resp|e] w']; rewrite run_ret; [done|right; by eexists].
Qed.

Lemma send_step m u h b cr rq w : storage_step w (run (send s m u h b cr rq) w).2.
Proof.
  pose proof (send_run m u h b cr rq w) as H. pose proof (do_step (SbRequest.mk m u (setHeaders s h) b) w) as Hs.
  destruct (run (send _ _ _ _ _ _ _) w) as [[resp|e] w']; [by rewrite H in Hs|].
  destruct H as [->|[e' H]]; [apply storage_step_refl|by rewrite H in Hs].
Qed.

Lemma list_page_run p offset w :
  let '(r, w') := run (list_page s p (Z.of_nat offset)) w in
  w'.(w_blobs) = w.(w_blobs) ∧ r ≠ Err out_of_pages ∧
  ∀ page, r = Ok page → page = take pageSize (drop offset (entries p w.(w_blobs))).
Proof.
  unfold list_page. rewrite run_bind. set (b := ListQuery _ _ _ _ _).
  pose proof (send_run "POST" (listURL s) json_header b "create list request: " "list request failed: " w) as H.
  assert (∀ e, (run (send s "POST" (listURL s) json_header b "create list request: " "list request failed: ") w).1
    = Err e → e ≠ out_of_pages) as He.
  { unfold send. destruct (ext_url_Parse _); [|by intros e [= <-]]. rewrite run_call_bind.
    destruct (Do _ w) as [[x|x] w']; rewrite run_ret; [done|]. by intros e [= <-]. }
  pose proof (do_list (SbRequest.mk "POST" (listURL s) (setHeaders s json_header) b) w _ _ _ _ _ eq_refl) as Hb.
  pose proof (do_page p pageSize offset (setHeaders s json_header) w ltac:(left) ltac:(right; left)) as Hp. fold b in Hp.
  destruct (run (send _ _ _ _ _ _ _) w) as [[resp|e] w'].
  - rewrite H in Hb, Hp. cbn [fst snd] in *.
    destruct (SbResponse.ReadErr resp) eqn:Hr; [rewrite run_ret; by split|].
    destruct (is_2xx _) eqn:Hs; cbn [negb]; [|rewrite run_ret; by split].
    destruct (SbResponse.Names resp) as [page|] eqn:Hn; rewrite run_ret; (split; [done|]); [|by split].
    split; [done|]. intros ? [= <-]. by apply Hp.
  - rewrite run_ret. split; [destruct H as [->|[e' H]]; [done|]; by rewrite H in Hb|].
    split; [|done]. intros [= ->]. by eapply He.
Qed.

Lemma drop_drop_page (l : list string) o : drop pageSize (drop o l) = drop (o + pageSize) l.
Proof. by rewrite drop_drop, Nat.add_comm. Qed.

(** The loop ends by itself after the last page. *)
Lemma list_pages_ends pages p offset acc w :
  offset ≤ length (entries p w.(w_blobs)) < offset + pages * pageSize →
  (run (list_pages s pages p (Z.of_nat offset) acc) w).1 ≠ Err out_of_pages.
Proof.
  revert offset acc w. induction pages as [|pages IH]; intros offset acc w Hlen; cbn [list_pages]; [lia|].
  rewrite run_bind. pose proof (list_page_run p offset w) as H.
  destruct (run (list_page _ _ _) w) as [[page|e] w1]; destruct H as (Hb & Hne & Hp);
    [|rewrite run_ret; simpl; congruence].
  specialize (Hp page eq_refl). cbv zeta. case_decide as Hshort; [done|].
  replace (Z.of_nat offset + Z.of_nat pageSize)%Z with (Z.of_nat (offset + pageSize)) by lia.
  apply IH. rewrite Hb. rewrite Hp, length_take, length_drop in Hshort. lia.
Qed.

(** A listing that succeeds is complete, whatever the bound. *)
Lemma list_pages_names pages p w :
  (run (listObjects s pages p) w).2.(w_blobs) = w.(w_blobs) ∧
  ∀ names, (run (listObjects s pages p) w).1 = Ok names → names = filter (λ n, n ≠ "") (entries p w.(w_blobs)).
Proof.
  unfold listObjects. change 0%Z with (Z.of_nat 0).
  assert (filter (λ n, n ≠ "") (entries p w.(w_blobs)) = [] ++ filter (λ n, n ≠ "") (drop 0 (entries p w.(w_blobs)))) as ->
    by done.
  generalize 0 (@nil string) w. clear w.
  induction pages as [|pages IH]; intros offset acc w; cbn [list_pages]; [done|].
  rewrite run_bind. pose proof (list_page_run p offset w) as H.
  destruct (run (list_page _ _ _) w) as [[page|e] w1]; destruct H as (Hb & _ & Hp); [|done].
  specialize (Hp page eq_refl). set (rest := drop offset (entries p (w_blobs w))) in *.
  assert (rest = page ++ drop pageSize rest) as Hrest by (rewrite Hp; symmetry; apply take_drop).
  cbv zeta. case_decide as Hshort.
  - rewrite run_ret. split; [done|]. intros names [= <-]. do 2 f_equal.
    rewrite Hrest. rewrite drop_ge, app_nil_r; [done|]. rewrite Hp, length_take in Hshort. lia.
  - replace (Z.of_nat offset + Z.of_nat pageSize)%Z with (Z.of_nat (offset + pageSize)) by lia.
    destruct (IH (offset + pageSize) (acc ++ filter (λ n, n ≠ "") page) w1) as [Hb' Hr']. rewrite Hb in *.
    split; [done|]. intros names Hok. rewrite (Hr' names Hok), <-drop_drop_page.
    fold rest. by rewrite <-app_assoc, <-filter_app, <-Hrest.
Qed.

(** More pages than needed change nothing. *)
Lemma list_pages_mono pages pages' p offset acc w :
  pages ≤ pages' → (run (list_pages s pages p offset acc) w).1 ≠ Err out_of_pages →
  run (list_pages s pages' p offset acc) w = run (list_pages s pages p offset acc) w.
Proof.
  revert pages' offset acc w. induction pages as [|pages IH]; intros pages' offset acc w Hle; [done|].
  destruct pages' as [|pages']; [lia|]. cbn [list_pages]. rewrite !run_bind.
  destruct (run (list_page _ _ _) w) as [[page|e] w1]; [|done]. cbv zeta. case_decide; [done|].
  apply IH. lia.
Qed.

(** C18: the listing loop ends and is complete.  A listing of n entries takes at
    most n / 1000 + 1 turns, so any larger bound gives the same run; then the
    result, unless a request failed, is every entry the API lists for the prefix
    that has a name, each page once and in order, and the bucket is as before. *)
Theorem listObjects_complete pages p w :
  length (entries p w.(w_blobs)) / pageSize < pages →
  let '(r, w') := run (listObjects s pages p) w in
  r ≠ Err out_of_pages ∧ w'.(w_blobs) = w.(w_blobs) ∧
  (∀ names, r = Ok names → names = filter (λ n, n ≠ "") (entries p w.(w_blobs))) ∧
  ∀ pages', pages ≤ pages' → run (listObjects s pages' p) w = (r, w').
Proof.
  intros Hp. destruct (list_pages_names pages p w) as [Hb Hr].
  assert ((run (listObjects s pages p) w).1 ≠ Err out_of_pages) as Hne.
  { apply (list_pages_ends pages p 0). assert (pageSize ≠ 0) as Hz by done. split; [lia|].
    pose proof (Nat.div_mod_eq (length (entries p w.(w_blobs))) pageSize) as Hd.
    pose proof (Nat.mod_upper_bound (length (entries p w.(w_blobs))) pageSize Hz). nia. }
  pose proof (λ pages' Hle, list_pages_mono pages pages' p 0%Z [] w Hle Hne) as Hmono.
  unfold listObjects in *. destruct (run (list_pages _ _ _ _ _) w) as [r w']. auto.
Qed.

(** ** Deletions *)

Lemma delete_batches_run n objects w :
  length objects ≤ n →
  let '(r, w') := run (delete_batches s n objects) w in
  if is_ok r then ∀ k, w'.(w_blobs) !! k = if decide (k ∈ objects) then None else w.(w_blobs) !! k
  else ∀ k, w'.(w_blobs) !! k = w.(w_blobs) !! k ∨ k ∈ objects ∧ w'.(w_blobs) !! k = None.
Proof.
  revert objects w. induction n as [|n IH]; intros objects w Hlen.
  { destruct objects; [|simpl in Hlen; lia]. done. }
  destruct objects as [|o objects]; [done|]. cbn [delete_batches]. rewrite run_bind.
  set (os := o :: objects) in *. set (b := Prefixes _).
  pose proof (send_run "DELETE" (deleteURL s) json_header b "create delete request: " "delete request failed: " w) as H.
  pose proof (do_delete (take deleteBatch os) (setHeaders s json_header) w ltac:(left) ltac:(right; left)) as Hd. fold b in Hd.
  assert (∀ k, k ∈ os ↔ k ∈ take deleteBatch os ∨ k ∈ drop deleteBatch os) as Hsplit
    by (intros k; by rewrite <-elem_of_app, take_drop).
  destruct (run (send _ _ _ _ _ _ _) w) as [[resp|e] w1].
  2:{ rewrite run_ret. destruct H as [->|[e' H]]; [by left|]. rewrite H in Hd. cbn [is_ok]. intros k.
      destruct (Hd k) as [?|[? ?]]; [by left|right]. split; [apply Hsplit; by left|done]. }
  rewrite H in Hd. assert (is_2xx (SbResponse.StatusCode resp) = true ∨
    ∀ k, w1.(w_blobs) !! k = w.(w_blobs) !! k ∨ k ∈ take deleteBatch os ∧ w1.(w_blobs) !! k = None) as Hcase
    by (destruct (is_2xx _); auto).
  destruct (SbResponse.ReadErr resp) as [msg|].
  { rewrite run_ret. cbn [is_ok]. intros k. destruct (is_2xx _).
    - rewrite Hd. case_decide; [right|by left]. split; [apply Hsplit; by left|done].
    - destruct (Hd k) as [?|[? ?]]; [by left|right]. split; [apply Hsplit; by left|done]. }
  destruct (is_2xx _); cbn [negb].
  2:{ rewrite run_ret. cbn [is_ok]. intros k. destruct (Hd k) as [?|[? ?]]; [by left|right].
      split; [apply Hsplit; by left|done]. }
  specialize (IH (drop deleteBatch os) w1). destruct (run (delete_batches _ _ _) w1) as [r w'].
  assert (length (drop deleteBatch os) ≤ n) as Hn by (rewrite length_drop; unfold deleteBatch; simpl in *; lia).
  specialize (IH Hn). destruct (is_ok r); intros k; specialize (IH k); specialize (Hsplit k); specialize (Hd k).
  - rewrite IH. destruct (decide (k ∈ os)), (decide (k ∈ drop deleteBatch os)), (decide (k ∈ take deleteBatch os)); tauto.
  - destruct (decide (k ∈ take deleteBatch os)); destruct IH as [IH|[? IH]]; rewrite ?IH; tauto.
Qed.

Lemma first_segment_no_slash t : Contains (first_segment t) "/" = false.
Proof.
  induction t as [|c t IH]; [done|]. simpl. case_bool_decide as Hc; [done|]. apply Contains_cons_false.
  split; [|done]. simpl. rewrite bool_decide_false by done. done.
Qed.

Lemma sb_DeletePrefix_run pages p w :
  let '(r, w') := run (sb_DeletePrefix s pages (p +:+ "/")) w in
  (∀ k, Contains k "/" = true → w'.(w_blobs) !! k = w.(w_blobs) !! k) ∧
  (is_ok r = true → ∀ k, k ≠ "" →
     (∃ o, is_Some (w.(w_blobs) !! o) ∧ HasPrefix o (p +:+ "/") = true ∧ k = first_segment (TrimPrefix o (p +:+ "/"))) →
     w'.(w_blobs) !! k = None).
Proof.
  unfold sb_DeletePrefix. rewrite run_bind.
  destruct (list_pages_names pages (p +:+ "/") w) as [Hb Hn].
  destruct (run (listObjects _ _ _) w) as [[names|e] w1]; cbn [fst snd] in *; [|rewrite run_ret; by rewrite Hb].
  specialize (Hn names eq_refl). pose proof (delete_batches_run (length names) names w1 (le_n _)) as H.
  destruct (run (delete_batches _ _ _) w1) as [r w']. rewrite Hb in H.
  assert (∀ k, k ∈ names → Contains k "/" = false) as Hslash.
  { intros k Hk. rewrite Hn in Hk. apply list_elem_of_filter in Hk as [_ Hk].
    apply entries_folder in Hk as (o & _ & _ & ->). apply first_segment_no_slash. }
  split.
  - intros k Hk. destruct (is_ok r).
    + rewrite H, decide_False; [done|]. intros Hin%Hslash. congruence.
    + destruct (H k) as [?|[Hin%Hslash _]]; [done|congruence].
  - intros Hok k Hne Ho. rewrite Hok in H. rewrite H, decide_True; [done|]. rewrite Hn. apply list_elem_of_filter.
    split; [done|]. by apply entries_folder.
Qed.

(** C19: on Supabase, deleting a folder deletes none of its objects.  The names
    it sends are those of the listing, which are relative to the folder and so
    without a slash; whatever it answers, every object in a folder, and that is
    every object the server stores, is still there.  When it reports success
    objects at the root of the bucket that happen to have such a name are gone. *)
Theorem DeletePrefix_keeps_every_object pages p w :
  let '(r, w') := run (sb_DeletePrefix s pages (p +:+ "/")) w in
  (∀ k, Contains k "/" = true → w'.(w_blobs) !! k = w.(w_blobs) !! k) ∧
  (is_ok r = true → ∀ k, k ≠ "" →
     (∃ o, is_Some (w.(w_blobs) !! o) ∧ HasPrefix o (p +:+ "/") = true ∧ k = first_segment (TrimPrefix o (p +:+ "/"))) →
     w'.(w_blobs) !! k = None).
Proof. apply sb_DeletePrefix_run. Qed.

(** ** The interface *)

Lemma send_ok I m u h b cr rq : storage_insensitive I → prog_ok I (send s m u h b cr rq) (λ _, True).
Proof.
  intros HI. unfold send. case_match; [|done]. eapply prog_ok_bind; [|done].
  apply (prog_ok_call _ _ (λ _, True)). intros w Hw. split; [|done]. eapply HI; [apply do_step|done].
Qed.
Lemma send_blind m u h b cr rq : blind (send s m u h b cr rq).
Proof.
  unfold send. case_match; [|apply blind_ret]. apply blind_bind; [apply blind_call, do_blind|].
  intros r. apply blind_ret.
Qed.

Lemma list_pages_ok I pages p o acc : storage_insensitive I → prog_ok I (list_pages s pages p o acc) (λ _, True).
Proof.
  intros HI. revert o acc. induction pages as [|pages IH]; intros o acc; cbn [list_pages]; [done|].
  apply prog_ok_seq.
  - unfold list_page. apply prog_ok_seq; [by apply send_ok|]. intros r. by repeat case_match.
  - intros [page|e]; [|done]. cbv zeta. case_decide; [done|apply IH].
Qed.
Lemma list_pages_blind pages p o acc : blind (list_pages s pages p o acc).
Proof.
  revert o acc. induction pages as [|pages IH]; intros o acc; cbn [list_pages]; [apply blind_ret|].
  apply blind_bind.
  - unfold list_page. apply blind_bind; [apply send_blind|]. intros r. repeat case_match; apply blind_ret.
  - intros [page|e]; [|apply blind_ret]. cbv zeta. case_decide; [apply blind_ret|apply IH].
Qed.
Lemma delete_batches_ok I n os : storage_insensitive I → prog_ok I (delete_batches s n os) (λ _, True).
Proof.
  intros HI. revert os. induction n as [|n IH]; intros os; cbn [delete_batches]; [done|].
  destruct os; [done|]. apply prog_ok_seq; [by apply send_ok|]. intros [resp|e]; [|done].
  case_match; [done|]. case_match; [done|apply IH].
Qed.
Lemma delete_batches_blind n os : blind (delete_batches s n os).
Proof.
  revert os. induction n as [|n IH]; intros os; cbn [delete_batches]; [apply blind_ret|].
  destruct os; [apply blind_ret|]. apply blind_bind; [apply send_blind|]. intros [resp|e]; [|apply blind_ret].
  case_match; [apply blind_ret|]. case_match; [apply blind_ret|apply IH].
Qed.

#[export] Instance SupabaseFrame pages : StorageFrame (Supabase s pages).
Proof.
  assert (∀ I what name data ct, storage_insensitive I → prog_ok I (upload_as s what name data ct) (λ _, True)) as Hup.
  { intros I what name data ct HI. apply prog_ok_seq; [|done]. apply prog_ok_seq; [by apply send_ok|].
    intros r. by repeat case_match. }
  split; intros; try by apply Hup.
  - apply prog_ok_seq; [by apply send_ok|]. intros r. by repeat case_match.
  - apply prog_ok_seq; [by apply list_pages_ok|]. intros [names|e]; [by apply delete_batches_ok|done].
  - apply prog_ok_seq; [by apply send_ok|]. intros r. by repeat case_match.
  - change (DownloadBlob k) with (sb_DownloadBlob s k). unfold sb_DownloadBlob. rewrite run_bind.
    set (r := SbRequest.mk "GET" (objectURL s k) (setHeaders s []) NoBody).
    pose proof (send_run "GET" (objectURL s k) [] NoBody "create download request: " "download request failed: " w) as H.
    pose proof (do_get r w eq_refl) as Hb. fold r in H.
    destruct (run (send _ _ _ _ _ _ _) w) as [[resp|e] w'].
    + rewrite H in Hb. cbn [snd] in Hb. destruct (negb _); [done|]. by destruct (SbResponse.ReadErr resp).
    + rewrite run_ret. destruct H as [->|[e' H]]; [done|]. by rewrite H in Hb.
Qed.

#[export] Instance SupabaseBlind pages : StorageBlind (Supabase s pages).
Proof.
  assert (∀ what name data ct, blind (upload_as s what name data ct)) as Hup.
  { intros what name data ct. apply blind_bind; [|intros r; apply blind_ret].
    apply blind_bind; [apply send_blind|]. intros r. repeat case_match; apply blind_ret. }
  split; intros; try apply Hup.
  - apply blind_bind; [apply send_blind|]. intros r. repeat case_match; apply blind_ret.
  - apply blind_bind; [apply list_pages_blind|]. intros [names|e]; [apply delete_batches_blind|apply blind_ret].
  - apply blind_bind; [apply send_blind|]. intros r. repeat case_match; apply blind_ret.
Qed.

(** C36: for keys that survive in a URL the Supabase store is a store of objects.
    A successful upload returns its key and stores exactly that object, replacing
    an old one; a successful download returns the content stored under the key; a
    successful deletion of an object removes it and nothing else; a call that
    fails has done the same or nothing. *)
Theorem Supabase_keeps_objects k content w :
  url_safe k = true →
  match run (sb_UploadBlob s k content) w with
  | (Ok k', w') => k' = k ∧ w'.(w_blobs) = <[k := content]> w.(w_blobs)
  | (Err _, w') => w'.(w_blobs) = w.(w_blobs) ∨ w'.(w_blobs) = <[k := content]> w.(w_blobs)
  end ∧
  match run (sb_DownloadBlob s k) w with
  | (Ok c, w') => w.(w_blobs) !! k = Some c ∧ w'.(w_blobs) = w.(w_blobs)
  | (Err _, w') => w'.(w_blobs) = w.(w_blobs)
  end ∧
  match run (sb_DeleteObject s k) w with
  | (Ok _, w') => w'.(w_blobs) = delete k w.(w_blobs)
  | (Err _, w') => w'.(w_blobs) = w.(w_blobs) ∨ w'.(w_blobs) = delete k w.(w_blobs)
  end.
Proof.
  intros Hsafe. split; [|split].
  - unfold sb_UploadBlob, upload_as, upload. rewrite !run_bind. set (h := [_; _]).
    pose proof (send_run "POST" (objectURL s k) h (Data content) "create upload request: " "upload request failed: " w) as H.
    pose proof (do_upload k (setHeaders s h) content w Hsafe ltac:(left) ltac:(right; right; left)) as Hu.
    destruct (run (send _ _ _ _ _ _ _) w) as [[resp|e] w'].
    + rewrite H in Hu. by destruct (is_2xx _).
    + rewrite !run_ret. destruct H as [->|[e' H]]; [by left|]. by rewrite H in Hu.
  - pose proof (download_frame (St:=Supabase s 0) k w) as Hf. change (DownloadBlob k) with (sb_DownloadBlob s k) in Hf.
    revert Hf. unfold sb_DownloadBlob. rewrite run_bind.
    pose proof (send_run "GET" (objectURL s k) [] NoBody "create download request: " "download request failed: " w) as H.
    pose proof (do_download k (setHeaders s []) w Hsafe ltac:(left)) as Hd.
    destruct (run (send _ _ _ _ _ _ _) w) as [[resp|e] w']; [|by rewrite run_ret].
    rewrite H in Hd. destruct (is_2xx _); cbn [negb]; [|by rewrite run_ret].
    destruct (SbResponse.ReadErr resp); rewrite run_ret; [done|]. auto.
  - unfold sb_DeleteObject. rewrite run_bind.
    pose proof (send_run "DELETE" (deleteURL s) json_header (Prefixes [k]) "create delete object request: "
      "delete object request failed: " w) as H.
    pose proof (do_delete [k] (setHeaders s json_header) w ltac:(left) ltac:(right; left)) as Hd.
    assert (∀ b, (∀ k', b !! k' = if decide (k' ∈ [k]) then None else w.(w_blobs) !! k') → b = delete k w.(w_blobs)) as Hdel.
    { intros b Hb. apply map_eq. intros k'. rewrite Hb. case_decide as Hk'.
      - apply list_elem_of_singleton in Hk' as ->. by rewrite lookup_delete_eq.
      - rewrite lookup_delete_ne; [done|]. intros ->. by destruct Hk'; left. }
    assert (∀ b, (∀ k', b !! k' = w.(w_blobs) !! k' ∨ k' ∈ [k] ∧ b !! k' = None) →
      b = w.(w_blobs) ∨ b = delete k w.(w_blobs)) as Hmay.
    { intros b Hb. destruct (Hb k) as [Hk|[_ Hk]]; [left|right]; apply map_eq; intros k';
        destruct (decide (k' = k)) as [->|Hne]; rewrite ?lookup_delete_eq, ?lookup_delete_ne by done; try done;
        (destruct (Hb k') as [?|[->%list_elem_of_singleton ?]]; done). }
    destruct (run (send _ _ _ _ _ _ _) w) as [[resp|e] w'].
    + rewrite H in Hd. destruct (is_2xx _); cbn [negb]; rewrite run_ret; auto.
    + rewrite run_ret. destruct H as [->|[e' H]]; [by left|]. rewrite H in Hd. auto.
Qed.
End laws.
