(* ===== verification/Demo.v ===== *)
(** * A concrete outside world

    Instances of [Ext] and of the MinIO client that satisfy the laws the
    theorems assume, and small worlds to evaluate the model on.  The witnesses
    use them; nothing else depends on this file. *)

From S2P Require Import Prelude.
From S2P Require Import Prog.
From S2P Require Import GoStrings.
From S2P Require Import Model.
From S2P Require Import World.
From S2P Require Import TestRepo.
From S2P Require Import Storage.
From S2P Require Import Minio.
From S2P Require Import Supabase.

(** ** Third-party code *)

(** "every minute", and a day that never comes *)
Definition demo_cron (s : string) : option (Z → Z) :=
  if decide (s = "* * * * *") then Some (λ t, (t / Minute + 1) * Minute)%Z
  else if decide (s = "0 0 30 2 *") then Some (λ _, zero_time)
  else None.

(** A bundle with one spec, and one that tries to leave the workspace. *)
Definition demo_zip (content : string) : res (list zip_entry) :=
  if decide (content = "good") then
    Ok [ZipEntry "proj/" true 493 (Ok ""); ZipEntry "proj/tests/a.spec.js" false 420 (Ok "test()")]
  else if decide (content = "slip") then Ok [ZipEntry "../escape.txt" false 420 (Ok "nope")]
  else Err (Errorf "zip: not a valid zip file").

(** A container that prints its environment and leaves one file behind. *)
Definition demo_docker (args env : list string) (timeout : Z) : docker_outcome :=
  {| do_start := None;
     do_lines := (λ e, ("00:00:00", "stdout", e)) <$> env;
     do_files := [(["shot.png"], Some (File 420 7 "png"))];
     do_wait := if (timeout <? Second)%Z then WaitDeadline else WaitExit 0;
     do_elapsed := Second |}.

Definition demo_url_Parse (raw : string) : option (string * string) :=
  if HasPrefix raw "https://hooks.slack.com/" then Some ("https", "hooks.slack.com")
  else if HasPrefix raw "https://p.supabase.co/" then Some ("https", "p.supabase.co") else None.

(** ... with the environment the server is started in, and the files that
    cannot be removed. *)
Definition demo_ext_on (getenv : string → string) (stuck : list string → bool) : Ext := {|
  ext_uuid := pretty;
  ext_cron := demo_cron;
  ext_nonce := λ _, "nonce-12byte";
  ext_seal := λ key _ plain, key +:+ plain;
  ext_open := λ key _ sealed,
    if HasPrefix sealed key then Some (TrimPrefix sealed key) else None;
  ext_zip := demo_zip;
  ext_docker := demo_docker;
  ext_url_Parse := demo_url_Parse;
  ext_getenv := getenv;
  ext_environ := ["PATH=/usr/bin"];
  ext_uid := 0;
  ext_gid := 0;
  ext_embedded := λ p, "# " +:+ p;
  ext_stuck := λ _ _, stuck
|}.
Definition demo_ext_with (getenv : string → string) : Ext :=
  demo_ext_on getenv (λ k, bool_decide (last k = Some "immutable")).

#[export] Instance demo_ext : Ext := demo_ext_with (λ _, "").

#[export] Instance demo_laws : ExtLaws demo_ext.
Proof.
  split; simpl.
  - apply _.
  - intros s next t. unfold demo_cron. repeat case_decide; [|intros [= <-]; by left|done].
    intros [= <-]. right.
    pose proof (Z.mod_pos_bound t Minute ltac:(done)).
    pose proof (Z.div_mod t Minute ltac:(done)). lia.
  - done.
  - intros key _ plain _. by rewrite HasPrefix_app, TrimPrefix_app.
  - intros. by compute.
Qed.

(** ** The MinIO client on the world's bucket *)

(** One request: it may fail, before it has acted on the bucket or after. *)
Definition demo_request {A} (f : gmap string string → res A * gmap string string) : act (res A) :=
  λ w, match next_fault w with
       | (Some msg, w) =>
           (Err (ErrExternal msg), if decide (msg = "reply lost") then with_blobs (f w.(w_blobs)).2 w else w)
       | (None, w) => let '(r, b) := f w.(w_blobs) in (r, with_blobs b w)
       end.

#[export] Instance demo_minio : MinioClient := {|
  PutObject k c := demo_request (λ b, (Ok tt, <[k := c]> b));
  GetObject k := demo_request (λ b, (Ok tt, b));
  ObjectStat k := demo_request (λ b,
    (match b !! k with Some c => Ok c | None => Err (Errorf "no such key") end, b));
  ListObjects p := λ w,
    match next_fault w with
    | (Some msg, w) => ([Err (ErrExternal msg)], w)
    | (None, w) => (Ok <$> filter (λ k, HasPrefix k p = true) (map_to_list w.(w_blobs)).*1, w)
    end;
  RemoveObject k := demo_request (λ b, (Ok tt, delete k b))
|}.

Lemma next_fault_step w : storage_step w (next_fault w).2.
Proof.
  unfold next_fault. destruct (w_faults w) as [|f fs] eqn:E; [apply storage_step_refl|].
  exists w.(w_blobs), fs, w.(w_http). by destruct w.
Qed.
Lemma next_fault_blobs w : (next_fault w).2.(w_blobs) = w.(w_blobs).
Proof. unfold next_fault. by destruct (w_faults w). Qed.

Lemma demo_request_effect {A} (f : gmap string string → res A * gmap string string) ok :
  (∀ b, match f b with (Ok a, b') => ok a b b' | (Err _, b') => b' = b end) →
  call_effect (demo_request f) ok.
Proof.
  intros Hf. split; intros w; unfold demo_request;
    pose proof (next_fault_step w) as Hs; pose proof (next_fault_blobs w) as Hb;
    destruct (next_fault w) as [[msg|] w']; simpl in *.
  - case_decide; [|done]. eapply storage_step_trans; [done|].
    by exists (f w'.(w_blobs)).2, w'.(w_faults), w'.(w_http); destruct w'.
  - destruct (f _) as [r b]. eapply storage_step_trans; [done|].
    by exists b, w'.(w_faults), w'.(w_http); destruct w'.
  - case_decide; [|by left]. simpl. rewrite Hb. specialize (Hf (w_blobs w)).
    destruct (f _) as [[a|e] b]; simpl; [right; by exists a|by left].
  - rewrite Hb. specialize (Hf (w_blobs w)). destruct (f _) as [[a|e] b]; simpl; [done|by left].
Qed.

#[export] Instance demo_minio_laws : MinioClientLaws demo_minio.
Proof.
  split.
  - intros. by apply demo_request_effect.
  - intros. by apply demo_request_effect.
  - intros. apply demo_request_effect. intros b. by destruct (b !! k).
  - intros. by apply demo_request_effect.
  - intros p w. simpl. pose proof (next_fault_step w). by destruct (next_fault w) as [[]].
  - intros p w. simpl. pose proof (next_fault_blobs w). by destruct (next_fault w) as [[]].
  - intros p w k. simpl. destruct (next_fault w) as [[msg|] w']; simpl.
    + by rewrite list_elem_of_singleton.
    + rewrite list_elem_of_fmap. intros (k' & [= ->] & Hk). by apply list_elem_of_filter in Hk as [? _].
  - intros p w k c Hne Hk Hp. revert Hne. simpl. pose proof (next_fault_blobs w) as Hb.
    destruct (next_fault w) as [[msg|] w']; simpl in *.
    + intros Hne. destruct (Hne (ErrExternal msg)). by apply list_elem_of_singleton.
    + intros _. apply list_elem_of_fmap. exists k. split; [done|].
      apply list_elem_of_filter. split; [done|]. rewrite Hb.
      apply list_elem_of_fmap. exists (k, c). split; [done|]. by apply elem_of_map_to_list.
Qed.

Lemma next_fault_blind : act_blind next_fault.
Proof. intros d w. unfold next_fault. cbn [with_db w_faults]. by destruct (w_faults w). Qed.

#[export] Instance demo_minio_blind : MinioClientBlind demo_minio.
Proof.
  assert (∀ A (f : gmap string string → res A * gmap string string), act_blind (demo_request f)) as Hreq.
  { intros A f d w. unfold demo_request. rewrite next_fault_blind. cbn.
    destruct (next_fault w) as [[m|] w']; cbn; [by case_decide|]. by destruct (f (w_blobs w')). }
  split; intros; [apply Hreq..| |apply Hreq].
  intros d w. simpl. rewrite next_fault_blind. by destruct (next_fault w) as [[m|] w'].
Qed.

#[export] Instance demo_storage : Storage := MinioStorage.
#[export] Instance demo_storage_laws : StorageLaws demo_storage.
Proof. apply MinioStorageLaws. Qed.
#[export] Instance demo_storage_blind : StorageBlind demo_storage.
Proof. apply MinioStorageBlind. Qed.

(** ** Supabase's API on the world's bucket *)

Definition demo_supabase : SupabaseStorage.t :=
  SupabaseStorage.mk "https://p.supabase.co" "sb_secret_demo" "byot".

Definition demo_entries (p : string) (b : gmap string string) : list string :=
  remove_dups ((λ k, first_segment (TrimPrefix k p)) <$> filter (λ k, HasPrefix k p = true) (map_to_list b).*1).

Definition demo_response (names : option (list string)) (body : string) : SbResponse.t :=
  SbResponse.mk 200 body None names.

(** The API's answer, and what it makes of the bucket. *)
Definition demo_api (r : SbRequest.t) (b : gmap string string) : SbResponse.t * gmap string string :=
  let name := TrimPrefix r.(SbRequest.URL) (objectURL demo_supabase "") in
  match r.(SbRequest.Body) with
  | Data content => (demo_response None "", <[name := content]> b)
  | NoBody =>
      (match b !! name with
       | Some c => demo_response None c
       | None => SbResponse.mk 404 "not found" None None
       end, b)
  | ListQuery p limit offset _ _ =>
      (demo_response (Some (take (Z.to_nat limit) (drop (Z.to_nat offset) (demo_entries p b)))) "", b)
  | Prefixes names => (demo_response None "", filter (λ kv, kv.1 ∉ names) b)
  end.

#[export] Instance demo_client : SupabaseClient := {|
  Do r := demo_request (λ b,
    if bool_decide (r.(SbRequest.Method) = "GET") then (Ok (demo_api r b).1, b)
    else let '(resp, b') := demo_api r b in (Ok resp, b'));
  entries := demo_entries
|}.

Lemma demo_do r w :
  ∃ w1, storage_step w w1 ∧ w1.(w_blobs) = w.(w_blobs) ∧
    let b' := if bool_decide (r.(SbRequest.Method) = "GET") then w.(w_blobs) else (demo_api r w.(w_blobs)).2 in
    (Do r w = (Ok (demo_api r w.(w_blobs)).1, with_blobs b' w1) ∨
     ∃ e, Do r w = (Err e, w1) ∨ Do r w = (Err e, with_blobs b' w1)).
Proof.
  pose proof (next_fault_step w) as Hs. pose proof (next_fault_blobs w) as Hb. exists (next_fault w).2.
  split; [done|]. split; [done|]. simpl. unfold demo_request.
  destruct (next_fault w) as [[msg|] w1]; cbn [fst snd] in *; rewrite Hb;
    destruct (bool_decide _), (demo_api r (w_blobs w)) as [resp b'] eqn:Ha; cbn [fst snd]; eauto; case_decide; eauto.
Qed.

#[export] Instance demo_supabase_laws : SupabaseLaws demo_client demo_supabase.
Proof.
  assert (∀ name, TrimPrefix (objectURL demo_supabase name) (objectURL demo_supabase "") = name) as Hname.
  { intros name. unfold objectURL. rewrite <-!str_app_assoc, str_app_nil_r. apply TrimPrefix_app. }
  split.
  - intros r w. destruct (demo_do r w) as (w1 & Hs & _ & H). eapply storage_step_trans; [exact Hs|].
    destruct H as [->|[e [->| ->]]]; simpl; try apply storage_step_refl;
      eexists _, w1.(w_faults), w1.(w_http); by destruct w1.
  - intros r d w. simpl. unfold demo_request. rewrite next_fault_blind. cbn.
    destruct (next_fault w) as [[m|] w']; cbn; [by case_decide|]. by repeat case_match.
  - intros r w Hm. destruct (demo_do r w) as (w1 & _ & Hb & H). rewrite bool_decide_true in H by done.
    by destruct H as [->|[e [->| ->]]].
  - intros r w p l o c d Hbody. destruct (demo_do r w) as (w1 & _ & Hb & H).
    assert ((demo_api r w.(w_blobs)).2 = w.(w_blobs)) as Hsame by (unfold demo_api; by rewrite Hbody).
    rewrite Hsame in H. destruct (bool_decide _); by destruct H as [->|[e [->| ->]]].
  - intros name h content w _ _ _. set (r := SbRequest.mk _ _ _ _). destruct (demo_do r w) as (w1 & _ & Hb & H).
    assert (∀ b, (demo_api r b).2 = <[name := content]> b) as Ha.
    { intros b. unfold demo_api, r. cbn [SbRequest.URL SbRequest.Body snd]. by rewrite Hname. }
    cbv zeta in H. rewrite bool_decide_false, Ha in H by done. destruct H as [->|[e [->| ->]]]; simpl; auto.
  - intros name h w _ _. set (r := SbRequest.mk _ _ _ _). destruct (demo_do r w) as (w1 & _ & Hb & H).
    destruct H as [->|[e [->| ->]]]; [|done..]. unfold demo_api, r. cbn [SbRequest.URL SbRequest.Body fst]. rewrite Hname.
    by destruct (w_blobs w !! name).
  - intros names h w _ _. set (r := SbRequest.mk _ _ _ _). destruct (demo_do r w) as (w1 & _ & Hb & H).
    cbv zeta in H. rewrite bool_decide_false in H by done.
    assert (∀ k, filter (λ kv : string * string, kv.1 ∉ names) w.(w_blobs) !! k =
      if decide (k ∈ names) then None else w.(w_blobs) !! k) as Hk.
    { intros k. rewrite map_lookup_filter. destruct (w_blobs w !! k); simpl; [|by case_decide].
      destruct (decide (k ∈ names)) as [Hin|Hin]; [rewrite option_guard_False; [done|tauto]|by rewrite option_guard_True]. }
    destruct H as [->|[e [->| ->]]]; simpl; [exact Hk|intros k; left; by rewrite Hb|].
    intros k. rewrite Hk. case_decide; auto.
  - intros p limit offset h w _ _. set (r := SbRequest.mk _ _ _ _). destruct (demo_do r w) as (w1 & _ & Hb & H).
    destruct H as [->|[e [->| ->]]]; [|done..]. simpl. intros _ _ page [= <-]. by rewrite !Nat2Z.id.
  - intros p b n. simpl. unfold demo_entries. rewrite elem_of_remove_dups, list_elem_of_fmap. split.
    + intros (k & -> & [Hp Hk]%list_elem_of_filter). apply list_elem_of_fmap in Hk as ([k' c] & -> & Hk%elem_of_map_to_list).
      exists k'. split; [by exists c|done].
    + intros (k & [c Hk] & Hp & ->). exists k. split; [done|]. apply list_elem_of_filter. split; [done|].
      apply list_elem_of_fmap. exists (k, c). split; [done|]. by apply elem_of_map_to_list.
Qed.

(** ** Worlds to start from *)

Definition demo_row (uuid runtime : string) : TestRow.t :=
  {| TestRow.uuid := uuid; TestRow.name := Some "smoke"; TestRow.runtime := runtime;
     TestRow.original_filename := "a.js"; TestRow.command := None;
     TestRow.artifact_key := Some (artifact_key uuid); TestRow.created_at := 0;
     TestRow.timeout_seconds := 30; TestRow.schedule_cron := Some "* * * * *";
     TestRow.schedule_enabled := true; TestRow.next_run_at := Some 0%Z;
     TestRow.webhook_url := Some "https://hooks.slack.com/services/T/B/secret";
     TestRow.pagerduty_routing_key := Some "0123456789abcdef0123456789abcdef";
     TestRow.failure_threshold := 3; TestRow.consecutive_failures := 2;
     TestRow.alert_active := false; TestRow.alerts_enabled := true;
     TestRow.docker_memory_mb := None; TestRow.docker_cpus := None;
     TestRow.docker_network_enabled := Some true |}.

Definition demo_job (uuid test status : string) (queued : Z) : Job.t :=
  Job.mk uuid test status "manual" queued
    (if decide (status = "queued") then None else Some queued) None None None.

Definition demo_run (uuid test status : string) (started : Z) : TestRun.t :=
  TestRun.mk uuid test status 5 started (started + 5) (log_key test uuid) 3.

Definition demo_db : db :=
  {| d_tests := {["A" := demo_row "A" "node"; "B" := demo_row "B" "playwright"]};
     d_runs := {["r1" := demo_run "r1" "A" "fail" 10; "r2" := demo_run "r2" "A" "pass" 20]};
     d_jobs := {["j1" := demo_job "j1" "A" "running" 1; "j2" := demo_job "j2" "B" "queued" 2]};
     d_shots := {["s1" := Screenshot.mk "s1" "r1" "home.png" "A/log/r1/home.png" 11]};
     d_env := {[("A", "TOKEN") := EnvVar.mk "TOKEN" "abc" false 0]} |}.

Definition demo_world (d : db) : world :=
  {| w_now := (1000 * Minute)%Z; w_uuids := 0; w_rand := 0; w_faults := []; w_http := [];
     w_db := d;
     w_blobs := {["A/artifact" := "js"; "A/log/r1/log" := "one"; "A/log/r2/log" := "two";
                  "A/log/r1/home.png" := "png"; "B/artifact" := "good"]};
     w_fs := {[["tmp"] := Dir]};
     w_active := ∅; w_paused := false; w_cache := ∅; w_events := [] |}.

Definition demo : world := demo_world demo_db.
