(* ===== verification/Screenshots.v ===== *)
(** * Screenshots of a run (src/worker/screenshots.go)

    Which image files of a workspace a Playwright run produced. *)

From S2P Require Import Prelude.
From S2P Require Import Prog.
From S2P Require Import GoStrings.
From S2P Require Import Model.
From S2P Require Import World.
From S2P Require Import Paths.

Definition maxScreenshotsPerRun : nat := 50.

Definition skipScreenshotDirs : list string :=
  ["node_modules"; ".git"; "playwright-report"; "blob-report"].

Definition isScreenshotFile (name : string) : bool :=
  bool_decide (ToLower (PathExt name) ∈ [".png"; ".jpg"; ".jpeg"; ".webp"]).

(** [imageSnapshot]: workspace-relative path to modification time. *)
Abbreviation imageSnapshot := (gmap string Z).

(** WalkDir does not enter these directories. *)
Definition skip_dir (name : string) : bool :=
  bool_decide (name ∈ skipScreenshotDirs) || HasPrefix name ".".

(** What WalkDir visits below [ws]: [rel] are the components of the entry's
    path relative to the workspace. *)
Definition visits (rel : list string) (node : fnode) : bool :=
  match reverse rel with
  | [] => false
  | name :: dirs =>
      forallb (λ d, negb (skip_dir d)) dirs &&
      match node with File _ _ _ => isScreenshotFile name | _ => false end
  end.

Definition mtime_of (node : fnode) : Z := match node with File _ t _ => t | _ => 0%Z end.

(** The calls [visit(rel, mod)] of [walkImages], in the order of the map's
    keys: the callers sort the paths or put them in a map. *)
Definition walkImages (ws : list string) (fs : gmap (list string) fnode) : list (string * Z) :=
  omap (λ kv : list string * fnode,
    let rel := drop (length ws) kv.1 in
    if bool_decide (ws `prefix_of` kv.1) && visits rel kv.2
    then Some (Join rel "/", mtime_of kv.2) else None) (map_to_list fs).

Definition snapshotImages (ws : list string) (fs : gmap (list string) fnode) : imageSnapshot :=
  list_to_map (walkImages ws fs).

(** Not in the snapshot, or with another modification time. *)
Definition is_new (before : imageSnapshot) (p : string * Z) : bool :=
  match before !! p.1 with
  | Some prev => negb (bool_decide (prev = p.2))
  | None => true
  end.

Definition newScreenshots (ws : list string) (fs : gmap (list string) fnode)
    (before : imageSnapshot) : list string * Z :=
  let paths := merge_sort String.le (filter (λ p, is_new before p = true) (walkImages ws fs)).*1 in
  if decide (maxScreenshotsPerRun < length paths)
  then (take maxScreenshotsPerRun paths, Z.of_nat (length paths - maxScreenshotsPerRun))
  else (paths, 0%Z).

Example kelvin_example : ToLower ".ZİP" = ".zip" ∧ isScreenshotFile "a.JPEG" = true.
Proof. vm_compute. done. Qed.
Example screenshots_example :
  let img t := File 420 t "img" in
  let before : gmap (list string) fnode := list_to_map [
    (["tmp"; "ws"; "node_modules"; "lib"; "icon.png"], img 1%Z);
    (["tmp"; "ws"; "tests"; "logo.png"], img 1%Z) ] in
  let after := list_to_map [
    (["tmp"; "ws"; "test-results"; "home"; "test-finished-1.png"], img 2%Z);
    (["tmp"; "ws"; "node_modules"; "x"; "new.png"], img 2%Z);
    (["tmp"; "ws"; "test-results"; ".artifacts"; "page.jpeg"], img 2%Z);
    (["tmp"; "ws"; "leak.png"], Symlink "/etc/x.png");
    (["tmp"; "ws"; "debug.WEBP"], img 2%Z) ] ∪ before in
  let ws := ["tmp"; "ws"] in
  newScreenshots ws after (snapshotImages ws before)
  = (["debug.WEBP"; "test-results/home/test-finished-1.png"], 0%Z).
Proof. vm_compute. reflexivity. Qed.

(** ** Lemmas and theorems *)

Lemma visits_not_log rel node : visits rel node = true → Join rel "/" ≠ "log".
Proof.
  unfold visits. destruct rel as [|a rel]; [done|]. destruct rel as [|b rel].
  - destruct node; simpl; try done. intros Hv Ha. simpl in Ha. by subst.
  - intros _ Hj. assert (Contains (Join (a :: b :: rel) "/") "/" = true) as Hc.
    { apply Contains_true. exists a, (Join (b :: rel) "/"). done. }
    by rewrite Hj in Hc.
Qed.

Lemma newScreenshots_not_log ws fs before p : p ∈ (newScreenshots ws fs before).1 → p ≠ "log".
Proof.
  intros Hp. assert (p ∈ (filter (λ p, is_new before p = true) (walkImages ws fs)).*1) as Hin.
  { unfold newScreenshots in Hp. rewrite <-(merge_sort_Permutation String.le). case_decide; [|done].
    eapply elem_of_sublist; [exact Hp|]. apply sublist_take. }
  apply list_elem_of_fmap in Hin as ([q t] & -> & [_ Hw]%list_elem_of_filter).
  apply list_elem_of_omap in Hw as ([k node] & _ & Hv). simpl in Hv.
  destruct (_ && visits _ _) eqn:Hb; [|done]. apply andb_true_iff in Hb as [_ Hvis].
  injection Hv as <- <-. by eapply visits_not_log.
Qed.

(** The path [rel] below the workspace is one WalkDir reaches, of an image by its
    extension. *)
Definition image_path (rel : list string) : Prop :=
  ∃ dirs name, rel = dirs ++ [name] ∧
    (∀ d, d ∈ dirs → d ∉ ["node_modules"; ".git"; "playwright-report"; "blob-report"] ∧
                     HasPrefix d "." = false) ∧
    ToLower (PathExt name) ∈ [".png"; ".jpg"; ".jpeg"; ".webp"].

Lemma visits_spec rel node :
  visits rel node = true ↔ image_path rel ∧ ∃ mode mtime content, node = File mode mtime content.
Proof.
  unfold visits, image_path. destruct rel as [|name dirs _] using rev_ind; simpl.
  { split; [done|]. by intros [(dirs & name & Hr & _) _]; destruct dirs. }
  rewrite reverse_snoc, andb_true_iff, forallb_forall. split.
  - intros [Hd Hn]. destruct node as [|mode mtime c|]; try done. split; [|eauto].
    exists dirs, name. split; [done|]. split; [|by apply bool_decide_eq_true in Hn].
    intros d Hin. specialize (Hd d). rewrite <-elem_of_reverse, list_elem_of_In in Hin. specialize (Hd Hin).
    unfold skip_dir in Hd. apply negb_true_iff, orb_false_iff in Hd as [Hd%bool_decide_eq_false ?]. done.
  - intros [(dirs' & name' & [-> [= ->]]%app_inj_2 & Hd & Hn) (mode & mtime & c & ->)]; [|done].
    split; [|by apply bool_decide_eq_true_2].
    intros d Hin%list_elem_of_In%elem_of_reverse. rewrite reverse_involutive in Hin. destruct (Hd d Hin) as [Hs Hp].
    apply negb_true_iff, orb_false_iff. split; [by apply bool_decide_eq_false_2|done].
Qed.

Lemma elem_of_walkImages ws fs p t :
  (p, t) ∈ walkImages ws fs ↔
  ∃ rel mode content, image_path rel ∧ fs !! (ws ++ rel) = Some (File mode t content) ∧ p = Join rel "/".
Proof.
  unfold walkImages. rewrite list_elem_of_omap. split.
  - intros ([k node] & Hk%elem_of_map_to_list & Hv). simpl in Hv.
    case_bool_decide as Hpre; simpl in Hv; [|done]. destruct Hpre as [rel ->].
    rewrite drop_app_length in Hv. destruct (visits rel node) eqn:E; [|done].
    apply visits_spec in E as [Hi (mode & mtime & content & ->)]. injection Hv as <- <-. eauto 10.
  - intros (rel & mode & content & Hi & Hk & ->).
    exists (ws ++ rel, File mode t content). split; [by apply elem_of_map_to_list|]. simpl.
    rewrite bool_decide_eq_true_2 by by exists rel. rewrite drop_app_length.
    assert (visits rel (File mode t content) = true) as -> by (apply visits_spec; eauto). done.
Qed.

(** Paths are as distinct as the files. *)
Lemma walkImages_NoDup ws fs :
  (∀ k c, is_Some (fs !! k) → c ∈ k → no_slash c) → NoDup (walkImages ws fs).*1.
Proof.
  intros Hs. unfold walkImages.
  assert (∀ kv kv' p p', kv ∈ map_to_list fs → kv' ∈ map_to_list fs →
    let f := λ kv : list string * fnode,
      if bool_decide (ws `prefix_of` kv.1) && visits (drop (length ws) kv.1) kv.2
      then Some (Join (drop (length ws) kv.1) "/", mtime_of kv.2) else None in
    f kv = Some p → f kv' = Some p' → p.1 = p'.1 → kv = kv') as Hinj.
  { intros [k n] [k' n'] p p' Hk%elem_of_map_to_list Hk'%elem_of_map_to_list f. unfold f. simpl. clear f.
    case_bool_decide as Hp; [|done]. case_bool_decide as Hp'; [|done]. destruct Hp as [r ->], Hp' as [r' ->].
    rewrite !drop_app_length. simpl. destruct (visits r n) eqn:Ev; [|done]. destruct (visits r' n') eqn:Ev'; [|done].
    intros [= <-] [= <-] Hj. simpl in Hj.
    assert (∀ r n, fs !! (ws ++ r) = Some n → visits r n = true → SplitByte "/" (Join r "/") = r) as Hr.
    { intros q m Hq Hv. apply SplitByte_Join; [by destruct q|]. apply Forall_forall. intros c Hc.
      apply (Hs (ws ++ q)); [by eexists|]. apply elem_of_app. by right. }
    assert (r = r') as ->; [by rewrite <-(Hr r n), <-(Hr r' n'), Hj|]. congruence. }
  cbv zeta in Hinj. pose proof (NoDup_map_to_list fs) as Hnd. revert Hinj Hnd.
  generalize (map_to_list fs) as l. intros l. induction l as [|kv l IH]; intros Hinj Hnd; simpl; [constructor|].
  apply NoDup_cons in Hnd as [Hni Hnd].
  assert (NoDup (omap (λ kv : list string * fnode,
      if bool_decide (ws `prefix_of` kv.1) && visits (drop (length ws) kv.1) kv.2
      then Some (Join (drop (length ws) kv.1) "/", mtime_of kv.2) else None) l).*1) as Hl.
  { apply IH; [|done]. intros; eapply Hinj; eauto; by right. }
  destruct (_ && _) eqn:E; [|done]. simpl. apply NoDup_cons. split; [|done].
  intros ([p t] & Hp & (kv' & Hin & Hv)%list_elem_of_omap)%list_elem_of_fmap. simpl in *.
  assert (kv = kv') as <-; [|done].
  eapply Hinj; [by left|by right|by rewrite E|exact Hv|done].
Qed.

(** C40: the screenshots of a run.  A path counts as changed exactly when there is
    a regular file at it below the workspace, named as an image, in no directory
    that is skipped, which the snapshot does not have with the same modification
    time.  The screenshots are changed paths in the order of their names, at most
    fifty of them; the number left out is exact, and none is left out below the
    limit. *)
Theorem newScreenshots_spec ws fs before :
  let '(paths, dropped) := newScreenshots ws fs before in
  ∃ changed,
    (∀ p, p ∈ changed ↔ ∃ rel mode mtime content,
       image_path rel ∧ p = Join rel "/" ∧
       fs !! (ws ++ rel) = Some (File mode mtime content) ∧ before !! p ≠ Some mtime) ∧
    ((∀ k c, is_Some (fs !! k) → c ∈ k → no_slash c) → NoDup changed) ∧
    length paths ≤ 50 ∧ StronglySorted String.le paths ∧
    Z.of_nat (length changed) = (Z.of_nat (length paths) + dropped)%Z ∧
    (∀ p, p ∈ paths → p ∈ changed) ∧
    (length changed ≤ 50 → ∀ p, p ∈ changed → p ∈ paths).
Proof.
  unfold newScreenshots. set (changed := (filter _ _).*1).
  pose proof (merge_sort_Permutation String.le changed) as Hp.
  pose proof (StronglySorted_merge_sort String.le changed) as Hs.
  set (l := merge_sort String.le changed) in *.
  assert (∀ p, p ∈ changed ↔ ∃ rel mode mtime content,
       image_path rel ∧ p = Join rel "/" ∧
       fs !! (ws ++ rel) = Some (File mode mtime content) ∧ before !! p ≠ Some mtime) as Hin.
  { intros p. unfold changed. rewrite list_elem_of_fmap. split.
    - intros ([p' t] & -> & [Hnew Hw]%list_elem_of_filter).
      apply elem_of_walkImages in Hw as (rel & mode & content & Hi & Hk & ->).
      exists rel, mode, t, content. do 3 (split; [done|]). unfold is_new in Hnew. simpl in *.
      intros He. rewrite He in Hnew. by rewrite bool_decide_eq_true_2 in Hnew.
    - intros (rel & mode & t & content & Hi & -> & Hk & Hb). exists (Join rel "/", t). split; [done|].
      apply list_elem_of_filter. split; [|apply elem_of_walkImages; eauto 10].
      unfold is_new. simpl. destruct (before !! _) as [t'|]; [|done].
      rewrite bool_decide_eq_false_2; [done|]. by intros ->. }
  unfold maxScreenshotsPerRun. case_decide as Hlen;
    (exists changed; split; [exact Hin|]; split;
      [intros Hns; eapply sublist_NoDup; [by apply walkImages_NoDup|apply (fmap_sublist fst), sublist_filter]|]; split; [|split; [|split; [|split]]]).
  - rewrite length_take. lia.
  - rewrite <-(take_drop 50 l) in Hs. by eapply StronglySorted_app_1_l.
  - rewrite <-Hp, length_take. lia.
  - intros p Hpp. rewrite <-Hp. eapply elem_of_sublist; [exact Hpp|]. apply sublist_take.
  - rewrite <-Hp. lia.
  - lia.
  - done.
  - rewrite <-Hp. lia.
  - intros p. by rewrite Hp.
  - intros _ p. by rewrite Hp.
Qed.
