(* ===== verification/Worker.v ===== *)
(** * The worker (src/worker/worker.go)

    What happens to a job once it is taken from the queue: [handleJob],
    [executeJob] with its workspace, [loadEnv], the screenshots, and the sweep
    of stale jobs.  Every call to the database, the bucket, the file system or
    docker is an atomic action, so [Stop], a deletion or another worker can
    interleave with a job at each of them. *)

From S2P Require Import Prelude.
From S2P Require Import Prog.
From S2P Require Import GoStrings.
From S2P Require Import Model.
From S2P Require Import World.
From S2P Require Import Alert.
From S2P Require Import TestRepo.
From S2P Require Import JobRepo.
From S2P Require Import RunRepo.
From S2P Require Import Secrets.
From S2P Require Import Paths.
From S2P Require Import Bundle.
From S2P Require Import Runtime.
From S2P Require Import Storage.
From S2P Require Import Screenshots.

Definition staleGrace : Z := (5 * Minute)%Z.

(** [fmt.Errorf("prefix: %w", err)] on the error path. *)
Definition wrap_err {A} (pre : string) (r : res A) : res A :=
  match r with Ok a => Ok a | Err e => Err (Wrap pre e) end.

(** The environment map and the list of values to redact, one variable after
    the other; later writes to the same name win. *)
Section load.
Context `{Ext}.
Fixpoint add_vars (box : Box) (vars : list EnvVar.t) (env : gmap string string)
    (secretValues : list string) : res (gmap string string * list string) :=
  match vars with
  | [] => Ok (env, secretValues)
  | v :: vars =>
      if v.(EnvVar.IsSecret) then
        match Decrypt box v.(EnvVar.Value) with
        | Err e => Err (Wrap ("secret " +:+ v.(EnvVar.Name) +:+ ": ") e)
        | Ok val => add_vars box vars (<[v.(EnvVar.Name) := val]> env) (secretValues ++ [val])
        end
      else add_vars box vars (<[v.(EnvVar.Name) := v.(EnvVar.Value)]> env) secretValues
  end.

Definition loadEnv (box : Box) (testID : string)
    : prog world (res (gmap string string * list string)) :=
  r ← call (EnvRepo.List testID);
  match r with
  | Err e => mret (Err (Wrap "load env vars: " e))
  | Ok vars => mret (add_vars box vars ∅ [])
  end.
End load.

Section worker.
Context `{Ext} `{Storage}.
Variable Duration_String : Z → string.
(** The server's secrets box and this worker's ID. *)
Variable box : Box.
Variable workerID : string.

Definition workspaceRoot : prog world string :=
  let dir := ext_getenv "WORKSPACE_DIR" in
  if decide (dir = "") then mret "/tmp"
  else
    r ← call (MkdirAll dir);
    match r with Err _ => mret "/tmp" | Ok _ => mret dir end.

(** [os.MkdirTemp(dir, "prefix*")]: a directory that did not exist. *)
Definition MkdirTemp (dir pattern : string) : act (res string) :=
  λ w,
    if Contains pattern "/" then (Err (os_error "pattern contains path separator"), w) else
    let name n := PathJoin dir (pattern +:+ Itoa (Z.of_nat n)) in
    let free := filter (λ n, lstat w.(w_fs) (key (name n)) = None)
                  (seq w.(w_rand) (S (size w.(w_fs)))) in
    let n := default 0 (head free) in
    (syscall (λ _ fs,
      match lresolve fs (key (name n)) with
      | None => (Err (os_error "no such file or directory"), fs)
      | Some k =>
          match fs !! k with
          | None => (Ok (name n), <[k := Dir]> fs)
          | Some _ => (Err (os_error "file exists"), fs)
          end
      end))
    (with_rand (S w.(w_rand)) w).

Definition chmod (path : string) : act (res unit) := syscall (λ _ fs, (Ok tt, fs)).

(** The artifact goes into the workspace, unpacked if it is a bundle. *)
Definition place_artifact (test : Test.t) (workspace content : string) : prog world (res unit) :=
  if IsBundle test.(Test.Runtime) test.(Test.OriginalFilename) then
    let zipPath := PathJoin workspace "bundle.zip" in
    try _ := call (create_file zipPath 420) in
    try _ := call (write_file zipPath content) in
    try _ := call (syscall (λ _ fs, (Ok tt, fs))) in           (* dst.Close() *)
    r ← UnzipFile workspace zipPath;
    match wrap_err ("unpack " +:+ test.(Test.Runtime) +:+ " bundle: ") r with
    | Err e => mret (Err e)
    | Ok _ => _ ← call (os_Remove zipPath); mret (Ok tt)
    end
  else
    let artifactPath := PathJoin workspace "artifact" in
    try _ := call (create_file artifactPath 493) in
    try _ := call (write_file artifactPath content) in
    call (syscall (λ _ fs, (Ok tt, fs))).                       (* dst.Close() *)

Definition uploadScreenshotFile (filePath relPath testUUID runID : string)
    : prog world (res unit) :=
  try content := call (syscall (λ _ fs,
    match file_content fs filePath with
    | Some c => (Ok c, fs)
    | None => (Err (os_error "no such file or directory"), fs)
    end)) in
  let storageKey := testUUID +:+ "/log/" +:+ runID +:+ "/" +:+ relPath in
  r ← UploadBlob storageKey content;
  match r with
  | Err e => mret (Err (Wrap "upload screenshot to storage: " e))
  | Ok _ =>
      uuid ← call NewString;
      now ← call Now;
      r ← call (ScreenshotRepo.Create (Screenshot.mk uuid runID relPath storageKey now));
      mret (wrap_err "create screenshot record: " r)
  end.

(** [filepath.WalkDir(workspace)] on the directory the path leads to. *)
Definition workspace_images (workspace : string) (fs : files) : imageSnapshot :=
  match lresolve fs (key workspace) with Some ws => snapshotImages ws fs | None => ∅ end.
Definition changed_images (workspace : string) (fs : files) (before : imageSnapshot) : list string :=
  match lresolve fs (key workspace) with Some ws => (newScreenshots ws fs before).1 | None => [] end.

Definition uploadScreenshots (workspace : string) (before : imageSnapshot)
    (testUUID runID : string) : prog world unit :=
  fs ← call (gets w_fs);
  for_each (changed_images workspace fs before) (λ rel,
    _ ← uploadScreenshotFile (PathJoin workspace rel) rel testUUID runID;
    mret tt).

Definition timeout_of (test : Test.t) : Z :=
  if (test.(Test.TimeoutSeconds) <=? 0)%Z then (30 * Second)%Z
  else wrap64 (test.(Test.TimeoutSeconds) * Second).

(** The alerts a run calls for; a failed delivery is only logged. *)
Definition send_alerts (test : Test.t) (runID : string) (a : RunOutcomeAlert.t) : prog world unit :=
  let payload := Payload.mk test.(Test.UUID) a.(RunOutcomeAlert.TestName)
                   a.(RunOutcomeAlert.Consecutive) a.(RunOutcomeAlert.Threshold) runID in
  let targets := Targets.mk a.(RunOutcomeAlert.WebhookURL) a.(RunOutcomeAlert.PagerDutyKey) in
  _ ← (if a.(RunOutcomeAlert.SendFailure)
       then NotifyFailure targets payload else mret (Ok tt));
  _ ← (if a.(RunOutcomeAlert.SendRecovery)
       then NotifyRecovery targets payload else mret (Ok tt));
  mret tt.

(** From the start of the container to the end of the job. *)
Definition run_and_record (job : Job.t) (test : Test.t) (workspace : string)
    (spec : RuntimeSpec.t) (secretValues : list string) (timeout : Z) : prog world (res unit) :=
  preRunImages ← (if decide (test.(Test.Runtime) = "playwright")
                  then fs ← call (gets w_fs); mret (workspace_images workspace fs)
                  else mret ∅);
  startedAt ← call Now;
  x ← Execute Duration_String job.(Job.UUID) workspace spec timeout;
  finishedAt ← call Now;
  let '((output, exitCode), execErr) := (x : Result * option error) in
  let output := Redact output secretValues in
  let duration := (finishedAt - startedAt)%Z in
  let status := if negb (exitCode =? 0)%Z || bool_decide (execErr ≠ None)
                then "fail" else "pass" in
  runID ← call NewString;
  up ← UploadLog test.(Test.UUID) runID output;
  let logURL := match up with Ok k => k | Err _ => "" end in
  let testRun := TestRun.mk runID test.(Test.UUID) status (Z.quot duration Millisecond)
                   startedAt finishedAt logURL (len output) in
  try _ := call (TestRunRepo.Create testRun) in
  _ ← (if decide (test.(Test.Runtime) = "playwright")
       then uploadScreenshots workspace preRunImages test.(Test.UUID) runID
       else mret tt);
  alertInfo ← call (TestRepo.RecordRunOutcome test.(Test.UUID) (bool_decide (status = "pass")));
  _ ← (match alertInfo with
       | Ok (Some a) => send_alerts test runID a
       | _ => mret tt
       end);
  mret (match execErr with Some e => Err e | None => Ok tt end).

(** Everything between the creation of the workspace and its removal. *)
Definition in_workspace (job : Job.t) (test : Test.t) (workspace content : string)
    : prog world (res unit) :=
  try _ := call (chmod workspace) in
  try _ := place_artifact test workspace content in
  match GetRuntime test.(Test.Runtime) with
  | None => mret (Err (Errorf ("unsupported runtime: " +:+ test.(Test.Runtime))))
  | Some baseSpec =>
      r ← StageSupportFiles test.(Test.Runtime) workspace;
      try _ := mret (wrap_err ("stage " +:+ test.(Test.Runtime) +:+ " support files: ") r) in
      r ← ChownWorkspace workspace;
      try _ := mret (wrap_err "chown workspace: " r) in
      let command := if decide (test.(Test.Command) = "") then baseSpec.(RuntimeSpec.Command)
                     else test.(Test.Command) in
      try (env, secretValues) := loadEnv box test.(Test.UUID) in
      let timeout := timeout_of test in
      now ← call Now;
      let env := <["BYOT_STARTED_AT" := Itoa (now / Second)]>
                   (<["BYOT_TIMEOUT_SECONDS" := Itoa (Z.quot timeout Second)]> env) in
      let spec := RuntimeSpec.mk baseSpec.(RuntimeSpec.Image) command
                    baseSpec.(RuntimeSpec.NetworkEnabled) test.(Test.DockerMemoryMB)
                    test.(Test.DockerCPUs) test.(Test.DockerNetworkEnabled) env "" in
      run_and_record job test workspace spec secretValues timeout
  end.

Definition executeJob (job : Job.t) : prog world (res unit) :=
  try test := call (TestRepo.GetByID job.(Job.TestID)) in
  let artifactKey := if decide (test.(Test.ArtifactKey) = "")
                     then test.(Test.UUID) +:+ "/artifact" else test.(Test.ArtifactKey) in
  try content := DownloadBlob artifactKey in
  root ← workspaceRoot;
  try workspace := call (MkdirTemp root ("run-" +:+ test.(Test.UUID) +:+ "-")) in
  r ← in_workspace job test workspace content;
  _ ← call (os_RemoveAll workspace);             (* deferred, its error ignored *)
  mret r.

(** current, _ = GetStatus; current != nil && current.Status == "cancelled" *)
Definition cancelled (r : res Job.t) : bool :=
  match r with Ok j => bool_decide (j.(Job.Status) = "cancelled") | Err _ => false end.

Definition handleJob (job : Job.t) : prog world unit :=
  current ← call (Queue.GetStatus job.(Job.UUID));
  if cancelled current then mret tt
  else
    r ← executeJob job;
    current ← call (Queue.GetStatus job.(Job.UUID));
    if cancelled current then mret tt
    else
      _ ← call (match r with
                | Err e => Queue.Complete job.(Job.UUID) "failed" (Some (Error e))
                | Ok _ => Queue.Complete job.(Job.UUID) "completed" None
                end);
      mret tt.

(** One slot of the pool: take a job and run it. *)
Definition work_once : prog world unit :=
  r ← call (Queue.Dequeue workerID);
  match r with
  | Ok (Some job) => handleJob job
  | _ => mret tt
  end.

(** The closure [sweep] of [sweepStale]. *)
Definition sweep_stale : prog world unit :=
  r ← call (Queue.FailStale staleGrace);
  match r with
  | Err _ => mret tt
  | Ok ids => for_each ids (λ id, call (KillContainer (ContainerName id)))
  end.
End worker.
