(* ===== verification/Scheduler.v ===== *)
(** * Scheduling (src/schedule/cron.go, src/scheduler/scheduler.go)

    [NextRun], and the scheduler's tick: every due test gets a new
    [next_run_at] and, unless a job of it is still active, a job. *)

From S2P Require Import Prelude.
From S2P Require Import Prog.
From S2P Require Import GoStrings.
From S2P Require Import Model.
From S2P Require Import World.
From S2P Require Import TestRepo.
From S2P Require Import JobRepo.

Section scheduler.
Context `{Ext}.

(** schedule.NextRun; all times are UTC. *)
Definition NextRun (cronExpr : string) (from : Z) : res Z :=
  if decide (cronExpr = "") then Err (Errorf "empty cron expression")
  else match ext_cron cronExpr with
       | None => Err (Wrap "parse cron: " (ErrExternal "cron"))
       | Some next => Ok (next from)
       end.

Definition Pause : act unit := modify (with_paused true).
Definition Resume : act unit := modify (with_paused false).
Definition IsPaused : act bool := gets w_paused.

Definition fire (test : Test.t) (now : Z) : prog world unit :=
  match NextRun test.(Test.ScheduleCron) now with
  | Err _ => mret tt
  | Ok next =>
      try _ := call (TestRepo.UpdateNextRunAt test.(Test.UUID) next) else mret tt in
      try active := call (JobRepo.HasActiveJob test.(Test.UUID)) else mret tt in
      if active : bool then mret tt
      else _ ← call (Queue.Enqueue test.(Test.UUID) TriggerScheduled); mret tt
  end.

Definition tick : prog world unit :=
  paused ← call IsPaused;
  if paused : bool then mret tt
  else
    now ← call Now;
    try due := call (TestRepo.ListDueScheduled now) else mret tt in
    for_each due (λ test, fire test now).
End scheduler.
