(* ===== verification/Retention.v ===== *)
(** * Retention (src/retention/retention.go)

    The sweep that prunes old runs: storage first, then the rows.  [alive i] is
    [ctx.Err() == nil] at the i-th time the sweep looks. *)

From S2P Require Import Prelude.
From S2P Require Import Prog.
From S2P Require Import GoStrings.
From S2P Require Import Model.
From S2P Require Import World.
From S2P Require Import JobRepo.
From S2P Require Import RunRepo.
From S2P Require Import Storage.

Module Policy.
Record t := mk { MaxRunsPerTest : Z; MaxAge : Z }.
Definition Enabled (p : t) : bool := (0 <? p.(MaxRunsPerTest))%Z || (0 <? p.(MaxAge))%Z.
End Policy.

Definition batchSize : nat := 200.
Definition maxBatches : nat := 25.

(** main.go: time.Duration(cfg.RetentionDays) * 24 * time.Hour, in 64 bits. *)
Definition max_age_of_days (days : Z) : Z := wrap64 (wrap64 (days * 24) * Hour).

Section sweeper.
Context `{Storage}.

Definition run_prefix (e : ExpiredRun.t) : string :=
  e.(ExpiredRun.TestID) +:+ "/log/" +:+ e.(ExpiredRun.RunID) +:+ "/".

Definition deleteStorage (e : ExpiredRun.t) : prog world (res unit) :=
  try _ := DeletePrefix (run_prefix e) in
  if negb (bool_decide (e.(ExpiredRun.LogURL) = "")) &&
     negb (HasPrefix e.(ExpiredRun.LogURL) (run_prefix e))
  then DeleteObject e.(ExpiredRun.LogURL)
  else mret (Ok tt).

(** The inner loop: the runs whose files are gone. *)
Fixpoint delete_files (expired : list ExpiredRun.t) : prog world (list string) :=
  match expired with
  | [] => mret []
  | e :: expired =>
      r ← deleteStorage e;
      ok ← delete_files expired;
      mret (if is_ok r then e.(ExpiredRun.RunID) :: ok else ok)
  end.

(** The batches that are left; [i] counts the looks at the context. *)
Fixpoint sweep_batches (n : nat) (alive : nat → bool) (i : nat) (policy : Policy.t)
    (cutoff : option Z) (total : nat) : prog world (nat * nat) :=
  match n with
  | O => mret (total, i)
  | S n =>
      if negb (alive i) then mret (total, S i)
      else
        try expired := call (RetentionRepo.ListExpiredRuns policy.(Policy.MaxRunsPerTest) cutoff batchSize)
          else mret (total, S i) in
        if decide (expired = []) then mret (total, S i)
        else
          ok ← delete_files expired;
          if decide (ok = []) then mret (total, S i)
          else
            try _ := call (RetentionRepo.DeleteRuns ok) else mret (total, S i) in
            sweep_batches n alive (S i) policy cutoff (total + length ok)
  end.

Definition Sweep (alive : nat → bool) (policy : Policy.t) : prog world nat :=
  now ← call Now;
  let cutoff := if (0 <? policy.(Policy.MaxAge))%Z then Some (now - policy.(Policy.MaxAge))%Z else None in
  x ← sweep_batches maxBatches alive 0 policy cutoff 0;
  let '(total, i) := (x : nat * nat) in
  _ ← (match cutoff with
       | Some c =>
           if alive i then _ ← call (RetentionRepo.DeleteFinishedJobsBefore c); mret tt
           else mret tt
       | None => mret tt
       end);
  mret total.
End sweeper.

(** RETENTION_DAYS is only checked to be non-negative: large values overflow. *)
Example max_age_overflow :
  max_age_of_days 30 = (30 * 24 * Hour)%Z ∧
  (0 < max_age_of_days 213504 < 26 * Minute)%Z.
Proof. vm_compute. done. Qed.

(** ** Lemmas and theorems *)

Lemma db_insensitive (P : db → Prop) : storage_insensitive (λ w, P w.(w_db)).
Proof. by intros w w' (b & f & h & ->). Qed.

Section proofs.
Context `{St : Storage} `{!StorageFrame St}.

(** *** The newest run of each test survives *)

Lemma deleteStorage_ok I e : storage_insensitive I → prog_ok I (deleteStorage e) (λ _, True).
Proof.
  intros HI. unfold deleteStorage.
  eapply prog_ok_bind; [by apply delete_prefix_ok|]. intros [u|er] _; [|done].
  destruct (_ && _); [by apply delete_object_ok|done].
Qed.

Lemma delete_files_ok I l :
  storage_insensitive I → prog_ok I (delete_files l) (λ ok, ok ⊆ ExpiredRun.RunID <$> l).
Proof.
  intros HI. induction l as [|e l IH]; simpl; [done|].
  eapply prog_ok_bind; [by apply deleteStorage_ok|]. intros r _.
  eapply prog_ok_bind; [apply IH|]. intros ok Hok. apply prog_ok_ret.
  destruct (is_ok r); set_solver.
Qed.

(** What a sweep must not touch: a run that is the newest of its test. *)
Definition keeps (r : TestRun.t) (w : world) : Prop :=
  runs_keyed w.(w_db) ∧ newest w.(w_db) r.

Lemma list_expired_keeps r maxRuns cutoff limit :
  preserves (keeps r) (RetentionRepo.ListExpiredRuns maxRuns cutoff limit)
    (λ x, ∀ l, x = Ok l → r.(TestRun.UUID) ∉ ExpiredRun.RunID <$> l).
Proof.
  intros w Hr. pose proof (ListExpiredRuns_run maxRuns cutoff limit w) as H.
  destruct (RetentionRepo.ListExpiredRuns maxRuns cutoff limit w) as [[l|e] w']; simpl.
  - destruct H as ([fs ->] & _ & H). split; [done|].
    intros l0 [= <-] (e & Heq & He)%list_elem_of_fmap.
    destruct (H e He) as (k & r' & Hk & Hexp & ->). simpl in Heq.
    destruct Hr as [Hkeyed Hnew]. pose proof (Hkeyed k r' Hk) as Hkk. simpl in Hkk. subst k.
    pose proof (proj1 Hnew) as Hr. rewrite Heq in Hr. simplify_eq.
    by rewrite newest_not_expired in Hexp.
  - destruct H as [fs ->]. by split.
Qed.

Lemma delete_runs_keeps r ids :
  r.(TestRun.UUID) ∉ ids → preserves (keeps r) (RetentionRepo.DeleteRuns ids) (λ _, True).
Proof.
  intros Hids w Hr. split; [|done]. pose proof (DeleteRuns_run ids w) as H.
  destruct (RetentionRepo.DeleteRuns ids w) as [[u|e] w']; simpl.
  2:{ by destruct H as [fs ->]. }
  destruct H as [fs [->|[_ ->]]]; [|done].
  destruct Hr as [Hkeyed [Hr Hnew]]. unfold keeps, runs_keyed, newest.
  cbn [with_db with_faults w_db]. split; [|split].
  - intros k r'. rewrite delete_runs_lookup. destruct (d_runs (w_db w) !! k) as [x|] eqn:E; simpl; [|done].
    case_match; [done|]. intros [= <-]. by apply (Hkeyed k x).
  - rewrite delete_runs_lookup, Hr. simpl. by rewrite bool_decide_eq_false_2.
  - intros k r'. rewrite delete_runs_lookup. destruct (d_runs (w_db w) !! k) as [x|] eqn:E; simpl; [|done].
    case_match; [done|]. intros [= <-]. by apply (Hnew k x).
Qed.

Lemma delete_jobs_keeps r c :
  preserves (keeps r) (RetentionRepo.DeleteFinishedJobsBefore c) (λ _, True).
Proof.
  intros w Hr. split; [|done]. unfold RetentionRepo.DeleteFinishedJobsBefore.
  sql_cases; done.
Qed.

Lemma sweep_batches_keeps r n alive i policy cutoff total :
  prog_ok (keeps r) (sweep_batches n alive i policy cutoff total) (λ _, True).
Proof.
  revert i total. induction n as [|n IH]; intros i total; cbn [sweep_batches]; [done|].
  destruct (negb (alive i)); [done|].
  eapply prog_ok_bind; [apply prog_ok_call, list_expired_keeps|].
  intros [l|e] Hl; [|done]. case_decide; [done|].
  eapply prog_ok_bind; [apply delete_files_ok, (db_insensitive (λ d, runs_keyed d ∧ newest d r))|].
  intros ok Hok. case_decide; [done|].
  eapply prog_ok_bind; [apply prog_ok_call, delete_runs_keeps|].
  - specialize (Hl l eq_refl). set_solver.
  - intros [u|e] _; [apply IH|done].
Qed.

(** C11: a retention sweep never removes the newest run of a test, whatever the
    policy and wherever it is cut short by a failure or the end of its context. *)
Theorem Sweep_keeps_newest alive policy w r :
  runs_keyed w.(w_db) → newest w.(w_db) r →
  newest (run (Sweep alive policy) w).2.(w_db) r.
Proof.
  intros Hkeyed Hr.
  assert (prog_ok (keeps r) (Sweep alive policy) (λ _, True)) as Hok.
  { unfold Sweep. eapply prog_ok_bind; [by apply (prog_ok_call _ _ (λ _, True))|]. intros now _.
    eapply prog_ok_bind; [apply sweep_batches_keeps|]. intros [total i] _.
    eapply (prog_ok_bind _ _ _ (λ _, True)); [|done]. case_match; [|done]. destruct (alive i); [|done].
    eapply prog_ok_bind; [apply prog_ok_call, delete_jobs_keeps|done]. }
  by destruct (prog_ok_run _ _ _ w Hok (conj Hkeyed Hr)) as [[_ ?] _].
Qed.

End proofs.

(** *** Storage first, then the rows *)
Section storage_first.
Context `{St : Storage} `{!StorageLaws St}.

(** Objects only disappear. *)
Definition only_removes (w w' : world) : Prop :=
  ∀ k, w'.(w_blobs) !! k = w.(w_blobs) !! k ∨ w'.(w_blobs) !! k = None.
(** The objects of one run: its prefix, and its log if that lies elsewhere. *)
Definition object_of (e : ExpiredRun.t) (k : string) : Prop :=
  HasPrefix k (run_prefix e) = true ∨ (k = e.(ExpiredRun.LogURL) ∧ k ≠ "").
Definition gone (e : ExpiredRun.t) (w : world) : Prop := ∀ k, object_of e k → w.(w_blobs) !! k = None.

Lemma only_removes_trans w1 w2 w3 : only_removes w1 w2 → only_removes w2 w3 → only_removes w1 w3.
Proof. intros H1 H2 k. destruct (H2 k) as [->|]; auto. Qed.
Lemma gone_mono e w w' : only_removes w w' → gone e w → gone e w'.
Proof. intros H Hg k Hk. destruct (H k) as [->|]; auto. Qed.

Lemma delete_prefix_effect p w :
  let '(r, w') := run (DeletePrefix p) w in
  only_removes w w' ∧ (∀ k, HasPrefix k p = false → w'.(w_blobs) !! k = w.(w_blobs) !! k) ∧
  (is_ok r = true → ∀ k, HasPrefix k p = true → w'.(w_blobs) !! k = None).
Proof.
  pose proof (delete_prefix_run p w) as Hp. destruct (run (DeletePrefix p) w) as [[u|er] w1]; simpl.
  - split; [|split].
    + intros k. rewrite Hp. destruct (HasPrefix k p); auto.
    + intros k Hk. by rewrite Hp, Hk.
    + intros _ k Hk. by rewrite Hp, Hk.
  - split; [|split; [|done]].
    + intros k. destruct (Hp k) as [|[]]; auto.
    + intros k Hk. destruct (Hp k) as [|[Hu _]]; [done|]. unfold under in Hu. congruence.
Qed.

Lemma delete_object_effect k0 w :
  let '(r, w') := run (DeleteObject k0) w in
  only_removes w w' ∧ (∀ k, k ≠ k0 → w'.(w_blobs) !! k = w.(w_blobs) !! k) ∧
  (is_ok r = true → w'.(w_blobs) !! k0 = None).
Proof.
  pose proof (delete_object_run k0 w) as Ho. assert (∀ b, b = delete k0 w.(w_blobs) → (∀ k, b !! k = w.(w_blobs) !! k ∨ b !! k = None) ∧
    ∀ k, k ≠ k0 → b !! k = w.(w_blobs) !! k) as Hdel.
  { intros b ->. split; [|intros k Hk; by rewrite lookup_delete_ne].
    intros k. destruct (decide (k = k0)) as [->|?]; [rewrite lookup_delete_eq; auto|].
    rewrite lookup_delete_ne by done. auto. }
  destruct (run (DeleteObject k0) w) as [[u|er] w1]; unfold only_removes.
  - destruct (Hdel _ Ho). split; [done|]. split; [done|]. intros _. rewrite Ho. apply lookup_delete_eq.
  - destruct Ho as [->|Ho]; [split; [by left|by split]|]. destruct (Hdel _ Ho). by split.
Qed.

Lemma deleteStorage_run e w :
  let '(r, w') := run (deleteStorage e) w in
  storage_step w w' ∧ only_removes w w' ∧
  (∀ k, ¬ object_of e k → w'.(w_blobs) !! k = w.(w_blobs) !! k) ∧
  (is_ok r = true → gone e w').
Proof.
  assert (storage_step w (run (deleteStorage e) w).2) as Hstep.
  { apply storage_run_step. intros. by apply deleteStorage_ok. }
  unfold deleteStorage, gone, object_of in *. rewrite run_bind in *.
  pose proof (delete_prefix_effect (run_prefix e) w) as Hp.
  destruct (run (DeletePrefix (run_prefix e)) w) as [[u|er] w1]; destruct Hp as (Hp1 & Hp2 & Hp3).
  2:{ split; [done|]. split; [done|]. split; [|done].
      intros k Hk. apply Hp2. destruct (HasPrefix k _); [|done]. destruct Hk; auto. }
  specialize (Hp3 eq_refl). destruct (_ && _) eqn:E.
  - apply andb_true_iff in E as [E _]. apply negb_true_iff, bool_decide_eq_false in E.
    pose proof (delete_object_effect (ExpiredRun.LogURL e) w1) as Ho.
    destruct (run (DeleteObject _) w1) as [r w2]; destruct Ho as (Ho1 & Ho2 & Ho3).
    split; [done|]. split; [by eapply only_removes_trans|]. split.
    + intros k Hk. rewrite Ho2 by (intros ->; destruct Hk; auto). apply Hp2.
      destruct (HasPrefix k _); [|done]. destruct Hk; auto.
    + intros Hr k [Hk|[-> _]]; [|by apply Ho3]. destruct (Ho1 k) as [->|]; auto.
  - split; [done|]. split; [done|]. split.
    + intros k Hk. apply Hp2. destruct (HasPrefix k _); [|done]. destruct Hk; auto.
    + intros _ k [Hk|[-> Hne]]; [by apply Hp3|]. apply Hp3.
      apply andb_false_iff in E as [E|E]; apply negb_false_iff in E; [|done].
      by apply bool_decide_eq_true in E.
Qed.

Lemma delete_files_run l w :
  let '(ok, w') := run (delete_files l) w in
  storage_step w w' ∧ only_removes w w' ∧
  (∀ k, (∀ e, e ∈ l → ¬ object_of e k) → w'.(w_blobs) !! k = w.(w_blobs) !! k) ∧
  ok `sublist_of` (ExpiredRun.RunID <$> l) ∧
  (∀ id, id ∈ ok → ∃ e, e ∈ l ∧ e.(ExpiredRun.RunID) = id ∧ gone e w').
Proof.
  revert w. induction l as [|e l IH]; intros w; cbn [delete_files].
  { split; [apply storage_step_refl|]. split; [by left|]. split; [done|]. split; [done|set_solver]. }
  rewrite run_bind. pose proof (deleteStorage_run e w) as He.
  destruct (run (deleteStorage e) w) as [r w1]; destruct He as (Hs1 & Ho1 & Hf1 & Hg1).
  rewrite run_bind. specialize (IH w1). destruct (run (delete_files l) w1) as [ok w2].
  destruct IH as (Hs2 & Ho2 & Hf2 & Hsub & Hg2). rewrite run_ret.
  split; [by eapply storage_step_trans|]. split; [by eapply only_removes_trans|]. split; [|split].
  - intros k Hk. rewrite Hf2 by set_solver. apply Hf1. set_solver.
  - destruct (is_ok r); simpl; [by apply sublist_skip|by apply sublist_cons].
  - destruct (is_ok r); intros id.
    + intros [->|Hid]%elem_of_cons; [exists e|].
      * split; [left|]. split; [done|]. eapply gone_mono; [done|]. by apply Hg1.
      * destruct (Hg2 id Hid) as (e' & ? & ? & ?). exists e'. split; [by right|done].
    + intros Hid. destruct (Hg2 id Hid) as (e' & ? & ? & ?). exists e'. split; [by right|done].
Qed.

(** What a sweep may do: some runs are gone, each with its objects; [n] rows. *)
Record swept (w w' : world) (n : nat) : Prop := {
  sw_keyed : runs_keyed w'.(w_db);
  sw_blobs : only_removes w w';
  sw_rows : ∀ k r, w.(w_db).(d_runs) !! k = Some r →
    w'.(w_db).(d_runs) !! k = Some r ∨
    (w'.(w_db).(d_runs) !! k = None ∧
     gone (ExpiredRun.mk r.(TestRun.UUID) r.(TestRun.TestID) r.(TestRun.LogURL)) w');
  sw_no_new : ∀ k, w.(w_db).(d_runs) !! k = None → w'.(w_db).(d_runs) !! k = None;
  sw_count : size w.(w_db).(d_runs) = size w'.(w_db).(d_runs) + n;
  sw_tests : d_tests w'.(w_db) = w.(w_db).(d_tests)
}.

Lemma swept_refl w w' :
  runs_keyed w.(w_db) → only_removes w w' → w'.(w_db) = w.(w_db) → swept w w' 0.
Proof. intros Hk Ho Hd. split; rewrite ?Hd; auto. Qed.

Lemma swept_trans w1 w2 w3 n m : swept w1 w2 n → swept w2 w3 m → swept w1 w3 (n + m).
Proof.
  intros [] []. split; [done|by eapply only_removes_trans| |auto|lia|congruence].
  intros k r Hk. destruct (sw_rows0 k r Hk) as [H|[H Hg]].
  - by apply sw_rows1.
  - right. split; [auto|]. by eapply gone_mono.
Qed.

Lemma storage_step_db w w' : storage_step w w' → w'.(w_db) = w.(w_db).
Proof. by intros (b & f & h & ->). Qed.

(** One batch: the runs that were listed, their objects, then the rows. *)
Lemma batch_swept w maxRuns cutoff l w1 ok w2 u w3 :
  runs_keyed w.(w_db) →
  RetentionRepo.ListExpiredRuns maxRuns cutoff batchSize w = (Ok l, w1) →
  run (delete_files l) w1 = (ok, w2) → ok ≠ [] →
  RetentionRepo.DeleteRuns ok w2 = (Ok u, w3) →
  swept w w3 (length ok) ∧ length ok ≤ batchSize.
Proof.
  intros Hkeyed Hl Hf Hne Hd.
  pose proof (ListExpiredRuns_run maxRuns cutoff batchSize w) as HL. rewrite Hl in HL.
  destruct HL as ([fs ->] & Hlen & Hin).
  pose proof (ListExpiredRuns_NoDup maxRuns cutoff batchSize w l Hkeyed ltac:(by rewrite Hl)) as Hnd.
  pose proof (delete_files_run l (with_faults fs w)) as HF. rewrite Hf in HF.
  destruct HF as (Hstep%storage_step_db & Hrem & _ & Hsub & Hgone).
  pose proof (DeleteRuns_run ok w2) as HD. rewrite Hd in HD. destruct HD as [fs3 [->|[? _]]]; [|done].
  cbn [with_faults w_db] in Hstep.
  assert (length ok ≤ batchSize) as Hle.
  { apply sublist_length in Hsub. rewrite length_fmap in Hsub. lia. }
  split; [|done].
  assert (∀ id, id ∈ ok → ∃ r, d_runs (w_db w) !! id = Some r ∧
    gone (ExpiredRun.mk r.(TestRun.UUID) r.(TestRun.TestID) r.(TestRun.LogURL)) w2) as Hok.
  { intros id Hid. destruct (Hgone id Hid) as (e & He & <- & Hg).
    destruct (Hin e He) as (k & r & Hk & _ & ->). simpl. exists r.
    split; [by rewrite (Hkeyed k r Hk : r.(TestRun.UUID) = k)|done]. }
  split; cbn [with_db with_faults w_db w_blobs]; rewrite ?Hstep.
  - intros k r. rewrite delete_runs_lookup. destruct (d_runs (w_db w) !! k) as [x|] eqn:E; simpl; [|done].
    case_match; [done|]. intros [= <-]. by apply (Hkeyed k x).
  - exact Hrem.
  - intros k r Hk. rewrite delete_runs_lookup, Hk. simpl. case_bool_decide as Hx; [right|by left].
    split; [done|]. destruct (Hok _ Hx) as (r' & Hr' & Hg).
    rewrite (Hkeyed k r Hk : r.(TestRun.UUID) = k) in Hr'. by simplify_eq.
  - intros k Hk. by rewrite delete_runs_lookup, Hk.
  - apply delete_runs_size; [done|by eapply sublist_NoDup|].
    intros id Hid. destruct (Hok id Hid) as (r & Hr & _). by eexists.
  - done.
Qed.

Lemma sweep_batches_run n alive i policy cutoff total w :
  runs_keyed w.(w_db) →
  let '((total', i'), w') := run (sweep_batches n alive i policy cutoff total) w in
  ∃ m, total' = total + m ∧ m ≤ n * batchSize ∧ swept w w' m.
Proof.
  revert i total w. induction n as [|n IH]; intros i total w Hkeyed; cbn [sweep_batches].
  { exists 0. split; [lia|]. split; [lia|]. apply swept_refl; [done|by left|done]. }
  destruct (negb (alive i)).
  { exists 0. split; [lia|]. split; [lia|]. apply swept_refl; [done|by left|done]. }
  rewrite run_call_bind.
  pose proof (ListExpiredRuns_run policy.(Policy.MaxRunsPerTest) cutoff batchSize w) as HL.
  destruct (RetentionRepo.ListExpiredRuns _ _ _ w) as [[l|e] w1] eqn:El.
  2:{ destruct HL as [fs ->]. exists 0. split; [lia|]. split; [lia|].
      apply swept_refl; [done|by left|done]. }
  destruct HL as ([fs Hw1] & _).
  case_decide as Hl.
  { subst w1. exists 0. split; [lia|]. split; [lia|]. apply swept_refl; [done|by left|done]. }
  rewrite run_bind. pose proof (delete_files_run l w1) as HF.
  destruct (run (delete_files l) w1) as [ok w2] eqn:Ef. destruct HF as (Hs & Hrem & _).
  assert (only_removes w w2) as Hrem' by (by subst w1).
  assert (w_db w2 = w_db w) as Hdb by (apply storage_step_db in Hs; by subst w1).
  case_decide as Hok.
  { exists 0. split; [lia|]. split; [lia|]. by apply swept_refl. }
  rewrite run_call_bind. pose proof (DeleteRuns_run ok w2) as HD.
  destruct (RetentionRepo.DeleteRuns ok w2) as [[u|e] w3] eqn:Ed.
  2:{ destruct HD as [fs3 ->]. exists 0. split; [lia|]. split; [lia|]. by apply swept_refl. }
  destruct (batch_swept _ _ _ _ _ _ _ _ _ Hkeyed El Ef Hok Ed) as [Hsw Hlen].
  specialize (IH (S i) (total + length ok) w3 (sw_keyed _ _ _ Hsw)).
  destruct (run (sweep_batches n alive (S i) policy cutoff (total + length ok)) w3) as [[total' i'] w'].
  destruct IH as (m & -> & Hm & Hsw'). exists (length ok + m). split; [lia|]. split; [unfold batchSize in *; lia|].
  by eapply swept_trans.
Qed.

(** A whole sweep, over a store that keeps the whole contract. *)
Lemma Sweep_run alive policy w :
  runs_keyed w.(w_db) →
  let '(n, w') := run (Sweep alive policy) w in
  n ≤ 25 * 200 ∧
  size w.(w_db).(d_runs) = size w'.(w_db).(d_runs) + n ∧
  (∀ k r, w.(w_db).(d_runs) !! k = Some r →
    w'.(w_db).(d_runs) !! k = Some r ∨
    (w'.(w_db).(d_runs) !! k = None ∧
     (∀ o, HasPrefix o (r.(TestRun.TestID) +:+ "/log/" +:+ r.(TestRun.UUID) +:+ "/") = true →
        w'.(w_blobs) !! o = None) ∧
     (r.(TestRun.LogURL) ≠ "" → w'.(w_blobs) !! r.(TestRun.LogURL) = None))) ∧
  (∀ k, w.(w_db).(d_runs) !! k = None → w'.(w_db).(d_runs) !! k = None) ∧
  (∀ o, w'.(w_blobs) !! o = w.(w_blobs) !! o ∨ w'.(w_blobs) !! o = None).
Proof.
  intros Hkeyed. unfold Sweep. rewrite run_call_bind. cbn [Now gets]. rewrite run_bind.
  set (cutoff := if _ : bool then _ else _).
  pose proof (sweep_batches_run maxBatches alive 0 policy cutoff 0 w Hkeyed) as H.
  unfold Now, gets. simpl fst in *.
  destruct (run (sweep_batches _ _ _ _ _ _) w) as [[total i] w1]. destruct H as (m & -> & Hm & Hsw).
  rewrite run_bind.
  match goal with |- context [run ?p w1] => set (jobs := p) end.
  assert (w_blobs (run jobs w1).2 = w_blobs w1 ∧ d_runs (w_db (run jobs w1).2) = d_runs (w_db w1)) as [Hb Hr].
  { unfold jobs. destruct cutoff as [c|]; [|done]. destruct (alive i); [|done].
    rewrite run_call_bind. unfold RetentionRepo.DeleteFinishedJobsBefore. sql_cases; done. }
  destruct (run jobs w1) as [u w2]. simpl in Hb, Hr. rewrite run_ret. destruct Hsw.
  rewrite Hb, Hr. simpl. split; [exact Hm|]. split; [done|]. split; [|split; [|done]].
  - intros k r Hk. destruct (sw_rows0 k r Hk) as [?|[? Hg]]; [auto|right].
    split; [done|]. split; [intros o Ho; apply Hg; by left|intros Hu; apply Hg; by right].
  - done.
Qed.
End storage_first.
