(* ===== verification/Handler.v ===== *)
(** * Package handler (src/handler, and the routes of src/main.go)

    One definition per HTTP handler, from the request to the response, with
    every call it makes as an atomic action. *)

From S2P Require Import Prelude.
From S2P Require Import Prog.
From S2P Require Import GoStrings.
From S2P Require Import Strconv.
From S2P Require Import Model.
From S2P Require Import World.
From S2P Require Import Config.
From S2P Require Import Http.
From S2P Require Import Auth.
From S2P Require Import Alert.
From S2P Require Import TestRepo.
From S2P Require Import JobRepo.
From S2P Require Import RunRepo.
From S2P Require Import Secrets.
From S2P Require Import Paths.
From S2P Require Import Runtime.
From S2P Require Import Storage.
From S2P Require Import Scheduler.

(** ** Request bodies *)

(** [RunRequest], [StopRequest] and [DeleteTestRequest]: one string. *)
Definition decode_one (field : string) (b : Body.t) : option string :=
  decode_struct [(field, plain as_string (λ s _, s))] "" b.

Module EnvVarRequest.
Record t := mk { Name : string; Value : string; IsSecret : bool }.
Definition zero := mk "" "" false.
Definition fields : list (string * (json → t → option t)) := [
  ("name", plain as_string (λ s r, mk s r.(Value) r.(IsSecret)));
  ("value", plain as_string (λ s r, mk r.(Name) s r.(IsSecret)));
  ("is_secret", plain as_bool (λ b r, mk r.(Name) r.(Value) b)) ].
End EnvVarRequest.

Module UpdateTestConfigRequest.
Record t := mk {
  Command : option string;
  TimeoutSeconds : option Z;
  Cron : option string;
  ScheduleEnabled : option bool;
  WebhookURL : option string;
  PagerDutyKey : option string;
  FailureThreshold : option Z;
  AlertsEnabled : option bool;
  DockerMemoryMB : option Z;
  DockerCPUs : option spec_float;
  DockerNetworkEnabled : option bool
}.
Definition zero := mk None None None None None None None None None None None.
Definition fields : list (string * (json → t → option t)) := [
  ("command", pointer as_string (λ v '(mk _ b c d e f g h i j k), mk v b c d e f g h i j k));
  ("timeout_seconds", pointer as_int (λ v '(mk a _ c d e f g h i j k), mk a v c d e f g h i j k));
  ("cron", pointer as_string (λ v '(mk a b _ d e f g h i j k), mk a b v d e f g h i j k));
  ("schedule_enabled", pointer as_bool (λ v '(mk a b c _ e f g h i j k), mk a b c v e f g h i j k));
  ("webhook_url", pointer as_string (λ v '(mk a b c d _ f g h i j k), mk a b c d v f g h i j k));
  ("pagerduty_routing_key", pointer as_string (λ v '(mk a b c d e _ g h i j k), mk a b c d e v g h i j k));
  ("failure_threshold", pointer as_int (λ v '(mk a b c d e f _ h i j k), mk a b c d e f v h i j k));
  ("alerts_enabled", pointer as_bool (λ v '(mk a b c d e f g _ i j k), mk a b c d e f g v i j k));
  ("docker_memory_mb", pointer as_int (λ v '(mk a b c d e f g h _ j k), mk a b c d e f g h v j k));
  ("docker_cpus", pointer as_float (λ v '(mk a b c d e f g h i _ k), mk a b c d e f g h i v k));
  ("docker_network_enabled", pointer as_bool (λ v '(mk a b c d e f g h i j _), mk a b c d e f g h i j v)) ].
End UpdateTestConfigRequest.

(** ** Validation *)

Definition is_alnum (c : ascii) : bool :=
  let n := nat_of_ascii c in
  bool_decide (97 ≤ n ∧ n ≤ 122) || bool_decide (65 ≤ n ∧ n ≤ 90) || bool_decide (48 ≤ n ∧ n ≤ 57).

Definition validatePagerDutyKey (key : string) : res unit :=
  if decide (key = "") then Ok tt
  else if negb (len key =? 32)%Z
  then Err (Errorf "pagerduty_routing_key must be a 32-character Events API v2 integration key")
  else if negb (all_bytes is_alnum key)
  then Err (Errorf "pagerduty_routing_key must contain only letters and digits")
  else Ok tt.

(** The fields of a test that [UpdateConfig] writes back. *)
Definition config_of (t : Test.t) (enabled : bool) (next : option Z) : TestConfigUpdate.t :=
  {| TestConfigUpdate.Command := t.(Test.Command);
     TestConfigUpdate.TimeoutSeconds := t.(Test.TimeoutSeconds);
     TestConfigUpdate.ScheduleCron := t.(Test.ScheduleCron);
     TestConfigUpdate.ScheduleEnabled := enabled;
     TestConfigUpdate.NextRunAt := next;
     TestConfigUpdate.WebhookURL := t.(Test.WebhookURL);
     TestConfigUpdate.PagerDutyKey := t.(Test.PagerDutyKey);
     TestConfigUpdate.FailureThreshold := t.(Test.FailureThreshold);
     TestConfigUpdate.AlertsEnabled := t.(Test.AlertsEnabled);
     TestConfigUpdate.DockerMemoryMB := t.(Test.DockerMemoryMB);
     TestConfigUpdate.DockerCPUs := t.(Test.DockerCPUs);
     TestConfigUpdate.DockerNetworkEnabled := t.(Test.DockerNetworkEnabled) |}.

(** [if cond { jsonResponse(400, msg); return }] *)
Definition reject_if (cond : bool) (msg : string) : res unit :=
  if cond then Err (Errorf msg) else Ok tt.

Section handlers.
Context `{Ext} `{Storage}.
Variable config : Config.t.
Variable box : Box.
Variable requireAuth : handler → handler.
(** [hl.scheduler != nil] *)
Variable has_scheduler : bool.

(** The request's changes to a test, and the checks on them, in the order of
    the code; [NextRunAt] is set by the caller. *)
Definition patch_config (test : Test.t) (req : UpdateTestConfigRequest.t)
    : res TestConfigUpdate.t :=
  timeout ← (match req.(UpdateTestConfigRequest.TimeoutSeconds) with
    | None => Ok test.(Test.TimeoutSeconds)
    | Some n =>
        _ ← reject_if (n <=? 0)%Z "timeout_seconds must be positive";
        _ ← reject_if (config.(Config.MaxTimeoutSeconds) <? n)%Z
              ("timeout_seconds exceeds maximum limit (" +:+
               Itoa config.(Config.MaxTimeoutSeconds) +:+ ")");
        Ok n
    end);
  let cron := match req.(UpdateTestConfigRequest.Cron) with
              | Some c => TrimSpace c | None => test.(Test.ScheduleCron) end in
  let enabled := default test.(Test.ScheduleEnabled) req.(UpdateTestConfigRequest.ScheduleEnabled) in
  let webhook :=
    match req.(UpdateTestConfigRequest.WebhookURL) with
    | Some u => if decide (u = MaskWebhook ext_url_Parse test.(Test.WebhookURL))
                then test.(Test.WebhookURL) else TrimSpace u
    | None => test.(Test.WebhookURL)
    end in
  pdkey ← (match req.(UpdateTestConfigRequest.PagerDutyKey) with
    | Some k =>
        if decide (k = MaskKey test.(Test.PagerDutyKey)) then Ok test.(Test.PagerDutyKey)
        else _ ← validatePagerDutyKey (TrimSpace k); Ok (TrimSpace k)
    | None => Ok test.(Test.PagerDutyKey)
    end);
  threshold ← (match req.(UpdateTestConfigRequest.FailureThreshold) with
    | Some n => _ ← reject_if (n <=? 0)%Z "failure_threshold must be positive"; Ok n
    | None => Ok test.(Test.FailureThreshold)
    end);
  memory ← (match req.(UpdateTestConfigRequest.DockerMemoryMB) with
    | Some n =>
        _ ← reject_if (n <? 0)%Z "docker_memory_mb must be non-negative";
        _ ← reject_if (config.(Config.MaxDockerMemoryMB) <? n)%Z
              "docker_memory_mb exceeds maximum limit";
        Ok (Some n)
    | None => Ok test.(Test.DockerMemoryMB)
    end);
  cpus ← (match req.(UpdateTestConfigRequest.DockerCPUs) with
    | Some x =>
        _ ← reject_if (flt x f0) "docker_cpus must be non-negative";
        _ ← reject_if (flt config.(Config.MaxDockerCPUs) x) "docker_cpus exceeds maximum limit";
        Ok (Some x)
    | None => Ok test.(Test.DockerCPUs)
    end);
  let network := match req.(UpdateTestConfigRequest.DockerNetworkEnabled) with
                 | Some b => Some b | None => test.(Test.DockerNetworkEnabled) end in
  let threshold := if (threshold <=? 0)%Z then 3%Z else threshold in
  _ ← reject_if (enabled && bool_decide (cron = "")) "cron is required when schedule is enabled";
  Ok {| TestConfigUpdate.Command := default test.(Test.Command) req.(UpdateTestConfigRequest.Command);
        TestConfigUpdate.TimeoutSeconds := timeout;
        TestConfigUpdate.ScheduleCron := cron;
        TestConfigUpdate.ScheduleEnabled := enabled;
        TestConfigUpdate.NextRunAt := None;
        TestConfigUpdate.WebhookURL := webhook;
        TestConfigUpdate.PagerDutyKey := pdkey;
        TestConfigUpdate.FailureThreshold := threshold;
        TestConfigUpdate.AlertsEnabled := default test.(Test.AlertsEnabled) req.(UpdateTestConfigRequest.AlertsEnabled);
        TestConfigUpdate.DockerMemoryMB := memory;
        TestConfigUpdate.DockerCPUs := cpus;
        TestConfigUpdate.DockerNetworkEnabled := network |}.

Definition with_next_run (cfg : TestConfigUpdate.t) (next : option Z) : TestConfigUpdate.t :=
  let '(TestConfigUpdate.mk a b c d _ f g h i j k l) := cfg in
  TestConfigUpdate.mk a b c d next f g h i j k l.

(** A cron must parse even when the schedule is off. *)
Definition next_run_for (cfg : TestConfigUpdate.t) (now : Z) : res (option Z) :=
  if decide (cfg.(TestConfigUpdate.ScheduleCron) = "") then Ok None
  else
    match NextRun cfg.(TestConfigUpdate.ScheduleCron) now with
    | Err _ => Err (Errorf "invalid cron expression")
    | Ok next => Ok (if cfg.(TestConfigUpdate.ScheduleEnabled) then Some next else None)
    end.

(** UpdateConfig, then the test as it is now stored. *)
Definition save_config (testID : string) (cfg : TestConfigUpdate.t) (failed reload : string)
    : prog world Response.t :=
  try _ := call (TestRepo.UpdateConfig testID cfg) else fail StatusInternalServerError failed in
  try updated := call (TestRepo.GetByID testID) else fail StatusInternalServerError reload in
  mret (jsonResponse StatusOK (test_json updated)).

Definition updateTestConfig (testID : string) : handler := λ r,
  if negb (bool_decide (r.(Request.Method) ∈ ["PATCH"; "PUT"]))
  then fail StatusMethodNotAllowed "PATCH or PUT only"
  else
    match decode_struct UpdateTestConfigRequest.fields UpdateTestConfigRequest.zero r.(Request.Body) with
    | None => fail StatusBadRequest "invalid JSON body"
    | Some req =>
        try test := call (TestRepo.GetByID testID) else fail StatusNotFound "test not found" in
        match patch_config test req with
        | Err e => fail StatusBadRequest (Error e)
        | Ok cfg =>
            now ← call Now;
            match next_run_for cfg now with
            | Err e => fail StatusBadRequest (Error e)
            | Ok next =>
                save_config testID (with_next_run cfg next)
                  "failed to update test config" "failed to load updated test"
            end
        end
    end.

(** ** schedule_control.go, the first two *)

Definition enableSchedule (testID : string) : handler := λ r,
  if negb (bool_decide (r.(Request.Method) = "POST")) then fail StatusMethodNotAllowed "POST only"
  else
    try test := call (TestRepo.GetByID testID) else fail StatusNotFound "test not found" in
    if decide (test.(Test.ScheduleCron) = "") then
      fail StatusBadRequest "cron is required before enabling schedule — set cron on upload or PATCH /tests/{id}/config"
    else
      now ← call Now;
      match NextRun test.(Test.ScheduleCron) now with
      | Err _ => fail StatusBadRequest "invalid cron expression"
      | Ok next => save_config testID (config_of test true (Some next))
                     "failed to enable schedule" "failed to load test"
      end.

Definition disableSchedule (testID : string) : handler := λ r,
  if negb (bool_decide (r.(Request.Method) = "POST")) then fail StatusMethodNotAllowed "POST only"
  else
    try test := call (TestRepo.GetByID testID) else fail StatusNotFound "test not found" in
    save_config testID (config_of test false None) "failed to disable schedule" "failed to load test".

(** ** stop.go *)

(** The loop over the active jobs: how many commands were killed. *)
Fixpoint cancel_running (jobs : list Job.t) (killed : nat) : prog world nat :=
  match jobs with
  | [] => mret killed
  | j :: jobs =>
      if decide (j.(Job.Status) = "running") then
        ok ← Cancel j.(Job.UUID);
        cancel_running jobs (if ok : bool then S killed else killed)
      else cancel_running jobs killed
  end.

Definition Stop : handler := λ r,
  if negb (bool_decide (r.(Request.Method) = "POST")) then fail StatusMethodNotAllowed "POST only"
  else
    match decode_one "testid" r.(Request.Body) with
    | None => fail StatusBadRequest "invalid request body"
    | Some TestId =>
        if decide (TestId = "") then fail StatusBadRequest "testId is required"
        else
          try _ := call (TestRepo.GetByID TestId) else fail StatusNotFound "test not found" in
          try active := call (Queue.ListActiveForTest TestId)
            else fail StatusInternalServerError "failed to list active jobs" in
          killed ← cancel_running active 0;
          try cancelled := call (Queue.CancelActiveForTest TestId "stopped by user")
            else fail StatusInternalServerError "failed to cancel jobs" in
          mret (jsonResponse StatusOK (StopResult cancelled killed))
    end.

Definition scheduler_handler (method msg : string) (body : prog world Response.t) : handler := λ r,
  if negb (bool_decide (r.(Request.Method) = method)) then fail StatusMethodNotAllowed msg
  else if negb has_scheduler then fail StatusInternalServerError "scheduler not configured"
  else body.

Definition SchedulerStatus : handler := scheduler_handler "GET" "GET only" (
  paused ← call IsPaused; mret (jsonResponse StatusOK (PausedFlag paused))).
Definition SchedulerStop : handler := scheduler_handler "POST" "POST only" (
  _ ← call Pause; mret (jsonResponse StatusOK (Fields [("status", "paused")]))).
Definition SchedulerStart : handler := scheduler_handler "POST" "POST only" (
  _ ← call Resume; mret (jsonResponse StatusOK (Fields [("status", "running")]))).

(** ** delete.go *)

(** The logs outside the test's prefix, each once. *)
Fixpoint delete_logs (prefix : string) (seen : gset string) (runs : list TestRun.t)
    : prog world unit :=
  match runs with
  | [] => mret tt
  | run :: runs =>
      let url := run.(TestRun.LogURL) in
      if bool_decide (url = "") || HasPrefix url prefix || bool_decide (url ∈ seen)
      then delete_logs prefix seen runs
      else _ ← DeleteObject url; delete_logs prefix ({[url]} ∪ seen) runs
  end.

(** What a deleted test leaves in the bucket; failures are only logged. *)
Definition delete_objects (test : Test.t) (runs : list TestRun.t) : prog world unit :=
  let prefix := test.(Test.UUID) +:+ "/" in
  _ ← DeletePrefix prefix;
  _ ← (if negb (bool_decide (test.(Test.ArtifactKey) = "")) &&
          negb (HasPrefix test.(Test.ArtifactKey) prefix)
       then DeleteObject test.(Test.ArtifactKey) else mret (Ok tt));
  delete_logs prefix ∅ runs.

Definition deleteTest (testID : string) : handler := λ r,
  if negb (bool_decide (r.(Request.Method) = "DELETE")) then fail StatusMethodNotAllowed "DELETE only"
  else
    match decode_one "confirm" r.(Request.Body) with
    | None => fail StatusBadRequest "invalid JSON body"
    | Some Confirm =>
        if negb (bool_decide (Confirm = "delete"))
        then fail StatusBadRequest ("type " +:+ String "034" "delete" +:+ String "034" " in confirm to proceed")
        else
          try test := call (TestRepo.GetByID testID) else fail StatusNotFound "test not found" in
          try runs := call (TestRunRepo.ListByTestID testID)
            else fail StatusInternalServerError "failed to list runs" in
          try active := call (Queue.ListActiveForTest testID)
            else fail StatusInternalServerError "failed to list active jobs" in
          _ ← cancel_running active 0;
          try _ := call (Queue.CancelActiveForTest testID "test deleted")
            else fail StatusInternalServerError "failed to cancel active jobs" in
          res ← call (TestRepo.Delete testID);
          match res with
          | Err e =>
              if Is e ErrNoRows then fail StatusNotFound "test not found"
              else fail StatusInternalServerError "failed to delete test"
          | Ok _ =>
              _ ← delete_objects test runs;
              mret (jsonResponse StatusOK (Fields [("message", "test and associated data deleted")]))
          end
    end.
End handlers.

(** ** Lemmas and theorems *)

Lemma reject_if_ok cond msg u : reject_if cond msg = Ok u ↔ cond = false.
Proof. unfold reject_if. destruct cond, u; naive_solver. Qed.

Lemma validatePagerDutyKey_ok key u :
  validatePagerDutyKey key = Ok u ↔
  key = "" ∨ (String.length key = 32 ∧ all_bytes is_alnum key = true).
Proof.
  unfold validatePagerDutyKey. destruct u. case_decide as Hk; [naive_solver|].
  unfold len. destruct (Z.of_nat (String.length key) =? 32)%Z eqn:El; simpl; reflect_bools.
  - destruct (all_bytes is_alnum key); simpl; [|naive_solver].
    split; [|done]. intros _. right. split; [lia|done].
  - split; [done|]. intros [?|[? _]]; [done|lia].
Qed.

Section validation.
Context `{E : Ext}.
Variable config : Config.t.

(** What an accepted patch satisfies, field by field. *)
Lemma patch_config_ok test req cfg :
  patch_config config test req = Ok cfg →
  (cfg.(TestConfigUpdate.TimeoutSeconds) =
     default test.(Test.TimeoutSeconds) req.(UpdateTestConfigRequest.TimeoutSeconds) ∧
   ∀ n, req.(UpdateTestConfigRequest.TimeoutSeconds) = Some n →
     (0 < n ≤ config.(Config.MaxTimeoutSeconds))%Z) ∧
  (cfg.(TestConfigUpdate.DockerMemoryMB) =
     (if req.(UpdateTestConfigRequest.DockerMemoryMB) is Some n then Some n else test.(Test.DockerMemoryMB)) ∧
   ∀ n, req.(UpdateTestConfigRequest.DockerMemoryMB) = Some n →
     (0 ≤ n ≤ config.(Config.MaxDockerMemoryMB))%Z) ∧
  (cfg.(TestConfigUpdate.DockerCPUs) =
     (if req.(UpdateTestConfigRequest.DockerCPUs) is Some x then Some x else test.(Test.DockerCPUs)) ∧
   ∀ x, req.(UpdateTestConfigRequest.DockerCPUs) = Some x →
     flt x f0 = false ∧ flt config.(Config.MaxDockerCPUs) x = false) ∧
  (0 < cfg.(TestConfigUpdate.FailureThreshold))%Z ∧
  (cfg.(TestConfigUpdate.ScheduleEnabled) = true → cfg.(TestConfigUpdate.ScheduleCron) ≠ "") ∧
  (cfg.(TestConfigUpdate.PagerDutyKey) = test.(Test.PagerDutyKey) ∨
   is_ok (validatePagerDutyKey cfg.(TestConfigUpdate.PagerDutyKey)) = true) ∧
  (req.(UpdateTestConfigRequest.WebhookURL) = Some (MaskWebhook ext_url_Parse test.(Test.WebhookURL)) →
   cfg.(TestConfigUpdate.WebhookURL) = test.(Test.WebhookURL)) ∧
  (req.(UpdateTestConfigRequest.PagerDutyKey) = Some (MaskKey test.(Test.PagerDutyKey)) →
   cfg.(TestConfigUpdate.PagerDutyKey) = test.(Test.PagerDutyKey)) ∧
  cfg.(TestConfigUpdate.NextRunAt) = None.
Proof.
  unfold patch_config.
  intros (timeout & Hto & H)%res_bind_ok. cbv zeta in H.
  apply res_bind_ok in H as (pdkey & Hpd & H).
  apply res_bind_ok in H as (threshold & Hth & H).
  apply res_bind_ok in H as (memory & Hmem & H).
  apply res_bind_ok in H as (cpus & Hcpu & H). cbv zeta in H.
  apply res_bind_ok in H as (u & Hen & H). apply reject_if_ok in Hen.
  injection H as <-.
  cbn [TestConfigUpdate.TimeoutSeconds TestConfigUpdate.DockerMemoryMB TestConfigUpdate.DockerCPUs
    TestConfigUpdate.FailureThreshold TestConfigUpdate.ScheduleEnabled TestConfigUpdate.ScheduleCron
    TestConfigUpdate.PagerDutyKey TestConfigUpdate.WebhookURL TestConfigUpdate.NextRunAt].
  split; [|split; [|split; [|split; [|split; [|split; [|split; [|split; [|done]]]]]]]].
  - destruct (UpdateTestConfigRequest.TimeoutSeconds req) as [n|]; [|by injection Hto as <-].
    apply res_bind_ok in Hto as (? & H1%reject_if_ok & Hto).
    apply res_bind_ok in Hto as (? & H2%reject_if_ok & [= <-]). reflect_bools.
    split; [done|]. intros ? [= <-]. lia.
  - destruct (UpdateTestConfigRequest.DockerMemoryMB req) as [n|]; [|by injection Hmem as <-].
    apply res_bind_ok in Hmem as (? & H1%reject_if_ok & Hmem).
    apply res_bind_ok in Hmem as (? & H2%reject_if_ok & [= <-]). reflect_bools.
    split; [done|]. intros ? [= <-]. lia.
  - destruct (UpdateTestConfigRequest.DockerCPUs req) as [x|]; [|by injection Hcpu as <-].
    apply res_bind_ok in Hcpu as (? & H1%reject_if_ok & Hcpu).
    apply res_bind_ok in Hcpu as (? & H2%reject_if_ok & [= <-]).
    split; [done|]. by intros ? [= <-].
  - destruct (threshold <=? 0)%Z eqn:Et; reflect_bools; lia.
  - intros Ht Hc. rewrite Ht, Hc in Hen. done.
  - destruct (UpdateTestConfigRequest.PagerDutyKey req) as [k|]; [|injection Hpd as <-; by left].
    case_decide; [injection Hpd as <-; by left|].
    apply res_bind_ok in Hpd as ([] & Hv & [= <-]). right. by rewrite Hv.
  - intros ->. by rewrite decide_True.
  - intros Hk. rewrite Hk in Hpd. rewrite decide_True in Hpd by done. by injection Hpd as <-.
Qed.

Lemma next_run_for_schedule cfg now next :
  (cfg.(TestConfigUpdate.ScheduleEnabled) = true → cfg.(TestConfigUpdate.ScheduleCron) ≠ "") →
  next_run_for cfg now = Ok next →
  cfg.(TestConfigUpdate.ScheduleEnabled) = true →
  cfg.(TestConfigUpdate.ScheduleCron) ≠ "" ∧ is_Some next.
Proof.
  intros Hs. unfold next_run_for. case_decide as Hc; [intros [= <-] He; by destruct (Hs He)|].
  destruct (NextRun _ _); [|done]. intros [= <-] He. rewrite He. eauto.
Qed.

(** C33: a configuration is only accepted within the server's limits: a timeout
    that is set lies between 1 and the maximum, memory between 0 and the maximum,
    the failure threshold is positive, an enabled schedule has a cron expression,
    and a new PagerDuty key is empty or 32 letters and digits. *)
Theorem patch_config_within_limits test req cfg :
  patch_config config test req = Ok cfg →
  (∀ n, req.(UpdateTestConfigRequest.TimeoutSeconds) = Some n →
     (0 < cfg.(TestConfigUpdate.TimeoutSeconds) ≤ config.(Config.MaxTimeoutSeconds))%Z) ∧
  (∀ n, req.(UpdateTestConfigRequest.DockerMemoryMB) = Some n →
     ∃ m, cfg.(TestConfigUpdate.DockerMemoryMB) = Some m ∧ (0 ≤ m ≤ config.(Config.MaxDockerMemoryMB))%Z) ∧
  (0 < cfg.(TestConfigUpdate.FailureThreshold))%Z ∧
  (cfg.(TestConfigUpdate.ScheduleEnabled) = true → cfg.(TestConfigUpdate.ScheduleCron) ≠ "") ∧
  (let key := cfg.(TestConfigUpdate.PagerDutyKey) in
   key = test.(Test.PagerDutyKey) ∨ key = "" ∨
   (String.length key = 32 ∧ all_bytes is_alnum key = true)).
Proof.
  intros (Hto & Hm & _ & Hth & Hs & Hpd & _)%patch_config_ok.
  split; [|split; [|split; [|split]]]; [| |done..|].
  - intros n Hn. destruct Hto as [-> Hto]. rewrite Hn. by apply Hto.
  - intros n Hn. destruct Hm as [-> Hm]. rewrite Hn. eauto.
  - destruct Hpd as [?|Hpd]; [by left|right].
    destruct (validatePagerDutyKey _) as [u|] eqn:Ev; [|done]. by apply validatePagerDutyKey_ok in Ev.
Qed.

(** C34: reads mask the two credentials, and sending a mask back changes nothing:
    a patch whose credentials are those of [MarshalJSON] keeps the stored ones. *)
Theorem masked_credentials_unchanged test req cfg :
  let shown := MarshalJSON ext_url_Parse test in
  patch_config config test req = Ok cfg →
  req.(UpdateTestConfigRequest.WebhookURL) = Some shown.(Test.WebhookURL) →
  req.(UpdateTestConfigRequest.PagerDutyKey) = Some shown.(Test.PagerDutyKey) →
  cfg.(TestConfigUpdate.WebhookURL) = test.(Test.WebhookURL) ∧
  cfg.(TestConfigUpdate.PagerDutyKey) = test.(Test.PagerDutyKey).
Proof.
  intros shown (_ & _ & _ & _ & _ & _ & Hw & Hk & _)%patch_config_ok Hw' Hk'. auto.
Qed.
End validation.
