(* ===== verification/Endpoints.v ===== *)
(** * Package handler, continued, and the routes of src/main.go

    Environment variables, listings, runs, uploads and screenshots; then the
    router of [handler.Tests] and the table of routes. *)

From S2P Require Import Prelude.
From S2P Require Import Prog.
From S2P Require Import GoStrings.
From S2P Require Import Strconv.
From S2P Require Import Model.
From S2P Require Import World.
From S2P Require Import Config.
From S2P Require Import Http.
From S2P Require Import Auth.
From S2P Require Import TestRepo.
From S2P Require Import JobRepo.
From S2P Require Import RunRepo.
From S2P Require Import Secrets.
From S2P Require Import Paths.
From S2P Require Import Runtime.
From S2P Require Import Storage.
From S2P Require Import Scheduler.
From S2P Require Import Handler.

(** [len(path) == i+4 || path[i+4] == '/'] *)
Definition ends_segment (rest : string) : bool :=
  bool_decide (rest = "") || HasPrefix rest "/".

(** The test and the rest of /tests/{id}/env...: [strings.Index] finds the first
    "/env", which must not be at the start and must end a segment. *)
Definition env_path (path : string) : option (string * string) :=
  match Index path "/env" with
  | Some i =>
      let rest := str_drop (i + 4) path in
      if decide (0 < i) then
        if ends_segment rest then Some (str_take i path, rest) else None
      else None
  | None => None
  end.

(** The test ID before a suffix. *)
Definition before_suffix (path suffix : string) : string :=
  TrimSuffix (TrimSuffix path suffix) "/".

(** [ServeMux] passes only clean paths on; it looks at the escaped form. *)
Definition cleanPath (p : string) : string :=
  if decide (p = "") then "/"
  else
    let p := if HasPrefix p "/" then p else "/" +:+ p in
    let np := Clean p in
    if HasSuffix p "/" && negb (bool_decide (np = "/")) then np +:+ "/" else np.

(** The mebibyte limits of an upload. *)
Definition maxFileSize : Z := Z.shiftl 10 20.
Definition maxBundleSize : Z := Z.shiftl 200 20.

(** What [UploadBinary] reads from the form. *)
Module Upload.
Record t := mk {
  runtime : string;
  command : string;
  cron : string;
  webhookURL : string;
  pagerDutyKey : string;
  failureThreshold : Z;
  dockerMemoryMB : option Z;
  dockerCPUs : option spec_float;
  dockerNetworkEnabled : option bool;
  displayName : string;
  timeout : Z
}.
End Upload.

(** The size limit by runtime and file name, or why the file is refused. *)
Definition size_limit (runtime filename : string) : res Z :=
  let lowerName := ToLower filename in
  if decide (runtime = "playwright") then
    if HasSuffix lowerName ".zip" then Ok maxBundleSize
    else Err (Errorf "playwright runtime requires a .zip project bundle")
  else if decide (runtime = "locust") then
    if HasSuffix lowerName ".zip" then Ok maxBundleSize
    else if HasSuffix lowerName ".py" then Ok maxFileSize
    else Err (Errorf "locust runtime requires a locustfile (.py) or a .zip bundle with locustfile.py at its root")
  else Ok maxFileSize.

Section endpoints.
Context `{Ext} `{Storage}.
Variable config : Config.t.
Variable box : Box.
Variable requireAuth : handler → handler.
Variable has_scheduler : bool.

(** ** env.go *)

(** Secrets are write-only. *)
Definition hide_secret (v : EnvVar.t) : EnvVar.t :=
  if v.(EnvVar.IsSecret)
  then EnvVar.mk v.(EnvVar.Name) "" v.(EnvVar.IsSecret) v.(EnvVar.UpdatedAt) else v.

Definition listEnv (testID : string) : prog world Response.t :=
  try vars := call (EnvRepo.List testID)
    else fail StatusInternalServerError "failed to list environment" in
  mret (jsonResponse StatusOK (EnvList (hide_secret <$> vars) (Secrets.Enabled box))).

Definition save_env (testID : string) (v : EnvVar.t) : prog world Response.t :=
  r ← call (EnvRepo.Upsert testID v MaxVars);
  match r with
  | Err e =>
      if Is e ErrTooManyEnvVars
      then fail StatusBadRequest "too many environment variables (max 50)"
      else fail StatusInternalServerError "failed to save variable"
  | Ok _ => mret (jsonResponse StatusOK (EnvSaved v.(EnvVar.Name) v.(EnvVar.IsSecret)))
  end.

(** [http.MaxBytesReader(w, r.Body, 16*1024)] *)
Definition decode_env_var (b : Body.t) : option EnvVarRequest.t :=
  if (16 * 1024 <? b.(Body.End))%Z then None
  else decode_struct EnvVarRequest.fields EnvVarRequest.zero b.

Definition putEnv (testID : string) : handler := λ r,
  match decode_env_var r.(Request.Body) with
  | None => fail StatusBadRequest "invalid JSON body"
  | Some req =>
      let name := TrimSpace req.(EnvVarRequest.Name) in
      match ValidateName name with
      | Err e => fail StatusBadRequest (Error e)
      | Ok _ =>
          match ValidateValue req.(EnvVarRequest.Value) with
          | Err e => fail StatusBadRequest (Error e)
          | Ok _ =>
              if req.(EnvVarRequest.IsSecret) then
                if negb (Secrets.Enabled box)
                then fail StatusServiceUnavailable "secrets are disabled: SECRETS_KEY is not configured on the server"
                else
                  try enc := call (Encrypt box req.(EnvVarRequest.Value))
                    else fail StatusInternalServerError "failed to encrypt secret" in
                  save_env testID (EnvVar.mk name enc true 0)
              else save_env testID (EnvVar.mk name req.(EnvVarRequest.Value) false 0)
          end
      end
  end.

Definition deleteEnv (testID name : string) : prog world Response.t :=
  r ← call (EnvRepo.Delete testID name);
  match r with
  | Err e =>
      if Is e ErrNoRows then fail StatusNotFound "variable not found"
      else fail StatusInternalServerError "failed to delete variable"
  | Ok _ => mret (jsonResponse StatusOK (Fields [("message", "deleted")]))
  end.

Definition envRoutes (testID rest : string) : handler := λ r,
  try _ := call (TestRepo.GetByID testID) else fail StatusNotFound "test not found" in
  let name := TrimByte "/" rest in
  let method := r.(Request.Method) in
  if bool_decide (name = "") && bool_decide (method = "GET") then listEnv testID
  else if bool_decide (name = "") && bool_decide (method ∈ ["PUT"; "POST"]) then putEnv testID r
  else if negb (bool_decide (name = "")) && bool_decide (method = "DELETE") then deleteEnv testID name
  else fail StatusMethodNotAllowed "method not allowed".

(** ** handler.go: reads *)

Definition IsHealth : handler := λ _,
  mret (jsonResponse StatusOK (Fields [("status", "ok")])).

Definition JobStatus : handler := λ r,
  let jobID := TrimByte "/" (TrimPrefix (Request.Path r) "/status/") in
  if decide (jobID = "") then fail StatusBadRequest "job ID is missing"
  else
    try job := call (Queue.GetStatus jobID) else fail StatusNotFound "job not found" in
    mret (jsonResponse StatusOK (JobJSON job)).

Definition listTests : prog world Response.t :=
  try items := call TestRepo.ListWithLastRun
    else fail StatusInternalServerError "failed to list tests" in
  mret (jsonResponse StatusOK (test_list_json items)).

Definition listTestRuns (testID : string) : prog world Response.t :=
  try _ := call (TestRepo.GetByID testID) else fail StatusNotFound "test not found" in
  try runs := call (TestRunRepo.ListByTestID testID)
    else fail StatusInternalServerError "failed to list runs" in
  mret (jsonResponse StatusOK (run_list_json runs)).

Definition RunRoutes : handler := λ r,
  if negb (bool_decide (r.(Request.Method) = "GET")) then fail StatusMethodNotAllowed "GET only"
  else
    let path := TrimByte "/" (TrimPrefix (Request.Path r) "/runs/") in
    if negb (HasSuffix path "/log") then fail StatusNotFound "not found"
    else
      let runID := before_suffix path "/log" in
      if decide (runID = "") then fail StatusBadRequest "run ID is missing"
      else
        try run := call (TestRunRepo.GetByID runID) else fail StatusNotFound "run not found" in
        if decide (run.(TestRun.LogURL) = "") then mret (Response.mk StatusOK NoContent)
        else
          try log := DownloadBlob run.(TestRun.LogURL)
            else fail StatusInternalServerError "failed to load log" in
          mret (Response.mk StatusOK (Content log)).

Definition ListScreenshots : handler := λ r,
  let runID := str_drop (String.length "/screenshots/") (Request.Path r) in
  if decide (runID = "") then fail StatusBadRequest "run_id required"
  else
    try screenshots := call (ScreenshotRepo.ListByRunID runID)
      else fail StatusInternalServerError "failed to list screenshots" in
    mret (jsonResponse StatusOK (ScreenshotList screenshots)).

Definition DownloadScreenshot : handler := λ r,
  let screenshotID := str_drop (String.length "/screenshot/") (Request.Path r) in
  if decide (screenshotID = "") then fail StatusBadRequest "screenshot_id required"
  else
    try s := call (ScreenshotRepo.GetByUUID screenshotID)
      else fail StatusNotFound "screenshot not found" in
    try image := DownloadBlob s.(Screenshot.StorageKey)
      else fail StatusInternalServerError "failed to download screenshot" in
    mret (Response.mk StatusOK (Content image)).

(** ** handler.go: Run and UploadBinary *)

Definition Run : handler := λ r,
  if negb (bool_decide (r.(Request.Method) = "POST")) then fail StatusMethodNotAllowed "POST only"
  else
    match decode_one "testid" r.(Request.Body) with
    | None => fail StatusBadRequest "invalid request body"
    | Some TestId =>
        if decide (TestId = "") then fail StatusBadRequest "Test UUID is missing"
        else
          _ ← call NewString;                                   (* request_id *)
          try testRes := call (TestRepo.GetByID TestId)
            else fail StatusNotFound "Request Test Id not found" in
          try job := call (Queue.Enqueue testRes.(Test.UUID) TriggerManual)
            else fail StatusInternalServerError "failed to enqueue job" in
          mret (jsonResponse StatusAccepted (Fields [
            ("job_id", job.(Job.UUID)); ("status", "queued"); ("message", "job queued for execution") ]))
    end.

(** The form's fields and the checks on them, in the order of the code. *)
Definition parse_form (f : Form.t) : res Upload.t :=
  let field k := Form.FormValue f k in
  let trimmed k := TrimSpace (field k) in
  _ ← validatePagerDutyKey (trimmed "pagerduty_routing_key");
  threshold ← (if decide (trimmed "failure_threshold" = "") then Ok 3%Z
    else match Atoi (trimmed "failure_threshold") with
         | Some v => if (v <=? 0)%Z then Err (Errorf "failure_threshold must be a positive integer") else Ok v
         | None => Err (Errorf "failure_threshold must be a positive integer")
         end);
  memory ← (if decide (trimmed "docker_memory_mb" = "") then Ok None
    else match Atoi (trimmed "docker_memory_mb") with
         | Some v =>
             _ ← reject_if (v <? 0)%Z "docker_memory_mb must be a non-negative integer";
             _ ← reject_if (config.(Config.MaxDockerMemoryMB) <? v)%Z "docker_memory_mb exceeds maximum limit";
             Ok (Some v)
         | None => Err (Errorf "docker_memory_mb must be a non-negative integer")
         end);
  cpus ← (if decide (trimmed "docker_cpus" = "") then Ok None
    else match ParseFloat (trimmed "docker_cpus") with
         | Some v =>
             _ ← reject_if (flt v f0) "docker_cpus must be a non-negative number";
             _ ← reject_if (flt config.(Config.MaxDockerCPUs) v) "docker_cpus exceeds maximum limit";
             Ok (Some v)
         | None => Err (Errorf "docker_cpus must be a non-negative number")
         end);
  let network := if decide (trimmed "docker_network_enabled" = "") then None
                 else Some (bool_decide (trimmed "docker_network_enabled" = "true")) in
  timeout ← (if decide (trimmed "timeout" = "") then Ok 30%Z
    else match Atoi (trimmed "timeout") with
         | Some v =>
             _ ← reject_if (v <=? 0)%Z "timeout must be a positive integer (seconds)";
             _ ← reject_if (config.(Config.MaxTimeoutSeconds) <? v)%Z
                   ("timeout exceeds maximum limit (" +:+ Itoa config.(Config.MaxTimeoutSeconds) +:+ ")");
             Ok v
         | None => Err (Errorf "timeout must be a positive integer (seconds)")
         end);
  _ ← reject_if (bool_decide (field "runtime" = "")) "runtime is required";
  Ok {| Upload.runtime := field "runtime";
        Upload.command := field "command";
        Upload.cron := trimmed "cron";
        Upload.webhookURL := trimmed "webhook_url";
        Upload.pagerDutyKey := trimmed "pagerduty_routing_key";
        Upload.failureThreshold := threshold;
        Upload.dockerMemoryMB := memory;
        Upload.dockerCPUs := cpus;
        Upload.dockerNetworkEnabled := network;
        Upload.displayName := trimmed "name";
        Upload.timeout := timeout |}.

Definition new_test (u : Upload.t) (fileName original artifact : string) (next : option Z) : Test.t :=
  {| Test.UUID := fileName;
     Test.Name := if decide (u.(Upload.displayName) = "") then original else u.(Upload.displayName);
     Test.OriginalFilename := original;
     Test.Runtime := u.(Upload.runtime);
     Test.Command := u.(Upload.command);
     Test.ArtifactKey := artifact;
     Test.TimeoutSeconds := u.(Upload.timeout);
     Test.ScheduleCron := match next with Some _ => u.(Upload.cron) | None => "" end;
     Test.ScheduleEnabled := match next with Some _ => true | None => false end;
     Test.NextRunAt := next;
     Test.WebhookURL := u.(Upload.webhookURL);
     Test.PagerDutyKey := u.(Upload.pagerDutyKey);
     Test.FailureThreshold := u.(Upload.failureThreshold);
     Test.ConsecutiveFailures := 0;
     Test.AlertActive := false;
     Test.AlertsEnabled := true;
     Test.CreatedAt := zero_time;
     Test.DockerMemoryMB := u.(Upload.dockerMemoryMB);
     Test.DockerCPUs := u.(Upload.dockerCPUs);
     Test.DockerNetworkEnabled := u.(Upload.dockerNetworkEnabled) |}.

(** From the stored artifact on. *)
Definition create_test (u : Upload.t) (fileName original dst : string) : prog world Response.t :=
  now ← call Now;
  match (if decide (u.(Upload.cron) = "") then Ok None
         else (λ n, Some n) <$> NextRun u.(Upload.cron) now) with
  | Err _ => fail StatusBadRequest "invalid cron expression"
  | Ok next =>
      try _ := call (TestRepo.Create (new_test u fileName original dst next))
        else fail StatusInternalServerError "binary uploaded failed" in
      mret (jsonResponse StatusOK (Fields [("id", fileName); ("message", "binary uploaded successfully")]))
  end.

Definition UploadBinary : handler := λ r,
  _ ← call NewString;                                           (* request_id *)
  if negb (bool_decide (r.(Request.Method) = "POST")) then fail StatusMethodNotAllowed "POST only accepted"
  else
    match r.(Request.Multipart) with
    | None => fail StatusBadRequest "invalid multipart form"
    | Some form =>
        match parse_form form with
        | Err e => fail StatusBadRequest (Error e)
        | Ok u =>
            match form.(Form.Binary) with
            | None => fail StatusBadRequest "binary file is required"
            | Some file =>
                match size_limit u.(Upload.runtime) file.(FileHeader.Filename) with
                | Err e => fail StatusBadRequest (Error e)
                | Ok limit =>
                    if (limit <=? FileHeader.Size file)%Z
                    then fail StatusRequestEntityTooLarge "file too large"
                    else
                      fileName ← call NewString;
                      try dst := UploadArtifact fileName file.(FileHeader.Content)
                        else fail StatusInternalServerError "failed to create file" in
                      create_test u fileName file.(FileHeader.Filename) dst
                end
            end
        end
    end.

(** ** The router of /tests *)

Definition with_test_id (testID : string) (h : string → handler) : handler := λ r,
  if decide (testID = "") then fail StatusBadRequest "test ID is missing" else h testID r.

Definition test_routes (path : string) : handler := λ r,
  match env_path path with
  | Some (testID, rest) => requireAuth (envRoutes testID rest) r
  | None =>
      if HasSuffix path "/schedule/start"
      then with_test_id (before_suffix path "/schedule/start") enableSchedule r
      else if HasSuffix path "/schedule/stop"
      then with_test_id (before_suffix path "/schedule/stop") disableSchedule r
      else if HasSuffix path "/runs"
      then with_test_id (before_suffix path "/runs") (λ testID r,
             if negb (bool_decide (r.(Request.Method) = "GET"))
             then fail StatusMethodNotAllowed "GET only" else listTestRuns testID) r
      else if HasSuffix path "/config"
      then with_test_id (before_suffix path "/config") (updateTestConfig config) r
      else if decide (r.(Request.Method) = "DELETE") then deleteTest path r
      else if negb (bool_decide (r.(Request.Method) = "GET"))
      then fail StatusMethodNotAllowed "GET, PATCH /tests/{id}/config, or DELETE /tests/{id}"
      else
        try test := call (TestRepo.GetByID path) else fail StatusNotFound "test not found" in
        mret (jsonResponse StatusOK (test_json test))
  end.

Definition Tests : handler := λ r,
  if bool_decide ((Request.Path r) ∈ ["/tests"; "/tests/"]) then
    if negb (bool_decide (r.(Request.Method) = "GET")) then fail StatusMethodNotAllowed "GET only"
    else listTests
  else
    let path := TrimByte "/" (TrimPrefix (Request.Path r) "/tests/") in
    if decide (path = "") then fail StatusBadRequest "test ID is missing"
    else test_routes path r.
End endpoints.

(** ** main.go: the routes, before authentication; a pattern that ends in a
    slash serves every path below it.  [None] is a path of no API route, see
    [not_api]. *)
Section routes.
Context `{Ext} `{Storage}.
Variable config : Config.t.
Variable box : Box.
Variable verifier : option Verifier.t.

Definition api_routes : list (string * handler) := [
  ("/health", IsHealth);
  ("/uploadBinary", UploadBinary config);
  ("/run", Run);
  ("/stop", Stop);
  ("/scheduler/status", SchedulerStatus true);
  ("/scheduler/stop", SchedulerStop true);
  ("/scheduler/start", SchedulerStart true);
  ("/tests", Tests config box (Require verifier));
  ("/tests/", Tests config box (Require verifier));
  ("/runs/", RunRoutes);
  ("/status/", JobStatus);
  ("/screenshots/", ListScreenshots);
  ("/screenshot/", DownloadScreenshot) ].

(** The segments of a path, each of them unescaped; the first is before the
    slash.  A pattern that ends in a slash matches the paths that go on there.  No
    two patterns match the same path, so the order does not matter. *)
Definition segments (path : string) : list string := PathUnescape <$> SplitByte "/" path.

Definition matches (pattern path : string) : bool :=
  let pat := SplitByte "/" pattern in
  if HasSuffix pattern "/"
  then bool_decide (take (length pat - 1) (segments path) = take (length pat - 1) pat) &&
       bool_decide (length pat ≤ length (segments path))
  else bool_decide (segments path = pat).

(** Paths that are not clean are redirected, except with CONNECT. *)
Definition routed (r : Request.t) : bool :=
  bool_decide (r.(Request.Method) = "CONNECT") ||
  bool_decide (cleanPath r.(Request.EscapedPath) = r.(Request.EscapedPath)).

Definition route (r : Request.t) : option handler :=
  if negb (routed r) then None
  else
    (λ p, p.2) <$> head (filter (λ p, matches p.1 r.(Request.EscapedPath) = true) api_routes).

(** serveHTML; [ReadFile] finds every embedded name. *)
Definition serveHTML (name : string) : Response.t :=
  Response.mk StatusOK (Content (ext_embedded ("web/" +:+ name))).

(** web.Register: three patterns with the method GET, which also match HEAD.
    The router takes "/" for the segment of "/{$}". *)
Definition page (r : Request.t) : Response.t :=
  let path := r.(Request.EscapedPath) in
  let root := bool_decide (segments path ∈ [[""]; [""; ""]; [""; "/"]]) in
  if negb (root || matches "/app" path || matches "/app/" path) then Response.mk StatusNotFound NoContent
  else if negb (bool_decide (r.(Request.Method) ∈ ["GET"; "HEAD"])) then Response.mk StatusMethodNotAllowed NoContent
  else if root then serveHTML "index.html"
  else if matches "/app" path then serveHTML "product.html"
  else Response.mk StatusMovedPermanently (Redirect "/app").

(** The patterns that end in a slash and are not registered without it. *)
Definition subtree_roots : list string := ["/runs"; "/status"; "/screenshots"; "/screenshot"].

(** What is not for the API.  net/http redirects to a subtree's slash and to the
    clean path (except with CONNECT), which it escapes once more, with status 307
    since Go 1.26; the rest are pages.  Its own answers have a fixed text,
    [NoContent] here. *)
Definition not_api (r : Request.t) : Response.t :=
  let escaped := r.(Request.EscapedPath) in
  let path := if decide (r.(Request.Method) = "CONNECT") then escaped else cleanPath escaped in
  if existsb (λ p, matches p path) subtree_roots
  then Response.mk StatusTemporaryRedirect (Redirect (escape_path (cleanPath (Request.Path r) +:+ "/")))
  else if decide (path ≠ escaped) then Response.mk StatusTemporaryRedirect (Redirect (escape_path path))
  else page r.

(** A request to the server; API routes have the wrapper every route has. *)
Definition serve (r : Request.t) : prog world Response.t :=
  if routed r && matches "/auth/config" r.(Request.EscapedPath) then PublicConfig verifier r
  else
    match route r with
    | Some h => RequireWrites verifier h r
    | None => mret (not_api r)
    end.
End routes.

Example matches_examples :
  (λ p, (matches "/tests" p, matches "/tests/" p)) <$> ["/tests"; "/tests/"; "/test%73/a%2Fb"; "/tests%2Fa"; "/testsa"] =
  [(true, false); (false, true); (false, true); (false, false); (false, false)].
Proof. reflexivity. Qed.

(** ** Lemmas: the router and the path the handlers see *)

Lemma unescape_cons c s :
  PathUnescape (String c s) =
  match s with
  | String a (String b s2) =>
      match unhex a, unhex b with
      | Some x, Some y =>
          if decide (c = "%"%char) then String (ascii_of_nat (16 * x + y)) (PathUnescape s2)
          else String c (PathUnescape s)
      | _, _ => String c (PathUnescape s)
      end
  | _ => String c (PathUnescape s)
  end.
Proof. by destruct s as [|a [|b s]]. Qed.

Lemma PathUnescape_slash s t :
  PathUnescape (s +:+ "/" +:+ t) = PathUnescape s +:+ "/" +:+ PathUnescape t.
Proof.
  induction s as [s IH] using (induction_ltof1 _ String.length).
  destruct s as [|c [|a [|b s]]]; rewrite ?app_cons, ?app_nil.
  - rewrite unescape_cons. destruct t as [|a [|b t]]; [done..|].
    destruct (unhex a), (unhex b); [|done..]. by rewrite decide_False.
  - pose proof (IH "" ltac:(unfold ltof; simpl; lia)) as H1. rewrite !app_cons, !app_nil in H1.
    rewrite !(unescape_cons c), H1. by destruct t.
  - pose proof (IH (String a "") ltac:(unfold ltof; simpl; lia)) as H1. rewrite !app_cons, !app_nil in H1.
    rewrite !(unescape_cons c), H1. by destruct (unhex a).
  - pose proof (IH (String a (String b s)) ltac:(unfold ltof; simpl; lia)) as H1.
    pose proof (IH s ltac:(unfold ltof; simpl; lia)) as H2.
    rewrite !app_cons, ?app_nil in *. rewrite !(unescape_cons c), H1, H2.
    destruct (unhex a), (unhex b); try done. by case_decide.
Qed.

Lemma Join_SplitByte s : Join (SplitByte "/" s) "/" = s.
Proof.
  induction s as [|d s IH]; [done|]. simpl. pose proof (SplitByte_nonnil "/" s) as Hne.
  case_decide as Hd.
  - subst d. rewrite Join_cons by done. by rewrite IH.
  - destruct (SplitByte "/" s) as [|w [|w2 l]]; [done|by subst..].
Qed.

Lemma PathUnescape_Join l : PathUnescape (Join l "/") = Join (PathUnescape <$> l) "/".
Proof.
  induction l as [|s [|s2 l] IH]; [done..|]. rewrite Join_cons by done. rewrite PathUnescape_slash, IH.
  done.
Qed.

Lemma segments_Join path : PathUnescape path = Join (segments path) "/".
Proof. unfold segments. by rewrite <-PathUnescape_Join, Join_SplitByte. Qed.

Lemma Join_app l1 l2 : l1 ≠ [] → l2 ≠ [] → Join (l1 ++ l2) "/" = Join l1 "/" +:+ "/" +:+ Join l2 "/".
Proof.
  intros Hne H2. induction l1 as [|s l1 IH]; [done|]. destruct (decide (l1 = [])) as [->|Hn].
  - cbn [app]. by rewrite Join_cons.
  - rewrite <-app_comm_cons, !Join_cons, IH by (by destruct l1). by rewrite !str_app_assoc.
Qed.

(** A pattern matches the path the handler will see. *)
Lemma matches_path pattern path :
  matches pattern path = true →
  if HasSuffix pattern "/" then HasPrefix (PathUnescape path) pattern = true
  else PathUnescape path = pattern.
Proof.
  unfold matches. rewrite segments_Join. destruct (HasSuffix pattern "/") eqn:Hs.
  - apply HasSuffix_true in Hs as [p ->]. set (l := SplitByte "/" p).
    assert (SplitByte "/" (p +:+ "/") = l ++ [""]) as -> by apply (SplitByte_app p "").
    assert (l ≠ []) as Hl by apply SplitByte_nonnil. rewrite length_app, Nat.add_sub, take_app_length.
    intros [Ht%bool_decide_eq_true Hn%bool_decide_eq_true]%andb_true_iff.
    rewrite <-(take_drop (length l) (segments path)), Ht. rewrite Join_app; [|done|].
    + apply HasPrefix_true. exists (Join (drop (length l) (segments path)) "/").
      unfold l. by rewrite Join_SplitByte, str_app_assoc.
    + intros Hd%(f_equal length). rewrite length_drop in Hd. simpl in *. lia.
  - intros ->%bool_decide_eq_true. apply Join_SplitByte.
Qed.

Lemma route_in `{Ext} `{Storage} config box verifier r h :
  route config box verifier r = Some h →
  ∃ p, matches p r.(Request.EscapedPath) = true ∧ (p, h) ∈ api_routes config box verifier.
Proof.
  unfold route. case_match; [done|].
  destruct (filter _ _) as [|[p h'] l] eqn:Ef; [done|]. intros [= <-]. exists p.
  assert ((p, h') ∈ filter (λ p, matches p.1 r.(Request.EscapedPath) = true) (api_routes config box verifier))
    as Hin by (rewrite Ef; left).
  by apply list_elem_of_filter in Hin.
Qed.
