(* ===== verification/Effects.v ===== *)
(** * What each part of the server may touch

    [part] names the parts of the shared state; [effects ps p] says that
    running [p] changes no part outside [ps], whatever fails on the way.  The
    lemmas give the footprint of every operation, the theorems those of the
    goroutines. *)

From S2P Require Import Prelude.
From S2P Require Import Prog.
From S2P Require Import GoStrings.
From S2P Require Import Model.
From S2P Require Import World.
From S2P Require Import Http.
From S2P Require Import Auth.
From S2P Require Import Alert.
From S2P Require Import TestRepo.
From S2P Require Import JobRepo.
From S2P Require Import RunRepo.
From S2P Require Import Secrets.
From S2P Require Import Paths.
From S2P Require Import Bundle.
From S2P Require Import Runtime.
From S2P Require Import Storage.
From S2P Require Import Screenshots.
From S2P Require Import Worker.
From S2P Require Import Scheduler.
From S2P Require Import Retention.
From S2P Require Import Handler.
From S2P Require Import Endpoints.

Inductive part :=
| PTests | PRuns | PJobs | PShots | PEnv      (* the tables *)
| PBlobs                                      (* the bucket *)
| PFiles                                      (* the file system *)
| PActive                                     (* running commands *)
| PPaused                                     (* the scheduler's flag *)
| PCache                                      (* approved tokens *)
| PDocker.                                    (* the containers that were started *)

#[export] Instance part_eq_dec : EqDecision part.
Proof. solve_decision. Defined.

(** The command lines and environments of the [docker run]s so far. *)
Definition docker_run (e : event) : option (list string * list string) :=
  match e with EvDockerRun args env => Some (args, env) | _ => None end.
Definition dockers (w : world) : list (list string * list string) := omap docker_run w.(w_events).

Definition same (p : part) (w w' : world) : Prop :=
  match p with
  | PTests => w'.(w_db).(d_tests) = w.(w_db).(d_tests)
  | PRuns => w'.(w_db).(d_runs) = w.(w_db).(d_runs)
  | PJobs => w'.(w_db).(d_jobs) = w.(w_db).(d_jobs)
  | PShots => w'.(w_db).(d_shots) = w.(w_db).(d_shots)
  | PEnv => w'.(w_db).(d_env) = w.(w_db).(d_env)
  | PBlobs => w'.(w_blobs) = w.(w_blobs)
  | PFiles => w'.(w_fs) = w.(w_fs)
  | PActive => w'.(w_active) = w.(w_active)
  | PPaused => w'.(w_paused) = w.(w_paused)
  | PCache => w'.(w_cache) = w.(w_cache)
  | PDocker => dockers w' = dockers w
  end.

Definition touches (ps : list part) (w w' : world) : Prop := ∀ p, p ∉ ps → same p w w'.
Definition effects {A} (ps : list part) (p : prog world A) : Prop :=
  ∀ w, touches ps w (run p w).2.
Definition act_effects {A} (ps : list part) (m : act A) : Prop :=
  ∀ w, touches ps w (m w).2.

(** [p] is one of [ps]; closed instances compute. *)
Definition may (p : part) (ps : list part) : bool := bool_decide (p ∈ ps).

Create HintDb effects.

(** ** The rules *)

Lemma touches_refl ps w : touches ps w w.
Proof. by intros [] _. Qed.

Lemma touches_trans ps w1 w2 w3 : touches ps w1 w2 → touches ps w2 w3 → touches ps w1 w3.
Proof. intros H1 H2 p Hp. specialize (H1 p Hp). specialize (H2 p Hp). destruct p; simpl in *; congruence. Qed.

Lemma effects_ret {A} ps (a : A) : effects ps (mret a).
Proof. intros w. apply touches_refl. Qed.

Lemma effects_call {A} ps (m : act A) : act_effects ps m → effects ps (call m).
Proof. intros H w. rewrite run_call. apply H. Qed.

Lemma effects_bind {A B} ps (p : prog world A) (f : A → prog world B) :
  effects ps p → (∀ a, effects ps (f a)) → effects ps (p ≫= f).
Proof.
  intros Hp Hf w. rewrite run_bind. specialize (Hp w). destruct (run p w) as [a w'].
  eapply touches_trans; [exact Hp|apply Hf].
Qed.

Lemma effects_for_each {A} ps (l : list A) (body : A → prog world unit) :
  (∀ x, x ∈ l → effects ps (body x)) → effects ps (for_each l body).
Proof.
  induction l as [|x l IH]; intros H; simpl; [apply effects_ret|].
  apply effects_bind; [apply H; left|]. intros _. apply IH. intros y Hy. apply H. by right.
Qed.

Lemma act_effects_ret {A} ps (a : A) : act_effects ps (mret a).
Proof. intros w. apply touches_refl. Qed.

Lemma act_effects_bind {A B} ps (m : act A) (f : A → act B) :
  act_effects ps m → (∀ a, act_effects ps (f a)) → act_effects ps (m ≫= f).
Proof.
  intros Hm Hf w. unfold mbind, M_bind. specialize (Hm w). destruct (m w) as [a w'].
  eapply touches_trans; [exact Hm|apply Hf].
Qed.

#[export] Hint Resolve touches_refl effects_ret act_effects_ret : effects.

(** Walks through a program; the calls' own footprints come from [effects]. *)
Ltac effects_walk :=
  repeat match goal with
  | |- ∀ _, _ => intro
  | |- effects _ (mret _) => apply effects_ret
  | |- effects _ (fail _ _) => apply effects_ret
  | |- act_effects _ (mret _) => apply act_effects_ret
  | |- effects _ (call _) => apply effects_call
  | |- effects _ (for_each _ _) => apply effects_for_each
  | |- effects _ (match ?x with _ => _ end) => destruct x eqn:?
  | |- act_effects _ (match ?x with _ => _ end) => destruct x eqn:?
  | |- act_effects _ _ => solve [eauto 2 with effects]
  | |- effects _ _ => solve [eauto 2 with effects]
  | |- effects _ (_ ≫= _) => apply effects_bind
  | |- act_effects _ (_ ≫= _) => apply act_effects_bind
  | |- effects _ ?p => progress cbv zeta
  end.

(** ** Statements *)

(** What an SQL statement may change of the tables. *)
Definition db_touches (ps : list part) (d d' : db) : Prop :=
  (may PTests ps = false → d'.(d_tests) = d.(d_tests)) ∧
  (may PRuns ps = false → d'.(d_runs) = d.(d_runs)) ∧
  (may PJobs ps = false → d'.(d_jobs) = d.(d_jobs)) ∧
  (may PShots ps = false → d'.(d_shots) = d.(d_shots)) ∧
  (may PEnv ps = false → d'.(d_env) = d.(d_env)).

Lemma may_false p ps : p ∉ ps → may p ps = false.
Proof. intros H. unfold may. by rewrite bool_decide_eq_false_2. Qed.

Lemma db_touches_refl ps d : db_touches ps d d.
Proof. done. Qed.

(** A change of the world outside the tables, one part at most. *)
Lemma touches_db ps w d fs :
  db_touches ps w.(w_db) d → touches ps w (with_db d (with_faults fs w)).
Proof. intros (H1 & H2 & H3 & H4 & H5) [] Hp%may_false; simpl; auto. Qed.

Lemma sql_effects {A} ps (q : Z → db → res A * db) :
  (∀ now d, db_touches ps d (q now d).2) → act_effects ps (sql q).
Proof.
  intros Hq w. destruct (sql_spec q w) as [(msg & fs & ->)|(fs & ->)]; simpl; [by intros []|].
  by apply touches_db.
Qed.

Lemma query_effects {A} ps (q : db → res A) : act_effects ps (sql_query q).
Proof. by apply sql_effects. Qed.

Lemma transaction_effects {A} ps (body : act (res A)) :
  act_effects ps body → act_effects ps (transaction body).
Proof.
  intros Hb w. unfold transaction.
  set (m := (try _ := sql (λ _ d, (Ok tt, d)) in _)).
  assert (act_effects ps m) as Hm.
  { apply act_effects_bind; [by apply sql_effects|]. intros [u|e]; [|apply act_effects_ret].
    apply act_effects_bind; [done|]. intros [a|e]; [|apply act_effects_ret].
    apply act_effects_bind; [by apply sql_effects|]. intros [?|?]; apply act_effects_ret. }
  specialize (Hm w). destruct (m w) as [[a|e] w']; [done|].
  intros p Hp. specialize (Hm p Hp). by destruct p.
Qed.

#[export] Hint Resolve query_effects transaction_effects : effects.

(** ** Repositories *)
Section repositories.
Context `{Ext}.
Variable ps : list part.

(** Each branch of a statement's effect leaves the other tables alone. *)
Ltac statement :=
  apply sql_effects; intros ? ?; split_and!; repeat case_match; simplify_eq/=; try done; congruence.

Lemma TestRepo_Create_effects t : may PTests ps = true → act_effects ps (TestRepo.Create t).
Proof. intros Hm. apply sql_effects. intros now d. unfold insert_test. split_and!; repeat case_match; try done; congruence. Qed.
Lemma UpdateConfig_effects t c : may PTests ps = true → act_effects ps (TestRepo.UpdateConfig t c).
Proof. intros Hm. unfold TestRepo.UpdateConfig. statement. Qed.
Lemma UpdateNextRunAt_effects t n : may PTests ps = true → act_effects ps (TestRepo.UpdateNextRunAt t n).
Proof. intros Hm. unfold TestRepo.UpdateNextRunAt. statement. Qed.
Lemma RecordRunOutcome_effects t b : may PTests ps = true → act_effects ps (TestRepo.RecordRunOutcome t b).
Proof.
  intros Hm. apply transaction_effects, act_effects_bind; [apply query_effects|].
  intros [r|e]; [|apply act_effects_ret]. destruct (outcome_of b r) as [[c a] out].
  apply act_effects_bind; [statement|]. intros [u|e]; apply act_effects_ret.
Qed.
Lemma Delete_effects t :
  may PTests ps = true → may PRuns ps = true → may PJobs ps = true → may PShots ps = true →
  may PEnv ps = true → act_effects ps (TestRepo.Delete t).
Proof.
  intros. apply transaction_effects, act_effects_bind; [statement|].
  intros [u|e]; [|apply act_effects_ret]. apply act_effects_bind; [statement|].
  intros [u'|e]; [|apply act_effects_ret]. apply act_effects_bind.
  - apply sql_effects. intros now d. unfold TestRepo.delete_test_row. split_and!; case_match; try done; congruence.
  - intros [n|e]; [|apply act_effects_ret]. case_decide; apply act_effects_ret.
Qed.

Lemma JobRepo_Create_effects j : may PJobs ps = true → act_effects ps (JobRepo.Create j).
Proof. intros Hm. unfold JobRepo.Create. statement. Qed.
Lemma Cancel_jobs_effects t r : may PJobs ps = true → act_effects ps (JobRepo.CancelActiveForTest t r).
Proof. intros Hm. unfold JobRepo.CancelActiveForTest. statement. Qed.
Lemma Dequeue_effects wid : may PJobs ps = true → act_effects ps (JobRepo.Dequeue wid).
Proof. intros Hm. unfold JobRepo.Dequeue. statement. Qed.
Lemma UpdateStatus_effects j s m : may PJobs ps = true → act_effects ps (JobRepo.UpdateStatus j s m).
Proof. intros Hm. unfold JobRepo.UpdateStatus. statement. Qed.
Lemma FailStale_effects g : may PJobs ps = true → act_effects ps (JobRepo.FailStale g).
Proof. intros Hm. unfold JobRepo.FailStale. statement. Qed.

Lemma run_Create_effects r : may PRuns ps = true → act_effects ps (TestRunRepo.Create r).
Proof. intros Hm. unfold TestRunRepo.Create. statement. Qed.
Lemma shot_Create_effects s : may PShots ps = true → act_effects ps (ScreenshotRepo.Create s).
Proof. intros Hm. unfold ScreenshotRepo.Create. statement. Qed.

Lemma Upsert_effects t v n : may PEnv ps = true → act_effects ps (EnvRepo.Upsert t v n).
Proof.
  intros Hm. apply transaction_effects, act_effects_bind; [by apply sql_effects|].
  intros [u|e]; [|apply act_effects_ret]. apply act_effects_bind; [apply query_effects|].
  intros [[]|e]; [statement| |apply act_effects_ret].
  apply act_effects_bind; [apply query_effects|]. intros [k|e]; [|apply act_effects_ret].
  case_decide; [apply act_effects_ret|statement].
Qed.
Lemma env_Delete_effects t n : may PEnv ps = true → act_effects ps (EnvRepo.Delete t n).
Proof.
  intros Hm. apply act_effects_bind; [statement|].
  intros [k|e]; [|apply act_effects_ret]. case_decide; apply act_effects_ret.
Qed.

Lemma DeleteRuns_effects ids :
  may PRuns ps = true → may PShots ps = true → act_effects ps (RetentionRepo.DeleteRuns ids).
Proof. intros. unfold RetentionRepo.DeleteRuns. case_decide; [apply act_effects_ret|statement]. Qed.
Lemma DeleteFinishedJobs_effects c :
  may PJobs ps = true → act_effects ps (RetentionRepo.DeleteFinishedJobsBefore c).
Proof. intros Hm. unfold RetentionRepo.DeleteFinishedJobsBefore. statement. Qed.
End repositories.

#[export] Hint Resolve TestRepo_Create_effects UpdateConfig_effects UpdateNextRunAt_effects
  RecordRunOutcome_effects Delete_effects JobRepo_Create_effects Cancel_jobs_effects Dequeue_effects
  UpdateStatus_effects FailStale_effects run_Create_effects shot_Create_effects Upsert_effects
  env_Delete_effects DeleteRuns_effects DeleteFinishedJobs_effects : effects.

(** ** Actions outside the tables *)
Section actions.
Variable ps : list part.

Lemma modify_effects (f : world → world) : (∀ w, touches ps w (f w)) → act_effects ps (modify f).
Proof. intros H w. apply H. Qed.
Lemma gets_effects {A} (f : world → A) : act_effects ps (gets f).
Proof. intros w. apply touches_refl. Qed.
Lemma dockers_snoc e w : docker_run e = None → dockers (with_events (w.(w_events) ++ [e]) w) = dockers w.
Proof. intros He. unfold dockers. simpl. rewrite omap_app. simpl. by rewrite He, app_nil_r. Qed.
Lemma emit_effects e : docker_run e = None → act_effects ps (emit e).
Proof. intros He w []; try done. intros _. by apply dockers_snoc. Qed.
Lemma emit_docker_effects e : may PDocker ps = true → act_effects ps (emit e).
Proof. by intros Hm w [] Hp%may_false; simpl in *; try congruence. Qed.
Lemma next_fault_effects : act_effects ps next_fault.
Proof. intros w. by destruct (next_fault_spec w) as [->|(? & ? & _ & ->)]; intros [] _. Qed.
Lemma http_do_effects r : act_effects ps (http_do r).
Proof.
  intros w. unfold http_do. pose proof (dockers_snoc (EvHttp r) w eq_refl) as Hd. unfold dockers in *.
  by destruct w as [??? ? [|] ? ? ? ? ? ? ?]; intros [] _.
Qed.
Lemma Encrypt_effects `{Ext} b s : act_effects ps (Encrypt b s).
Proof. intros w. destruct b; by intros [] _. Qed.
Lemma NewString_effects `{Ext} : act_effects ps NewString.
Proof. by intros w [] _. Qed.
Lemma Now_effects : act_effects ps Now.
Proof. apply gets_effects. Qed.

Lemma syscall_effects {A} (f : Z → gmap (list string) fnode → res A * gmap (list string) fnode) :
  may PFiles ps = true → act_effects ps (syscall f).
Proof.
  intros Hm w. unfold syscall. destruct (next_fault_spec w) as [->|(fl & fs & _ & ->)].
  - destruct (f _ _). intros [] Hp%may_false; simpl; first [done|congruence].
  - destruct fl; [by intros []|]. destruct (f _ _). intros [] Hp%may_false; simpl; first [done|congruence].
Qed.
(** Reads and calls that change no file. *)
Lemma syscall_read_effects {A} (f : Z → gmap (list string) fnode → res A * gmap (list string) fnode) :
  (∀ now fs, (f now fs).2 = fs) → act_effects ps (syscall f).
Proof.
  intros Hf w. unfold syscall. destruct (next_fault_spec w) as [->|(fl & fs & _ & ->)].
  - specialize (Hf (w_now w) (w_fs w)). destruct (f _ _). simpl in *. subst. by intros [].
  - destruct fl; [by intros []|]. specialize (Hf (w_now w) (w_fs w)).
    cbn [w_now w_fs with_faults] in *. destruct (f _ _). simpl in *. subst. by intros [].
Qed.
Lemma os_RemoveAll_effects `{Ext} p : may PFiles ps = true → act_effects ps (os_RemoveAll p).
Proof.
  intros Hm w. unfold os_RemoveAll. destruct (lresolve _ _); [|apply touches_refl].
  intros [] Hp%may_false; simpl; first [done|congruence].
Qed.
Lemma MkdirTemp_effects d p : may PFiles ps = true → act_effects ps (MkdirTemp d p).
Proof.
  intros Hm w. unfold MkdirTemp. case_match; [apply touches_refl|].
  eapply touches_trans; [|by apply syscall_effects]. by intros [] _.
Qed.

Lemma registerActive_effects j : may PActive ps = true → act_effects ps (registerActive j).
Proof.
  intros Hm. unfold registerActive. case_decide; [apply act_effects_ret|].
  intros w [] Hp%may_false; simpl; first [done|congruence].
Qed.
Lemma unregisterActive_effects j : may PActive ps = true → act_effects ps (unregisterActive j).
Proof.
  intros Hm. unfold unregisterActive. case_decide; [apply act_effects_ret|].
  intros w [] Hp%may_false; simpl; first [done|congruence].
Qed.
Lemma KillContainer_effects n : act_effects ps (KillContainer n).
Proof. unfold KillContainer. case_decide; [apply act_effects_ret|by apply emit_effects]. Qed.
End actions.

#[export] Hint Resolve gets_effects emit_effects emit_docker_effects next_fault_effects http_do_effects Encrypt_effects
  NewString_effects Now_effects os_RemoveAll_effects MkdirTemp_effects registerActive_effects
  unregisterActive_effects KillContainer_effects : effects.
#[export] Hint Extern 1 (docker_run _ = None) => reflexivity : effects.
#[export] Hint Extern 3 (act_effects _ (MkdirAll _)) => apply syscall_effects : effects.
#[export] Hint Extern 3 (act_effects _ (create_file _ _)) => apply syscall_effects : effects.
#[export] Hint Extern 3 (act_effects _ (write_file _ _)) => apply syscall_effects : effects.
#[export] Hint Extern 3 (act_effects _ (os_Remove _)) => apply syscall_effects : effects.
#[export] Hint Extern 3 (act_effects _ (chmod _)) => apply syscall_effects : effects.
#[export] Hint Extern 4 (act_effects _ (syscall _)) => apply syscall_effects : effects.
#[export] Hint Extern 1 (may _ _ = true) => reflexivity : effects.
#[export] Hint Extern 2 (act_effects _ (TestRepo.GetByID _)) => apply query_effects : effects.
#[export] Hint Extern 2 (act_effects _ TestRepo.ListWithLastRun) => apply query_effects : effects.
#[export] Hint Extern 2 (act_effects _ (TestRepo.ListDueScheduled _)) => apply query_effects : effects.
#[export] Hint Extern 2 (act_effects _ (JobRepo.HasActiveJob _)) => apply query_effects : effects.
#[export] Hint Extern 2 (act_effects _ (Queue.ListActiveForTest _)) => apply query_effects : effects.
#[export] Hint Extern 2 (act_effects _ (Queue.GetStatus _)) => apply query_effects : effects.
#[export] Hint Extern 2 (act_effects _ (TestRunRepo.ListByTestID _)) => apply query_effects : effects.
#[export] Hint Extern 2 (act_effects _ (TestRunRepo.GetByID _)) => apply query_effects : effects.
#[export] Hint Extern 2 (act_effects _ (ScreenshotRepo.ListByRunID _)) => apply query_effects : effects.
#[export] Hint Extern 2 (act_effects _ (ScreenshotRepo.GetByUUID _)) => apply query_effects : effects.
#[export] Hint Extern 2 (act_effects _ (EnvRepo.List _)) => apply query_effects : effects.
#[export] Hint Extern 2 (act_effects _ (RetentionRepo.ListExpiredRuns _ _ _)) => apply query_effects : effects.
#[export] Hint Extern 2 (act_effects _ IsPaused) => apply gets_effects : effects.

(** ** Programs *)
Section programs.
Context `{E : Ext} `{St : Storage} `{!StorageFrame St}.
Variable ps : list part.

Lemma Queue_Enqueue_effects t tr : may PJobs ps = true → act_effects ps (Queue.Enqueue t tr).
Proof. intros Hm. unfold Queue.Enqueue. cbv zeta. effects_walk. Qed.
Lemma Queue_Dequeue_effects wid : may PJobs ps = true → act_effects ps (Queue.Dequeue wid).
Proof. intros Hm. unfold Queue.Dequeue. effects_walk. Qed.
Lemma Queue_Complete_effects j s m : may PJobs ps = true → act_effects ps (Queue.Complete j s m).
Proof. intros Hm. unfold Queue.Complete. effects_walk. Qed.
Lemma Queue_Cancel_effects t r : may PJobs ps = true → act_effects ps (Queue.CancelActiveForTest t r).
Proof. apply Cancel_jobs_effects. Qed.
Lemma Queue_FailStale_effects g : may PJobs ps = true → act_effects ps (Queue.FailStale g).
Proof. apply FailStale_effects. Qed.

(** A storage call touches the bucket; a download does not even do that. *)
Lemma storage_effects {A} (p : prog world A) :
  may PBlobs ps = true → (∀ I, storage_insensitive I → prog_ok I p (λ _, True)) → effects ps p.
Proof.
  intros Hm Hp w. destruct (storage_run_step p w Hp) as (b & f & h & ->).
  intros [] Hx%may_false; simpl; first [done|congruence].
Qed.
Lemma DownloadBlob_effects k : effects ps (DownloadBlob k).
Proof.
  intros w. pose proof (download_frame k w) as Hr.
  destruct (storage_run_step (DownloadBlob k) w) as (b & f & h & Hs); [intros; by apply download_ok|].
  rewrite Hs in *. by intros [] _.
Qed.
Lemma UploadArtifact_effects u c : may PBlobs ps = true → effects ps (UploadArtifact u c).
Proof. intros Hm. apply storage_effects; [done|]. intros. by apply upload_artifact_ok. Qed.
Lemma UploadLog_effects u r c : may PBlobs ps = true → effects ps (UploadLog u r c).
Proof. intros Hm. apply storage_effects; [done|]. intros. by apply upload_log_ok. Qed.
Lemma UploadBlob_effects k c : may PBlobs ps = true → effects ps (UploadBlob k c).
Proof. intros Hm. apply storage_effects; [done|]. intros. by apply upload_blob_ok. Qed.
Lemma DeletePrefix_effects k : may PBlobs ps = true → effects ps (DeletePrefix k).
Proof. intros Hm. apply storage_effects; [done|]. intros. by apply delete_prefix_ok. Qed.
Lemma DeleteObject_effects k : may PBlobs ps = true → effects ps (DeleteObject k).
Proof. intros Hm. apply storage_effects; [done|]. intros. by apply delete_object_ok. Qed.

Lemma Cancel_effects j : effects ps (Cancel j).
Proof. unfold Cancel. effects_walk. Qed.
Lemma Execute_effects ds j ws spec timeout :
  may PActive ps = true → may PFiles ps = true → may PDocker ps = true →
  effects ps (Execute ds j ws spec timeout).
Proof.
  intros Ha Hf Hd. unfold Execute. effects_walk.
  - apply modify_effects. intros w [] Hx%may_false; simpl; first [done|congruence].
Qed.
End programs.

#[export] Hint Resolve Queue_Enqueue_effects Queue_Dequeue_effects Queue_Complete_effects
  Queue_Cancel_effects Queue_FailStale_effects DownloadBlob_effects UploadArtifact_effects
  UploadLog_effects UploadBlob_effects DeletePrefix_effects DeleteObject_effects Cancel_effects
  Execute_effects : effects.

Section footprints.
Context `{E : Ext} `{St : Storage} `{!StorageFrame St}.
Variable Duration_String : Z → string.
Variable config : Config.Config.t.
Variable box : Box.
Variable ps : list part.

(** *** The workspace *)
Section files.
Hypothesis Hfiles : may PFiles ps = true.

Lemma extractFile_effects f t : effects ps (extractFile f t).
Proof. unfold extractFile. effects_walk. Qed.
#[local] Hint Resolve extractFile_effects : effects.
Lemma unpack_all_effects d s fs : effects ps (unpack_all d s fs).
Proof.
  induction fs as [|f fs IH]; cbn [unpack_all]; [apply effects_ret|].
  apply effects_bind; [unfold unpack_entry; effects_walk|]. intros [u|e]; [exact IH|apply effects_ret].
Qed.
#[local] Hint Resolve unpack_all_effects : effects.
Lemma UnzipFile_effects d z : effects ps (UnzipFile d z).
Proof. unfold UnzipFile. effects_walk. Qed.
Lemma stage_all_effects d fs : effects ps (stage_all d fs).
Proof.
  induction fs as [|[n c] fs IH]; cbn [stage_all]; [apply effects_ret|].
  apply effects_bind; [unfold WriteFile; effects_walk|]. intros [u|e]; [exact IH|apply effects_ret].
Qed.
#[local] Hint Resolve UnzipFile_effects stage_all_effects : effects.
Lemma StageSupportFiles_effects r ws : effects ps (StageSupportFiles r ws).
Proof. unfold StageSupportFiles. effects_walk. Qed.
Lemma ChownWorkspace_effects ws : effects ps (ChownWorkspace ws).
Proof. unfold ChownWorkspace. effects_walk. Qed.
Lemma place_artifact_effects t ws c : effects ps (place_artifact t ws c).
Proof. unfold place_artifact. effects_walk. Qed.
End files.
#[local] Hint Resolve StageSupportFiles_effects ChownWorkspace_effects place_artifact_effects : effects.

(** *** The worker *)
Lemma postSlack_effects u t : effects ps (postSlack u t).
Proof. unfold postSlack, post. effects_walk. Qed.
Lemma postPagerDuty_effects k a d p : effects ps (postPagerDuty k a d p).
Proof. unfold postPagerDuty, post. effects_walk. Qed.
#[local] Hint Resolve postSlack_effects postPagerDuty_effects : effects.
Lemma send_alerts_effects t r a : effects ps (send_alerts t r a).
Proof.
  unfold send_alerts, NotifyFailure, NotifyRecovery, SendFailure, SendRecovery,
    TriggerPagerDuty, ResolvePagerDuty. effects_walk.
Qed.
Lemma uploadScreenshots_effects ws b t r :
  may PBlobs ps = true → may PShots ps = true → effects ps (uploadScreenshots ws b t r).
Proof.
  intros. unfold uploadScreenshots, uploadScreenshotFile. effects_walk.
  apply syscall_read_effects. intros now fs. by repeat case_match.
Qed.
Lemma loadEnv_effects t : effects ps (loadEnv box t).
Proof. unfold loadEnv. effects_walk. Qed.
#[local] Hint Resolve send_alerts_effects uploadScreenshots_effects loadEnv_effects : effects.

Lemma executeJob_effects job :
  may PTests ps = true → may PRuns ps = true → may PShots ps = true → may PBlobs ps = true →
  may PFiles ps = true → may PActive ps = true → may PDocker ps = true →
  effects ps (executeJob Duration_String box job).
Proof. intros. unfold executeJob, in_workspace, workspaceRoot, run_and_record. effects_walk. Qed.
#[local] Hint Resolve executeJob_effects : effects.

Lemma handleJob_effects job :
  may PTests ps = true → may PRuns ps = true → may PShots ps = true → may PBlobs ps = true →
  may PFiles ps = true → may PActive ps = true → may PDocker ps = true → may PJobs ps = true →
  effects ps (handleJob Duration_String box job).
Proof. intros. unfold handleJob. effects_walk. Qed.
Lemma sweep_stale_effects : may PJobs ps = true → effects ps sweep_stale.
Proof. intros. unfold sweep_stale. effects_walk. Qed.

(** *** The scheduler and retention *)
Lemma tick_effects : may PTests ps = true → may PJobs ps = true → effects ps tick.
Proof. intros. unfold tick, fire. effects_walk. Qed.

Lemma delete_files_effects es : may PBlobs ps = true → effects ps (delete_files es).
Proof.
  intros Hm. induction es as [|e es IH]; cbn [delete_files]; [apply effects_ret|].
  apply effects_bind; [unfold deleteStorage; effects_walk|].
  intros a. effects_walk.
Qed.
#[local] Hint Resolve delete_files_effects : effects.
Lemma sweep_batches_effects n alive i policy cutoff total :
  may PBlobs ps = true → may PRuns ps = true → may PShots ps = true →
  effects ps (sweep_batches n alive i policy cutoff total).
Proof.
  intros. revert i total. induction n as [|n IH]; intros i total; cbn [sweep_batches]; effects_walk.
Qed.
#[local] Hint Resolve sweep_batches_effects : effects.
Lemma Sweep_effects alive policy :
  may PBlobs ps = true → may PRuns ps = true → may PShots ps = true → may PJobs ps = true →
  effects ps (Sweep alive policy).
Proof. intros. unfold Sweep. effects_walk. Qed.
End footprints.

#[export] Hint Resolve executeJob_effects handleJob_effects sweep_stale_effects tick_effects
  Sweep_effects : effects.

(** ** Requests *)
Section requests.
Context `{E : Ext} `{St : Storage} `{!StorageFrame St}.
Variable config : Config.Config.t.
Variable box : Box.
Variable verifier : option Verifier.t.

(** Checking a token touches nothing but the cache of approvals. *)
Lemma valid_effects ps v token : may PCache ps = true → effects ps (valid v token).
Proof.
  intros Hm. unfold valid. effects_walk. apply modify_effects.
  intros w [] Hx%may_false; simpl; first [done|congruence].
Qed.
#[local] Hint Resolve valid_effects : effects.

Lemma Require_effects ps v h r :
  may PCache ps = true → effects ps (h r) → effects ps (Require v h r).
Proof. intros. unfold Require. destruct v; effects_walk. Qed.

(** The handlers behind a method that only reads. *)
Lemma scheduler_handler_get_effects ps b m msg (p : prog world Response.t) r :
  (r.(Request.Method) = m → effects ps p) → effects ps (scheduler_handler b m msg p r).
Proof.
  intros Hp. unfold scheduler_handler.
  destruct (bool_decide_reflect (r.(Request.Method) = m)); cbn [negb]; [|apply effects_ret].
  destruct b; cbn [negb]; [auto|apply effects_ret].
Qed.

Lemma read_only_cases m : read_only m = true → m = "GET" ∨ m = "HEAD" ∨ m = "OPTIONS".
Proof. intros H%bool_decide_eq_true. rewrite !elem_of_cons, elem_of_nil in H. tauto. Qed.

(** A branch for a method that writes is not taken. *)
Ltac refute_method H :=
  exfalso; reflect_bools; repeat match goal with H' : decide _ = _ |- _ => clear H' end;
  repeat match goal with H' : _ ∈ _ |- _ => rewrite !elem_of_cons, elem_of_nil in H' end;
  destruct (read_only_cases _ H) as [Hm|[Hm|Hm]]; rewrite ?Hm in *; naive_solver.

Lemma envRoutes_read_effects ps t rest r :
  read_only r.(Request.Method) = true → effects ps (envRoutes box t rest r).
Proof. intros Hro. unfold envRoutes, listEnv. effects_walk; refute_method Hro. Qed.

Lemma test_routes_read_effects path r :
  read_only r.(Request.Method) = true →
  effects [PCache] (test_routes config box (Require verifier) path r).
Proof.
  intros Hro. unfold test_routes, with_test_id, enableSchedule, disableSchedule, updateTestConfig, listTestRuns.
  effects_walk; first [by apply Require_effects, envRoutes_read_effects|refute_method Hro].
Qed.

Lemma Tests_read_effects r :
  read_only r.(Request.Method) = true → effects [PCache] (Tests config box (Require verifier) r).
Proof.
  intros Hro. unfold Tests, listTests. effects_walk. by apply test_routes_read_effects.
Qed.

Lemma api_read_effects pattern h r :
  (pattern, h) ∈ api_routes config box verifier → read_only r.(Request.Method) = true →
  effects [PCache] (h r).
Proof.
  intros Hin Hro.
  repeat (apply elem_of_cons in Hin as [[= -> ->]|Hin]); [..|by apply elem_of_nil in Hin].
  - apply effects_ret.
  - unfold UploadBinary. effects_walk; refute_method Hro.
  - unfold Run. effects_walk; refute_method Hro.
  - unfold Stop. effects_walk; refute_method Hro.
  - apply scheduler_handler_get_effects. intros _. effects_walk.
  - apply scheduler_handler_get_effects. intros Hp. refute_method Hro.
  - apply scheduler_handler_get_effects. intros Hp. refute_method Hro.
  - by apply Tests_read_effects.
  - by apply Tests_read_effects.
  - unfold RunRoutes. effects_walk.
  - unfold JobStatus. effects_walk.
  - unfold ListScreenshots. effects_walk.
  - unfold DownloadScreenshot. effects_walk.
Qed.
End requests.
