(* ===== verification/Variables.v ===== *)
(** * The variables of a test, from the request to the container

    What [putEnv] (src/handler/env.go) stores, [loadEnv] (src/worker/worker.go)
    gives to the container: both sides of the table test_env_vars together. *)

From S2P Require Import Prelude.
From S2P Require Import Prog.
From S2P Require Import GoStrings.
From S2P Require Import Model.
From S2P Require Import World.
From S2P Require Import Http.
From S2P Require Import TestRepo.
From S2P Require Import RunRepo.
From S2P Require Import Secrets.
From S2P Require Import Runtime.
From S2P Require Import Storage.
From S2P Require Import Worker.
From S2P Require Import Handler.
From S2P Require Import Endpoints.
From S2P Require Import Effects.

(** The rows of test_env_vars are stored under their own names. *)
Definition env_keyed (d : db) : Prop := map_Forall (λ k v, v.(EnvVar.Name) = k.2) d.(d_env).

Lemma elem_of_env_rows testID d v :
  env_keyed d → v ∈ (map_to_list (env_of testID d)).*2 ↔ d.(d_env) !! (testID, v.(EnvVar.Name)) = Some v.
Proof.
  intros Hk. rewrite elem_of_rows. split.
  - intros ([t n] & [Hl Ht]%map_lookup_filter_Some). simpl in Ht. subst t.
    pose proof (Hk _ _ Hl) as Hn. simpl in Hn. by rewrite Hn.
  - intros Hl. exists (testID, v.(EnvVar.Name)). by rewrite env_of_lookup.
Qed.

Lemma env_rows_NoDup testID d : env_keyed d → NoDup (EnvVar.Name <$> (map_to_list (env_of testID d)).*2).
Proof.
  intros Hk. set (m := env_of testID d).
  assert (∀ k v, m !! k = Some v → k = (testID, v.(EnvVar.Name))) as Hm.
  { intros [t n] v [Hl Ht]%map_lookup_filter_Some. simpl in Ht. subst t.
    pose proof (Hk _ _ Hl) as Hn. simpl in Hn. by rewrite Hn. }
  rewrite <-list_fmap_compose.
  assert ((EnvVar.Name ∘ snd) <$> map_to_list m = snd <$> (map_to_list m).*1) as ->.
  { rewrite <-list_fmap_compose. apply list_fmap_ext. intros i [k v] Hi. simpl.
    rewrite (Hm k v); [done|]. apply elem_of_map_to_list. by eapply list_elem_of_lookup_2. }
  apply NoDup_fmap_2_strong; [|apply NoDup_fst_map_to_list].
  intros k k' ([? v] & -> & H%elem_of_map_to_list)%list_elem_of_fmap
    ([? v'] & -> & H'%elem_of_map_to_list)%list_elem_of_fmap. simpl.
  apply Hm in H, H'. subst. simpl. by intros ->.
Qed.

Section variables.
Context `{E : Ext}.

(** What a variable's row stands for. *)
Definition plain_of (box : Box) (v : EnvVar.t) : res string :=
  if v.(EnvVar.IsSecret) then Decrypt box v.(EnvVar.Value) else Ok v.(EnvVar.Value).

Lemma add_vars_plain box vars env sv :
  NoDup (EnvVar.Name <$> vars) →
  match add_vars box vars env sv with
  | Ok (env', sv') =>
      (∀ v, v ∈ vars → ∃ x, plain_of box v = Ok x ∧ env' !! v.(EnvVar.Name) = Some x ∧
                            (v.(EnvVar.IsSecret) = true → x ∈ sv')) ∧
      (∀ n, n ∉ EnvVar.Name <$> vars → env' !! n = env !! n) ∧
      (∀ x, x ∈ sv → x ∈ sv')
  | Err _ => ∃ v, v ∈ vars ∧ is_ok (plain_of box v) = false
  end.
Proof.
  revert env sv. induction vars as [|v vars IH]; intros env sv; simpl.
  { intros _. split; [|done]. intros v Hv. by apply elem_of_nil in Hv. }
  intros [Hv Hnd]%NoDup_cons. unfold plain_of.
  assert (∀ x sv1, plain_of box v = Ok x → (∀ y, y ∈ sv → y ∈ sv1) →
    (v.(EnvVar.IsSecret) = true → x ∈ sv1) →
    match add_vars box vars (<[v.(EnvVar.Name) := x]> env) sv1 with
    | Ok (env', sv') =>
      (∀ v', v' ∈ v :: vars → ∃ x, plain_of box v' = Ok x ∧ env' !! v'.(EnvVar.Name) = Some x ∧
                            (v'.(EnvVar.IsSecret) = true → x ∈ sv')) ∧
      (∀ n, n ∉ EnvVar.Name <$> (v :: vars) → env' !! n = env !! n) ∧
      (∀ y, y ∈ sv → y ∈ sv')
    | Err _ => ∃ v', v' ∈ v :: vars ∧ is_ok (plain_of box v') = false
    end) as Hstep.
  { intros x sv1 Hx Hsv Hsec. specialize (IH (<[v.(EnvVar.Name) := x]> env) sv1 Hnd).
    destruct (add_vars _ _ _ _) as [[env' sv']|e]; [|destruct IH as (v' & ? & ?); exists v'; split; [by right|done]].
    destruct IH as (H1 & H2 & H3). split; [|split].
    - intros v' [->|Hv']%elem_of_cons; [|by apply H1]. exists x.
      split; [done|]. split; [by rewrite H2, lookup_insert_eq|auto].
    - intros n [Hn Hn']%not_elem_of_cons. rewrite H2 by done. by rewrite lookup_insert_ne.
    - auto. }
  destruct (v.(EnvVar.IsSecret)) eqn:Hsec.
  - destruct (Decrypt box _) as [x|e] eqn:Hd.
    + apply Hstep; [unfold plain_of; by rewrite Hsec|set_solver..].
    + exists v. split; [left|]. by rewrite Hsec, Hd.
  - apply Hstep; [unfold plain_of; by rewrite Hsec|done..].
Qed.

(** What the container of a test gets, read off the table. *)
Lemma loadEnv_run box testID w :
  w.(w_faults) = [] → env_keyed w.(w_db) →
  match (run (loadEnv box testID) w).1 with
  | Ok (env, sv) => ∀ n,
      match w.(w_db).(d_env) !! (testID, n) with
      | Some v => ∃ x, plain_of box v = Ok x ∧ env !! n = Some x ∧ (v.(EnvVar.IsSecret) = true → x ∈ sv)
      | None => env !! n = None
      end
  | Err _ => ∃ n v, w.(w_db).(d_env) !! (testID, n) = Some v ∧ is_ok (plain_of box v) = false
  end.
Proof.
  intros Hf Hk. unfold loadEnv. rewrite run_call_bind. unfold EnvRepo.List.
  rewrite query_no_fault by done. rewrite run_ret. cbn [fst].
  set (rows := (map_to_list (env_of testID w.(w_db))).*2).
  assert (sort_names EnvVar.Name rows ≡ₚ rows) as Hp by apply merge_sort_Permutation.
  assert (∀ v, v ∈ sort_names EnvVar.Name rows ↔ w.(w_db).(d_env) !! (testID, v.(EnvVar.Name)) = Some v) as Hin.
  { intros v. rewrite Hp. by apply elem_of_env_rows. }
  assert (NoDup (EnvVar.Name <$> sort_names EnvVar.Name rows)) as Hnd.
  { rewrite Hp. by apply env_rows_NoDup. }
  pose proof (add_vars_plain box _ ∅ [] Hnd) as H.
  destruct (add_vars _ _ _ _) as [[env sv]|e].
  - destruct H as (H1 & H2 & _). intros n. destruct (d_env (w_db w) !! (testID, n)) as [v|] eqn:Hv.
    + pose proof (Hk _ _ Hv) as Hn. simpl in Hn. subst n. by apply H1, Hin.
    + rewrite H2; [by rewrite lookup_empty|]. intros (v & -> & Hv')%list_elem_of_fmap.
      apply Hin in Hv'. congruence.
  - destruct H as (v & Hv%Hin & Hno). eauto.
Qed.

(** What was stored under a name is what the name stands for next. *)
Lemma loadEnv_stored box testID v x w env0 sv0 :
  w.(w_faults) = [] → env_keyed w.(w_db) → plain_of box v = Ok x →
  (run (loadEnv box testID) w).1 = Ok (env0, sv0) →
  let w' := with_db (set_env (<[(testID, v.(EnvVar.Name)) := v]>) w.(w_db)) w in
  ∃ sv, (run (loadEnv box testID) w').1 = Ok (<[v.(EnvVar.Name) := x]> env0, sv) ∧
    (v.(EnvVar.IsSecret) = true → x ∈ sv).
Proof.
  intros Hf Hk Hx H0. pose proof (loadEnv_run box testID w Hf Hk) as Hbefore. rewrite H0 in Hbefore.
  set (w' := with_db _ w). cbn zeta.
  assert (env_keyed w'.(w_db)) as Hk' by (by apply map_Forall_insert_2).
  assert (∀ n, w'.(w_db).(d_env) !! (testID, n) =
    if decide (n = v.(EnvVar.Name)) then Some v else w.(w_db).(d_env) !! (testID, n)) as Hlook.
  { intros n. unfold w'. simpl. case_decide as Hn; [subst; by rewrite lookup_insert_eq|].
    rewrite lookup_insert_ne; [done|]. naive_solver. }
  pose proof (loadEnv_run box testID w' Hf Hk') as Hafter.
  destruct (run (loadEnv box testID) w') as [[[env sv]|e] w2]; cbn [fst] in *.
  - exists sv. split.
    + do 2 f_equal. apply map_eq. intros n. specialize (Hafter n). specialize (Hbefore n).
      rewrite Hlook in Hafter. case_decide as Hn.
      * subst n. rewrite lookup_insert_eq. destruct Hafter as (y & Hy & -> & _). congruence.
      * rewrite lookup_insert_ne by done.
        destruct (d_env (w_db w) !! (testID, n)) as [v0|]; [|congruence].
        destruct Hafter as (y & Hy & -> & _), Hbefore as (z & Hz & -> & _). congruence.
    + intros Hsec. specialize (Hafter v.(EnvVar.Name)). rewrite Hlook, decide_True in Hafter by done.
      destruct Hafter as (y & Hy & _ & Hin). rewrite Hx in Hy. injection Hy as <-. auto.
  - exfalso. destruct Hafter as (n & v0 & Hv & Hno). rewrite Hlook in Hv. case_decide.
    + injection Hv as <-. by rewrite Hx in Hno.
    + specialize (Hbefore n). rewrite Hv in Hbefore. destruct Hbefore as (y & Hy & _). by rewrite Hy in Hno.
Qed.

(** When a variable is saved, and how. *)
Lemma save_env_run testID v w :
  w.(w_faults) = [] →
  let '(resp, w') := run (save_env testID v) w in
  if decide (is_Some (w.(w_db).(d_tests) !! testID) ∧ has_room testID v.(EnvVar.Name) MaxVars w.(w_db))
  then resp.(Response.Status) = StatusOK ∧
       w' = with_db (set_env (<[(testID, v.(EnvVar.Name)) :=
              EnvVar.mk v.(EnvVar.Name) v.(EnvVar.Value) v.(EnvVar.IsSecret) w.(w_now)]>) w.(w_db)) w
  else resp.(Response.Status) ≠ StatusOK ∧ w'.(w_db) = w.(w_db).
Proof.
  intros Hf. unfold save_env. rewrite run_call_bind.
  destruct (decide (is_Some (w.(w_db).(d_tests) !! testID))) as [Ht|Ht].
  - rewrite Upsert_no_fault by done.
    destruct (decide (has_room testID (EnvVar.Name v) MaxVars (w_db w))) as [Hr|Hr];
      rewrite ?run_ret, ?run_fail; case_decide; by intuition.
  - pose proof (Upsert_run testID v MaxVars w) as H.
    destruct (EnvRepo.Upsert testID v MaxVars w) as [[u|e] w']; [by destruct H|].
    destruct (Is e ErrTooManyEnvVars); rewrite run_fail; case_decide; by intuition.
Qed.

(** The variable a request stores: encrypted if it is a secret. *)
Definition stored_var (box : Box) (req : EnvVarRequest.t) (w : world) : res EnvVar.t * world :=
  let name := TrimSpace req.(EnvVarRequest.Name) in
  if req.(EnvVarRequest.IsSecret) then
    let '(r, w') := Encrypt box req.(EnvVarRequest.Value) w in
    ((λ enc, EnvVar.mk name enc true 0) <$> r, w')
  else (Ok (EnvVar.mk name req.(EnvVarRequest.Value) false 0), w).

Definition acceptable (box : Box) (req : EnvVarRequest.t) : bool :=
  is_ok (ValidateName (TrimSpace req.(EnvVarRequest.Name))) &&
  is_ok (ValidateValue req.(EnvVarRequest.Value)) &&
  (negb req.(EnvVarRequest.IsSecret) || Secrets.Enabled box).

Lemma putEnv_run box testID r req w :
  decode_env_var r.(Request.Body) = Some req →
  if acceptable box req
  then ∃ v w1, stored_var box req w = (Ok v, w1) ∧ run (putEnv box testID r) w = run (save_env testID v) w1
  else ∃ code msg, code ≠ StatusOK ∧ run (putEnv box testID r) w = (jsonResponse code (error_json msg), w).
Proof.
  intros Hreq. unfold putEnv, acceptable, stored_var. rewrite Hreq.
  destruct (ValidateName _); [|eexists _, _; split; [|reflexivity]; done].
  destruct (ValidateValue _); [|eexists _, _; split; [|reflexivity]; done]. cbn [is_ok andb].
  destruct (EnvVarRequest.IsSecret req); cbn [negb orb]; [|eexists _, _; split; reflexivity].
  destruct box as [key|]; cbn [Secrets.Enabled negb]; [|eexists _, _; split; [|reflexivity]; done].
  eexists _, _. split; reflexivity.
Qed.

Lemma stored_var_plain `{!ExtLaws E} box req w v w1 :
  stored_var box req w = (Ok v, w1) →
  plain_of box v = Ok req.(EnvVarRequest.Value) ∧ v.(EnvVar.Name) = TrimSpace req.(EnvVarRequest.Name) ∧
  v.(EnvVar.IsSecret) = req.(EnvVarRequest.IsSecret) ∧ ∃ n, w1 = with_rand n w.
Proof.
  unfold stored_var, plain_of. destruct (EnvVarRequest.IsSecret req).
  - destruct box as [key|]; simpl; [|done]. intros [= <- <-]. simpl. split; [|eauto].
    apply (Decrypt_sealed key (w_rand w)).
  - intros [= <- <-]. simpl. split; [done|]. split; [done|]. split; [done|].
    exists (w_rand w). by destruct w.
Qed.

(** What a request stores is the value as it is, or sealed with the next nonce. *)
Lemma stored_var_spec `{!ExtLaws E} box req w v w1 :
  stored_var box req w = (Ok v, w1) →
  v.(EnvVar.Name) = TrimSpace req.(EnvVarRequest.Name) ∧
  v.(EnvVar.IsSecret) = req.(EnvVarRequest.IsSecret) ∧
  (if req.(EnvVarRequest.IsSecret) then
     ∃ key, box = Some key ∧
       v.(EnvVar.Value) = sealed_with key (ext_nonce w.(w_rand)) req.(EnvVarRequest.Value)
   else v.(EnvVar.Value) = req.(EnvVarRequest.Value)) ∧
  plain_of box v = Ok req.(EnvVarRequest.Value) ∧ ∃ n, w1 = with_rand n w.
Proof.
  intros Hv. destruct (stored_var_plain _ _ _ _ _ Hv) as (Hp & Hn & Hs & Hr).
  split; [done|]. split; [done|]. split; [|done]. revert Hv. unfold stored_var.
  destruct (EnvVarRequest.IsSecret req); [|by intros [= <- _]].
  destruct box as [key|]; simpl; [|done]. intros [= <- _]. by exists key.
Qed.

(** C30: without database errors a variable is saved, and answered 200, exactly
    when the body decodes, the name and the value are valid, secrets are enabled
    if it is one, the test exists and has room for it; otherwise the tables are
    left alone.  The one row that is then written is that of the trimmed name,
    marked secret or not as asked, with the value as it is, or for a secret
    sealed under the server's key with a fresh nonce, and it stands for the value
    again when it is loaded. *)
Theorem putEnv_decides `{!ExtLaws E} box testID r w :
  w.(w_faults) = [] →
  let '(resp, w') := run (putEnv box testID r) w in
  (resp.(Response.Status) = StatusOK ↔
   ∃ req, decode_env_var r.(Request.Body) = Some req ∧ acceptable box req = true ∧
     is_Some (w.(w_db).(d_tests) !! testID) ∧
     has_room testID (TrimSpace req.(EnvVarRequest.Name)) MaxVars w.(w_db)) ∧
  (resp.(Response.Status) = StatusOK → ∃ req v,
     let name := TrimSpace req.(EnvVarRequest.Name) in
     decode_env_var r.(Request.Body) = Some req ∧
     w'.(w_db) = set_env (<[(testID, name) := v]>) w.(w_db) ∧
     v.(EnvVar.Name) = name ∧ v.(EnvVar.IsSecret) = req.(EnvVarRequest.IsSecret) ∧
     v.(EnvVar.UpdatedAt) = w.(w_now) ∧
     (if req.(EnvVarRequest.IsSecret) then
        ∃ key, box = Some key ∧
          v.(EnvVar.Value) = sealed_with key (ext_nonce w.(w_rand)) req.(EnvVarRequest.Value)
      else v.(EnvVar.Value) = req.(EnvVarRequest.Value)) ∧
     plain_of box v = Ok req.(EnvVarRequest.Value)) ∧
  (resp.(Response.Status) ≠ StatusOK → w'.(w_db) = w.(w_db)).
Proof.
  intros Hf. destruct (decode_env_var r.(Request.Body)) as [req|] eqn:Hreq.
  2:{ unfold putEnv. rewrite Hreq, run_fail. split; [|done]. by split; [|intros (? & ? & _)]. }
  pose proof (putEnv_run box testID r req w Hreq) as H. destruct (acceptable box req) eqn:Hacc.
  2:{ destruct H as (code & msg & Hc & ->). split; [|done]. split; [done|].
    intros (req' & [= <-] & ? & _). congruence. }
  destruct H as (v & w1 & Hv & ->).
  destruct (stored_var_spec _ _ _ _ _ Hv) as (Hname & Hsec & Hval & Hplain & n & ->).
  pose proof (save_env_run testID v (with_rand n w) Hf) as H. cbn [with_rand w_db w_now] in H.
  rewrite Hname in H. destruct (run _ _) as [resp w']. case_decide as Hd.
  - destruct H as [Hs ->]. split; [|split; [|done]].
    + split; [|done]. intros _. exists req. by destruct Hd.
    + intros _. exists req, (EnvVar.mk (TrimSpace (EnvVarRequest.Name req)) (EnvVar.Value v) (EnvVar.IsSecret v) (w_now w)).
      do 3 (split; [done|]). split; [done|]. split; [done|]. split; [exact Hval|]. unfold plain_of in *. exact Hplain.
  - destruct H as [Hs Hdb]. split; [|done]. split; [done|]. intros (req' & [= <-] & _ & ? & ?). by destruct Hd.
Qed.
End variables.

(** ** From the table to the container *)
Section container.
Context `{E : Ext} `{St : Storage} `{!StorageFrame St}.
Variable Duration_String : Z → string.
Variable box : Box.

(** What the rows of a test say, whenever they are read. *)
Definition load_rows (testID : string) (d : db) : res (gmap string string * list string) :=
  add_vars box (sort_names EnvVar.Name (map_to_list (env_of testID d)).*2) ∅ [].

Lemma loadEnv_rows testID w :
  (w.(w_faults) = [] → (run (loadEnv box testID) w).1 = load_rows testID w.(w_db)) ∧
  ∀ x, (run (loadEnv box testID) w).1 = Ok x → load_rows testID w.(w_db) = Ok x.
Proof.
  unfold loadEnv, EnvRepo.List, load_rows. split.
  - intros Hf. by rewrite run_call_bind, query_no_fault, run_ret.
  - intros x. rewrite run_call_bind. sql_cases; rewrite run_ret; [done|]. done.
Qed.

(** Everything but the variables and the containers. *)
Definition not_containers : list part :=
  [PTests; PRuns; PJobs; PShots; PBlobs; PFiles; PActive; PPaused; PCache].

(** Started with the variables [D], a program keeps them, starts containers that
    [Q] describes only, and gives a result in [P]. *)
Definition starts {A : Type} (D : gmap (string * string) EnvVar.t) (Q : list string → list string → Prop)
    (p : prog world A) (P : A → Prop) : Prop :=
  ∀ w, w.(w_db).(d_env) = D →
    let '(a, w') := run p w in
    P a ∧ w'.(w_db).(d_env) = D ∧
    ∃ l, dockers w' = dockers w ++ l ∧ ∀ args env, (args, env) ∈ l → Q args env.

Section rules.
Variables (D : gmap (string * string) EnvVar.t) (Q : list string → list string → Prop).

Lemma starts_bind {A B : Type} (p : prog world A) (f : A → prog world B) (P : A → Prop) (P' : B → Prop) :
  starts D Q p P → (∀ a, P a → starts D Q (f a) P') → starts D Q (p ≫= f) P'.
Proof.
  intros Hp Hf w Hw. rewrite run_bind. specialize (Hp w Hw). destruct (run p w) as [a w1].
  destruct Hp as (Ha & Hw1 & l & Hl & HQ). specialize (Hf a Ha w1 Hw1). destruct (run (f a) w1) as [b w2].
  destruct Hf as (Hb & Hw2 & l' & Hl' & HQ'). split; [done|]. split; [done|]. exists (l ++ l').
  split; [by rewrite Hl', Hl, app_assoc|]. intros args env [?|?]%elem_of_app; auto.
Qed.

Lemma starts_ret {A : Type} (a : A) (P : A → Prop) : P a → starts D Q (mret a) P.
Proof. intros Ha w Hw. rewrite run_ret. split; [done|]. split; [done|]. exists []. split; [by rewrite app_nil_r|]. by intros ?? ?%elem_of_nil. Qed.

Lemma starts_effects {A : Type} (p : prog world A) : effects not_containers p → starts D Q p (λ _, True).
Proof.
  intros Hp w Hw. specialize (Hp w). destruct (run p w) as [a w'].
  pose proof (Hp PEnv ltac:(by apply (bool_decide_unpack _))) as He.
  pose proof (Hp PDocker ltac:(by apply (bool_decide_unpack _))) as Hd. simpl in *.
  split; [done|]. split; [congruence|]. exists []. rewrite app_nil_r. split; [done|]. by intros ?? ?%elem_of_nil.
Qed.

Lemma starts_seq {A B : Type} (p : prog world A) (f : A → prog world B) (P : B → Prop) :
  effects not_containers p → (∀ a, starts D Q (f a) P) → starts D Q (p ≫= f) P.
Proof. intros Hp Hf. eapply starts_bind; [by apply starts_effects|]. auto. Qed.

Lemma Execute_starts j ws spec timeout :
  (∀ s, s.(RuntimeSpec.Env) = spec.(RuntimeSpec.Env) → Q (dockerRunArgs ws s) (cmd_env s)) →
  starts D Q (Execute Duration_String j ws spec timeout) (λ _, True).
Proof.
  intros HQ. unfold Execute. cbv zeta.
  apply starts_seq; [by effects_walk|]. intros [m|]; [by apply starts_ret|].
  apply starts_seq; [by effects_walk|]. intros [m|]; [by apply starts_ret|].
  destruct (do_start _) as [m|]; [by apply starts_ret|]. set (spec' := RuntimeSpec.mk _ _ _ _ _ _ _ _).
  eapply (starts_bind _ _ (λ _, True)).
  - intros w Hw. rewrite run_call. cbn [emit]. split; [done|]. split; [done|].
    exists [(dockerRunArgs ws spec', cmd_env spec')]. split; [unfold dockers; simpl; by rewrite omap_app|].
    intros args env [= -> ->]%list_elem_of_singleton. by apply HQ.
  - intros _ _. apply starts_effects. effects_walk.
    apply modify_effects. intros w [] Hx%may_false; simpl; first [done|congruence].
Qed.
End rules.

(** The environment a test's container is given: the variables of the test, and
    the two that the worker sets. *)
Definition runs_with (vars : gmap string string) (args env : list string) : Prop :=
  ∃ ws spec timeout started, args = dockerRunArgs ws spec ∧ env = cmd_env spec ∧
    spec.(RuntimeSpec.Env) =
      <["BYOT_STARTED_AT" := started]> (<["BYOT_TIMEOUT_SECONDS" := timeout]> vars).

Lemma runs_with_var vars args env name x :
  runs_with vars args env → vars !! name = Some x →
  name ∉ ["BYOT_STARTED_AT"; "BYOT_TIMEOUT_SECONDS"] →
  (name +:+ "=" +:+ x) ∈ env ∧ ∃ before after, args = before ++ "-e" :: name :: after.
Proof.
  intros (ws & spec & t & s & -> & -> & Henv) Hx [Hn1 [Hn2 _]%not_elem_of_cons]%not_elem_of_cons.
  assert (spec.(RuntimeSpec.Env) !! name = Some x) as Hs by by rewrite Henv, !lookup_insert_ne.
  assert (name ∈ envNames spec.(RuntimeSpec.Env)) as Hin by (apply elem_of_envNames, elem_of_dom; eauto). split.
  - unfold cmd_env. rewrite decide_False; [|intros H0; by rewrite H0 in Hs].
    apply elem_of_app. right. apply list_elem_of_fmap. exists name. by rewrite Hs.
  - unfold dockerRunArgs. cbv zeta. apply list_elem_of_split in Hin as (l1 & l2 & ->).
    generalize (if decide (RuntimeSpec.Name spec = "") then baseArgs ws spec
      else baseArgs ws spec ++ ["--name"; RuntimeSpec.Name spec]) as opts. intros opts.
    exists (opts ++ mjoin ((λ n, ["-e"; n]) <$> l1)),
      (mjoin ((λ n, ["-e"; n]) <$> l2) ++ [RuntimeSpec.Image spec; "-c"; RuntimeSpec.Command spec]).
    rewrite fmap_app, join_app. by rewrite <-!app_assoc.
Qed.

Lemma in_workspace_starts job test ws content D vars sv :
  (∀ w, w.(w_db).(d_env) = D → load_rows test.(Test.UUID) w.(w_db) = Ok (vars, sv)) →
  starts D (runs_with vars) (in_workspace Duration_String box job test ws content) (λ _, True).
Proof.
  intros Hload. unfold in_workspace. apply starts_seq; [by effects_walk|]. intros [u|e]; [|by apply starts_ret].
  apply starts_seq; [by apply place_artifact_effects|]. intros [u'|e]; [|by apply starts_ret].
  destruct (GetRuntime _) as [base|]; [|by apply starts_ret].
  apply starts_seq; [by apply StageSupportFiles_effects|]. intros r.
  apply starts_seq; [apply effects_ret|]. intros [u2|e]; [|by apply starts_ret].
  apply starts_seq; [by apply ChownWorkspace_effects|]. intros r'.
  apply starts_seq; [apply effects_ret|]. intros [u3|e]; [|by apply starts_ret].
  eapply (starts_bind _ _ _ _ (λ x, ∀ env sv', x = Ok (env, sv') → env = vars)).
  { intros w Hw. destruct (loadEnv_rows test.(Test.UUID) w) as [_ Hr].
    pose proof (starts_effects D (runs_with vars) (loadEnv box (Test.UUID test)) ltac:(by apply loadEnv_effects) w Hw) as Hs.
    destruct (run (loadEnv _ _) w) as [x w']. destruct Hs as [_ Hs]. split; [|done].
    intros env sv' ->. specialize (Hr _ eq_refl). rewrite Hload in Hr by done. by injection Hr. }
  intros [[env sv']|e] Hx; [|by apply starts_ret]. specialize (Hx env sv' eq_refl) as ->. cbv zeta.
  apply starts_seq; [by effects_walk|]. intros now. unfold run_and_record.
  apply starts_seq; [by effects_walk|]. intros before. apply starts_seq; [by effects_walk|]. intros started.
  eapply starts_bind; [apply Execute_starts; intros s Hs; by eexists _, s, _, _|].
  intros [[output exitCode] execErr] _. apply starts_effects.
  effects_walk; first [by apply uploadScreenshots_effects|by apply send_alerts_effects].
Qed.

Lemma GetByID_uuid id w :
  let '(r, w') := TestRepo.GetByID id w in
  w'.(w_db) = w.(w_db) ∧ dockers w' = dockers w ∧
  ∀ test, r = Ok test → tests_keyed w.(w_db) → test.(Test.UUID) = id.
Proof.
  unfold TestRepo.GetByID. destruct (sql_query _ w) as [r w'] eqn:Hq. revert Hq.
  sql_cases; intros [= <- <-]; (split; [done|]; split; [done|]); intros test; [done|].
  destruct (_ !! id) as [row|] eqn:Hrow; [|done]. intros [= <-] Hk. exact (Hk _ _ Hrow).
Qed.

(** Every container of a test's job is given the test's variables. *)
Lemma executeJob_starts job vars sv w :
  tests_keyed w.(w_db) → load_rows job.(Job.TestID) w.(w_db) = Ok (vars, sv) →
  ∃ l, dockers (run (executeJob Duration_String box job) w).2 = dockers w ++ l ∧
    ∀ args env, (args, env) ∈ l → runs_with vars args env.
Proof.
  intros Hk Hload. unfold executeJob. rewrite run_call_bind. pose proof (GetByID_uuid job.(Job.TestID) w) as H.
  destruct (TestRepo.GetByID _ w) as [x w1]. destruct H as (Hdb & Hd & Hid). rewrite <-Hd.
  match goal with |- context [run ?p w1] => enough (starts w.(w_db).(d_env) (runs_with vars) p (λ _, True)) as Hs end.
  { specialize (Hs w1 ltac:(by rewrite Hdb)). destruct (run _ w1) as [r w']. by destruct Hs as (_ & _ & Hs). }
  destruct x as [test|e]; [|by apply starts_ret]. specialize (Hid test eq_refl Hk).
  apply starts_seq; [by effects_walk|]. intros [content|e]; [|by apply starts_ret].
  apply starts_seq; [unfold workspaceRoot; by effects_walk|]. intros root.
  apply starts_seq; [by effects_walk|]. intros [ws|e]; [|by apply starts_ret].
  eapply starts_bind.
  - apply (in_workspace_starts job test ws content w.(w_db).(d_env) vars sv).
    intros w2 Hw2. rewrite Hid, <-Hload. unfold load_rows, env_of. by rewrite Hw2.
  - intros r _. apply starts_effects. by effects_walk.
Qed.

(** C10: a variable that was saved reaches the test's containers.  After a 200 to a
    request that met no database error, for a test whose variables could be loaded
    before: they can still be, and are as before but for the new value under the
    trimmed name, in plain text although a secret is stored encrypted; a secret is
    among the values that are redacted from the log; and no other variable has changed.
    Every container that a job of the test starts from then on, as long as no
    variable is changed again and whatever else has happened or fails, is given
    these variables, each by [-e NAME] and in the environment of the docker
    command; except that the worker overwrites two names that [ValidateName]
    accepts, BYOT_STARTED_AT and BYOT_TIMEOUT_SECONDS. *)
Theorem put_variable_reaches_the_test `{!ExtLaws E} testID r w env0 sv0 :
  w.(w_faults) = [] → env_keyed w.(w_db) →
  (run (loadEnv box testID) w).1 = Ok (env0, sv0) →
  let '(resp, w') := run (putEnv box testID r) w in
  resp.(Response.Status) = StatusOK →
  ∃ req sv, let name := TrimSpace req.(EnvVarRequest.Name) in
    let value := req.(EnvVarRequest.Value) in
    decode_env_var r.(Request.Body) = Some req ∧
    (run (loadEnv box testID) w').1 = Ok (<[name := value]> env0, sv) ∧
    (req.(EnvVarRequest.IsSecret) = true → value ∈ sv) ∧
    (∀ k, k ≠ (testID, name) → w'.(w_db).(d_env) !! k = w.(w_db).(d_env) !! k) ∧
    ∀ job later, job.(Job.TestID) = testID → tests_keyed later.(w_db) →
      later.(w_db).(d_env) = w'.(w_db).(d_env) →
      ∃ started, dockers (run (executeJob Duration_String box job) later).2 = dockers later ++ started ∧
        ∀ args env, (args, env) ∈ started →
          runs_with (<[name := value]> env0) args env ∧
          (name ∉ ["BYOT_STARTED_AT"; "BYOT_TIMEOUT_SECONDS"] →
           (name +:+ "=" +:+ value) ∈ env ∧ ∃ before after, args = before ++ "-e" :: name :: after).
Proof.
  intros Hf Hk H0. destruct (decode_env_var r.(Request.Body)) as [req|] eqn:Hreq.
  2:{ unfold putEnv. by rewrite Hreq, run_fail. }
  pose proof (putEnv_run box testID r req w Hreq) as H. destruct (acceptable box req) eqn:Hacc.
  2:{ destruct H as (code & msg & Hc & ->). done. }
  destruct H as (v & w1 & Hv & ->).
  destruct (stored_var_plain _ _ _ _ _ Hv) as (Hplain & Hname & Hsec & n & ->).
  pose proof (save_env_run testID v (with_rand n w) Hf) as H.
  destruct (run _ (with_rand n w)) as [resp w']. case_decide; [|by destruct H].
  destruct H as [_ ->]. intros _. cbn [with_rand w_db w_now]. rewrite Hname, Hsec.
  set (row := EnvVar.mk _ _ _ _).
  assert (plain_of box row = Ok req.(EnvVarRequest.Value)) as Hrow.
  { rewrite <-Hplain. unfold plain_of, row. by rewrite Hsec. }
  destruct (loadEnv_stored box testID row _ (with_rand n w) env0 sv0 Hf Hk Hrow) as (sv & Hload & Hin);
    [unfold loadEnv in *; revert H0; rewrite !run_call_bind; unfold EnvRepo.List;
     by rewrite !query_no_fault by done|].
  exists req, sv. split; [done|]. split; [exact Hload|]. split; [exact Hin|]. split.
  { intros k Hkey. simpl. by rewrite lookup_insert_ne. }
  intros job later Hjob Hkeyed Henv. set (vars := <[_ := _]> env0).
  assert (load_rows job.(Job.TestID) later.(w_db) = Ok (vars, sv)) as Hrows.
  { rewrite Hjob. apply loadEnv_rows in Hload. unfold load_rows, env_of in *. rewrite Henv. exact Hload. }
  destruct (executeJob_starts job vars sv later Hkeyed Hrows) as (l & Hl & Hw). exists l. split; [done|].
  intros args env Hin'. specialize (Hw args env Hin'). split; [done|]. intros Hn.
  eapply runs_with_var; [exact Hw| |exact Hn]. apply lookup_insert_eq.
Qed.
End container.
