(* ===== verification/Secrecy.v ===== *)
(** * No request reads a secret

    Two servers that differ only in the values of secret variables answer every
    request alike, and still differ only in those values afterwards.  So no
    sequence of requests to the API learns anything about a stored secret; only
    the container of a test gets it. *)

From S2P Require Import Prelude.
From S2P Require Import Prog.
From S2P Require Import GoStrings.
From S2P Require Import Model.
From S2P Require Import World.
From S2P Require Import Http.
From S2P Require Import Auth.
From S2P Require Import TestRepo.
From S2P Require Import JobRepo.
From S2P Require Import RunRepo.
From S2P Require Import Secrets.
From S2P Require Import Runtime.
From S2P Require Import Storage.
From S2P Require Import Worker.
From S2P Require Import Scheduler.
From S2P Require Import Handler.
From S2P Require Import Endpoints.
From S2P Require Import Variables.
From S2P Require Import Effects.

(** ** Worlds that look alike *)

(** The tables agree but for the values of secret variables. *)
Record same_public (d1 d2 : db) : Prop := {
  sp_rest : d2 = set_env (λ _, d2.(d_env)) d1;
  sp_env : hide_secret <$> d1.(d_env) = hide_secret <$> d2.(d_env);
  sp_keyed : env_keyed d1 ∧ env_keyed d2
}.

Definition alike (w1 w2 : world) : Prop :=
  ∃ d2, w2 = with_db d2 w1 ∧ same_public w1.(w_db) d2.

Definition low {A} (p : prog world A) : Prop :=
  ∀ w1 w2, alike w1 w2 → (run p w1).1 = (run p w2).1 ∧ alike (run p w1).2 (run p w2).2.
Definition low_act {A} (m : act A) : Prop :=
  ∀ w1 w2, alike w1 w2 → (m w1).1 = (m w2).1 ∧ alike (m w1).2 (m w2).2.

Create HintDb low.

(** ** The rules *)

Lemma low_ret {A} (a : A) : low (mret a).
Proof. by intros w1 w2. Qed.
Lemma low_call {A} (m : act A) : low_act m → low (call m).
Proof. intros H w1 w2 Hw. rewrite !run_call. by apply H. Qed.
Lemma low_bind {A B} (p : prog world A) (f : A → prog world B) :
  low p → (∀ a, low (f a)) → low (p ≫= f).
Proof.
  intros Hp Hf w1 w2 Hw. rewrite !run_bind. destruct (Hp w1 w2 Hw) as [Hr Hw'].
  destruct (run p w1) as [a1 w1'], (run p w2) as [a2 w2']. simpl in *. subst. by apply Hf.
Qed.
Lemma low_act_ret {A} (a : A) : low_act (mret a).
Proof. by intros w1 w2. Qed.
Lemma low_act_bind {A B} (m : act A) (f : A → act B) :
  low_act m → (∀ a, low_act (f a)) → low_act (m ≫= f).
Proof.
  intros Hm Hf w1 w2 Hw. unfold mbind, M_bind. destruct (Hm w1 w2 Hw) as [Hr Hw'].
  destruct (m w1) as [a1 w1'], (m w2) as [a2 w2']. simpl in *. subst. by apply Hf.
Qed.
Lemma low_blind {A} (p : prog world A) : blind p → low p.
Proof.
  intros Hp w1 w2 (d2 & -> & Hd). rewrite Hp. split; [done|]. exists d2. split; [done|].
  by rewrite blind_db.
Qed.
Lemma low_act_blind {A} (m : act A) : act_blind m → low_act m.
Proof.
  intros Hm w1 w2 (d2 & -> & Hd). rewrite Hm. split; [done|]. exists d2. split; [done|].
  by rewrite act_blind_db.
Qed.

Lemma low_sql {A} (q : Z → db → res A * db) :
  (∀ now d1 d2, same_public d1 d2 → (q now d1).1 = (q now d2).1 ∧ same_public (q now d1).2 (q now d2).2) →
  low_act (sql q).
Proof.
  intros Hq w1 w2 (d2 & -> & Hd). unfold sql. unfold next_fault. cbn [with_db w_faults].
  assert (∀ w, w.(w_db) = w1.(w_db) →
    (let '(r, d) := q w.(w_now) w.(w_db) in (r, with_db d w)).1 =
    (let '(r, d) := q w.(w_now) d2 in (r, with_db d (with_db d2 w))).1 ∧
    alike (let '(r, d) := q w.(w_now) w.(w_db) in (r, with_db d w)).2
      (let '(r, d) := q w.(w_now) d2 in (r, with_db d (with_db d2 w))).2) as H.
  { intros w Hw. rewrite Hw. destruct (Hq w.(w_now) _ _ Hd) as [H1 H2].
    destruct (q _ (w_db w1)) as [r d], (q _ d2) as [r' d']. simpl in *. split; [done|]. by exists d'. }
  destruct (w_faults w1) as [|[msg|] fs]; [exact (H w1 eq_refl)| |exact (H (with_faults fs w1) eq_refl)].
  split; [done|]. by exists d2.
Qed.

(** A statement that does not look at the variables. *)
Lemma low_other_table {A} (q : Z → db → res A * db) :
  (∀ now d e, q now (set_env (λ _, e) d) = ((q now d).1, set_env (λ _, e) (q now d).2)) →
  low_act (sql q).
Proof.
  intros Hq. apply low_sql. intros now d1 d2 [Hrest Henv [Hk1 Hk2]]. rewrite Hrest, Hq.
  assert ((q now d1).2.(d_env) = d1.(d_env)) as Hsame.
  { specialize (Hq now d1 d1.(d_env)). replace (set_env _ d1) with d1 in Hq by by destruct d1. by rewrite Hq. }
  split; [done|]. split; [done|by rewrite Hsame|]. unfold env_keyed. by rewrite Hsame.
Qed.
Lemma low_query {A} (q : db → res A) :
  (∀ d1 d2, same_public d1 d2 → q d1 = q d2) → low_act (sql_query q).
Proof. intros Hq. apply low_sql. intros now d1 d2 Hd. simpl. auto. Qed.

Lemma low_transaction {A} (body : act (res A)) : low_act body → low_act (transaction body).
Proof.
  intros Hb. unfold transaction. set (m := (try _ := sql (λ _ d, (Ok tt, d)) in _)).
  assert (low_act m) as Hm.
  { apply low_act_bind; [by apply low_sql|]. intros [u|e]; [|apply low_act_ret].
    apply low_act_bind; [done|]. intros [a|e]; [|apply low_act_ret].
    apply low_act_bind; [by apply low_sql|]. intros [?|?]; apply low_act_ret. }
  intros w1 w2 Hw. destruct (Hm w1 w2 Hw) as [Hr (d2' & H2 & Hd')].
  destruct Hw as (d2 & -> & Hd). destruct (m w1) as [r1 w1'], (m (with_db d2 w1)) as [r2 w2'].
  simpl in *. subst. destruct r2; (split; [done|]); [by exists d2'|by exists d2].
Qed.

(** ** Statements *)
Section statements.
Context `{Ext}.

Ltac other_table := apply low_other_table; intros; cbn; repeat case_match; simplify_eq/=; done.

Lemma low_GetByID t : low_act (TestRepo.GetByID t).
Proof. other_table. Qed.
Lemma low_ListWithLastRun : low_act TestRepo.ListWithLastRun.
Proof. other_table. Qed.
Lemma low_Create t : low_act (TestRepo.Create t).
Proof. apply low_other_table. intros. unfold insert_test. cbn. by repeat case_match. Qed.
Lemma low_UpdateConfig t c : low_act (TestRepo.UpdateConfig t c).
Proof. unfold TestRepo.UpdateConfig. other_table. Qed.
Lemma low_ListByTestID t : low_act (TestRunRepo.ListByTestID t).
Proof. other_table. Qed.
Lemma low_run_GetByID t : low_act (TestRunRepo.GetByID t).
Proof. other_table. Qed.
Lemma low_ListByRunID t : low_act (ScreenshotRepo.ListByRunID t).
Proof. other_table. Qed.
Lemma low_GetByUUID t : low_act (ScreenshotRepo.GetByUUID t).
Proof. other_table. Qed.
Lemma low_GetStatus t : low_act (Queue.GetStatus t).
Proof. unfold Queue.GetStatus, JobRepo.GetByID. other_table. Qed.
Lemma low_ListActive t : low_act (Queue.ListActiveForTest t).
Proof. unfold Queue.ListActiveForTest, JobRepo.ListActiveForTest. other_table. Qed.
Lemma low_CancelActive t r : low_act (Queue.CancelActiveForTest t r).
Proof. unfold Queue.CancelActiveForTest, JobRepo.CancelActiveForTest. other_table. Qed.
Lemma low_job_Create j : low_act (JobRepo.Create j).
Proof. unfold JobRepo.Create. other_table. Qed.
Lemma low_delete_test t : low_act (TestRepo.Delete t).
Proof.
  apply low_transaction, low_act_bind; [by apply low_other_table|].
  intros [u|e]; [|apply low_act_ret]. apply low_act_bind; [by apply low_other_table|].
  intros [u'|e]; [|apply low_act_ret]. apply low_act_bind.
  - apply low_sql. intros now d1 d2 [Hrest Henv [Hk1 Hk2]]. unfold TestRepo.delete_test_row.
    rewrite Hrest. cbn [set_env d_runs d_jobs d_tests]. case_match; [|by split].
    split; [done|]. split; [done| |].
    + cbn. set (P := λ kv : (string * string) * EnvVar.t, kv.1.1 ≠ t).
      transitivity (filter P (hide_secret <$> d1.(d_env))); [by rewrite map_filter_fmap|].
      rewrite Henv. by rewrite map_filter_fmap.
    + split; apply map_Forall_lookup_2; intros k v [Hv _]%map_lookup_filter_Some; [by apply Hk1|by apply Hk2].
  - intros [n|e]; [|apply low_act_ret]. case_decide; apply low_act_ret.
Qed.

(** *** Variables *)

Lemma public_lookup d1 d2 k :
  same_public d1 d2 → hide_secret <$> d1.(d_env) !! k = hide_secret <$> d2.(d_env) !! k.
Proof. intros [_ Henv _]. rewrite <-!lookup_fmap. by rewrite Henv. Qed.

Lemma public_env_of t d1 d2 :
  same_public d1 d2 → hide_secret <$> env_of t d1 = hide_secret <$> env_of t d2.
Proof.
  intros [_ Henv _]. unfold env_of. set (P := λ kv : (string * string) * EnvVar.t, kv.1.1 = t).
  transitivity (filter P (hide_secret <$> d1.(d_env))); [by rewrite map_filter_fmap|].
  rewrite Henv. by rewrite map_filter_fmap.
Qed.

Lemma hide_secret_name v : (hide_secret v).(EnvVar.Name) = v.(EnvVar.Name).
Proof. unfold hide_secret. by case_match. Qed.

Lemma same_public_insert k v d1 d2 :
  v.(EnvVar.Name) = k.2 → same_public d1 d2 →
  same_public (set_env (<[k := v]>) d1) (set_env (<[k := v]>) d2).
Proof.
  intros Hv [Hrest Henv [Hk1 Hk2]]. split; cbn.
  - by rewrite Hrest.
  - by rewrite !fmap_insert, Henv.
  - split; by apply map_Forall_insert_2.
Qed.

Lemma low_Upsert t v n : low_act (EnvRepo.Upsert t v n).
Proof.
  assert (low_act (sql (λ now d,
        match d.(d_tests) !! t with
        | None => (Err foreign_key, d)
        | Some _ => (Ok tt, set_env (<[(t, v.(EnvVar.Name)) :=
               EnvVar.mk v.(EnvVar.Name) v.(EnvVar.Value) v.(EnvVar.IsSecret) now]>) d)
        end))) as Hins.
  { apply low_sql. intros now d1 d2 Hd. pose proof (sp_rest _ _ Hd) as Hrest.
    assert (d_tests d2 = d_tests d1) as -> by by rewrite Hrest.
    case_match; (split; [done|]); [|done]. by apply same_public_insert. }
  apply low_transaction, low_act_bind; [by apply low_sql|].
  intros [u|e]; [|apply low_act_ret]. apply low_act_bind.
  { apply low_query. intros d1 d2 Hd. f_equal. apply bool_decide_ext.
    pose proof (public_lookup _ _ (t, v.(EnvVar.Name)) Hd) as Hl.
    destruct (d_env d1 !! _), (d_env d2 !! _); try done; split; intros [? ?]; done. }
  intros [[]|e]; [exact Hins| |apply low_act_ret]. apply low_act_bind.
  { apply low_query. intros d1 d2 Hd. f_equal.
    pose proof (f_equal size (public_env_of t _ _ Hd)) as Hs. by rewrite !map_size_fmap in Hs. }
  intros [k|e]; [|apply low_act_ret]. case_decide; [apply low_act_ret|exact Hins].
Qed.

Lemma low_env_Delete t n : low_act (EnvRepo.Delete t n).
Proof.
  apply low_act_bind.
  - apply low_sql. intros now d1 d2 Hd. pose proof (public_lookup _ _ (t, n) Hd) as Hl.
    destruct Hd as [Hrest Henv [Hk1 Hk2]]. split.
    + cbn. by destruct (d_env d1 !! (t, n)), (d_env d2 !! (t, n)).
    + split; cbn; [by rewrite Hrest|by rewrite !fmap_delete, Henv|].
      split; by apply map_Forall_delete.
  - intros [k|e]; [|apply low_act_ret]. case_decide; apply low_act_ret.
Qed.

(** What a listing shows: the public rows in the order of their names. *)
Lemma list_public t d1 d2 :
  same_public d1 d2 →
  hide_secret <$> sort_names EnvVar.Name (map_to_list (env_of t d1)).*2 =
  hide_secret <$> sort_names EnvVar.Name (map_to_list (env_of t d2)).*2.
Proof.
  intros Hd. set (l1 := (map_to_list (env_of t d1)).*2). set (l2 := (map_to_list (env_of t d2)).*2).
  assert (hide_secret <$> l1 ≡ₚ hide_secret <$> l2) as Hperm.
  { assert (∀ m : gmap (string * string) EnvVar.t,
      hide_secret <$> (map_to_list m).*2 ≡ₚ (map_to_list (hide_secret <$> m)).*2) as Hfmap.
    { intros m. rewrite map_to_list_fmap, <-!list_fmap_compose. by apply Permutation_refl'. }
    unfold l1, l2. rewrite !Hfmap. by rewrite (public_env_of _ _ _ Hd). }
  assert (NoDup (EnvVar.Name <$> (hide_secret <$> l2))) as Hnd.
  { rewrite <-list_fmap_compose. erewrite list_fmap_ext; [by apply (env_rows_NoDup t d2), (sp_keyed d1 d2)|].
    intros i v _. apply hide_secret_name. }
  assert (∀ l, StronglySorted (λ x y : EnvVar.t, String.le x.(EnvVar.Name) y.(EnvVar.Name))
    (hide_secret <$> sort_names EnvVar.Name l)) as Hsorted.
  { intros l. assert (StronglySorted (λ x y : EnvVar.t, String.le x.(EnvVar.Name) y.(EnvVar.Name))
      (sort_names EnvVar.Name l)) as Hs.
    { apply StronglySorted_merge_sort; [intros x y z; apply (transitivity (R:=String.le))|intros x y; apply (total String.le)]. }
    induction Hs as [|v l' Hs IH Hall]; cbn [fmap list_fmap]; constructor; [exact IH|].
    apply Forall_fmap. eapply Forall_impl; [exact Hall|]. intros v' Hv'. simpl. by rewrite !hide_secret_name. }
  assert (∀ l : list EnvVar.t, sort_names EnvVar.Name l ≡ₚ l) as Hsp by (intros; apply merge_sort_Permutation).
  eapply StronglySorted_unique_strong; [|apply Hsorted..|by rewrite !Hsp].
  intros x y Hx Hy Hxy Hyx.
  assert (x.(EnvVar.Name) = y.(EnvVar.Name)) as Heq by by apply (anti_symm String.le).
  rewrite Hsp in Hx, Hy. rewrite Hperm in Hx.
  apply list_elem_of_lookup in Hx as [i Hi], Hy as [j Hj].
  assert (i = j) as ->; [|congruence].
  eapply NoDup_lookup; [exact Hnd| |]; rewrite list_lookup_fmap; [by rewrite Hi|by rewrite Hj, Heq].
Qed.
End statements.

#[export] Hint Resolve low_ret low_act_ret low_GetByID low_ListWithLastRun low_Create low_UpdateConfig
  low_ListByTestID low_run_GetByID low_ListByRunID low_GetByUUID low_GetStatus low_ListActive
  low_CancelActive low_job_Create low_delete_test low_Upsert low_env_Delete : low.

(** ** Actions outside the tables *)
Section actions.
Context `{Ext}.

Lemma low_NewString : low_act NewString.
Proof. by apply low_act_blind. Qed.
Lemma low_Now : low_act Now.
Proof. by apply low_act_blind. Qed.
Lemma low_IsPaused : low_act IsPaused.
Proof. by apply low_act_blind. Qed.
Lemma low_Pause : low_act Pause.
Proof. by apply low_act_blind. Qed.
Lemma low_Resume : low_act Resume.
Proof. by apply low_act_blind. Qed.
Lemma low_Encrypt b s : low_act (Encrypt b s).
Proof. apply low_act_blind. by destruct b. Qed.
Lemma low_http_do r : low_act (http_do r).
Proof. apply low_act_blind. intros d w. unfold http_do. cbn. by destruct (w_http w). Qed.
Lemma low_emit e : low_act (emit e).
Proof. by apply low_act_blind. Qed.
Lemma low_next_fault : low_act next_fault.
Proof. apply low_act_blind. intros d w. unfold next_fault. cbn. by destruct (w_faults w). Qed.
Lemma low_KillContainer n : low_act (KillContainer n).
Proof. unfold KillContainer. case_decide; [apply low_act_ret|apply low_emit]. Qed.
End actions.

#[export] Hint Resolve low_NewString low_Now low_IsPaused low_Pause low_Resume low_Encrypt low_http_do
  low_emit low_next_fault low_KillContainer : low.

(** Walks through a program; the calls' own lemmas come from [low]. *)
Ltac low_walk :=
  repeat match goal with
  | |- ∀ _, _ => intro
  | |- low (mret _) => apply low_ret
  | |- low (fail _ _) => apply low_ret
  | |- low_act (mret _) => apply low_act_ret
  | |- low (call (gets _)) => by apply low_call, low_act_blind
  | |- low (call (modify _)) => by apply low_call, low_act_blind
  | |- low (call _) => apply low_call
  | |- low (match ?x with _ => _ end) => destruct x
  | |- low_act (match ?x with _ => _ end) => destruct x
  | |- low_act _ => solve [eauto 2 with low]
  | |- low _ => solve [eauto 2 with low]
  | |- low (_ ≫= _) => apply low_bind
  | |- low_act (_ ≫= _) => apply low_act_bind
  | |- low ?p => progress cbv zeta
  end.

(** ** Requests *)
Section requests.
Context `{E : Ext} `{St : Storage} `{!StorageBlind St}.
Variable config : Config.Config.t.
Variable box : Box.
Variable verifier : option Verifier.t.

Lemma low_DownloadBlob k : low (DownloadBlob k).
Proof. apply low_blind, download_blind. Qed.
Lemma low_UploadArtifact u c : low (UploadArtifact u c).
Proof. apply low_blind, upload_artifact_blind. Qed.
Lemma low_DeletePrefix p : low (DeletePrefix p).
Proof. apply low_blind, delete_prefix_blind. Qed.
Lemma low_DeleteObject k : low (DeleteObject k).
Proof. apply low_blind, delete_object_blind. Qed.
#[local] Hint Resolve low_DownloadBlob low_UploadArtifact low_DeletePrefix low_DeleteObject : low.

Lemma low_Enqueue t tr : low_act (Queue.Enqueue t tr).
Proof. unfold Queue.Enqueue. cbv zeta. low_walk. Qed.
Lemma low_Cancel j : low (Cancel j).
Proof. unfold Cancel. low_walk. Qed.
#[local] Hint Resolve low_Enqueue low_Cancel : low.

Lemma low_cancel_running jobs n : low (cancel_running jobs n).
Proof. revert n. induction jobs as [|j jobs IH]; intros n; cbn [cancel_running]; low_walk; apply IH. Qed.
Lemma low_delete_logs p seen runs : low (delete_logs p seen runs).
Proof.
  revert seen. induction runs as [|r runs IH]; intros seen; cbn [delete_logs]; [apply low_ret|].
  cbv zeta. destruct (_ || _); [apply IH|]. apply low_bind; [apply low_DeleteObject|]. intros _. apply IH.
Qed.
#[local] Hint Resolve low_cancel_running low_delete_logs : low.

Lemma low_listEnv t : low (listEnv box t).
Proof.
  intros w1 w2 (d2 & -> & Hd). unfold listEnv. rewrite !run_call_bind. unfold EnvRepo.List, sql_query, sql, next_fault.
  cbn [with_db w_faults]. pose proof (list_public t _ _ Hd) as Hl.
  destruct (w_faults w1) as [|[msg|] fs]; cbn [with_db with_faults w_db w_now].
  - rewrite !run_ret. cbn [fst snd]. rewrite Hl. split; [done|]. by exists d2.
  - rewrite !run_fail. split; [done|]. by exists d2.
  - rewrite !run_ret. cbn [fst snd]. rewrite Hl. split; [done|]. by exists d2.
Qed.
Lemma low_save_env t v : low (save_env t v).
Proof. unfold save_env. low_walk. Qed.
#[local] Hint Resolve low_listEnv low_save_env : low.
Lemma low_envRoutes t rest r : low (envRoutes box t rest r).
Proof. unfold envRoutes, putEnv, deleteEnv. low_walk. Qed.

Lemma low_save_config t c f l : low (save_config t c f l).
Proof. unfold save_config. low_walk. Qed.
Lemma low_valid v token : low (valid v token).
Proof. unfold valid. low_walk. Qed.
#[local] Hint Resolve low_save_config low_valid : low.
Lemma low_Require v h r : low (h r) → low (Require v h r).
Proof. intros Hh. unfold Require. destruct v; low_walk; exact Hh. Qed.

Lemma low_Tests r : low (Tests config box (Require verifier) r).
Proof.
  unfold Tests, test_routes, with_test_id, listTests, listTestRuns, enableSchedule, disableSchedule,
    updateTestConfig, deleteTest, delete_objects. low_walk; apply low_Require, low_envRoutes.
Qed.

Lemma low_api p h r : (p, h) ∈ api_routes config box verifier → low (h r).
Proof.
  intros Hin. repeat (apply elem_of_cons in Hin as [[= -> ->]|Hin]); [..|by apply elem_of_nil in Hin];
    try apply low_Tests;
    unfold IsHealth, UploadBinary, create_test, Run, Stop, SchedulerStatus, SchedulerStop, SchedulerStart,
      scheduler_handler, RunRoutes, JobStatus, ListScreenshots, DownloadScreenshot; low_walk.
Qed.

Lemma low_RequireWrites v h r : low (h r) → low (RequireWrites v h r).
Proof.
  intros Hh. unfold RequireWrites. destruct v as [v|]; [|done].
  destruct (read_only _); [done|by apply low_Require].
Qed.

Lemma low_serve r : low (serve config box verifier r).
Proof.
  unfold serve. destruct (_ && _); [apply low_ret|].
  destruct (route config box verifier r) as [h|] eqn:Hr; [|apply low_ret].
  apply route_in in Hr as (p & _ & Hin). apply low_RequireWrites. by eapply low_api.
Qed.

(** A session of requests, and what it was answered. *)
Fixpoint session (rs : list Request.t) (w : world) : list Response.t * world :=
  match rs with
  | [] => ([], w)
  | r :: rs =>
      let '(resp, w) := run (serve config box verifier r) w in
      let '(resps, w) := session rs w in (resp :: resps, w)
  end.

(** C3: no request reads a secret.  On two servers that differ only in the values
    stored for secret variables every sequence of requests, reads and writes alike,
    is answered with the same responses, and the servers still differ only in the
    values of secrets. *)
Theorem requests_never_reveal_secrets rs w1 w2 :
  alike w1 w2 →
  (session rs w1).1 = (session rs w2).1 ∧ alike (session rs w1).2 (session rs w2).2.
Proof.
  revert w1 w2. induction rs as [|r rs IH]; intros w1 w2 Hw; [by split|]. cbn [session].
  destruct (low_serve r w1 w2 Hw) as [Hresp Hw'].
  destruct (run _ w1) as [resp1 w1'], (run _ w2) as [resp2 w2']. cbn [fst snd] in *.
  destruct (IH _ _ Hw') as [Hresps Hw'']. destruct (session rs w1') as [l1 w1''], (session rs w2') as [l2 w2''].
  cbn [fst snd] in *. by subst.
Qed.
End requests.
