(* ===== verification/Requests.v ===== *)
(** * What the requests that write do

    The outcome of the handlers [deleteTest], [Stop] and [UploadBinary]
    (src/handler), run alone, with whatever database or storage call fails on
    the way. *)

From S2P Require Import Prelude.
From S2P Require Import Prog.
From S2P Require Import GoStrings.
From S2P Require Import Strconv.
From S2P Require Import Model.
From S2P Require Import World.
From S2P Require Import Config.
From S2P Require Import Http.
From S2P Require Import TestRepo.
From S2P Require Import JobRepo.
From S2P Require Import RunRepo.
From S2P Require Import Runtime.
From S2P Require Import Storage.
From S2P Require Import Scheduler.
From S2P Require Import Handler.
From S2P Require Import Endpoints.
From S2P Require Import Effects.

(** Each statement uses up one of the outcomes of the coming calls; these are the
    next [n] of them. *)
Definition used_up (n : nat) (w : world) : world := with_faults (drop n w.(w_faults)) w.
Fixpoint call_results (n : nat) (faults : list (option string)) : list (option string) :=
  match n with
  | O => []
  | S n => default None (head faults) :: call_results n (tail faults)
  end.

Lemma used_up_twice n m w : used_up n (used_up m w) = used_up (m + n) w.
Proof. unfold used_up. simpl. by rewrite drop_drop. Qed.
Lemma next_fault_used w : next_fault w = (default None (head w.(w_faults)), used_up 1 w).
Proof. unfold next_fault, used_up. destruct w as [???[|f fs]]; done. Qed.

Lemma call_results_none n : call_results n [] = replicate n None.
Proof. induction n as [|n IH]; [done|]. simpl. by rewrite IH. Qed.

(** Queries leave the world as it is, but for that. *)
Lemma query_run {A} (q : db → res A) w :
  (sql_query q w).2 = used_up 1 w ∧ ∀ a, (sql_query q w).1 = Ok a → q w.(w_db) = Ok a.
Proof.
  unfold sql_query, sql. rewrite next_fault_used. destruct (default _ _); simpl; [done|]. by split.
Qed.

Section requests.
Context `{E : Ext} `{St : Storage}.
Variable config : Config.t.

(** Statements that change nothing but the tables. *)
Definition tables_only {A} (m : act A) : Prop :=
  ∀ w, ∃ d n, (m w).2 = with_db d (used_up n w).
Lemma tables_only_ret {A} (a : A) : tables_only (mret a).
Proof. intros w. exists w.(w_db), 0. by destruct w. Qed.
Lemma tables_only_sql {A} (q : Z → db → res A * db) : tables_only (sql q).
Proof.
  intros w. unfold sql. rewrite next_fault_used. destruct (default _ _); [by exists w.(w_db), 1|].
  destruct (q _ _) as [r d]. by exists d, 1.
Qed.
Lemma tables_only_bind {A B} (m : act A) (f : A → act B) :
  tables_only m → (∀ a, tables_only (f a)) → tables_only (m ≫= f).
Proof.
  intros Hm Hf w. unfold mbind, M_bind. destruct (Hm w) as (d & n & Hw). destruct (m w) as [a w1].
  simpl in Hw. subst w1. destruct (Hf a (with_db d (used_up n w))) as (d' & n' & ->). exists d', (n + n').
  by rewrite <-used_up_twice.
Qed.
Lemma tables_only_transaction {A} (body : act (res A)) : tables_only body → tables_only (transaction body).
Proof.
  intros Hb w. unfold transaction. set (m := (try _ := sql (λ _ d, (Ok tt, d)) in _)).
  assert (tables_only m) as Hm.
  { apply tables_only_bind; [apply tables_only_sql|]. intros [u|e]; [|apply tables_only_ret].
    apply tables_only_bind; [done|]. intros [a|e]; [|apply tables_only_ret].
    apply tables_only_bind; [apply tables_only_sql|]. intros [?|?]; apply tables_only_ret. }
  destruct (Hm w) as (d & fs & Hw). destruct (m w) as [[a|e] w1]; simpl in *; subst; by eexists _, _.
Qed.
Lemma Delete_tables_only t : tables_only (TestRepo.Delete t).
Proof.
  apply tables_only_transaction.
  repeat (apply tables_only_bind; [apply tables_only_sql|]; intros [?|?]; [|apply tables_only_ret]).
  case_decide; apply tables_only_ret.
Qed.

(** ** Running commands *)

Definition kill_events (id : string) : list event :=
  EvKillProcess id :: if decide (ContainerName id = "") then [] else [EvDockerRm (ContainerName id)].

Lemma Cancel_run id w :
  run (Cancel id) w =
    if bool_decide (id ∈ w.(w_active))
    then (bool_decide (head (call_results 1 w.(w_faults)) = Some None),
          with_events (w.(w_events) ++ kill_events id) (used_up 1 w))
    else (false, w).
Proof.
  unfold Cancel. rewrite run_call_bind. unfold gets. case_bool_decide; cbn [negb]; [|by rewrite run_ret].
  rewrite run_call_bind. unfold mbind at 1 2, M_bind. rewrite next_fault_used. cbn [emit mret M_ret].
  rewrite run_call_bind. unfold kill_events, KillContainer.
  assert (∀ f : option string, bool_decide (f = None) = bool_decide (Some f = Some None)) as Hb
    by (intros []; by repeat case_bool_decide).
  case_decide; cbn [emit mret M_ret]; rewrite run_ret; simpl; rewrite Hb; [done|].
  unfold with_events; simpl. do 2 f_equal. by rewrite <-app_assoc.
Qed.

(** The running jobs whose commands this server runs. *)
Definition running_here (jobs : list Job.t) (w : world) : list string :=
  filter (λ id, id ∈ w.(w_active)) (Job.UUID <$> filter (λ j, j.(Job.Status) = "running") jobs).

(** How many of the next [n] calls go through. *)
Definition successes (n : nat) (faults : list (option string)) : nat :=
  length (filter (λ f, f = None) (call_results n faults)).

Lemma successes_all n : successes n [] = n.
Proof. unfold successes. rewrite call_results_none. induction n as [|n IH]; [done|]. simpl. by rewrite IH. Qed.

Lemma cancel_running_run jobs n w :
  let here := running_here jobs w in
  run (cancel_running jobs n) w =
    (n + successes (length here) w.(w_faults),
     with_events (w.(w_events) ++ mjoin (kill_events <$> here)) (used_up (length here) w)).
Proof.
  cbv zeta. revert n w. induction jobs as [|j jobs IH]; intros n w; cbn [cancel_running].
  { rewrite run_ret. simpl. rewrite Nat.add_0_r, app_nil_r. by destruct w. }
  unfold running_here. rewrite filter_cons. case_decide as Hr; [|apply IH].
  rewrite run_bind, Cancel_run. cbn [fmap list_fmap]. rewrite filter_cons. case_bool_decide as Ha.
  - rewrite decide_True by done. rewrite IH. unfold running_here. cbn [with_events used_up with_faults w_active w_faults w_events].
    set (here := filter _ _). cbn [length call_results head fmap list_fmap mjoin list_join].
    assert (∀ fs, successes (S (length here)) fs =
      (if bool_decide (Some (default None (head fs)) = Some None) then 1 else 0) + successes (length here) (drop 1 fs)) as Hs.
    { intros fs. unfold successes. cbn [call_results]. rewrite filter_cons. destruct fs as [|f fs]; simpl; [done|].
      case_decide; case_bool_decide; done || congruence. }
    rewrite Hs. f_equal; [case_bool_decide; lia|]. unfold with_events, used_up; simpl. rewrite drop_drop, <-app_assoc. done.
  - rewrite decide_False by done. apply IH.
Qed.

Lemma kill_dockers ids w :
  dockers (with_events (w.(w_events) ++ mjoin (kill_events <$> ids)) w) = dockers w.
Proof.
  unfold dockers. simpl. rewrite omap_app.
  assert (omap docker_run (mjoin (kill_events <$> ids)) = []) as ->; [|by rewrite app_nil_r].
  induction ids as [|id ids IH]; [done|].
  change (mjoin (kill_events <$> id :: ids)) with (kill_events id ++ mjoin (kill_events <$> ids)).
  rewrite omap_app, IH. unfold kill_events. by case_decide.
Qed.

(** ** Stop *)

Lemma ListActive_run t w :
  let '(r, w') := Queue.ListActiveForTest t w in
  w' = used_up 1 w ∧ ∀ l, r = Ok l → l = sort_asc Job.QueuedAt (jobs_where (active_for t) w.(w_db)).
Proof.
  unfold Queue.ListActiveForTest, JobRepo.ListActiveForTest.
  destruct (query_run (λ d, Ok (sort_asc Job.QueuedAt (jobs_where (active_for t) d))) w) as [Hf Hr].
  destruct (sql_query _ w) as [r w']. split; [done|]. intros l ->. by specialize (Hr l eq_refl) as [= <-].
Qed.
Lemma GetByID_run t w :
  let '(r, w') := TestRepo.GetByID t w in
  w' = used_up 1 w ∧ ∀ x, r = Ok x → ∃ row, w.(w_db).(d_tests) !! t = Some row ∧ x = scan_test row.
Proof.
  unfold TestRepo.GetByID.
  destruct (query_run (λ d, match d.(d_tests) !! t with Some r => Ok (scan_test r) | None => Err ErrNoRows end) w) as [Hf Hr].
  destruct (sql_query _ w) as [r w']. split; [done|]. intros x ->. specialize (Hr x eq_refl).
  case_match; [|done]. injection Hr as <-. eauto.
Qed.
Lemma CancelActive_run t reason w :
  let '(r, w') := Queue.CancelActiveForTest t reason w in
  match r with
  | Ok n => n = length (jobs_where (active_for t) w.(w_db)) ∧
      w' = with_db (update_jobs (active_for t) (set_job_status "cancelled" w.(w_now) (Some reason)) w.(w_db))
             (used_up 1 w)
  | Err _ => w' = used_up 1 w
  end.
Proof.
  unfold Queue.CancelActiveForTest, JobRepo.CancelActiveForTest, sql. rewrite next_fault_used.
  by destruct (default _ _).
Qed.

(** The commands of a test's active jobs that run on this server. *)
Definition commands_of (t : string) (w : world) : list string :=
  running_here (sort_asc Job.QueuedAt (jobs_where (active_for t) w.(w_db))) w.

(** What a successful stop leaves: the commands killed, the jobs cancelled. *)
Definition stopped (t reason : string) (w w' : world) : Prop :=
  w'.(w_db) = update_jobs (active_for t) (set_job_status "cancelled" w.(w_now) (Some reason)) w.(w_db) ∧
  w'.(w_events) = w.(w_events) ++ mjoin (kill_events <$> commands_of t w) ∧
  w'.(w_blobs) = w.(w_blobs) ∧ w'.(w_active) = w.(w_active) ∧ w'.(w_now) = w.(w_now) ∧
  w'.(w_paused) = w.(w_paused).

(** C28: stopping a test.  A 200 means the test exists and all its queued and
    running jobs, and no other, are now cancelled; each of its commands that runs
    on this server was sent its kill and had its container removed; and the
    answer counts the jobs that were cancelled and the kills that succeeded, which
    is all of them if no call fails.  Any other answer leaves every table alone. *)
Theorem Stop_cancels_the_test r w :
  let '(resp, w') := run (Stop r) w in
  if decide (resp.(Response.Status) = StatusOK) then
    r.(Request.Method) = "POST" ∧
    ∃ t, let killed := successes (length (commands_of t w)) (drop 2 w.(w_faults)) in
      decode_one "testid" r.(Request.Body) = Some t ∧ is_Some (w.(w_db).(d_tests) !! t) ∧
      resp.(Response.Payload) = StopResult (length (jobs_where (active_for t) w.(w_db))) killed ∧
      (w.(w_faults) = [] → killed = length (commands_of t w)) ∧
      stopped t "stopped by user" w w' ∧ jobs_where (active_for t) w'.(w_db) = []
  else w'.(w_db) = w.(w_db).
Proof.
  unfold Stop. destruct (bool_decide_reflect (r.(Request.Method) = "POST")) as [Hpost|]; cbn [negb];
    [|rewrite run_fail; done].
  destruct (decode_one _ _) as [t|] eqn:Ht; [|rewrite run_fail; done].
  destruct (decide (t = "")) as [|Hne]; [rewrite run_fail; done|].
  rewrite run_call_bind. pose proof (GetByID_run t w) as H1.
  destruct (TestRepo.GetByID t w) as [[x|e] w1]; destruct H1 as [-> H1]; [|rewrite run_fail; done].
  destruct (H1 x eq_refl) as (row & Hrow & _).
  rewrite run_call_bind. pose proof (ListActive_run t (used_up 1 w)) as H2.
  destruct (Queue.ListActiveForTest t _) as [[l|e] w2]; destruct H2 as [-> H2]; [|rewrite run_fail; done].
  rewrite used_up_twice. specialize (H2 l eq_refl). cbn [used_up with_faults w_db] in H2. subst l.
  rewrite run_bind, cancel_running_run. set (l := sort_asc _ _). cbv zeta.
  change (running_here l _) with (commands_of t w).
  rewrite run_call_bind. set (w3 := with_events _ _). pose proof (CancelActive_run t "stopped by user" w3) as H4.
  destruct (Queue.CancelActiveForTest _ _ w3) as [[n|e] w4].
  - destruct H4 as [-> ->]. rewrite run_ret. rewrite decide_True by done. split; [done|].
    exists t. split; [done|]. split; [by eexists|]. split; [done|].
    split; [intros ->; apply successes_all|].
    split; [done|]. apply jobs_where_nil. intros k j. simpl. rewrite lookup_fmap.
    destruct (d_jobs (w_db w) !! k) as [j0|]; simpl; [|done]. intros [= <-].
    destruct (active_for t j0) eqn:Ea; [|done]. unfold active_for, is_active. simpl. apply andb_false_r.
  - subst w4. rewrite run_fail. done.
Qed.

(** ** Delete *)
Section delete.
Context `{!StorageLaws St}.

(** The objects a deletion may remove: those in the test's folder, its artifact
    and the logs of its runs. *)
Definition object_of (test : Test.t) (runs : list TestRun.t) (k : string) : Prop :=
  under (test.(Test.UUID) +:+ "/") k ∨ k = test.(Test.ArtifactKey) ∨ k ∈ TestRun.LogURL <$> runs.

Definition removes_only (P : string → Prop) (b b' : gmap string string) : Prop :=
  ∀ k, b' !! k = b !! k ∨ (P k ∧ b' !! k = None).

Lemma removes_only_trans P b1 b2 b3 : removes_only P b1 b2 → removes_only P b2 b3 → removes_only P b1 b3.
Proof. intros H1 H2 k. destruct (H1 k) as [<-|[? ?]], (H2 k) as [?|[? ?]]; auto. right. split; [done|congruence]. Qed.

Lemma DeleteObject_removes k w :
  removes_only (λ k', k' = k) w.(w_blobs) (run (DeleteObject k) w).2.(w_blobs).
Proof.
  intros k'. pose proof (delete_object_run k w) as H. 
  assert (∀ b, b = delete k w.(w_blobs) → b !! k' = w.(w_blobs) !! k' ∨ k' = k ∧ b !! k' = None) as Hdel.
  { intros b ->. destruct (decide (k' = k)) as [->|Hne]; [right; by rewrite lookup_delete_eq|left; by rewrite lookup_delete_ne]. }
  destruct (run _ w) as [[u|e] w']; simpl; [by apply Hdel|]. destruct H as [->|H]; [by left|by apply Hdel].
Qed.
Lemma DeletePrefix_removes p w :
  removes_only (under p) w.(w_blobs) (run (DeletePrefix p) w).2.(w_blobs) ∧
  (is_ok (run (DeletePrefix p) w).1 = true → ∀ k, under p k → (run (DeletePrefix p) w).2.(w_blobs) !! k = None).
Proof.
  pose proof (delete_prefix_run p w) as H. destruct (run _ w) as [[u|e] w']; simpl.
  - split; [|by intros _ k Hk; rewrite H, Hk]. intros k. rewrite H. unfold under. destruct (HasPrefix k p); auto.
  - split; [|done]. intros k. destruct (H k); auto.
Qed.

Lemma removes_only_mono (P Q : string → Prop) b b' :
  (∀ k, P k → Q k) → removes_only P b b' → removes_only Q b b'.
Proof. intros HPQ H k. destruct (H k) as [?|[? ?]]; auto. Qed.

Lemma delete_logs_removes p seen runs w :
  removes_only (λ k, k ∈ TestRun.LogURL <$> runs) w.(w_blobs) (run (delete_logs p seen runs) w).2.(w_blobs).
Proof.
  revert seen w. induction runs as [|r runs IH]; intros seen w; cbn [delete_logs]; [by intros k; left|].
  cbv zeta. destruct (_ || _).
  - eapply removes_only_mono; [|apply IH]. intros k Hk. by right.
  - rewrite run_bind. pose proof (DeleteObject_removes r.(TestRun.LogURL) w) as Hd.
    destruct (run (DeleteObject _) w) as [x w1]. eapply removes_only_trans.
    + eapply removes_only_mono; [|exact Hd]. intros k ->. left.
    + eapply removes_only_mono; [|apply IH]. intros k Hk. by right.
Qed.

Lemma delete_objects_step test runs w : storage_step w (run (delete_objects test runs) w).2.
Proof.
  apply storage_run_step. intros I HI.
  assert (∀ p seen l, prog_ok I (delete_logs p seen l) (λ _, True)) as Hl.
  { intros p seen l. revert seen. induction l as [|r l IH]; intros seen; cbn [delete_logs]; [done|].
    cbv zeta. destruct (_ || _); [apply IH|]. apply prog_ok_seq; [by apply delete_object_ok|]. intros _. apply IH. }
  unfold delete_objects. cbv zeta. apply prog_ok_seq; [by apply delete_prefix_ok|]. intros _.
  apply prog_ok_seq; [case_match; [by apply delete_object_ok|done]|]. intros _. apply Hl.
Qed.

Lemma delete_objects_run test runs w :
  let w' := (run (delete_objects test runs) w).2 in
  removes_only (object_of test runs) w.(w_blobs) w'.(w_blobs) ∧
  (is_ok (run (DeletePrefix (test.(Test.UUID) +:+ "/")) w).1 = true →
   ∀ k, under (test.(Test.UUID) +:+ "/") k → w'.(w_blobs) !! k = None).
Proof.
  unfold delete_objects. cbv zeta. rewrite run_bind. set (p := Test.UUID test +:+ "/").
  destruct (DeletePrefix_removes p w) as [Hp Hall]. destruct (run (DeletePrefix p) w) as [x w1]. cbn [fst snd] in *.
  rewrite run_bind. set (a := if _ && _ then _ else _).
  assert (removes_only (λ k, k = test.(Test.ArtifactKey)) w1.(w_blobs) (run a w1).2.(w_blobs)) as Ha.
  { unfold a. destruct (_ && _); [apply DeleteObject_removes|by intros k; left]. }
  destruct (run a w1) as [y w2]. cbn [snd] in Ha. pose proof (delete_logs_removes p ∅ runs w2) as Hl.
  assert (removes_only (object_of test runs) w1.(w_blobs) (run (delete_logs p ∅ runs) w2).2.(w_blobs)) as Hrest.
  { eapply removes_only_trans; eapply removes_only_mono; [|exact Ha| |exact Hl]; unfold object_of; auto. }
  split.
  - eapply removes_only_trans; [|exact Hrest]. eapply removes_only_mono; [|exact Hp]. unfold object_of. auto.
  - intros Hok k Hk. destruct (Hrest k) as [->|[_ ?]]; [by apply Hall|done].
Qed.

Lemma runs_of_run t w :
  let '(r, w') := TestRunRepo.ListByTestID t w in
  w' = used_up 1 w ∧ ∀ l, r = Ok l →
    ∀ run, run ∈ l ↔ run.(TestRun.TestID) = t ∧ ∃ k, w.(w_db).(d_runs) !! k = Some run.
Proof.
  unfold TestRunRepo.ListByTestID.
  destruct (query_run (λ d, Ok (sort_desc TestRun.StartedAt
    (filter (λ r, r.(TestRun.TestID) = t) (map_to_list d.(d_runs)).*2))) w) as [Hf Hr].
  destruct (sql_query _ w) as [r w']. split; [done|]. intros l ->. specialize (Hr l eq_refl) as [= <-].
  intros run. by rewrite elem_of_sort_desc, list_elem_of_filter, elem_of_rows.
Qed.

(** Cancelling the jobs of a test does not matter once they are gone. *)
Lemma without_test_cancelled t f d :
  (∀ j, (f j).(Job.TestID) = j.(Job.TestID)) →
  without_test t (update_jobs (active_for t) f d) = without_test t d.
Proof.
  intros Hf. unfold without_test, TestRepo.delete_runs_where, update_jobs, set_env, set_tests, set_jobs, set_shots, set_runs, TestRepo.shot_of.
  cbn [d_tests d_runs d_jobs d_shots d_env]. f_equal.
  apply map_eq. intros k. rewrite !map_lookup_filter, lookup_fmap.
  destruct (d_jobs d !! k) as [j|]; simpl; [|done]. unfold active_for.
  destruct (bool_decide_reflect (Job.TestID j = t)) as [Ht|Ht]; cbn [andb]; [|done].
  rewrite !option_guard_False; [done|naive_solver|]. case_match; rewrite ?Hf; naive_solver.
Qed.

(** What deleting a test does, over a store that keeps the whole contract: with
    [w1] the world when the store is first called. *)
Lemma deleteTest_run t r w :
  tests_keyed w.(w_db) →
  let '(resp, w') := run (deleteTest t r) w in
  if decide (resp.(Response.Status) = StatusOK) then
    r.(Request.Method) = "DELETE" ∧ decode_one "confirm" r.(Request.Body) = Some "delete" ∧
    w'.(w_db) = without_test t w.(w_db) ∧
    w'.(w_events) = w.(w_events) ++ mjoin (kill_events <$> commands_of t w) ∧
    ∃ row runs fs, w.(w_db).(d_tests) !! t = Some row ∧
      (∀ run, run ∈ runs ↔ run.(TestRun.TestID) = t ∧ ∃ k, w.(w_db).(d_runs) !! k = Some run) ∧
      removes_only (object_of (scan_test row) runs) w.(w_blobs) w'.(w_blobs) ∧
      (w.(w_faults) = [] → fs = []) ∧
      let w1 := with_events w'.(w_events) (with_db w'.(w_db) (with_faults fs w)) in
      (is_ok (run (DeletePrefix (t +:+ "/")) w1).1 = true → ∀ k, under (t +:+ "/") k → w'.(w_blobs) !! k = None)
  else touches [PJobs] w w' ∧
    ∀ k j, w.(w_db).(d_jobs) !! k = Some j → active_for t j = false → w'.(w_db).(d_jobs) !! k = Some j.
Proof.
  intros Hkeyed. unfold deleteTest.
  destruct (bool_decide_reflect (r.(Request.Method) = "DELETE")) as [Hdel|]; cbn [negb];
    [|rewrite run_fail; split; [apply touches_refl|done]].
  destruct (decode_one _ _) as [c|] eqn:Hc; [|rewrite run_fail; split; [apply touches_refl|done]].
  destruct (bool_decide_reflect (c = "delete")) as [->|]; cbn [negb]; [|rewrite run_fail; split; [apply touches_refl|done]].
  rewrite run_call_bind. pose proof (GetByID_run t w) as H1.
  destruct (TestRepo.GetByID t w) as [[x|e] w1]; destruct H1 as [-> H1]; [|rewrite run_fail; split; [by intros []|done]].
  destruct (H1 x eq_refl) as (row & Hrow & ->). clear H1.
  rewrite run_call_bind. pose proof (runs_of_run t (used_up 1 w)) as H2.
  destruct (TestRunRepo.ListByTestID t _) as [[runs|e] w2]; destruct H2 as [-> H2];
    [|rewrite run_fail; split; [by intros []|done]]. specialize (H2 runs eq_refl). rewrite used_up_twice.
  rewrite run_call_bind. pose proof (ListActive_run t (used_up (1 + 1) w)) as H3.
  destruct (Queue.ListActiveForTest t _) as [[l|e] w3]; destruct H3 as [-> H3];
    [|rewrite run_fail; split; [by intros []|done]]. rewrite used_up_twice.
  specialize (H3 l eq_refl). cbn [used_up with_faults w_db] in H3. subst l. rewrite run_bind, cancel_running_run.
  set (l := sort_asc _ _). cbv zeta. change (running_here l _) with (commands_of t w).
  rewrite run_call_bind. set (w4 := with_events _ _). pose proof (CancelActive_run t "test deleted" w4) as H5.
  pose proof (kill_dockers (commands_of t w) w) as Hd4. change (dockers w4 = dockers w) in Hd4.
  destruct (Queue.CancelActiveForTest _ _ w4) as [[n|e] w5];
    [|subst w5; rewrite run_fail; split; [by intros []|done]].
  destruct H5 as [_ ->]. rewrite run_call_bind. set (w5 := with_db _ _).
  pose proof (Delete_run t w5) as H6. destruct (Delete_tables_only t w5) as (d6 & n6 & H7).
  destruct (TestRepo.Delete t w5) as [[u|e] w6]; cbn [snd] in H7; subst w6; cbn [with_db w_db] in H6.
  - destruct H6 as [_ ->]. rewrite run_bind. set (w6 := with_db _ _).
    pose proof (delete_objects_run (scan_test row) runs w6) as [Hrm Hall].
    destruct (delete_objects_step (scan_test row) runs w6) as (b & f & h & H8).
    destruct (run (delete_objects _ _) w6) as [y w7]. cbn [snd] in *. subst w7. rewrite run_ret.
    rewrite decide_True by done. split; [done|]. split; [done|].
    split; [unfold w6, w5; cbn [with_db with_blobs with_faults with_http w_db]; by rewrite without_test_cancelled|].
    split; [done|]. exists row, runs, (drop n6 w5.(w_faults)). split; [done|]. split; [exact H2|]. split; [exact Hrm|].
    assert (Test.UUID (scan_test row) = t) as Hid by (apply (Hkeyed t row Hrow)). rewrite Hid in Hall.
    split; [intros Hf; unfold w5, w4; simpl; by rewrite Hf, !drop_nil|]. exact Hall.
  - subst d6. set (resp := if Is e ErrNoRows then _ else _).
    assert (∃ code msg, code ≠ StatusOK ∧ resp = fail code msg) as (code & msg & Hcode & ->)
      by (unfold resp; destruct (Is e ErrNoRows); eexists _, _; (split; [|reflexivity]); done).
    rewrite run_fail, decide_False by done. split.
    + intros p Hp. destruct p; try done. by destruct Hp; left.
    + intros k j Hk Ha. unfold w5. simpl. by rewrite lookup_fmap, Hk; simpl; rewrite Ha.
Qed.
End delete.

(** ** Upload *)
Section upload.
Context `{!StorageCore St}.

(** The limits of a test that an upload may ask for: a timeout given in the form is
    below the server's maximum, the default of 30 seconds is not looked at. *)
Definition within_limits (f : Form.t) (u : Upload.t) : Prop :=
  (if decide (TrimSpace (Form.FormValue f "timeout") = "") then u.(Upload.timeout) = 30%Z
   else (0 < u.(Upload.timeout) ≤ config.(Config.MaxTimeoutSeconds))%Z ∧
        Atoi (TrimSpace (Form.FormValue f "timeout")) = Some u.(Upload.timeout)) ∧
  (∀ m, u.(Upload.dockerMemoryMB) = Some m → (0 ≤ m ≤ config.(Config.MaxDockerMemoryMB))%Z) ∧
  (∀ c, u.(Upload.dockerCPUs) = Some c → flt c f0 = false ∧ flt config.(Config.MaxDockerCPUs) c = false).

Lemma parse_form_ok f u :
  parse_form config f = Ok u →
  within_limits f u ∧ (0 < u.(Upload.failureThreshold))%Z ∧
  is_ok (validatePagerDutyKey u.(Upload.pagerDutyKey)) = true ∧ u.(Upload.runtime) ≠ "".
Proof.
  unfold parse_form. cbv zeta.
  intros (pd & Hpd & H)%res_bind_ok. apply res_bind_ok in H as (threshold & Hth & H).
  apply res_bind_ok in H as (memory & Hmem & H). apply res_bind_ok in H as (cpus & Hcpus & H).
  apply res_bind_ok in H as (timeout & Hto & H). apply res_bind_ok in H as (v & Hrt%reject_if_ok & [= <-]).
  unfold within_limits. cbn [Upload.timeout Upload.failureThreshold Upload.dockerMemoryMB Upload.dockerCPUs
    Upload.pagerDutyKey Upload.runtime].
  split; [split; [|split]|split; [|split; [by rewrite Hpd|by reflect_bools]]].
  - clear -Hto. case_decide; [by injection Hto as <-|].
    destruct (Atoi _) as [n|] eqn:Ha; [|done]. apply res_bind_ok in Hto as (? & H1%reject_if_ok & Hto).
    apply res_bind_ok in Hto as (? & H2%reject_if_ok & [= <-]). by reflect_bools.
  - clear -Hmem. intros m ->. case_decide; [done|]. destruct (Atoi _) as [n|]; [|done].
    apply res_bind_ok in Hmem as (? & H1%reject_if_ok & Hmem).
    apply res_bind_ok in Hmem as (? & H2%reject_if_ok & [= <-]). by reflect_bools.
  - clear -Hcpus. intros c ->. case_decide; [done|]. destruct (ParseFloat _) as [x|]; [|done].
    apply res_bind_ok in Hcpus as (? & H1%reject_if_ok & Hcpus).
    by apply res_bind_ok in Hcpus as (? & H2%reject_if_ok & [= <-]).
  - clear -Hth. case_decide; [by injection Hth as <-|]. destruct (Atoi _) as [n|]; [|done].
    destruct (n <=? 0)%Z eqn:Hn; [done|]. injection Hth as <-. by reflect_bools.
Qed.

(** The row of a new test: a schedule that starts at the next time of its cron if
    there is one, and otherwise none. *)
Definition uploaded (u : Upload.t) (id original : string) (now : Z) (row : TestRow.t) : Prop :=
  ∃ next,
    (if decide (u.(Upload.cron) = "") then next = None
     else ∃ t, NextRun u.(Upload.cron) now = Ok t ∧ next = Some t) ∧
    row = {| TestRow.uuid := id;
             TestRow.name := Some (if decide (u.(Upload.displayName) = "") then original else u.(Upload.displayName));
             TestRow.runtime := u.(Upload.runtime);
             TestRow.original_filename := original;
             TestRow.command := Some u.(Upload.command);
             TestRow.artifact_key := Some (artifact_key id);
             TestRow.created_at := now;
             TestRow.timeout_seconds := u.(Upload.timeout);
             TestRow.schedule_cron := if decide (u.(Upload.cron) = "") then None else Some u.(Upload.cron);
             TestRow.schedule_enabled := negb (bool_decide (u.(Upload.cron) = ""));
             TestRow.next_run_at := next;
             TestRow.webhook_url := nullIfEmpty u.(Upload.webhookURL);
             TestRow.pagerduty_routing_key := nullIfEmpty u.(Upload.pagerDutyKey);
             TestRow.failure_threshold := u.(Upload.failureThreshold);
             TestRow.consecutive_failures := 0;
             TestRow.alert_active := false;
             TestRow.alerts_enabled := true;
             TestRow.docker_memory_mb := u.(Upload.dockerMemoryMB);
             TestRow.docker_cpus := u.(Upload.dockerCPUs);
             TestRow.docker_network_enabled := u.(Upload.dockerNetworkEnabled) |}.

Lemma create_test_run u id original w :
  (0 < u.(Upload.failureThreshold))%Z →
  let '(resp, w') := run (create_test u id original (artifact_key id)) w in
  w'.(w_blobs) = w.(w_blobs) ∧
  if decide (resp.(Response.Status) = StatusOK) then
    w.(w_db).(d_tests) !! id = None ∧
    resp.(Response.Payload) = Fields [("id", id); ("message", "binary uploaded successfully")] ∧
    ∃ row, w'.(w_db) = set_tests (<[id := row]>) w.(w_db) ∧ uploaded u id original w.(w_now) row
  else w'.(w_db) = w.(w_db).
Proof.
  intros Hth. unfold create_test. rewrite run_call_bind. cbn [Now gets].
  assert ((match (if decide (u.(Upload.cron) = "") then Ok None else (λ n, Some n) <$> NextRun u.(Upload.cron) w.(w_now)) with
    | Ok None => u.(Upload.cron) = ""
    | Ok (Some next) => u.(Upload.cron) ≠ "" ∧ NextRun u.(Upload.cron) w.(w_now) = Ok next
    | Err _ => True end)) as Hnext.
  { case_decide; [done|]. by destruct (NextRun _ _). }
  destruct (if decide _ then _ else _) as [next|e]; [|rewrite run_fail; done].
  rewrite run_call_bind. unfold TestRepo.Create. set (t := new_test _ _ _ _ _).
  destruct (sql_spec (λ now d, insert_test now t d) w) as [(m & fs & ->)|(fs & ->)]; [rewrite run_fail; done|].
  unfold insert_test. set (row := TestRow.mk _ _ _ _ _ _ _ _ _ _ _ _ _ _ _ _ _ _ _ _).
  change (Test.UUID t) with id. destruct (d_tests (w_db w) !! id) eqn:Hid; cbn [fst snd]; [rewrite run_fail; done|].
  destruct (fits_row row); cbn [fst snd]; [|rewrite run_fail; done]. rewrite run_ret.
  split; [done|]. rewrite decide_True by done. split; [done|]. split; [done|]. exists row. split; [done|].
  assert (normalizeFailureThreshold u.(Upload.failureThreshold) = u.(Upload.failureThreshold)) as Hn.
  { unfold normalizeFailureThreshold. destruct (Z.leb_spec (Upload.failureThreshold u) 0); [lia|done]. }
  exists next. unfold row, t. cbn [new_test Test.UUID Test.Name Test.FailureThreshold Test.ScheduleCron
    Test.ScheduleEnabled Test.NextRunAt]. rewrite Hn.
  destruct next as [next|]; [destruct Hnext as [Hne Hnext]|rewrite Hnext].
  - assert (nullIfEmpty u.(Upload.cron) = Some u.(Upload.cron)) as -> by (unfold nullIfEmpty; by rewrite decide_False).
    rewrite bool_decide_eq_false_2 by done. destruct (decide (u.(Upload.cron) = "")); [done|]. eauto.
  - by split.
Qed.

(** C29: an upload.  A 200 means that the form passed every check and the file is
    below the limit of its runtime, that its bytes are stored as the artifact of a
    new test, and that exactly one row was added, as the form describes it: memory
    and CPU within the server's limits, and a timeout given in the form too (the
    default of 30 seconds is not checked), with a schedule only if its cron
    parses.  Any other answer leaves the tables alone, and all objects but that
    one. *)
Theorem UploadBinary_stores_a_test r w :
  let id := ext_uuid (S w.(w_uuids)) in
  let '(resp, w') := run (UploadBinary config r) w in
  if decide (resp.(Response.Status) = StatusOK) then
    ∃ form file u limit row,
      r.(Request.Method) = "POST" ∧ r.(Request.Multipart) = Some form ∧ parse_form config form = Ok u ∧
      form.(Form.Binary) = Some file ∧ size_limit u.(Upload.runtime) file.(FileHeader.Filename) = Ok limit ∧
      (FileHeader.Size file < limit)%Z ∧
      w'.(w_blobs) = <[artifact_key id := file.(FileHeader.Content)]> w.(w_blobs) ∧
      w.(w_db).(d_tests) !! id = None ∧ w'.(w_db) = set_tests (<[id := row]>) w.(w_db) ∧
      uploaded u id file.(FileHeader.Filename) w.(w_now) row ∧ within_limits form u ∧
      (0 < row.(TestRow.failure_threshold))%Z ∧
      is_ok (validatePagerDutyKey u.(Upload.pagerDutyKey)) = true
  else w'.(w_db) = w.(w_db) ∧ ∀ k, k ≠ artifact_key id → w'.(w_blobs) !! k = w.(w_blobs) !! k.
Proof.
  cbv zeta. set (id := ext_uuid (S w.(w_uuids))).
  unfold UploadBinary. rewrite run_call_bind. cbn [NewString]. set (w1 := with_uuids _ w).
  destruct (bool_decide_reflect (r.(Request.Method) = "POST")) as [Hpost|]; cbn [negb]; [|rewrite run_fail; done].
  destruct (r.(Request.Multipart)) as [form|] eqn:Hform; [|rewrite run_fail; done].
  destruct (parse_form config form) as [u|e] eqn:Hu; [|rewrite run_fail; done].
  destruct (form.(Form.Binary)) as [file|] eqn:Hfile; [|rewrite run_fail; done].
  destruct (size_limit _ _) as [limit|e] eqn:Hlim; [|rewrite run_fail; done].
  destruct (limit <=? FileHeader.Size file)%Z eqn:Hsize; [rewrite run_fail; done|]. reflect_bools.
  rewrite run_call_bind. cbn [NewString]. change (ext_uuid (w_uuids w1)) with id. set (w2 := with_uuids _ w1).
  rewrite run_bind. pose proof (upload_artifact_run id file.(FileHeader.Content) w2) as Hup.
  pose proof (storage_run_step (UploadArtifact id file.(FileHeader.Content)) w2
    (λ I HI, upload_artifact_ok I id file.(FileHeader.Content) HI)) as (b & f & h & Hstep).
  destruct (run (UploadArtifact _ _) w2) as [[dst|e] w3]; cbn [snd] in Hstep.
  2:{ rewrite run_fail, Hstep in *. simpl in *. split; [done|]. intros k Hk.
      destruct Hup as [->| ->]; [done|by rewrite lookup_insert_ne]. }
  destruct Hup as [-> Hup]. destruct (parse_form_ok _ _ Hu) as (Hlims & Hth & Hpd & _).
  pose proof (create_test_run u id file.(FileHeader.Filename) w3 Hth) as Hc.
  destruct (run (create_test _ _ _ _) w3) as [resp w']. destruct Hc as [Hb Hc]. rewrite Hup in Hb.
  assert (w3.(w_db) = w.(w_db) ∧ w3.(w_now) = w.(w_now)) as [Hdb Hnow] by by rewrite Hstep.
  rewrite Hdb, Hnow in Hc. case_decide.
  - destruct Hc as (Hnone & _ & row & Hd & Hrow). exists form, file, u, limit, row.
    do 10 (split; [done|]). split; [done|]. split; [|done]. by destruct Hrow as (next & _ & ->).
  - split; [done|]. intros k Hk. rewrite Hb. by rewrite lookup_insert_ne.
Qed.
End upload.
End requests.
