(* ===== verification/Stores.v ===== *)
(** * Deletions on the two stores

    [Retention.Sweep] and [Handler.deleteTest] rely on the interface's promise
    that deleting a prefix empties it.  What they do with the MinIO store, which
    keeps it, and with the Supabase store, which does not. *)

From S2P Require Import Prelude.
From S2P Require Import Prog.
From S2P Require Import GoStrings.
From S2P Require Import Model.
From S2P Require Import World.
From S2P Require Import Http.
From S2P Require Import TestRepo.
From S2P Require Import JobRepo.
From S2P Require Import RunRepo.
From S2P Require Import Storage.
From S2P Require Import Minio.
From S2P Require Import Supabase.
From S2P Require Import Retention.
From S2P Require Import Handler.
From S2P Require Import Endpoints.
From S2P Require Import Effects.
From S2P Require Import Requests.

(** ** MinIO *)
Section minio.
Context `{E : Ext} `{C : MinioClient} `{!MinioClientLaws C}.

(** C12: with MinIO, over a client that works as documented, storage goes before
    the rows.  Whatever fails during a sweep, a run whose row is gone has no
    object left in the bucket; the sweep reports exactly the number of rows it
    deleted, at most 25 batches of 200; and it adds nothing.  (With Supabase the
    rows go and the objects stay, [Sweep_on_Supabase].) *)
Theorem Sweep_storage_before_rows alive policy w :
  runs_keyed w.(w_db) →
  let '(n, w') := run (@Sweep MinioStorage alive policy) w in
  n ≤ 25 * 200 ∧
  size w.(w_db).(d_runs) = size w'.(w_db).(d_runs) + n ∧
  (∀ k r, w.(w_db).(d_runs) !! k = Some r →
    w'.(w_db).(d_runs) !! k = Some r ∨
    (w'.(w_db).(d_runs) !! k = None ∧
     (∀ o, HasPrefix o (r.(TestRun.TestID) +:+ "/log/" +:+ r.(TestRun.UUID) +:+ "/") = true →
        w'.(w_blobs) !! o = None) ∧
     (r.(TestRun.LogURL) ≠ "" → w'.(w_blobs) !! r.(TestRun.LogURL) = None))) ∧
  (∀ k, w.(w_db).(d_runs) !! k = None → w'.(w_db).(d_runs) !! k = None) ∧
  (∀ o, w'.(w_blobs) !! o = w.(w_blobs) !! o ∨ w'.(w_blobs) !! o = None).
Proof. apply Sweep_run. Qed.

(** C27: deleting a test, with MinIO over a client that works as documented.  It
    takes a DELETE whose body confirms with delete; then the test, its runs,
    screenshots, jobs and variables are gone and every other row is as before, the
    commands of its running jobs are killed, and the only objects removed are the
    test's: its folder, its artifact and its logs; the folder is empty if its
    deletion, which comes when the rows are gone and the commands killed, reports
    no error.  Any other answer leaves all objects, and all tables but the jobs of
    this test, alone.  (With Supabase the folder's objects stay,
    [delete_objects_on_Supabase].) *)
Theorem deleteTest_removes_the_test t r w :
  tests_keyed w.(w_db) →
  let '(resp, w') := run (@deleteTest MinioStorage t r) w in
  if decide (resp.(Response.Status) = StatusOK) then
    r.(Request.Method) = "DELETE" ∧ decode_one "confirm" r.(Request.Body) = Some "delete" ∧
    w'.(w_db) = without_test t w.(w_db) ∧
    w'.(w_events) = w.(w_events) ++ mjoin (kill_events <$> commands_of t w) ∧
    ∃ row runs fs, w.(w_db).(d_tests) !! t = Some row ∧
      (∀ run, run ∈ runs ↔ run.(TestRun.TestID) = t ∧ ∃ k, w.(w_db).(d_runs) !! k = Some run) ∧
      removes_only (object_of (scan_test row) runs) w.(w_blobs) w'.(w_blobs) ∧
      (w.(w_faults) = [] → fs = []) ∧
      let w1 := with_events w'.(w_events) (with_db w'.(w_db) (with_faults fs w)) in
      (is_ok (run (@DeletePrefix MinioStorage (t +:+ "/")) w1).1 = true →
       ∀ k, under (t +:+ "/") k → w'.(w_blobs) !! k = None)
  else touches [PJobs] w w' ∧
    ∀ k j, w.(w_db).(d_jobs) !! k = Some j → active_for t j = false → w'.(w_db).(d_jobs) !! k = Some j.
Proof. apply deleteTest_run. Qed.
End minio.

(** ** Supabase *)
Section supabase.
Context `{E : Ext} `{C : SupabaseClient}.
Variable s : SupabaseStorage.t.
Context `{!SupabaseLaws C s}.
Variable pages : nat.

(** An object in a folder survives the deletion of any folder. *)
Lemma DeletePrefix_on_Supabase o x p w :
  Contains o "/" = true → w.(w_blobs) !! o = x →
  (run (sb_DeletePrefix s pages (p +:+ "/")) w).2.(w_blobs) !! o = x.
Proof.
  intros Ho <-. pose proof (sb_DeletePrefix_run s pages p w) as H.
  destruct (run _ w) as [r w']. by apply H.
Qed.

Lemma DeleteObject_on_Supabase o x k w :
  k ≠ o → w.(w_blobs) !! o = x → (run (sb_DeleteObject s k) w).2.(w_blobs) !! o = x.
Proof.
  intros Hk <-. unfold sb_DeleteObject. rewrite run_bind. set (b := Prefixes _).
  pose proof (send_run s "DELETE" (deleteURL s) json_header b "create delete object request: " "delete object request failed: " w) as H.
  pose proof (do_delete [k] (setHeaders s json_header) w ltac:(left) ltac:(right; left)) as Hd. fold b in Hd.
  assert (∀ w1, ((∀ k', w1.(w_blobs) !! k' = if decide (k' ∈ [k]) then None else w.(w_blobs) !! k') ∨
    (∀ k', w1.(w_blobs) !! k' = w.(w_blobs) !! k' ∨ k' ∈ [k] ∧ w1.(w_blobs) !! k' = None)) →
    w1.(w_blobs) !! o = w.(w_blobs) !! o) as Hframe.
  { intros w1 [H1|H1]; [by rewrite H1, decide_False by set_solver|].
    destruct (H1 o) as [?|[?%list_elem_of_singleton _]]; congruence. }
  destruct (run (send _ _ _ _ _ _ _) w) as [[resp|e] w1].
  - rewrite H in Hd. destruct (is_2xx _); cbn [negb]; rewrite run_ret; apply Hframe; auto.
  - rewrite run_ret. destruct H as [->|[e' H]]; [done|]. rewrite H in Hd. apply Hframe; auto.
Qed.

(** What a program keeps of one object [o]: its content [x], and [I] of the tables. *)
Section keeps.
Variables (o : string) (x : option string) (I : db → Prop).

Definition keeps_object {A : Type} (p : prog world A) (P : A → Prop) : Prop :=
  ∀ w, w.(w_blobs) !! o = x → I w.(w_db) →
    let '(a, w') := run p w in P a ∧ w'.(w_blobs) !! o = x ∧ I w'.(w_db).

Lemma keeps_ret {A : Type} (a : A) (P : A → Prop) : P a → keeps_object (mret a) P.
Proof. by intros Ha w Hw HI. Qed.
Lemma keeps_bind {A B : Type} (p : prog world A) (f : A → prog world B) (P : A → Prop) (P' : B → Prop) :
  keeps_object p P → (∀ a, P a → keeps_object (f a) P') → keeps_object (p ≫= f) P'.
Proof.
  intros Hp Hf w Hw HI. rewrite run_bind. specialize (Hp w Hw HI). destruct (run p w) as [a w1].
  destruct Hp as (Ha & Hw1 & HI1). by apply Hf.
Qed.
Lemma keeps_act {A : Type} (m : act A) (P : A → Prop) :
  (∀ w, I w.(w_db) → let '(a, w') := m w in P a ∧ w'.(w_blobs) = w.(w_blobs) ∧ I w'.(w_db)) →
  keeps_object (call m) P.
Proof.
  intros Hm w Hw HI. rewrite run_call. specialize (Hm w HI). destruct (m w) as [a w'].
  destruct Hm as (? & -> & ?). by split.
Qed.
Lemma keeps_storage {A : Type} (p : prog world A) :
  (∀ J, storage_insensitive J → prog_ok J p (λ _, True)) →
  (∀ w, w.(w_blobs) !! o = x → (run p w).2.(w_blobs) !! o = x) → keeps_object p (λ _, True).
Proof.
  intros Hs Hp w Hw HI. specialize (Hp w Hw). pose proof (storage_run_step p w Hs) as Hst.
  apply storage_step_db in Hst. destruct (run p w) as [a w']. split; [done|]. split; [done|].
  simpl in Hst. by rewrite Hst.
Qed.
End keeps.

#[local] Existing Instance SupabaseFrame.

(** The log of a run is in the run's folder, if it is [o]. *)
Definition logs_in_folders (o : string) (d : db) : Prop :=
  ∀ k r, d.(d_runs) !! k = Some r → r.(TestRun.LogURL) = o →
    HasPrefix o (r.(TestRun.TestID) +:+ "/log/" +:+ r.(TestRun.UUID) +:+ "/") = true.

Lemma delete_files_on_Supabase o x l :
  Contains o "/" = true →
  (∀ e, e ∈ l → e.(ExpiredRun.LogURL) = o → HasPrefix o (run_prefix e) = true) →
  keeps_object o x (logs_in_folders o) (@delete_files (Supabase s pages) l) (λ _, True).
Proof.
  intros Ho. induction l as [|e l IH]; intros Hl; cbn [delete_files]; [by apply keeps_ret|].
  eapply (keeps_bind _ _ _ _ _ (λ _, True)); [|intros r _].
  - unfold deleteStorage. eapply (keeps_bind _ _ _ _ _ (λ _, True)); [|intros [u|er] _; [|by apply keeps_ret]].
    + apply keeps_storage; [intros J HJ; by apply delete_prefix_ok|]. intros w Hw.
      assert (run_prefix e = (e.(ExpiredRun.TestID) +:+ "/log/" +:+ e.(ExpiredRun.RunID)) +:+ "/") as ->
        by (unfold run_prefix; by rewrite !str_app_assoc).
      by apply DeletePrefix_on_Supabase.
    + destruct (_ && _) eqn:Hb; [|by apply keeps_ret]. apply andb_true_iff in Hb as [_ Hb].
      apply keeps_storage; [intros J HJ; by apply delete_object_ok|]. intros w Hw.
      apply DeleteObject_on_Supabase; [|done]. intros Heq. rewrite Heq, (Hl e) in Hb; [done|left|done].
  - eapply keeps_bind; [apply IH; intros e' He'; apply Hl; by right|]. intros ok _. by apply keeps_ret.
Qed.

(** With Supabase a sweep deletes rows but no object of theirs: whatever is in a
    folder of the bucket is still there, unless it is the log of a run whose row
    names one outside the run's own folder. *)
Theorem Sweep_on_Supabase alive policy o w :
  Contains o "/" = true → logs_in_folders o w.(w_db) →
  (run (@Sweep (Supabase s pages) alive policy) w).2.(w_blobs) !! o = w.(w_blobs) !! o.
Proof.
  intros Ho Hlogs. set (I := logs_in_folders o). set (x := w.(w_blobs) !! o).
  assert (keeps_object o x I (@Sweep (Supabase s pages) alive policy) (λ _, True)) as Hk; [|].
  2:{ specialize (Hk w eq_refl Hlogs). destruct (run _ w) as [n w']. by destruct Hk as (_ & ? & _). }
  assert (∀ n i total cutoff, keeps_object o x I
    (@sweep_batches (Supabase s pages) n alive i policy cutoff total) (λ _, True)) as Hb.
  { intros n. induction n as [|n IH]; intros i total cutoff; cbn [sweep_batches]; [by apply keeps_ret|].
    destruct (negb (alive i)); [by apply keeps_ret|].
    eapply (keeps_bind _ _ _ _ _ (λ r, ∀ l, r = Ok l → ∀ e, e ∈ l → e.(ExpiredRun.LogURL) = o →
      HasPrefix o (run_prefix e) = true)).
    - apply keeps_act. intros w1 HI. pose proof (ListExpiredRuns_run policy.(Policy.MaxRunsPerTest) cutoff batchSize w1) as HL.
      destruct (RetentionRepo.ListExpiredRuns _ _ _ w1) as [[l|e] w2].
      + destruct HL as ([fs ->] & _ & Hin). split; [|done]. intros l' [= <-] e He Hlog.
        destruct (Hin e He) as (k & r & Hr & _ & ->). exact (HI k r Hr Hlog).
      + by destruct HL as [fs ->].
    - intros [l|e] Hl; [|by apply keeps_ret]. case_decide; [by apply keeps_ret|].
      eapply keeps_bind; [apply delete_files_on_Supabase; [done|by apply Hl]|]. intros ok _.
      case_decide; [by apply keeps_ret|]. eapply (keeps_bind _ _ _ _ _ (λ _, True)).
      + apply keeps_act. intros w1 HI. pose proof (DeleteRuns_run ok w1) as HD.
        destruct (RetentionRepo.DeleteRuns ok w1) as [[u|e] w2].
        * destruct HD as [fs [->|[_ ->]]]; [|done]. split; [done|]. split; [done|]. intros k r.
          cbn [with_db with_faults w_db]. rewrite delete_runs_lookup.
          destruct (d_runs (w_db w1) !! k) as [r'|] eqn:Hr; simpl; [|done]. case_match; [done|].
          intros [= <-]. by apply (HI k r').
        * by destruct HD as [fs ->].
      + intros [u|e] _; [apply IH|by apply keeps_ret]. }
  unfold Sweep. eapply (keeps_bind _ _ _ _ _ (λ _, True)); [by apply keeps_act|]. intros now _.
  eapply keeps_bind; [apply Hb|]. intros [total i] _. eapply (keeps_bind _ _ _ _ _ (λ _, True)); [|intros; by apply keeps_ret].
  case_match; [|by apply keeps_ret]. destruct (alive i); [|by apply keeps_ret].
  eapply (keeps_bind _ _ _ _ _ (λ _, True)); [|intros; by apply keeps_ret]. apply keeps_act. intros w1 HI.
  unfold RetentionRepo.DeleteFinishedJobsBefore. sql_cases; done.
Qed.

(** ... and deleting a test removes none of the objects in its folder. *)
Theorem delete_objects_on_Supabase test runs o w :
  HasPrefix o (test.(Test.UUID) +:+ "/") = true →
  (run (@delete_objects (Supabase s pages) test runs) w).2.(w_blobs) !! o = w.(w_blobs) !! o.
Proof.
  intros Ho. set (x := w.(w_blobs) !! o). set (p := Test.UUID test +:+ "/") in *.
  assert (∀ url, HasPrefix url p = false → url ≠ o) as Hne by (intros url Hu ->; congruence).
  assert (∀ seen w1, w1.(w_blobs) !! o = x → (run (@delete_logs (Supabase s pages) p seen runs) w1).2.(w_blobs) !! o = x) as Hl.
  { induction runs as [|r rs IH]; intros seen w1 Hw1; cbn [delete_logs]; [done|]. cbv zeta.
    destruct (_ || _) eqn:Hb; [by apply IH|]. apply orb_false_iff in Hb as [[_ Hb]%orb_false_iff _].
    rewrite run_bind. pose proof (DeleteObject_on_Supabase o x r.(TestRun.LogURL) w1 (Hne _ Hb) Hw1) as Hd.
    change (DeleteObject ?k) with (sb_DeleteObject s k). destruct (run (sb_DeleteObject _ _) w1) as [u w2]. by apply IH. }
  unfold delete_objects. cbv zeta. fold p. rewrite run_bind.
  assert (Contains o "/" = true) as Hc.
  { apply HasPrefix_true in Ho as [t ->]. apply Contains_true. exists (Test.UUID test), t.
    unfold p. by rewrite str_app_assoc. }
  pose proof (DeletePrefix_on_Supabase o x (Test.UUID test) w Hc eq_refl) as Hp. fold p in Hp.
  change (DeletePrefix p) with (sb_DeletePrefix s pages p). destruct (run (sb_DeletePrefix _ _ _) w) as [u w1].
  rewrite run_bind. destruct (_ && _) eqn:Hb; [|by apply Hl]. apply andb_true_iff in Hb as [_ Hb%negb_true_iff].
  pose proof (DeleteObject_on_Supabase o x (Test.ArtifactKey test) w1 (Hne _ Hb) Hp) as Hd.
  change (DeleteObject ?k) with (sb_DeleteObject s k). destruct (run (sb_DeleteObject _ _) w1) as [u' w2]. by apply Hl.
Qed.
End supabase.
