(* ===== verification/Access.v ===== *)
(** * Who may change what

    The routes of the server, seen from outside: which requests can change the
    server's state, and which of them must carry a token that Supabase accepts. *)

From S2P Require Import Prelude.
From S2P Require Import Prog.
From S2P Require Import GoStrings.
From S2P Require Import Model.
From S2P Require Import World.
From S2P Require Import Http.
From S2P Require Import Auth.
From S2P Require Import Alert.
From S2P Require Import Secrets.
From S2P Require Import Storage.
From S2P Require Import Endpoints.
From S2P Require Import Effects.

Section access.
Context `{E : Ext} `{St : Storage} `{!StorageFrame St}.
Variable config : Config.Config.t.
Variable box : Box.

(** The request carries a bearer token that was approved less than
    [cacheTTL] ago, or that Supabase is about to accept. *)
Definition approved (r : Request.t) (w : world) : Prop :=
  ∃ token, r.(Request.Authorization) = "Bearer " +:+ token ∧ token ≠ "" ∧
    (cached token w.(w_now) w.(w_cache) = true ∨ answer w = HttpStatus StatusOK).

(** A token is valid only if it is approved; a new approval lasts [cacheTTL]
    and no other entry of the cache is added or prolonged. *)
Lemma valid_run v token w :
  let '(ok, w') := run (valid v token) w in
  (ok = true → cached token w.(w_now) w.(w_cache) = true ∨ answer w = HttpStatus StatusOK) ∧
  (∀ t e, w'.(w_cache) !! t = Some e →
     w.(w_cache) !! t = Some e ∨
     (t = token ∧ e = (w.(w_now) + cacheTTL)%Z ∧ answer w = HttpStatus StatusOK)).
Proof.
  unfold valid. rewrite run_call_bind. cbn [Now gets]. rewrite run_call_bind. cbn [gets].
  destruct (cached token (w_now w) (w_cache w)) eqn:Hc; [rewrite run_ret; auto|].
  destruct (ext_url_Parse _); [|rewrite run_ret; naive_solver].
  rewrite run_call_bind, http_do_spec.
  destruct (answer w) as [code|msg] eqn:Ha; [|rewrite run_ret; naive_solver].
  destruct (code =? StatusOK)%Z eqn:Hs; cbn [negb]; [|rewrite run_ret; naive_solver].
  apply Z.eqb_eq in Hs as ->. rewrite run_call_bind. cbn [modify]. rewrite run_ret.
  split; [auto|]. intros t e Ht. cbn [w_cache with_cache sent] in Ht. unfold approve in Ht.
  apply lookup_insert_Some in Ht as [[<- <-]|[_ [Ht _]%map_lookup_filter_Some]]; auto.
Qed.

(** [Require] lets only approved requests through. *)
Lemma Require_blocks v h r w :
  ¬ approved r w →
  (run (Require (Some v) h r) w).1 = unauthorized ∧ touches [PCache] w (run (Require (Some v) h r) w).2.
Proof.
  intros Hna. unfold Require. set (token := TrimPrefix _ _).
  destruct (bool_decide_reflect (token = "")) as [|Hne]; [split; [done|apply touches_refl]|].
  destruct (bool_decide_reflect (token = r.(Request.Authorization))) as [|Hp]; [split; [done|apply touches_refl]|].
  cbn [orb]. rewrite run_bind. pose proof (valid_run v token w) as Hv.
  pose proof (valid_effects [PCache] v token eq_refl w) as Ht.
  destruct (run (valid v token) w) as [ok w']. destruct Hv as [Hok _].
  destruct ok; [|by split]. destruct Hna. exists token. split; [|auto].
  unfold token, TrimPrefix in *. case_match eqn:Hpre; [|done].
  apply HasPrefix_true in Hpre as [s Hs]. rewrite Hs, str_drop_app. done.
Qed.

(** The variables of a test, [/tests/{id}/env...], hold its secrets. *)
Definition env_request (r : Request.t) : bool :=
  HasPrefix (Request.Path r) "/tests/" &&
  bool_decide (is_Some (env_path (TrimByte "/" (TrimPrefix (Request.Path r) "/tests/")))).

Lemma env_request_route verifier r h :
  env_request r = true → route config box verifier r = Some h →
  h = Tests config box (Require verifier).
Proof.
  unfold env_request. intros [Hp _]%andb_true_iff (p & Hm & Hin)%route_in.
  apply matches_path in Hm. apply HasPrefix_true in Hp as [s Hs]. unfold Request.Path in Hs. rewrite Hs in Hm.
  repeat (apply elem_of_cons in Hin as [[= -> ->]|Hin]); [..|by apply elem_of_nil in Hin]; by cbn in Hm.
Qed.

Lemma env_request_Tests v r w :
  env_request r = true → ¬ approved r w →
  (run (Tests config box (Require (Some v)) r) w).1 = unauthorized.
Proof.
  unfold env_request. intros [Hp [[testID rest] He]%bool_decide_eq_true]%andb_true_iff Hna. unfold Tests.
  rewrite bool_decide_false.
  - cbv zeta. rewrite decide_False by (intros Hn; by rewrite Hn in He).
    unfold test_routes. rewrite He. by apply Require_blocks.
  - intros [Ht|[Ht|[]%elem_of_nil]%elem_of_cons]%elem_of_cons; rewrite Ht in *; by vm_compute in He, Hp.
Qed.

(** C31: requests that need no token change nothing: whatever the path, a GET,
    HEAD or OPTIONS leaves every table, the bucket, the files, the running
    commands and the scheduler as they are; at most a token's approval is cached. *)
Theorem reads_change_nothing verifier r w :
  read_only r.(Request.Method) = true →
  touches [PCache] w (run (serve config box verifier r) w).2.
Proof.
  intros Hro. unfold serve. destruct (_ && _); [apply touches_refl|].
  destruct (route config box verifier r) as [h|] eqn:Hr; [|apply touches_refl].
  apply route_in in Hr as (p & _ & Hin). unfold RequireWrites.
  destruct verifier as [v|]; [rewrite Hro|]; by eapply api_read_effects.
Qed.

(** C4: with authentication configured, a request that changes anything carried a
    bearer token that Supabase accepted, now or less than a minute ago; without
    one, every API request that could write and every request to a test's
    variables is answered 401. *)
Theorem changes_need_a_token v r w :
  ¬ approved r w →
  let '(resp, w') := run (serve config box (Some v) r) w in
  touches [PCache] w w' ∧
  (is_Some (route config box (Some v) r) →
   read_only r.(Request.Method) = false ∨ env_request r = true → resp = unauthorized).
Proof.
  intros Hna. rewrite (surjective_pairing (run _ w)). unfold serve. destruct (_ && _) eqn:Hp.
  { split; [apply touches_refl|]. intros [h (p & Hm & Hin)%route_in].
    apply andb_true_iff in Hp as [_ Hp%matches_path]. apply matches_path in Hm. cbn in Hp. rewrite Hp in Hm.
    repeat (apply elem_of_cons in Hin as [[= -> ->]|Hin]); [done..|by apply elem_of_nil in Hin]. }
  destruct (route config box (Some v) r) as [h|] eqn:Hr; [|split; [apply touches_refl|by intros []]].
  unfold RequireWrites. destruct (read_only (Request.Method r)) eqn:Hro.
  - split.
    + apply route_in in Hr as (p & _ & Hin). by eapply api_read_effects.
    + intros _ [?|Henv]; [done|]. rewrite (env_request_route _ _ _ Henv Hr). by apply env_request_Tests.
  - destruct (Require_blocks v h r w Hna) as [-> Ht]. by split.
Qed.
End access.
