(* ===== verification/Workspace.v ===== *)
(** * The workspace of a run

    What a job does to the file system: a directory of its own below the
    workspace root, which is gone when the job is over. *)

From S2P Require Import Prelude.
From S2P Require Import Prog.
From S2P Require Import GoStrings.
From S2P Require Import Model.
From S2P Require Import World.
From S2P Require Import TestRepo.
From S2P Require Import Secrets.
From S2P Require Import Paths.
From S2P Require Import Bundle.
From S2P Require Import Runtime.
From S2P Require Import Storage.
From S2P Require Import Screenshots.
From S2P Require Import Worker.
From S2P Require Import Effects.

(** ** Fresh names *)

Lemma no_slash_app a b : no_slash a → no_slash b → no_slash (a +:+ b).
Proof.
  unfold no_slash. intros Ha Hb. induction a as [|c a IH]; [done|].
  rewrite app_cons. apply Contains_cons_false in Ha as [Hc Ha]. apply Contains_cons_false.
  split; [|by apply IH]. by destruct (decide (c = "/"%char)) as [->|].
Qed.

Lemma no_slash_N x s : no_slash s → no_slash (pretty_N_go x s).
Proof.
  revert s. induction (N.lt_wf_0 x) as [x _ IH]; intros s Hs.
  destruct (decide (x = 0)%N) as [->|]; [done|].
  rewrite pretty_N_go_step by lia. apply IH; [apply N.div_lt; lia|].
  apply Contains_cons_false. split; [|done]. unfold pretty_N_char. by repeat case_match.
Qed.

Lemma no_slash_Itoa n : no_slash (Itoa (Z.of_nat n)).
Proof.
  unfold Itoa. destruct n as [|n]; [done|]. simpl. unfold pretty, pretty_Z, pretty, pretty_positive, pretty, pretty_N.
  by apply no_slash_N.
Qed.

Lemma temp_key dir c p n :
  dir ≠ "" → no_slash (String c p) → c ≠ "."%char →
  key (PathJoin dir (String c p +:+ Itoa (Z.of_nat n))) = key dir ++ [String c p +:+ Itoa (Z.of_nat n)].
Proof.
  intros Hd Hp Hc. apply key_join; [done| |rewrite app_cons; by intros [= ? _]].
  split; [split; [done|rewrite app_cons; by intros [= ? _]]|].
  apply no_slash_app; [done|apply no_slash_Itoa].
Qed.

(** The directory is new, directly below [dir]. *)
Lemma MkdirTemp_fresh touch dir c p w ws :
  dir ≠ "" → c ≠ "."%char → no_links touch w.(w_fs) → reaches touch (key dir) →
  (MkdirTemp dir (String c p) w).1 = Ok ws →
  (∃ x, key ws = key dir ++ [x] ∧ x ≠ "..") ∧ dirs_to w.(w_fs) (key dir) ∧
  w.(w_fs) !! key ws = None ∧
  (MkdirTemp dir (String c p) w).2.(w_fs) = <[key ws := Dir]> w.(w_fs).
Proof.
  intros Hd Hc Hl Hdir. unfold MkdirTemp. destruct (Contains (String c p) "/") eqn:Hp; [done|].
  cbv zeta. set (name := λ n : nat, PathJoin dir (String c p +:+ Itoa (Z.of_nat n))).
  set (n := default 0 _). intros Hr.
  assert (key (name n) = key dir ++ [String c p +:+ Itoa (Z.of_nat n)]) as Hk by by apply temp_key.
  assert (∀ k, lresolve w.(w_fs) (key (name n)) = Some k → dirs_to w.(w_fs) (key dir) ∧ k = key (name n)) as Hres.
  { intros k. rewrite Hk. by apply (lresolve_dirs touch). }
  unfold syscall in *. destruct (next_fault_spec (with_rand (S w.(w_rand)) w)) as [Hnf|(fl & fs & _ & Hnf)];
    rewrite Hnf in *; [|destruct fl; [done|]]; cbn [w_fs with_rand with_faults w_now] in *;
    (destruct (lresolve _ _) as [k|]; [destruct (Hres k) as [Hds ->]; [done|]|done]);
    (destruct (_ !! key (name n)) eqn:Hf; [done|]); simpl in Hr; simplify_eq/=;
    (split; [|done]; eexists; split; [done|]; rewrite app_cons; by intros [= ? _]).
Qed.

Lemma MkdirTemp_fails dir p w e w' : MkdirTemp dir p w = (Err e, w') → w'.(w_fs) = w.(w_fs).
Proof.
  unfold MkdirTemp. case_match; [by intros [= _ <-]|]. unfold syscall.
  destruct (next_fault_spec (with_rand (S w.(w_rand)) w)) as [->|(fl & fs & _ & ->)];
    [|destruct fl; [by intros [= _ <-]|]]; cbn [w_fs with_rand with_faults w_now];
    (destruct (lresolve _ _) as [k|]; [destruct (_ !! k)|]); by intros [= _ <-].
Qed.

(** ** What a program may write *)

(** Started where [touch] has no links, it changes files in [touch] only and
    removes none of the directories in [kept]; a [plain] one makes no link there. *)
Definition writes_within {A} (touch kept : list string → Prop) (p : prog world A) : Prop :=
  ∀ w, no_links touch w.(w_fs) →
    (∀ k, ¬ touch k → (run p w).2.(w_fs) !! k = w.(w_fs) !! k) ∧
    (∀ k, kept k → w.(w_fs) !! k = Some Dir → (run p w).2.(w_fs) !! k = Some Dir).
Definition plain_writes {A} (touch kept : list string → Prop) (p : prog world A) : Prop :=
  ∀ w, no_links touch w.(w_fs) → changes touch kept w.(w_fs) (run p w).2.(w_fs).

(** Everything but the files. *)
Definition not_files : list part :=
  [PTests; PRuns; PJobs; PShots; PEnv; PBlobs; PActive; PPaused; PCache; PDocker].

Lemma effects_fs {A} (p : prog world A) w : effects not_files p → (run p w).2.(w_fs) = w.(w_fs).
Proof. intros Hp. apply (Hp w PFiles). by apply (bool_decide_unpack _). Qed.

Section writes.
Variables touch kept : list string → Prop.

Lemma plain_effects {A} (p : prog world A) : effects not_files p → plain_writes touch kept p.
Proof. intros Hp w Hl. by rewrite effects_fs. Qed.

Lemma plain_ret {A} (a : A) : plain_writes touch kept (mret a).
Proof. by intros w Hl. Qed.

Lemma plain_bind {A B} (p : prog world A) (f : A → prog world B) :
  plain_writes touch kept p → (∀ a, plain_writes touch kept (f a)) → plain_writes touch kept (p ≫= f).
Proof.
  intros Hp Hf w Hl. rewrite run_bind. specialize (Hp w Hl). destruct (run p w) as [a w'].
  eapply changes_trans; [exact Hp|]. apply Hf, Hp.
Qed.

Lemma plain_prog {A} (p : prog world A) :
  (∀ w0, prog_ok (fs_frame touch kept (λ _, True) w0) p (λ _, True)) → plain_writes touch kept p.
Proof. intros Hp w Hl. destruct (prog_ok_run _ p _ w (Hp w)) as [[Hf _] _]; done. Qed.

Lemma plain_call {A} (m : act A) :
  (∀ w0, preserves (fs_frame touch kept (λ _, True) w0) m (λ _, True)) → plain_writes touch kept (call m).
Proof. intros Hm. apply plain_prog. intros w0. by apply prog_ok_call. Qed.

Lemma writes_plain {A} (p : prog world A) : plain_writes touch kept p → writes_within touch kept p.
Proof. intros Hp w Hl. destruct (Hp w Hl) as (? & _ & ?). by split. Qed.

(** Plain steps first, whatever they give; or nothing that writes afterwards. *)
Lemma writes_bind {A B} (p : prog world A) (f : A → prog world B) :
  plain_writes touch kept p → (∀ a, writes_within touch kept (f a)) → writes_within touch kept (p ≫= f).
Proof.
  intros Hp Hf w Hl. rewrite run_bind. specialize (Hp w Hl). destruct (run p w) as [a w'].
  destruct Hp as (Hs & Hl' & Hd). destruct (Hf a w' Hl') as [Hs' Hd'].
  split; [|auto]. intros k Hk. by rewrite Hs', Hs.
Qed.

Lemma writes_last {A B} (p : prog world A) (f : A → prog world B) :
  writes_within touch kept p → (∀ a, effects not_files (f a)) → writes_within touch kept (p ≫= f).
Proof.
  intros Hp Hf w Hl. rewrite run_bind. specialize (Hp w Hl). destruct (run p w) as [a w'].
  by rewrite effects_fs.
Qed.

Lemma writes_ret {A} (a : A) : writes_within touch kept (mret a).
Proof. done. Qed.
End writes.

Lemma true_insensitive : fs_insensitive (λ _, True).
Proof. done. Qed.
#[local] Hint Resolve true_insensitive : byot.

(** Walks like [effects_walk]; what touches no file is left to the footprints. *)
Create HintDb writes.
Ltac plain_walk :=
  repeat match goal with
  | |- ∀ _, _ => intro
  | |- plain_writes _ _ (mret _) => apply plain_ret
  | |- plain_writes _ _ (match ?x with _ => _ end) => destruct x eqn:?
  | |- plain_writes _ _ _ => solve [eauto 3 with writes]
  | |- plain_writes _ _ (call _) => apply plain_call; intros ?; solve [eauto 3 with byot]
  | |- plain_writes _ _ (_ ≫= _) => apply plain_bind
  | |- plain_writes _ _ ?p => progress cbv zeta
  end.

(** *** Everything a job does in its workspace stays there *)
Section workspace.
Context `{E : Ext} `{St : Storage} `{!StorageFrame St}.
Variable Duration_String : Z → string.
Variable box : Box.
Variable ws : string.
Hypothesis Hws : ws ≠ "".
Hypothesis Hup : ".." ∉ key ws.

Local Abbreviation inside := (at_or_above ws).
(** The directories the workspace is in. *)
Local Abbreviation above := (λ k, k `prefix_of` key ws ∧ k ≠ key ws).

Lemma inside_below l : ".." ∉ l → reaches inside (key ws ++ l).
Proof.
  intros Hl. split; [set_solver|]. intros a Ha.
  destruct (prefix_weak_total a (key ws) _ Ha) as [?|?]; [by exists l|by right|by left].
Qed.

Lemma inside_join c : good c → c ≠ ".." → reaches inside (key (PathJoin ws c)).
Proof. intros. rewrite key_join by done. apply inside_below. set_solver. Qed.

Lemma place_artifact_writes test content : plain_writes inside above (place_artifact test ws content).
Proof.
  assert (reaches inside (key (PathJoin ws "bundle.zip")) ∧ reaches inside (key (PathJoin ws "artifact"))) as [? ?]
    by (split; apply inside_join; done).
  unfold place_artifact. plain_walk.
  - apply plain_prog. intros w0. by apply UnzipFile_frame.
  - apply plain_call. intros w0. apply os_Remove_frame; [done..|]. rewrite key_join by done.
    intros [Hp%prefix_length _]. rewrite length_app in Hp. simpl in Hp. lia.
Qed.

Lemma stage_writes runtime : plain_writes inside above (StageSupportFiles runtime ws).
Proof.
  assert (key (PathJoin ws SupportDir) = key ws ++ [SupportDir]) as Hk by by apply key_join.
  assert (PathJoin ws SupportDir ≠ "") as Hne.
  { intros Hn. rewrite Hn in Hk. by destruct (key ws). }
  assert (∀ name, name ∈ ["byot_checks.py"; "run.sh"] →
    reaches inside (key (PathJoin (PathJoin ws SupportDir) name))) as Hn.
  { intros name Hin. rewrite !elem_of_cons, elem_of_nil in Hin.
    rewrite key_join, Hk, <-app_assoc; [|done|destruct Hin as [->|[->|[]]]; done..].
    apply inside_below. simpl. rewrite !elem_of_cons, elem_of_nil.
    intros [?|[Hd|[]]]; [done|]. destruct Hin as [->|[->|[]]]; done. }
  unfold StageSupportFiles, supportFiles. case_decide; [|apply plain_ret]. cbn [fmap list_fmap].
  apply plain_bind.
  - apply plain_call. intros w0. apply MkdirAll_frame; [done|]. rewrite Hk. apply inside_below. set_solver.
  - intros [u|e]; [|apply plain_ret]. unfold stage_all, WriteFile. plain_walk;
      apply plain_call; intros w0; (apply create_file_frame || apply write_file_frame); try done; apply Hn; set_solver.
Qed.

Lemma apply_files_outside files fs k :
  ¬ key ws `prefix_of` k → apply_files (key ws) files fs !! k = fs !! k.
Proof.
  intros Hk. unfold apply_files. revert fs. induction files as [|[rel [node|]] files IH]; intros fs; simpl; [done|..];
    rewrite IH; rewrite ?lookup_insert_ne, ?lookup_delete_ne; try done;
    intros <-; apply Hk; by exists rel.
Qed.

(** The container may leave links in the workspace, but not follow them out. *)
Lemma mount_writes elapsed files :
  writes_within inside above (call (modify (λ w, with_fs (mounted_files ws files w.(w_fs))
                                            (with_now (w.(w_now) + elapsed)%Z w)))).
Proof.
  intros w Hl. simpl. unfold mounted_files. destruct (resolve _ _) as [q|] eqn:Hq; [|done].
  apply (resolve_plain inside) in Hq as ->; [|done|].
  2:{ rewrite <-(app_nil_r (key ws)). apply inside_below. set_solver. }
  split; [intros k Hk; apply apply_files_outside; by contradict Hk; left|].
  intros k [Hp Hk] Hd. rewrite apply_files_outside; [done|]. contradict Hk. exact (anti_symm _ _ _ Hp Hk).
Qed.

Lemma Execute_writes j spec timeout :
  writes_within inside above (Execute Duration_String j ws spec timeout).
Proof.
  assert (∀ A (p : prog world A), effects not_files p → writes_within inside above p) as Hr
    by (intros; by apply writes_plain, plain_effects).
  unfold Execute. apply writes_bind; [apply plain_effects; by effects_walk|]. intros [m|]; [apply writes_ret|].
  apply writes_bind; [apply plain_effects; by effects_walk|]. intros [m|]; [apply writes_ret|].
  cbv zeta. destruct (do_start _) as [m|]; [apply writes_ret|].
  do 2 (apply writes_bind; [apply plain_effects; by effects_walk|]; intros ?).
  apply writes_last; [apply mount_writes|]. intros _. by effects_walk.
Qed.

Lemma in_workspace_writes job test content :
  writes_within inside above (in_workspace Duration_String box job test ws content).
Proof.
  unfold in_workspace. apply writes_bind; [apply plain_call; intros w0; by apply noop_frame|].
  intros [u|e]; [|apply writes_ret]. apply writes_bind; [apply place_artifact_writes|].
  intros [u'|e]; [|apply writes_ret]. destruct (GetRuntime _) as [spec|]; [|apply writes_ret].
  apply writes_bind; [apply stage_writes|]. intros r. apply writes_bind; [apply plain_ret|].
  intros [u2|e]; [|apply writes_ret]. apply writes_bind.
  { unfold ChownWorkspace. case_match; [apply plain_ret|apply plain_call; intros w0; by apply noop_frame]. }
  intros r'. apply writes_bind; [apply plain_ret|]. intros [u3|e]; [|apply writes_ret].
  apply writes_bind; [apply plain_effects; by apply loadEnv_effects|]. intros [[env sv]|e]; [|apply writes_ret].
  cbv zeta. apply writes_bind; [apply plain_effects; by effects_walk|]. intros now. unfold run_and_record.
  do 2 (apply writes_bind; [apply plain_effects; by effects_walk|]; intros ?).
  apply writes_last; [apply Execute_writes|]. intros [[output exitCode] execErr].
  effects_walk; first [by apply uploadScreenshots_effects|by apply send_alerts_effects].
Qed.
End workspace.

(** Every file is in a directory. *)
Definition fs_closed (fs : gmap (list string) fnode) : Prop :=
  ∀ k x, k ≠ [] → is_Some (fs !! (k ++ [x])) → is_Some (fs !! k).

Lemma fs_closed_under fs k l : fs_closed fs → k ≠ [] → fs !! k = None → fs !! (k ++ l) = None.
Proof.
  intros Hc Hk Hn. induction l as [|x l IH] using rev_ind; [by rewrite app_nil_r|].
  rewrite app_assoc. destruct (fs !! ((k ++ l) ++ [x])) eqn:E; [|done].
  destruct (Hc (k ++ l) x) as [n Hn']; [by destruct k|by eexists|]. congruence.
Qed.

Lemma mkdir_all_closed fs l : fs_closed fs → fs_closed (mkdir_all fs l).2.
Proof.
  revert fs. induction l as [|a l IH]; intros fs Hc; simpl; [done|].
  destruct (mkdir_at fs a) as [fs'|e] eqn:E; [|done]. apply IH. revert E. unfold mkdir_at.
  destruct (stat fs a) as [[]|]; try done; [by intros [= <-]|].
  unfold lresolve. destruct (last a) as [c|]; [|by destruct (fs !! []) eqn:E0; intros [= <-]; intros k x Hk;
    rewrite !lookup_insert_ne by (done || by destruct k); apply Hc].
  destruct (resolve fs _) as [d|]; [|done]. destruct (walkable fs d) eqn:Hw; [|done].
  destruct (fs !! (d ++ [c])) eqn:E; [done|]. intros [= <-] k x Hk Hs.
  apply lookup_insert_is_Some'. apply lookup_insert_is_Some' in Hs as [[-> _]%app_inj_2|Hs]; [|done|right; by eapply Hc].
  right. unfold walkable in Hw. rewrite bool_decide_eq_false_2 in Hw by done. simpl in Hw. by destruct (fs !! k).
Qed.

Lemma prefix_snoc_inv {A} (k l : list A) x : k `prefix_of` l ++ [x] → k `prefix_of` l ∨ k = l ++ [x].
Proof.
  intros [r Hr]. destruct r as [|y r _] using rev_ind; [right; by rewrite app_nil_r in Hr|].
  rewrite app_assoc in Hr. apply app_inj_2 in Hr as [-> _]; [|done]. left. by exists r.
Qed.

Lemma prefix_snoc_short {A} (l : list A) x : ¬ l ++ [x] `prefix_of` l.
Proof. intros Hp%prefix_length. rewrite length_app in Hp. simpl in Hp. lia. Qed.

Section job.
Context `{E : Ext} `{St : Storage} `{!StorageFrame St}.
Variable Duration_String : Z → string.
Variable box : Box.

(** What [os_RemoveAll] leaves at or below a directory: entries with something
    in them that the system does not remove. *)
Lemma RemoveAll_leaves p w k :
  lresolve w.(w_fs) (key p) = Some (key p) →
  let w' := (os_RemoveAll p w).2 in
  (¬ key p `prefix_of` k → w'.(w_fs) !! k = w.(w_fs) !! k) ∧
  (key p `prefix_of` k → is_Some (w'.(w_fs) !! k) →
   ∃ k', k `prefix_of` k' ∧ is_Some (w.(w_fs) !! k') ∧ ext_stuck w.(w_now) w.(w_fs) k' = true).
Proof.
  intros Hr. unfold os_RemoveAll. rewrite Hr. cbn [snd w_fs with_fs]. split.
  - intros Hk. rewrite map_lookup_filter. destruct (w_fs w !! k) as [n|]; simpl; [|done].
    by rewrite option_guard_True.
  - intros Hk [n (_ & Hs)%map_lookup_filter_Some]. destruct (Hs Hk) as (k' & n' & Hb & Ht).
    unfold below in Hb. apply map_lookup_filter_Some in Hb as [Hb Hp]. exists k'. eauto.
Qed.

(** [w'] differs from [w] only at or below the fresh directory [ws], where what
    is left has something in it that could not be removed. *)
Definition leaves_only (ws : list string) (w w' : world) : Prop :=
  (∀ k, ws `prefix_of` k → w.(w_fs) !! k = None) ∧
  (∀ k, ¬ ws `prefix_of` k → ¬ k `prefix_of` ws → w'.(w_fs) !! k = w.(w_fs) !! k) ∧
  (∀ k, ws `prefix_of` k → is_Some (w'.(w_fs) !! k) →
     ∃ now fs k', k `prefix_of` k' ∧ is_Some (fs !! k') ∧ ext_stuck now fs k' = true).

Lemma in_temp_dir root c p job test content w :
  root ≠ "" → c ≠ "."%char → ".." ∉ key root → fs_closed w.(w_fs) →
  no_links (λ a, a `prefix_of` key root) w.(w_fs) →
  let w' := (run (try workspace := call (MkdirTemp root (String c p)) in
                  r ← in_workspace Duration_String box job test workspace content;
                  _ ← call (os_RemoveAll workspace);
                  mret r) w).2 in
  w'.(w_fs) = w.(w_fs) ∨ ∃ x, leaves_only (key root ++ [x]) w w'.
Proof.
  intros Hroot Hc Hup Hcl Hl. rewrite run_bind, run_call.
  destruct (MkdirTemp root (String c p) w) as [[ws|e] w1] eqn:Hm.
  2:{ rewrite run_ret. left. by apply MkdirTemp_fails in Hm. }
  destruct (MkdirTemp_fresh (λ a, a `prefix_of` key root) root c p w ws) as ((x & Hx & Hxu) & Hds & Hnone & Hw1);
    [done..|by rewrite Hm|].
  rewrite Hm in Hw1. cbn [snd] in Hw1. right. exists x. rewrite <-Hx.
  assert (ws ≠ "") as Hws by (intros ->; by destruct (key root)).
  assert (".." ∉ key ws) as Hwu by (rewrite Hx; set_solver).
  assert (∀ k, key ws `prefix_of` k → w.(w_fs) !! k = None) as Hfree.
  { intros k [l ->]. apply fs_closed_under; [done|by rewrite Hx; destruct (key root)|done]. }
  assert (no_links (at_or_above ws) w1.(w_fs)) as Hl1.
  { rewrite Hw1. intros k Hk. destruct (decide (k = key ws)) as [->|Hne]; [by rewrite lookup_insert_eq|].
    rewrite lookup_insert_ne by done. destruct Hk as [Hk|Hk]; [by rewrite Hfree|].
    rewrite Hx in Hk. apply prefix_snoc_inv in Hk as [Hk|Hk]; [by apply Hl|congruence]. }
  rewrite run_bind. destruct (in_workspace_writes Duration_String box ws Hws Hwu job test content w1 Hl1) as [Ho Hd].
  destruct (run (in_workspace _ _ _ _ _ _) w1) as [r w2]. cbn [snd] in Ho, Hd.
  rewrite run_call_bind. destruct (os_RemoveAll ws w2) as [x' w3] eqn:Hr. rewrite run_ret. cbn [snd].
  assert (lresolve w2.(w_fs) (key ws) = Some (key ws)) as Hres.
  { rewrite Hx. apply lresolve_some; [|done]. eapply dirs_to_kept; [|exact Hds]. intros a Ha Hdir. apply Hd.
    - rewrite Hx. split; [by apply prefix_app_r|intros ->; by apply prefix_snoc_short in Ha].
    - rewrite Hw1, lookup_insert_ne; [done|]. intros <-. congruence. }
  pose proof (λ k, RemoveAll_leaves ws w2 k Hres) as Hrem. rewrite Hr in Hrem. cbn [snd] in Hrem.
  split; [done|]. split.
  - intros k Hk Hk'. destruct (Hrem k) as [Hsame _]. rewrite Hsame, Ho by (done || by intros [?|?]).
    rewrite Hw1, lookup_insert_ne; [done|]. intros <-. by apply Hk.
  - intros k Hk Hs. destruct (Hrem k) as [_ Hst]. destruct (Hst Hk Hs) as (k' & ? & ? & ?). eauto 10.
Qed.

(** The places a workspace root can be. *)
Definition roots : list string := ["/tmp"; ext_getenv "WORKSPACE_DIR"].

(** On the way to a workspace root. *)
Definition to_a_root (k : list string) : Prop := ∃ d, d ∈ roots ∧ k `prefix_of` key d.

(** Where the workspaces go, and the files then. *)
Lemma workspaceRoot_run w :
  (∀ d, d ∈ roots → ".." ∉ key d) → no_links to_a_root w.(w_fs) →
  let '(root, w') := run workspaceRoot w in
  root ∈ roots ∧ root ≠ "" ∧ changes to_a_root (λ _, False) w.(w_fs) w'.(w_fs) ∧
  (fs_closed w.(w_fs) → fs_closed w'.(w_fs)) ∧
  ∀ k, is_Some (w.(w_fs) !! k) → is_Some (w'.(w_fs) !! k).
Proof.
  intros Hup Hl. unfold workspaceRoot, roots in *. case_decide as Hd; [rewrite run_ret; split; [left|done]|].
  rewrite run_bind, run_call. set (d := ext_getenv "WORKSPACE_DIR") in *.
  assert (reaches to_a_root (key d)) as Hr.
  { split; [apply Hup; right; left|]. intros a Ha. exists d. split; [right; left|done]. }
  assert (let '(r, w') := MkdirAll d w in changes to_a_root (λ _, False) w.(w_fs) w'.(w_fs) ∧
    (fs_closed w.(w_fs) → fs_closed w'.(w_fs)) ∧ ∀ k, is_Some (w.(w_fs) !! k) → is_Some (w'.(w_fs) !! k)) as Hm.
  { unfold MkdirAll, syscall. destruct (next_fault_spec w) as [->|(fl & fs & _ & ->)];
      [|destruct fl; [done|]]; cbn [w_fs with_faults w_now];
      (pose proof (mkdir_all_changes to_a_root (λ _, False) w.(w_fs) (ancestors (key d)) Hl) as Hm;
       pose proof (mkdir_all_closed w.(w_fs) (ancestors (key d))) as Hcl;
       destruct (mkdir_all _ _) as [r fs']; split; [|split; [exact Hcl|]]; apply Hm; intros a Ha%elem_of_ancestors; by eapply reaches_prefix). }
  destruct (MkdirAll d w) as [[u|e] w']; rewrite run_ret;
    (split; [|split; [done|exact Hm]]); [right; left|left].
Qed.

(** C13: what a job leaves of the files.  Run alone, with no symbolic link on the
    way to the workspace roots, whatever its test does and whichever call fails:
    no file outside the job's own workspace is changed, but for directories on the
    way to a root; the workspace is a name that was free, directly in a root; and
    nothing is left of it, unless the system refuses to remove something in it
    ([executeJob] ignores that error), and then only that and the directories it
    is in. *)
Theorem executeJob_leaves_no_file job w :
  fs_closed w.(w_fs) → (∀ d, d ∈ roots → ".." ∉ key d) → no_links to_a_root w.(w_fs) →
  let w' := (run (executeJob Duration_String box job) w).2 in
  ((∀ now fs k, ext_stuck now fs k = false) →
   ∀ k, ¬ to_a_root k → w'.(w_fs) !! k = w.(w_fs) !! k) ∧
  ((∀ k, ¬ to_a_root k → w'.(w_fs) !! k = w.(w_fs) !! k) ∨
   ∃ d x, d ∈ roots ∧
     (∀ k, key d ++ [x] `prefix_of` k → w.(w_fs) !! k = None) ∧
     (∀ k, ¬ to_a_root k → ¬ key d ++ [x] `prefix_of` k → w'.(w_fs) !! k = w.(w_fs) !! k) ∧
     (∀ k, key d ++ [x] `prefix_of` k → is_Some (w'.(w_fs) !! k) →
        ∃ now fs k', k `prefix_of` k' ∧ is_Some (fs !! k') ∧ ext_stuck now fs k' = true)).
Proof.
  intros Hc Hup Hl. cbv zeta. set (w' := (run _ w).2).
  assert ((∀ k, ¬ to_a_root k → w'.(w_fs) !! k = w.(w_fs) !! k) ∨
    ∃ d x, d ∈ roots ∧
     (∀ k, key d ++ [x] `prefix_of` k → w.(w_fs) !! k = None) ∧
     (∀ k, ¬ to_a_root k → ¬ key d ++ [x] `prefix_of` k → w'.(w_fs) !! k = w.(w_fs) !! k) ∧
     (∀ k, key d ++ [x] `prefix_of` k → is_Some (w'.(w_fs) !! k) →
        ∃ now fs k', k `prefix_of` k' ∧ is_Some (fs !! k') ∧ ext_stuck now fs k' = true)) as Hmain.
  2:{ split; [|exact Hmain]. intros Hns k Hk. destruct Hmain as [H|(d & x & _ & Hfree & Ho & Hst)]; [by apply H|].
      destruct (decide (key d ++ [x] `prefix_of` k)) as [Hp|Hp]; [|by apply Ho].
      rewrite (Hfree k Hp). apply eq_None_not_Some. intros (now & fs & k' & _ & _ & Hs)%(Hst k Hp).
      by rewrite Hns in Hs. }
  unfold w'. clear w'. unfold executeJob. rewrite run_bind.
  pose proof (effects_fs (call (TestRepo.GetByID (Job.TestID job))) w ltac:(effects_walk)) as H1.
  destruct (run (call _) w) as [[test|e] w1]; cbn [snd] in H1; [|rewrite run_ret; simpl; rewrite H1; by left].
  rewrite run_bind. set (a := if decide _ then _ else _).
  pose proof (effects_fs (DownloadBlob a) w1 ltac:(effects_walk)) as H2.
  destruct (run (DownloadBlob a) w1) as [[content|e] w2]; cbn [snd] in H2; [|rewrite run_ret; simpl; rewrite H2, H1; by left].
  rewrite H1 in H2. rewrite <-H2 in Hl. rewrite run_bind. pose proof (workspaceRoot_run w2 Hup Hl) as H3. rewrite H2 in H3, Hl.
  destruct (run workspaceRoot w2) as [root w3]. destruct H3 as (Hin & Hne & (Hsame & Hl3 & _) & Hc3 & Hmono).
  change ("run-" +:+ Test.UUID test +:+ "-") with (String "r" ("un-" +:+ Test.UUID test +:+ "-")).
  destruct (in_temp_dir root "r" ("un-" +:+ Test.UUID test +:+ "-") job test content w3) as [Heq|(x & Hfree & Ho & Hst)];
    [done|done|by apply Hup|by apply Hc3|intros k Hk; apply Hl3; by exists root|left|right].
  - intros k Hk. by rewrite Heq, Hsame.
  - exists root, x. split; [done|]. split; [|split; [|exact Hst]].
    + intros k Hk. specialize (Hfree k Hk). apply eq_None_not_Some. intros Hs%Hmono.
      rewrite Hfree in Hs. by destruct Hs.
    + intros k Hk Hp. rewrite Ho; [by apply Hsame|done|]. intros [Hp'|Hp']%prefix_snoc_inv.
      * apply Hk. by exists root.
      * by rewrite Hp' in Hp.
Qed.
End job.
