(* ===== verification/Jobs.v ===== *)
(** * What a job leaves behind

    The outcome of a job in the queue, and of its run in the run table and the
    bucket, with whatever fails on the way. *)

From S2P Require Import Prelude.
From S2P Require Import Prog.
From S2P Require Import GoStrings.
From S2P Require Import Model.
From S2P Require Import World.
From S2P Require Import TestRepo.
From S2P Require Import JobRepo.
From S2P Require Import RunRepo.
From S2P Require Import Secrets.
From S2P Require Import Runtime.
From S2P Require Import Storage.
From S2P Require Import Screenshots.
From S2P Require Import Worker.
From S2P Require Import Effects.

Section jobs.
Context `{E : Ext} `{St : Storage} `{!StorageCore St}.
Variable Duration_String : Z → string.
Variable box : Box.

(** What [Complete] leaves of the jobs. *)
Lemma Complete_jobs id status msg w :
  let w' := (Queue.Complete id status msg w).2 in
  w'.(w_db).(d_jobs) = w.(w_db).(d_jobs) ∨
  w'.(w_db).(d_jobs) = alter (set_job_status status w.(w_now) msg) id w.(w_db).(d_jobs).
Proof.
  unfold Queue.Complete, mbind, M_bind, JobRepo.UpdateStatus. sql_cases; [by left|by right].
Qed.

Lemma effects_jobs {A} ps (p : prog world A) w :
  effects ps p → may PJobs ps = false → (run p w).2.(w_db).(d_jobs) = w.(w_db).(d_jobs).
Proof. intros Hp Hm%bool_decide_eq_false. by apply (Hp w PJobs). Qed.

Definition worker_parts : list part := [PTests; PRuns; PShots; PBlobs; PFiles; PActive; PDocker].

(** [GetStatus] only reads: what it says of cancellation, and the world after. *)
Lemma GetStatus_reads id w :
  let '(cur, w') := Queue.GetStatus id w in
  (∃ fs, w' = with_faults fs w) ∧
  ((∀ j, w.(w_db).(d_jobs) !! id = Some j → j.(Job.Status) ≠ "cancelled") → cancelled cur = false) ∧
  (w.(w_faults) = [] → w' = w ∧
    ((∃ j, w.(w_db).(d_jobs) !! id = Some j ∧ j.(Job.Status) = "cancelled") → cancelled cur = true)).
Proof.
  unfold Queue.GetStatus, JobRepo.GetByID. destruct (sql_query _ w) as [cur w'] eqn:Hq.
  split; [|split].
  - revert Hq. sql_cases; intros [= _ <-]; eexists; [done|]. by destruct w.
  - intros Hn. revert Hq. sql_cases; intros [= <- _]; [done|].
    destruct (_ !! id) as [j|] eqn:Hj; [|done]. by apply bool_decide_eq_false_2, Hn.
  - intros Hf. rewrite query_no_fault in Hq by done. injection Hq as <- <-. split; [done|].
    intros (j & -> & Hs). by apply bool_decide_eq_true_2.
Qed.

Lemma Complete_runs id status msg w :
  w.(w_faults) = [] → (Queue.Complete id status msg w).2.(w_db).(d_jobs) =
    alter (set_job_status status w.(w_now) msg) id w.(w_db).(d_jobs).
Proof. intros Hf. unfold Queue.Complete, mbind, M_bind, JobRepo.UpdateStatus. by rewrite sql_no_fault. Qed.

(** C9: a worker reports what happened.  With [r] the result of [executeJob] as it
    is run: the queue is afterwards as before, or this job, and no other, is
    completed if [r] is no error, and failed with the message of [r] if it is one.
    A job found cancelled is not run at all.  One that is not cancelled does
    become completed or failed, unless a statement after the run fails. *)
Theorem handleJob_outcome job w :
  let id := job.(Job.UUID) in
  let jobs := w.(w_db).(d_jobs) in
  let w1 := (Queue.GetStatus id w).2 in
  let '(r, w2) := run (executeJob Duration_String box job) w1 in
  let '(status, msg) := match r with Ok _ => ("completed", None) | Err e => ("failed", Some (Error e)) end in
  let finished := alter (set_job_status status w2.(w_now) msg) id jobs in
  let w' := (run (handleJob Duration_String box job) w).2 in
  (w'.(w_db).(d_jobs) = jobs ∨ w'.(w_db).(d_jobs) = finished) ∧
  (w.(w_faults) = [] → (∃ j, jobs !! id = Some j ∧ j.(Job.Status) = "cancelled") → w' = w) ∧
  (w2.(w_faults) = [] → (∀ j, jobs !! id = Some j → j.(Job.Status) ≠ "cancelled") →
   w'.(w_db).(d_jobs) = finished).
Proof.
  cbv zeta. set (id := Job.UUID job). unfold handleJob. fold id. rewrite run_call_bind.
  pose proof (GetStatus_reads id w) as H1.
  destruct (Queue.GetStatus id w) as [cur w1]. destruct H1 as ((fs & ->) & Hnc & Hf1). cbn [snd].
  set (w1 := with_faults fs w) in *.
  pose proof (effects_jobs worker_parts (executeJob Duration_String box job) w1
    ltac:(by apply executeJob_effects) eq_refl) as Hj.
  destruct (run (executeJob _ _ _) w1) as [r w2] eqn:Hr. cbn [snd] in Hj.
  change (w_db w1) with (w_db w) in Hj.
  destruct (cancelled cur) eqn:Hcur.
  { rewrite run_ret. destruct r; (split; [by left|]; split; [intros Hf _; by apply Hf1|]); intros _ Hn; by apply Hnc in Hn. }
  rewrite run_bind, Hr, run_call_bind. pose proof (GetStatus_reads id w2) as H3.
  destruct (Queue.GetStatus id w2) as [cur' w3]. destruct H3 as ((fs' & ->) & Hnc' & Hf3). rewrite Hj in Hnc'.
  set (w3 := with_faults fs' w2) in *.
  assert (∀ status msg (x : unit), let w' := (run (_ ← call (Queue.Complete id status msg); mret x) w3).2 in
    (w'.(w_db).(d_jobs) = w.(w_db).(d_jobs) ∨
     w'.(w_db).(d_jobs) = alter (set_job_status status w2.(w_now) msg) id w.(w_db).(d_jobs)) ∧
    (w2.(w_faults) = [] → w'.(w_db).(d_jobs) = alter (set_job_status status w2.(w_now) msg) id w.(w_db).(d_jobs)))
    as Hc.
  { intros status msg x. rewrite run_call_bind, <-Hj.
    pose proof (Complete_jobs id status msg w3) as Hc. pose proof (Complete_runs id status msg w3) as Hcr.
    destruct (Queue.Complete _ _ _ w3) as [y w4]. rewrite run_ret. cbn [snd] in *. split; [exact Hc|].
    intros Hf. apply Hcr. by destruct (Hf3 Hf) as [-> _]. }
  assert (w.(w_faults) = [] → (∃ j, w.(w_db).(d_jobs) !! id = Some j ∧ j.(Job.Status) = "cancelled") → False) as Hno.
  { intros Hf Hj'. destruct (Hf1 Hf) as [_ Ht]. by specialize (Ht Hj'). }
  destruct (cancelled cur') eqn:Hcur'.
  { rewrite run_ret. destruct r; (split; [by left|]; split; [intros Hf Hj'; by destruct (Hno Hf Hj')|]);
      intros _ Hn; by apply Hnc' in Hn. }
  destruct r as [u|e]; (split; [apply Hc|]; split; [intros Hf Hj'; by destruct (Hno Hf Hj')|]); intros Hf _; by apply Hc.
Qed.

(** ** The objects of a run *)

Definition blobs_within {A} (keys : string → Prop) (p : prog world A) : Prop :=
  ∀ w k, ¬ keys k → (run p w).2.(w_blobs) !! k = w.(w_blobs) !! k.

Lemma blobs_bind {A B} keys (p : prog world A) (f : A → prog world B) :
  blobs_within keys p → (∀ a, blobs_within keys (f a)) → blobs_within keys (p ≫= f).
Proof.
  intros Hp Hf w k Hk. rewrite run_bind. specialize (Hp w k Hk). destruct (run p w) as [a w'].
  by rewrite Hf.
Qed.

(** Everything but the bucket. *)
Definition not_blobs : list part :=
  [PTests; PRuns; PJobs; PShots; PEnv; PFiles; PActive; PPaused; PCache; PDocker].

Lemma effects_blobs {A} (p : prog world A) w : effects not_blobs p → (run p w).2.(w_blobs) = w.(w_blobs).
Proof. intros Hp. apply (Hp w PBlobs). by apply (bool_decide_unpack _). Qed.

Lemma blobs_effects {A} keys (p : prog world A) : effects not_blobs p → blobs_within keys p.
Proof. intros Hp w k _. by rewrite effects_blobs. Qed.

Lemma blobs_for_each {A} keys (l : list A) body :
  (∀ x, x ∈ l → blobs_within keys (body x)) → blobs_within keys (for_each l body).
Proof.
  induction l as [|x l IH]; intros H; simpl; [done|].
  apply blobs_bind; [apply H; left|]. intros _. apply IH. intros y Hy. apply H. by right.
Qed.

Definition run_folder (testUUID runID : string) : string := testUUID +:+ "/log/" +:+ runID +:+ "/".

(** Screenshots go to the run's folder, and never over its log. *)
Definition screenshot_key (testUUID runID k : string) : Prop :=
  under (run_folder testUUID runID) k ∧ k ≠ log_key testUUID runID.

Lemma screenshot_key_join t r rel :
  rel ≠ "log" → screenshot_key t r (t +:+ "/log/" +:+ r +:+ "/" +:+ rel).
Proof.
  intros Hrel. unfold screenshot_key, under, run_folder, log_key. split.
  - apply HasPrefix_true. exists rel. by rewrite !str_app_assoc.
  - intros Heq. apply Hrel. apply (inj (String.append t)), (inj (String.append "/log/")),
      (inj (String.append r)) in Heq. by injection Heq.
Qed.

Lemma changed_images_not_log ws fs before p : p ∈ changed_images ws fs before → p ≠ "log".
Proof.
  unfold changed_images. case_match; [apply newScreenshots_not_log|by intros ?%elem_of_nil].
Qed.

Lemma uploadScreenshots_blobs ws before t r :
  blobs_within (screenshot_key t r) (uploadScreenshots ws before t r).
Proof.
  unfold uploadScreenshots. apply blobs_bind; [apply blobs_effects; by effects_walk|]. intros fs.
  apply blobs_for_each. intros rel Hrel%changed_images_not_log. unfold uploadScreenshotFile.
  apply blobs_bind; [|intros ?; apply blobs_effects; by effects_walk].
  apply blobs_bind; [apply blobs_effects, effects_call, syscall_effects; done|].
  intros [c|e]; [|apply blobs_effects; by effects_walk]. apply blobs_bind.
  - intros w k Hk. pose proof (upload_blob_run (t +:+ "/log/" +:+ r +:+ "/" +:+ rel) c w) as Hu.
    destruct (run (UploadBlob _ _) w) as [[k'|e] w']; simpl;
      [destruct Hu as [_ ->]|destruct Hu as [->| ->]; [done|]];
      (rewrite lookup_insert_ne; [done|]); intros <-; by apply Hk, screenshot_key_join.
  - intros x. apply blobs_effects. by effects_walk.
Qed.

(** What [UploadLog] leaves in the bucket and returns. *)
Lemma UploadLog_blobs t rid c w :
  let '(up, w') := run (UploadLog t rid c) w in
  let url := match up with Ok k => k | Err _ => "" end in
  (∀ k, k ≠ log_key t rid → w'.(w_blobs) !! k = w.(w_blobs) !! k) ∧
  (w'.(w_blobs) = w.(w_blobs) ∨ w'.(w_blobs) !! log_key t rid = Some c) ∧
  (url ≠ "" → url = log_key t rid ∧ w'.(w_blobs) !! log_key t rid = Some c) ∧
  w'.(w_db) = w.(w_db).
Proof.
  pose proof (upload_log_run t rid c w) as Hu.
  destruct (storage_run_step (UploadLog t rid c) w) as (b & f & h & Hs); [intros; by apply upload_log_ok|].
  destruct (run (UploadLog t rid c) w) as [[k|e] w']; cbn [snd] in Hs.
  - destruct Hu as [-> ->]. rewrite lookup_insert_eq. split; [intros k Hk; by rewrite lookup_insert_ne|].
    split; [by right|]. split; [done|]. by rewrite Hs.
  - split; [|split; [|split; [done|by rewrite Hs]]].
    + intros k Hk. destruct Hu as [->| ->]; [done|by rewrite lookup_insert_ne].
    + destruct Hu as [->| ->]; [by left|right]. by rewrite lookup_insert_eq.
Qed.

Lemma run_Create_runs row w :
  let w' := (TestRunRepo.Create row w).2 in
  w'.(w_db).(d_runs) = w.(w_db).(d_runs) ∨
  w'.(w_db).(d_runs) = <[row.(TestRun.UUID) := row]> w.(w_db).(d_runs).
Proof. unfold TestRunRepo.Create. sql_cases; [by left|]. repeat case_match; simpl; auto. Qed.

(** The rest of [run_and_record] once the row is written. *)
Lemma after_row_blobs_runs test ws before rid status (fin : res unit) w :
  let p :=
    _ ← (if decide (test.(Test.Runtime) = "playwright")
         then uploadScreenshots ws before test.(Test.UUID) rid else mret tt);
    alertInfo ← call (TestRepo.RecordRunOutcome test.(Test.UUID) status);
    _ ← (match alertInfo with Ok (Some a) => send_alerts test rid a | _ => mret tt end);
    mret fin in
  let w' := (run p w).2 in
  w'.(w_db).(d_runs) = w.(w_db).(d_runs) ∧
  ∀ k, (test.(Test.Runtime) = "playwright" → ¬ screenshot_key test.(Test.UUID) rid k) →
    w'.(w_blobs) !! k = w.(w_blobs) !! k.
Proof.
  intros p w'. split.
  - assert (effects [PBlobs; PShots; PTests] p) as Hp.
    { unfold p. effects_walk; first [by apply uploadScreenshots_effects|by apply send_alerts_effects]. }
    apply (Hp w PRuns). by apply (bool_decide_unpack _).
  - intros k Hk.
    apply (blobs_bind (λ k, test.(Test.Runtime) = "playwright" ∧ screenshot_key test.(Test.UUID) rid k)); [| |tauto].
    + case_decide; [|by intros ?]. intros w0 k0 Hk0. apply uploadScreenshots_blobs. tauto.
    + intros _. apply blobs_effects. effects_walk; by apply send_alerts_effects.
Qed.

(** C8: only the redacted log is stored.  Whatever fails, a run adds at most one
    row and touches no object outside its folder, only the log unless it takes
    screenshots; the log that is stored, and the size in the row, are those of the
    redacted output; the row says [pass] exactly when the container exited with 0
    and without an error; and it only points to a log that is there. *)
Theorem run_stores_redacted_log job test ws spec secretValues timeout w :
  let '((output, exitCode), execErr) := (run (Execute Duration_String job.(Job.UUID) ws spec timeout) w).1 in
  let log := Redact output secretValues in
  let w' := (run (run_and_record Duration_String job test ws spec secretValues timeout) w).2 in
  ∃ rid, let key := log_key test.(Test.UUID) rid in
    (∀ k, ¬ under (run_folder test.(Test.UUID) rid) k → w'.(w_blobs) !! k = w.(w_blobs) !! k) ∧
    (test.(Test.Runtime) ≠ "playwright" → ∀ k, k ≠ key → w'.(w_blobs) !! k = w.(w_blobs) !! k) ∧
    (w'.(w_blobs) !! key = w.(w_blobs) !! key ∨ w'.(w_blobs) !! key = Some log) ∧
    (w'.(w_db).(d_runs) = w.(w_db).(d_runs) ∨
     ∃ row, w'.(w_db).(d_runs) = <[rid := row]> w.(w_db).(d_runs) ∧
       row.(TestRun.UUID) = rid ∧ row.(TestRun.TestID) = test.(Test.UUID) ∧
       (row.(TestRun.Status) = "pass" ↔ exitCode = 0%Z ∧ execErr = None) ∧
       row.(TestRun.LogSizeBytes) = len log ∧
       (row.(TestRun.LogURL) ≠ "" → row.(TestRun.LogURL) = key ∧ w'.(w_blobs) !! key = Some log)).
Proof.
  unfold run_and_record. rewrite run_bind.
  assert (∃ before, run (if decide (test.(Test.Runtime) = "playwright")
    then fs ← call (gets w_fs); mret (workspace_images ws fs) else mret ∅) w = (before, w))
    as [before ->] by (case_decide; eauto).
  rewrite run_call_bind. cbn [Now gets]. rewrite run_bind.
  pose proof (Execute_effects [PActive; PFiles; PDocker] Duration_String (Job.UUID job) ws spec timeout eq_refl eq_refl eq_refl w) as Hex.
  destruct (run (Execute _ _ _ _ _) w) as [[[output exitCode] execErr] w1]. cbn [fst snd] in *.
  assert (w1.(w_blobs) = w.(w_blobs) ∧ w1.(w_db).(d_runs) = w.(w_db).(d_runs)) as [Hb Hr].
  { split; [apply (Hex PBlobs)|apply (Hex PRuns)]; by apply (bool_decide_unpack _). }
  clear Hex. rewrite run_call_bind. cbn [Now gets]. rewrite run_call_bind. cbn [NewString].
  set (rid := ext_uuid _). set (log := Redact output secretValues). exists rid.
  rewrite run_bind. set (w2 := with_uuids _ _).
  change (w_blobs w1) with (w_blobs w2) in Hb. change (w_db w1) with (w_db w2) in Hr.
  pose proof (UploadLog_blobs (Test.UUID test) rid log w2) as Hup.
  destruct (run (UploadLog _ _ _) w2) as [up w3].
  set (url := match up with Ok k => k | Err _ => "" end) in *.
  destruct Hup as (Hother & Hlog & Hurl & Hdb).
  set (status := if _ || _ then "fail" else "pass").
  set (row := TestRun.mk _ _ _ _ _ _ _ _). rewrite run_call_bind.
  pose proof (run_Create_runs row w3) as Hrow.
  pose proof (run_Create_effects [PRuns] row eq_refl w3 PBlobs ltac:(by apply (bool_decide_unpack _))) as Hb4.
  destruct (TestRunRepo.Create row w3) as [r w4]. cbn [fst snd same] in Hrow, Hb4. set (fin := run _ w4).
  assert (fin.2.(w_db).(d_runs) = w4.(w_db).(d_runs) ∧
    ∀ k, (test.(Test.Runtime) = "playwright" → ¬ screenshot_key test.(Test.UUID) rid k) →
      fin.2.(w_blobs) !! k = w4.(w_blobs) !! k) as [Hfr Hfb].
  { unfold fin. destruct r as [u|e]; [apply after_row_blobs_runs|by rewrite run_ret]. }
  clearbody fin. destruct fin as [res w']. cbn [snd] in *. cbn zeta. rewrite Hb4 in Hfb.
  assert (w'.(w_blobs) !! log_key (Test.UUID test) rid = w3.(w_blobs) !! log_key (Test.UUID test) rid) as Hkey.
  { apply Hfb. by intros _ [_ ?]. }
  rewrite Hkey. split; [|split; [|split]].
  - intros k Hk. rewrite Hfb by (intros _ [? _]; done). rewrite Hother, Hb; [done|].
    intros ->. apply Hk. unfold under, log_key, run_folder. apply HasPrefix_true. exists "log".
    by rewrite !str_app_assoc.
  - intros Hn k Hk. rewrite Hfb by done. by rewrite Hother, Hb.
  - rewrite <-Hb. destruct Hlog as [->| ?]; [by left|by right].
  - rewrite Hfr, <-Hr, <-Hdb. destruct Hrow as [->|Hrow]; [by left|right]. exists row.
    split; [done|]. split; [done|]. split; [done|]. split; [|split; [done|exact Hurl]].
    simpl. unfold status. rewrite bool_decide_not. destruct (Z.eqb_spec exitCode 0), (decide (execErr = None)) as [He|He];
      rewrite ?(bool_decide_true _ He), ?(bool_decide_false _ He); simpl; split; try done; intros []; done.
Qed.
End jobs.
