(* ===== verification/Invariants.v ===== *)
(** * The database invariant

    [db_ok] says what the tables always satisfy: every row is stored under its
    key, refers to rows that exist, and has one of the shapes the code relies
    on.  [sys_ok] adds what ties the tables to the past: a job that a worker has
    claimed is never queued again.  This file proves that every repository
    method preserves them. *)

From S2P Require Import Prelude.
From S2P Require Import Prog.
From S2P Require Import GoStrings.
From S2P Require Import Model.
From S2P Require Import World.
From S2P Require Import TestRepo.
From S2P Require Import JobRepo.
From S2P Require Import RunRepo.
From S2P Require Import Secrets.
From S2P Require Import Paths.
From S2P Require Import Storage.

(** ** Rows *)

Record test_ok (k : string) (r : TestRow.t) : Prop := {
  to_key : r.(TestRow.uuid) = k;
  to_fits : fits_row r = true;
  (** an enabled schedule has a cron and a next run *)
  to_schedule : r.(TestRow.schedule_enabled) = true →
    is_Some r.(TestRow.schedule_cron) ∧ is_Some r.(TestRow.next_run_at);
  to_threshold : (0 < r.(TestRow.failure_threshold))%Z;
  to_streak : (0 ≤ r.(TestRow.consecutive_failures))%Z;
  to_alert : r.(TestRow.alert_active) = true → (0 < r.(TestRow.consecutive_failures))%Z
}.

(** The life of a job, read off its row. *)
Definition job_shape (j : Job.t) : Prop :=
  (j.(Job.Status) = "queued" ∧ j.(Job.StartedAt) = None ∧ j.(Job.FinishedAt) = None ∧ j.(Job.WorkerID) = None) ∨
  (j.(Job.Status) = "running" ∧ is_Some j.(Job.StartedAt) ∧ j.(Job.FinishedAt) = None ∧ is_Some j.(Job.WorkerID)) ∨
  (j.(Job.Status) ∈ ["completed"; "failed"; "cancelled"] ∧ is_Some j.(Job.FinishedAt)).

Definition tests_ok (m : gmap string TestRow.t) : Prop := map_Forall test_ok m.
Definition runs_ok (tests : gset string) (m : gmap string TestRun.t) : Prop :=
  map_Forall (λ k r, r.(TestRun.UUID) = k ∧ r.(TestRun.TestID) ∈ tests ∧
                     r.(TestRun.Status) ∈ ["pass"; "fail"]) m.
Definition jobs_ok (tests : gset string) (m : gmap string Job.t) : Prop :=
  map_Forall (λ k j, j.(Job.UUID) = k ∧ j.(Job.TestID) ∈ tests ∧ job_shape j) m.
Definition shots_ok (runs : gset string) (m : gmap string Screenshot.t) : Prop :=
  map_Forall (λ k s, s.(Screenshot.UUID) = k ∧ s.(Screenshot.RunID) ∈ runs) m.
Definition env_ok (tests : gset string) (d : db) : Prop :=
  map_Forall (λ k v, v.(EnvVar.Name) = k.2 ∧ k.1 ∈ tests) d.(d_env) ∧
  ∀ t, size (env_of t d) ≤ MaxVars.

Record db_ok (d : db) : Prop := {
  ok_tests : tests_ok d.(d_tests);
  ok_runs : runs_ok (dom d.(d_tests)) d.(d_runs);
  ok_jobs : jobs_ok (dom d.(d_tests)) d.(d_jobs);
  ok_shots : shots_ok (dom d.(d_runs)) d.(d_shots);
  ok_env : env_ok (dom d.(d_tests)) d
}.

(** ** The past *)

(** The jobs that were handed to a worker, oldest first. *)
Definition claims (w : world) : list string :=
  omap (λ e, match e with EvDequeued j _ => Some j | _ => None end) w.(w_events).

(** No statement brings a job back to the queue, or a new one under an old key. *)
Definition jobs_advance (d d' : db) : Prop :=
  ∀ k j', d'.(d_jobs) !! k = Some j' → ∃ j, d.(d_jobs) !! k = Some j ∧
    (j'.(Job.Status) = "queued" → j.(Job.Status) = "queued").

Section invariant.
Context `{Ext}.

Definition issued (w : world) (k : string) : Prop := ∃ n, n < w.(w_uuids) ∧ ext_uuid n = k.

Record sys_ok (w : world) : Prop := {
  so_db : db_ok w.(w_db);
  so_claims : NoDup (claims w);
  so_claimed : ∀ k j, k ∈ claims w → w.(w_db).(d_jobs) !! k = Some j → j.(Job.Status) ≠ "queued";
  so_jobs_issued : ∀ k, is_Some (w.(w_db).(d_jobs) !! k) → issued w k;
  so_claims_issued : ∀ k, k ∈ claims w → issued w k
}.
End invariant.

(** ** Lemmas: each table by itself *)

Lemma dom_alter_tests f k (m : gmap string TestRow.t) : dom (alter f k m) = dom m.
Proof. apply dom_alter_L. Qed.

Lemma tests_ok_alter f k m :
  (∀ r, m !! k = Some r → test_ok k r → test_ok k (f r)) → tests_ok m → tests_ok (alter f k m).
Proof.
  intros Hf Hm k' r. destruct (decide (k = k')) as [<-|Hne].
  - rewrite lookup_alter_eq. destruct (m !! k) as [r0|] eqn:E; [|done]. intros [= <-]. eauto.
  - rewrite lookup_alter_ne by done. apply Hm.
Qed.

Lemma tests_ok_insert k r m : test_ok k r → tests_ok m → tests_ok (<[k:=r]> m).
Proof. intros. by apply map_Forall_insert_2. Qed.

Lemma runs_ok_mono T T' m : T ⊆ T' → runs_ok T m → runs_ok T' m.
Proof. intros HT Hm k r Hk. destruct (Hm k r Hk) as (? & ? & ?). set_solver. Qed.
Lemma jobs_ok_mono T T' m : T ⊆ T' → jobs_ok T m → jobs_ok T' m.
Proof. intros HT Hm k r Hk. destruct (Hm k r Hk) as (? & ? & ?). split_and!; [done|set_solver|done]. Qed.
Lemma env_ok_mono T T' d : T ⊆ T' → env_ok T d → env_ok T' d.
Proof. intros HT [Hm Hs]. split; [|done]. intros k v Hk. destruct (Hm k v Hk). set_solver. Qed.

Lemma jobs_ok_update T p f d :
  (∀ j, p j = true → job_shape j → job_shape (f j)) →
  (∀ j, (f j).(Job.UUID) = j.(Job.UUID) ∧ (f j).(Job.TestID) = j.(Job.TestID)) →
  jobs_ok T d.(d_jobs) → jobs_ok T (update_jobs p f d).(d_jobs).
Proof.
  intros Hf Hid Hm k j. rewrite update_jobs_lookup. destruct (d_jobs d !! k) as [j0|] eqn:E; [|done].
  intros [= <-]. destruct (Hm k j0 E) as (Hk & Ht & Hs). destruct (p j0) eqn:Hp; [|done].
  destruct (Hid j0) as [-> ->]. auto.
Qed.

Lemma job_shape_final status t msg j :
  status ∈ ["completed"; "failed"; "cancelled"] → job_shape (set_job_status status t msg j).
Proof. intros. right; right. by split; [|eexists]. Qed.

Lemma final_not_queued s : s ∈ ["completed"; "failed"; "cancelled"] → s ≠ "queued" ∧ s ≠ "running".
Proof. intros Hs. repeat (apply elem_of_cons in Hs as [->|Hs]; [done|]). by apply elem_of_nil in Hs. Qed.

Lemma job_shape_running worker t j :
  j.(Job.Status) = "queued" → job_shape j → job_shape (set_job_running worker t j).
Proof.
  intros Hq [(? & ? & ? & ?)|[(? & _)|([? _]%final_not_queued & _)]]; [|congruence..].
  right; left. simpl. split; [done|]. split; [by eexists|]. split; [done|by eexists].
Qed.

Lemma jobs_advance_refl d d' : d'.(d_jobs) = d.(d_jobs) → jobs_advance d d'.
Proof. intros E k j. rewrite E. eauto. Qed.

Lemma jobs_advance_filter P `{∀ kv, Decision (P kv)} d : jobs_advance d (set_jobs (filter P) d).
Proof. intros k j [Hk _]%map_lookup_filter_Some. eauto. Qed.

Lemma jobs_advance_update p f d :
  (∀ j, p j = true → (f j).(Job.Status) = "queued" → j.(Job.Status) = "queued") →
  jobs_advance d (update_jobs p f d).
Proof.
  intros Hf k j'. rewrite update_jobs_lookup. destruct (d_jobs d !! k) as [j|] eqn:E; [|done].
  intros [= <-]. exists j. split; [done|]. destruct (p j) eqn:Hp; auto.
Qed.

(** ** Lemmas: one statement *)

Section statements.
Context `{E : Ext} `{!ExtLaws E}.

(** A statement that keeps the tables in order and starts no job. *)
Definition keeps_db {A} (q : Z → db → res A * db) : Prop :=
  ∀ now d, db_ok d → db_ok (q now d).2 ∧ jobs_advance d (q now d).2.

Lemma sys_ok_with_db w d :
  sys_ok w → db_ok d → jobs_advance w.(w_db) d → sys_ok (with_db d w).
Proof.
  intros [Hdb Hnd Hcl Hji Hci] Hd Hadv. split; simpl; [done|done| |auto|done].
  - intros k j Hk Hj Hq. destruct (Hadv k j Hj) as (j0 & Hj0 & Hq0).
    apply (Hcl k j0 Hk Hj0). auto.
  - intros k [j Hj]. apply Hji. destruct (Hadv k j Hj) as (j0 & Hj0 & _). by eexists.
Qed.

(** Only these parts of the world matter. *)
Definition sys_view (w : world) : db * nat * list string := (w.(w_db), w.(w_uuids), claims w).

Lemma sys_ok_view w w' : sys_view w' = sys_view w → sys_ok w → sys_ok w'.
Proof.
  unfold sys_view. intros [= Hd Hu Hc] [Hdb Hnd Hcl Hji Hci].
  split; unfold issued; rewrite ?Hd, ?Hu, ?Hc; done.
Qed.

Lemma frame_sys_ok {A} (m : act A) : frame sys_view m → preserves sys_ok m (λ _, True).
Proof. intros Hm w Hw. split; [|done]. eapply sys_ok_view; [apply Hm|done]. Qed.

Lemma sys_ok_faults w fs : sys_ok w → sys_ok (with_faults fs w).
Proof. by apply sys_ok_view. Qed.

Lemma sql_sys_ok {A} (q : Z → db → res A * db) (Q : res A → Prop) :
  keeps_db q → (∀ msg, Q (Err (ErrExternal msg))) → (∀ now d, db_ok d → Q (q now d).1) →
  preserves sys_ok (sql q) Q.
Proof.
  intros Hq HE HQ. apply sql_preserves; [apply sys_ok_faults|done|].
  intros w Hw. destruct (Hq (w_now w) (w_db w) (so_db _ Hw)) as [Hd Hadv].
  split; [by apply sys_ok_with_db|]. apply HQ, Hw.
Qed.

Lemma sql_sys_ok_True {A} (q : Z → db → res A * db) :
  keeps_db q → preserves sys_ok (sql q) (λ _, True).
Proof. intros. by apply sql_sys_ok. Qed.

Lemma query_sys_ok {A} (q : db → res A) (Q : res A → Prop) :
  (∀ msg, Q (Err (ErrExternal msg))) → (∀ d, db_ok d → Q (q d)) →
  preserves sys_ok (sql_query q) Q.
Proof. intros HE HQ. apply sql_sys_ok; [|done|auto]. intros now d Hd. split; [done|]. by apply jobs_advance_refl. Qed.

Lemma query_sys_ok_True {A} (q : db → res A) : preserves sys_ok (sql_query q) (λ _, True).
Proof. by apply query_sys_ok. Qed.

Lemma preserves_True {A} (I : world → Prop) (m : act A) Q : preserves I m Q → preserves I m (λ _, True).
Proof. intros H. eapply preserves_weaken; [exact H|done]. Qed.

(** What SQL cannot reach. *)
Definition rest (w : world) : nat * list event := (w.(w_uuids), w.(w_events)).

Lemma frame_sql {A} (q : Z → db → res A * db) : frame rest (sql q).
Proof. intros w. destruct (sql_spec q w) as [(? & ? & ->)|(? & ->)]; done. Qed.

Lemma frame_transaction {A} (body : act (res A)) : frame rest body → frame rest (transaction body).
Proof.
  intros Hb w. unfold transaction.
  match goal with |- context [(?b : act (res A)) w] => set (p := b) end.
  assert (frame rest p) as Hp.
  { unfold p. apply frame_bind; [apply frame_sql|]. intros [u|e]; [|apply frame_ret].
    apply frame_bind; [exact Hb|]. intros [a|e]; [|apply frame_ret].
    apply frame_bind; [apply frame_sql|]. intros [u'|e]; apply frame_ret. }
  specialize (Hp w). by destruct (p w) as [[a|e] w'].
Qed.

Lemma sys_ok_step w w' :
  sys_ok w → rest w' = rest w → db_ok w'.(w_db) → jobs_advance w.(w_db) w'.(w_db) → sys_ok w'.
Proof.
  intros Hw Hr Hd Hj. apply (sys_ok_view (with_db (w_db w') w)).
  - unfold rest in Hr. injection Hr as Hu He. unfold sys_view, claims. simpl. by rewrite Hu, He.
  - by apply sys_ok_with_db.
Qed.
End statements.

#[export] Hint Resolve frame_sys_ok query_sys_ok_True frame_sql frame_transaction : byot.

(** ** Tests *)

Definition schedule_ok (enabled : bool) (cron : string) (next : option Z) : Prop :=
  enabled = true → cron ≠ "" ∧ is_Some next.

Lemma nullIfEmpty_some s : s ≠ "" → is_Some (nullIfEmpty s).
Proof. intros. unfold nullIfEmpty. rewrite decide_False by done. by eexists. Qed.

Lemma fits_row_config cfg r : fits_row (apply_config cfg r) = true → True.
Proof. done. Qed.

Section tests.
Context `{E : Ext}.

Lemma insert_test_keeps t :
  schedule_ok t.(Test.ScheduleEnabled) t.(Test.ScheduleCron) t.(Test.NextRunAt) →
  keeps_db (λ now d, insert_test now t d).
Proof.
  intros Hs now d Hd. unfold insert_test. cbv zeta.
  destruct (d_tests d !! Test.UUID t) as [r|] eqn:Ek; [split; [done|by apply jobs_advance_refl]|].
  match goal with |- context [fits_row ?x] => destruct (fits_row x) eqn:Hf end;
    [|split; [done|by apply jobs_advance_refl]].
  split; [|by apply jobs_advance_refl]. destruct Hd as [Ht Hr Hj Hsh He].
  split; simpl; rewrite ?dom_insert_L.
  - apply tests_ok_insert; [|done]. split; try done.
    + simpl. intros Hen. destruct (Hs Hen) as [Hc Hn]. split; [by apply nullIfEmpty_some|done].
    + simpl. apply Z.leb_gt, normalize_positive.
  - eapply runs_ok_mono; [|done]. set_solver.
  - eapply jobs_ok_mono; [|done]. set_solver.
  - done.
  - eapply env_ok_mono; [|done]. set_solver.
Qed.

(** Changing a row in place. *)
Lemma alter_test_keeps k f d :
  (∀ r, d.(d_tests) !! k = Some r → test_ok k r → test_ok k (f r)) → db_ok d →
  db_ok (set_tests (alter f k) d) ∧ jobs_advance d (set_tests (alter f k) d).
Proof.
  intros Hf [Ht Hr Hj Hs He]. split; [|by apply jobs_advance_refl].
  split; simpl; rewrite ?dom_alter_tests; try done. by apply tests_ok_alter.
Qed.

Lemma UpdateConfig_keeps testID cfg :
  schedule_ok cfg.(TestConfigUpdate.ScheduleEnabled) cfg.(TestConfigUpdate.ScheduleCron)
    cfg.(TestConfigUpdate.NextRunAt) →
  preserves sys_ok (TestRepo.UpdateConfig testID cfg) (λ _, True).
Proof.
  intros Hs. apply sql_sys_ok_True. intros now d Hd.
  destruct (d_tests d !! testID) as [r|] eqn:Ek; [|split; [done|by apply jobs_advance_refl]].
  destruct (fits_row (apply_config cfg r)) eqn:Hf; [|split; [done|by apply jobs_advance_refl]].
  apply alter_test_keeps; [|done]. intros r' Hr' []. simplify_eq.
  split; try done; simpl.
  - intros Hen. destruct (Hs Hen) as [Hc Hn]. split; [by apply nullIfEmpty_some|done].
  - apply Z.leb_gt, normalize_positive.
Qed.

Lemma UpdateNextRunAt_keeps testID next :
  preserves sys_ok (TestRepo.UpdateNextRunAt testID next) (λ _, True).
Proof.
  apply sql_sys_ok_True. intros now d Hd. apply alter_test_keeps; [|done].
  intros r _ []. split; try done. simpl. intros Hen. destruct (to_schedule0 Hen). eauto.
Qed.

(** What [RecordRunOutcome] may do to the tables. *)
Lemma RecordRunOutcome_cases testID passed w :
  let w' := (TestRepo.RecordRunOutcome testID passed w).2 in
  w'.(w_db) = w.(w_db) ∨
  ∃ r, w.(w_db).(d_tests) !! testID = Some r ∧
    let '(c, a, _) := outcome_of passed r in
    fits_row (set_outcome c a r) = true ∧
    w'.(w_db) = set_tests (alter (set_outcome c a) testID) w.(w_db).
Proof.
  unfold TestRepo.RecordRunOutcome.
  match goal with |- context [transaction ?b w] => pose proof (transaction_spec b w) as H end.
  destruct (transaction _ w) as [[a|e] w']; [|by left].
  destruct H as (fs & w2 & fs2 & Hb & ->). revert Hb. unfold mbind, M_bind.
  sql_cases; [done|]. simpl. destruct (d_tests (w_db w) !! testID) as [r|] eqn:Er; [|done].
  destruct (outcome_of passed r) as [[c b] out] eqn:Eo. sql_cases; [done|].
  destruct (fits_row _) eqn:Hf; [|done]. intros [= <- <-]. right. exists r. rewrite Eo. done.
Qed.

Lemma RecordRunOutcome_keeps testID passed :
  preserves sys_ok (TestRepo.RecordRunOutcome testID passed) (λ _, True).
Proof.
  intros w Hw. split; [|done].
  assert (rest (TestRepo.RecordRunOutcome testID passed w).2 = rest w) as Hr.
  { apply frame_transaction. apply frame_bind; [apply frame_sql|]. intros [r|e]; [|apply frame_ret].
    destruct (outcome_of passed r) as [[c a] out]. apply frame_bind; [apply frame_sql|].
    intros [u|e]; apply frame_ret. }
  destruct (RecordRunOutcome_cases testID passed w) as [Hd|(r & Hk & H)].
  - eapply sys_ok_step; [done|done| |]; rewrite Hd; [apply Hw|by apply jobs_advance_refl].
  - destruct (outcome_of passed r) as [[c a] out] eqn:Eo. destruct H as [Hf Hd].
    destruct (alter_test_keeps testID (set_outcome c a) (w_db w)) as [Hok Hadv]; [|apply Hw|].
    + intros r' Hr' []. simplify_eq. unfold outcome_of in Eo.
      destruct passed; injection Eo as <- <- _; split; try done; simpl; lia.
    + eapply sys_ok_step; [done|done| |]; by rewrite Hd.
Qed.

Lemma delete_runs_ok P d : db_ok d → db_ok (TestRepo.delete_runs_where P d).
Proof.
  intros [Ht Hr Hj Hs He]. split; try done; simpl.
  - intros k r [Hk _]%map_lookup_filter_Some. by apply (Hr k r).
  - intros k s [Hk Hp]%map_lookup_filter_Some. destruct (Hs k s Hk) as [Hu Hd]. split; [done|].
    simpl in Hp. apply elem_of_dom in Hd as [r Hr']. apply elem_of_dom. exists r.
    apply map_lookup_filter_Some. split; [done|]. unfold TestRepo.shot_of in Hp. by rewrite Hr' in Hp.
Qed.

Lemma without_test_ok testID d : db_ok d → db_ok (without_test testID d).
Proof.
  intros Hd. pose proof (delete_runs_ok (λ run, bool_decide (run.(TestRun.TestID) = testID)) d Hd) as [Ht Hr Hj Hs He].
  unfold without_test. set (d1 := TestRepo.delete_runs_where _ d) in *. split; simpl; rewrite ?dom_delete_L.
  - intros k r [_ Hk]%lookup_delete_Some. by apply Ht.
  - intros k r Hk. destruct (Hr k r Hk) as (? & ? & ?).
    apply map_lookup_filter_Some in Hk as [_ Hp%bool_decide_eq_false]. simpl in Hp. set_solver.
  - intros k j [Hk Hp]%map_lookup_filter_Some. destruct (Hj k j Hk) as (? & ? & ?). set_solver.
  - exact Hs.
  - destruct He as [He1 He2]. split.
    + intros k v [Hk Hp]%map_lookup_filter_Some. destruct (He1 k v Hk). set_solver.
    + intros t. etrans; [|apply (He2 t)]. unfold env_of. simpl.
      apply map_subseteq_size, map_filter_subseteq_mono, map_filter_subseteq.
Qed.

Lemma Delete_keeps testID : preserves sys_ok (TestRepo.Delete testID) (λ _, True).
Proof.
  intros w Hw. split; [|done].
  assert (rest (TestRepo.Delete testID w).2 = rest w) as Hr.
  { apply frame_transaction. repeat (apply frame_bind; [apply frame_sql|]; intros [?|?]; [|apply frame_ret]).
    case_decide; apply frame_ret. }
  pose proof (Delete_run testID w) as H. destruct (TestRepo.Delete testID w) as [[u|e] w']; simpl in *.
  - destruct H as [_ Hd]. eapply sys_ok_step; [done|done| |]; rewrite Hd; [by apply without_test_ok, so_db|].
    intros k j [Hk _]%map_lookup_filter_Some. eauto.
  - eapply sys_ok_step; [done|done| |]; rewrite H; [apply Hw|by apply jobs_advance_refl].
Qed.
End tests.

#[export] Hint Resolve UpdateNextRunAt_keeps RecordRunOutcome_keeps Delete_keeps : byot.

(** ** Jobs *)

Section jobs.
Context `{E : Ext} `{!ExtLaws E}.

Lemma update_jobs_keeps p f d :
  (∀ j, p j = true → job_shape j → job_shape (f j)) →
  (∀ j, (f j).(Job.UUID) = j.(Job.UUID) ∧ (f j).(Job.TestID) = j.(Job.TestID) ∧
        (f j).(Job.Status) ≠ "queued") →
  db_ok d → db_ok (update_jobs p f d) ∧ jobs_advance d (update_jobs p f d).
Proof.
  intros Hf Hid [Ht Hr Hj Hs He]. split.
  - split; try done. apply jobs_ok_update; [done|naive_solver|done].
  - apply jobs_advance_update. intros j _ Hq. by destruct (Hid j) as (_ & _ & []).
Qed.

Lemma CancelActiveForTest_keeps testID reason :
  preserves sys_ok (JobRepo.CancelActiveForTest testID reason) (λ _, True).
Proof.
  apply sql_sys_ok_True. intros now d Hd. apply update_jobs_keeps; [|done|done].
  intros j _ _. apply job_shape_final. set_solver.
Qed.

Lemma FailStale_keeps grace : preserves sys_ok (JobRepo.FailStale grace) (λ _, True).
Proof.
  apply sql_sys_ok_True. intros now d Hd. apply update_jobs_keeps; [|done|done].
  intros j _ _. apply job_shape_final. set_solver.
Qed.

Lemma alter_job_ok status t msg k d :
  status ∈ ["completed"; "failed"; "cancelled"] → db_ok d →
  let d' := set_jobs (alter (set_job_status status t msg) k) d in
  db_ok d' ∧ jobs_advance d d'.
Proof.
  intros Hs [Ht Hr Hj Hsh He]. split.
  - split; try done. simpl. intros k' j. destruct (decide (k = k')) as [<-|Hne].
    + rewrite lookup_alter_eq. destruct (d_jobs d !! k) as [j0|] eqn:E0; [|done]. intros [= <-].
      destruct (Hj k j0 E0) as (? & ? & _). split_and!; try done. by apply job_shape_final.
    + rewrite lookup_alter_ne by done. apply Hj.
  - intros k' j. simpl. destruct (decide (k = k')) as [<-|Hne].
    + rewrite lookup_alter_eq. destruct (d_jobs d !! k) as [j0|] eqn:E0; [|done]. intros [= <-].
      exists j0. split; [done|]. simpl. intros Hq. by destruct (final_not_queued status Hs).
    + rewrite lookup_alter_ne by done. eauto.
Qed.

Lemma UpdateStatus_keeps jobID status msg :
  status ∈ ["completed"; "failed"; "cancelled"] →
  preserves sys_ok (JobRepo.UpdateStatus jobID status msg) (λ _, True).
Proof. intros Hs. apply sql_sys_ok_True. intros now d Hd. by apply alter_job_ok. Qed.

Lemma emit_keeps e :
  match e with EvDequeued _ _ => False | _ => True end → preserves sys_ok (emit e) (λ _, True).
Proof.
  intros He. apply frame_sys_ok. intros w. unfold sys_view, claims, emit. simpl.
  rewrite omap_app. simpl. destruct e; try done; by rewrite app_nil_r.
Qed.

Lemma Complete_keeps jobID status msg :
  status ∈ ["completed"; "failed"; "cancelled"] →
  preserves sys_ok (Queue.Complete jobID status msg) (λ _, True).
Proof.
  intros Hs. unfold Queue.Complete. eapply preserves_bind; [by apply UpdateStatus_keeps|].
  intros [u|e] _; [|by apply preserves_ret].
  eapply preserves_bind; [by apply emit_keeps|]. intros _ _. by apply preserves_ret.
Qed.

Lemma NewString_keeps : preserves sys_ok NewString (λ _, True).
Proof.
  intros w [Hdb Hnd Hcl Hji Hci]. split; [|done].
  split; simpl; unfold issued; simpl; try done.
  - intros k Hk. destruct (Hji k Hk) as (n & ? & ?). exists n. split; [lia|done].
  - intros k Hk. destruct (Hci k Hk) as (n & ? & ?). exists n. split; [lia|done].
Qed.

(** A new job is queued under an identifier no job ever had. *)
Lemma Enqueue_keeps testID trigger :
  preserves sys_ok (Queue.Enqueue testID trigger) (λ _, True).
Proof.
  intros w Hw. split; [|done]. unfold Queue.Enqueue. set (tr := if decide _ then _ else _).
  unfold mbind, M_bind, NewString, Now, gets. cbn [w_uuids w_now with_uuids].
  set (k := ext_uuid (w_uuids w)). set (w1 := with_uuids (S (w_uuids w)) w).
  assert (sys_ok w1) as Hw1 by apply (NewString_keeps w Hw).
  assert (¬ issued w k) as Hfresh.
  { intros (n & Hn & Hk). apply ext_uuid_inj in Hk. lia. }
  unfold JobRepo.Create. sql_cases; [by apply sys_ok_faults|].
  cbn [Job.UUID Job.TestID].
  destruct (d_jobs (w_db w1) !! k) as [j|] eqn:Ej.
  { destruct Hfresh. apply (so_jobs_issued _ Hw). simpl in Ej. by rewrite Ej. }
  destruct (d_tests (w_db w1) !! testID) as [t|] eqn:Et.
  2:{ eapply sys_ok_view; [|exact Hw1]. done. }
  cbn [Job.Status Job.Trigger Job.QueuedAt]. apply emit_keeps; [done|].
  destruct Hw1 as [Hdb Hnd Hcl Hji Hci]. split; simpl.
  - destruct Hdb as [Ht Hr Hj Hs He]. split; try done. simpl. apply map_Forall_insert_2; [|done].
    split; [done|]. split; [apply elem_of_dom; by eexists|]. by left.
  - done.
  - intros k' j' Hk' Hj'. apply lookup_insert_Some in Hj' as [[<- _]|[_ Hj']]; [|by eapply Hcl].
    destruct Hfresh. by apply (so_claims_issued _ Hw).
  - intros k' [j' Hj']. apply lookup_insert_Some in Hj' as [[<- _]|[_ Hj']]; [|by apply Hji].
    exists (w_uuids w). split; [simpl; lia|done].
  - done.
Qed.

(** The job a worker gets was never handed out before. *)
Lemma Dequeue_keeps workerID : preserves sys_ok (Queue.Dequeue workerID) (λ _, True).
Proof.
  intros w Hw. split; [|done]. unfold Queue.Dequeue, mbind, M_bind.
  assert (jobs_keyed (w_db w)) as Hkeyed.
  { intros k j Hk. by destruct (ok_jobs _ (so_db _ Hw) k j Hk). }
  pose proof (Dequeue_run workerID w Hkeyed) as H.
  assert (frame rest (JobRepo.Dequeue workerID)) as Hrest by apply frame_sql. specialize (Hrest w).
  destruct (JobRepo.Dequeue workerID w) as [[[j'|]|e] w']; simpl in Hrest.
  - destruct H as (j & -> & Hk & Hq & _ & Hdb). pose proof Hrest as [= Hu He].
    destruct Hw as [Hok Hnd Hcl Hji Hci].
    assert (claims w' = claims w) as Hc by (unfold claims; by rewrite He).
    split; simpl; unfold claims, issued; simpl; rewrite ?omap_app, ?Hu, ?Hdb; fold (claims w'); rewrite ?Hc; simpl.
    + destruct Hok as [Ht Hr Hj Hs Henv]. split; try done. simpl. apply map_Forall_insert_2; [|done].
      destruct (Hj _ _ Hk) as (? & ? & ?). split_and!; try done. by apply job_shape_running.
    + apply NoDup_app. split; [done|]. split; [|apply NoDup_singleton].
      intros k Hin ->%list_elem_of_singleton. by eapply Hcl.
    + intros k j0 Hin Hj0. apply lookup_insert_Some in Hj0 as [[_ <-]|[Hne Hj0]]; [done|].
      apply elem_of_app in Hin as [Hin| ->%list_elem_of_singleton]; [by eapply Hcl|done].
    + intros k [j0 Hj0]. apply lookup_insert_Some in Hj0 as [[<- _]|[_ Hj0]]; apply Hji; eauto.
    + intros k Hin. apply elem_of_app in Hin as [Hin| ->%list_elem_of_singleton]; [by apply Hci|].
      apply Hji. eauto.
  - destruct H as [_ Hdb]. change (sys_ok w').
    eapply sys_ok_step; [done|done| |]; rewrite Hdb; [apply Hw|by apply jobs_advance_refl].
  - change (sys_ok w').
    eapply sys_ok_step; [done|done| |]; rewrite H; [apply Hw|by apply jobs_advance_refl].
Qed.
End jobs.

#[export] Hint Resolve CancelActiveForTest_keeps FailStale_keeps NewString_keeps Enqueue_keeps Dequeue_keeps : byot.

(** ** Runs, screenshots, variables *)

Section others.
Context `{E : Ext} `{!ExtLaws E}.

Lemma run_Create_keeps run :
  run.(TestRun.Status) ∈ ["pass"; "fail"] →
  preserves sys_ok (TestRunRepo.Create run) (λ _, True).
Proof.
  intros Hst. apply sql_sys_ok_True. intros now d Hd.
  destruct (d_runs d !! TestRun.UUID run); [split; [done|by apply jobs_advance_refl]|].
  destruct (d_tests d !! TestRun.TestID run) as [t|] eqn:Et; [|split; [done|by apply jobs_advance_refl]].
  destruct (_ && _); [|split; [done|by apply jobs_advance_refl]].
  split; [|by apply jobs_advance_refl]. destruct Hd as [Ht Hr Hj Hs He]. split; try done; simpl.
  - apply map_Forall_insert_2; [|done]. split; [done|]. split; [|done]. apply elem_of_dom. by eexists.
  - rewrite dom_insert_L. intros k s Hk. destruct (Hs k s Hk). set_solver.
Qed.

Lemma shot_Create_keeps s : preserves sys_ok (ScreenshotRepo.Create s) (λ _, True).
Proof.
  apply sql_sys_ok_True. intros now d Hd.
  destruct (d_shots d !! Screenshot.UUID s); [split; [done|by apply jobs_advance_refl]|].
  destruct (d_runs d !! Screenshot.RunID s) as [r|] eqn:Er; [|split; [done|by apply jobs_advance_refl]].
  destruct (_ && _); [|split; [done|by apply jobs_advance_refl]].
  split; [|by apply jobs_advance_refl]. destruct Hd as [Ht Hr Hj Hs He]. split; try done; simpl.
  apply map_Forall_insert_2; [|done]. split; [done|]. apply elem_of_dom. by eexists.
Qed.

Lemma frame_Upsert testID v : frame rest (EnvRepo.Upsert testID v MaxVars).
Proof.
  apply frame_transaction. apply frame_bind; [apply frame_sql|]. intros [u|e]; [|apply frame_ret].
  apply frame_bind; [apply frame_sql|]. intros [[]|e]; [apply frame_sql| |apply frame_ret].
  apply frame_bind; [apply frame_sql|]. intros [n|e]; [|apply frame_ret].
  case_decide; [apply frame_ret|apply frame_sql].
Qed.

Lemma Upsert_limit testID v w :
  (∀ t, size (env_of t w.(w_db)) ≤ MaxVars) →
  ∀ t, size (env_of t (EnvRepo.Upsert testID v MaxVars w).2.(w_db)) ≤ MaxVars.
Proof.
  intros Hlim. pose proof (Upsert_run testID v MaxVars w) as H.
  destruct (EnvRepo.Upsert testID v MaxVars w) as [[u|e] w']; simpl; [|by rewrite H].
  destruct H as (_ & Hroom & ->). by apply upsert_size.
Qed.

Lemma Upsert_keeps testID v : preserves sys_ok (EnvRepo.Upsert testID v MaxVars) (λ _, True).
Proof.
  intros w Hw. split; [|done]. pose proof (frame_Upsert testID v w) as Hr.
  pose proof (Upsert_run testID v MaxVars w) as H.
  pose proof (Upsert_limit testID v w (proj2 (ok_env _ (so_db _ Hw)))) as Hlim.
  destruct (EnvRepo.Upsert testID v MaxVars w) as [[u|e] w']; simpl in *.
  - destruct H as ([t Ht] & _ & Hd). eapply sys_ok_step; [done|done| |]; rewrite Hd in *; [|by apply jobs_advance_refl].
    destruct Hw as [[Hte Hru Hj Hs [He _]] _ _ _ _]. split; try done. split; [|done]. simpl.
    apply map_Forall_insert_2; [|done]. split; [done|]. apply elem_of_dom. by eexists.
  - eapply sys_ok_step; [done|done| |]; rewrite H; [apply Hw|by apply jobs_advance_refl].
Qed.

Lemma env_Delete_keeps testID name : preserves sys_ok (EnvRepo.Delete testID name) (λ _, True).
Proof.
  unfold EnvRepo.Delete. eapply preserves_bind.
  - apply sql_sys_ok_True. intros now d [Ht Hr Hj Hs [He1 He2]]. split; [|by apply jobs_advance_refl].
    split; try done. split; simpl.
    + intros k v [_ Hk]%lookup_delete_Some. by apply (He1 k v).
    + intros t. etrans; [|apply (He2 t)]. unfold env_of. simpl.
      apply map_subseteq_size, map_filter_subseteq_mono, delete_subseteq.
  - intros [n|e] _; [|by apply preserves_ret]. case_decide; by apply preserves_ret.
Qed.

Lemma DeleteRuns_keeps ids : preserves sys_ok (RetentionRepo.DeleteRuns ids) (λ _, True).
Proof.
  unfold RetentionRepo.DeleteRuns. case_decide; [by apply preserves_ret|].
  apply sql_sys_ok_True. intros now d Hd. split; [by apply delete_runs_ok|by apply jobs_advance_refl].
Qed.

Lemma DeleteFinishedJobs_keeps c :
  preserves sys_ok (RetentionRepo.DeleteFinishedJobsBefore c) (λ _, True).
Proof.
  apply sql_sys_ok_True. intros now d [Ht Hr Hj Hs He].
  split; [|intros k j [Hk _]%map_lookup_filter_Some; eauto].
  split; try done. simpl. intros k j [Hk _]%map_lookup_filter_Some. by apply (Hj k j).
Qed.

Lemma TestRepo_Create_keeps t :
  schedule_ok t.(Test.ScheduleEnabled) t.(Test.ScheduleCron) t.(Test.NextRunAt) →
  preserves sys_ok (TestRepo.Create t) (λ _, True).
Proof. intros Hs. by apply sql_sys_ok_True, insert_test_keeps. Qed.

(** Actions outside the database. *)
Lemma gets_keeps {A} (f : world → A) : preserves sys_ok (gets f) (λ _, True).
Proof. by intros w Hw. Qed.
Lemma Now_keeps : preserves sys_ok Now (λ _, True).
Proof. apply gets_keeps. Qed.
Lemma http_do_keeps r : preserves sys_ok (http_do r) (λ _, True).
Proof.
  apply frame_sys_ok. intros w. unfold http_do, sys_view, claims.
  destruct w as [??? ? [|] ? ? ? ? ? ? ?]; simpl; by rewrite omap_app, app_nil_r.
Qed.
Lemma next_fault_keeps : preserves sys_ok next_fault (λ _, True).
Proof. apply frame_sys_ok. intros w. by destruct (next_fault_spec w) as [->|(? & ? & _ & ->)]. Qed.
Lemma syscall_keeps {A} (f : Z → gmap (list string) fnode → res A * gmap (list string) fnode) :
  preserves sys_ok (syscall f) (λ _, True).
Proof.
  apply frame_sys_ok. intros w. unfold syscall.
  destruct (next_fault_spec w) as [->|(fl & ? & _ & ->)]; [by destruct (f _ _)|].
  destruct fl; [done|]. by destruct (f _ _).
Qed.
Lemma modify_keeps (f : world → world) :
  (∀ w, sys_view (f w) = sys_view w) → preserves sys_ok (modify f) (λ _, True).
Proof. intros Hf. apply frame_sys_ok. intros w. apply Hf. Qed.
Lemma Encrypt_keeps box plain : preserves sys_ok (Encrypt box plain) (λ _, True).
Proof. apply frame_sys_ok. intros w. by destruct box. Qed.

Lemma sys_ok_storage : storage_insensitive sys_ok.
Proof. intros w w' (b & f & h & ->). by apply sys_ok_view. Qed.
End others.

#[export] Hint Resolve shot_Create_keeps Upsert_keeps env_Delete_keeps DeleteRuns_keeps
  DeleteFinishedJobs_keeps gets_keeps Now_keeps http_do_keeps next_fault_keeps syscall_keeps
  Encrypt_keeps sys_ok_storage : byot.
