(* ===== verification/System.v ===== *)
(** * The whole server

    The goroutines the server runs, and the invariants of their interleavings.
    [server_prog] lists the programs that may be started at any time: one for
    each HTTP request, the worker's slots, the stale sweep, the scheduler's
    ticks and the retention sweeps.  The environment lets time pass and decides
    which calls fail. *)

From S2P Require Import Prelude.
From S2P Require Import Prog.
From S2P Require Import GoStrings.
From S2P Require Import Strconv.
From S2P Require Import Model.
From S2P Require Import World.
From S2P Require Import Config.
From S2P Require Import Http.
From S2P Require Import Auth.
From S2P Require Import Alert.
From S2P Require Import TestRepo.
From S2P Require Import JobRepo.
From S2P Require Import RunRepo.
From S2P Require Import Secrets.
From S2P Require Import Paths.
From S2P Require Import Bundle.
From S2P Require Import Runtime.
From S2P Require Import Storage.
From S2P Require Import Screenshots.
From S2P Require Import Worker.
From S2P Require Import Scheduler.
From S2P Require Import Retention.
From S2P Require Import Handler.
From S2P Require Import Endpoints.
From S2P Require Import Invariants.

Section server.
Context `{E : Ext} `{!ExtLaws E} `{St : Storage} `{!StorageFrame St}.
Variable Duration_String : Z → string.
Variable config : Config.t.
Variable box : Box.
Variable verifier : option Verifier.t.

Inductive server_prog : prog world unit → Prop :=
| server_request r :
    server_prog (_ ← serve config box verifier r; mret tt)
| server_work workerID :
    server_prog (work_once Duration_String box workerID)
| server_stale : server_prog sweep_stale
| server_tick : server_prog tick
| server_retention alive policy :
    server_prog (_ ← Sweep alive policy; mret tt).

Inductive environment : world → world → Prop :=
| env_passes w now faults http :
    (w.(w_now) ≤ now)%Z →
    environment w (with_now now (with_faults faults (with_http http w))).

(** ** Every program keeps the invariant *)

Lemma deleteStorage_sys e : prog_ok sys_ok (deleteStorage e) (λ _, True).
Proof. apply deleteStorage_ok, sys_ok_storage. Qed.
Lemma UploadArtifact_sys u c : prog_ok sys_ok (UploadArtifact u c) (λ _, True).
Proof. apply upload_artifact_ok, sys_ok_storage. Qed.
Lemma UploadLog_sys u r c : prog_ok sys_ok (UploadLog u r c) (λ _, True).
Proof. apply upload_log_ok, sys_ok_storage. Qed.
Lemma UploadBlob_sys k c : prog_ok sys_ok (UploadBlob k c) (λ _, True).
Proof. apply upload_blob_ok, sys_ok_storage. Qed.
Lemma DownloadBlob_sys k : prog_ok sys_ok (DownloadBlob k) (λ _, True).
Proof. apply download_ok, sys_ok_storage. Qed.
Lemma DeletePrefix_sys k : prog_ok sys_ok (DeletePrefix k) (λ _, True).
Proof. apply delete_prefix_ok, sys_ok_storage. Qed.
Lemma DeleteObject_sys k : prog_ok sys_ok (DeleteObject k) (λ _, True).
Proof. apply delete_object_ok, sys_ok_storage. Qed.

#[local] Hint Resolve deleteStorage_sys UploadArtifact_sys UploadLog_sys UploadBlob_sys
  DownloadBlob_sys DeletePrefix_sys DeleteObject_sys : byot.

(** Reads. *)
Lemma GetByID_sys id : preserves sys_ok (TestRepo.GetByID id) (λ _, True).
Proof. apply query_sys_ok_True. Qed.
Lemma ListWithLastRun_sys : preserves sys_ok TestRepo.ListWithLastRun (λ _, True).
Proof. apply query_sys_ok_True. Qed.
Lemma ListDueScheduled_sys now : preserves sys_ok (TestRepo.ListDueScheduled now) (λ _, True).
Proof. apply query_sys_ok_True. Qed.
Lemma HasActiveJob_sys id : preserves sys_ok (JobRepo.HasActiveJob id) (λ _, True).
Proof. apply query_sys_ok_True. Qed.
Lemma ListActiveForTest_sys id : preserves sys_ok (Queue.ListActiveForTest id) (λ _, True).
Proof. apply query_sys_ok_True. Qed.
Lemma GetStatus_sys id : preserves sys_ok (Queue.GetStatus id) (λ _, True).
Proof. apply query_sys_ok_True. Qed.
Lemma runs_ListByTestID_sys id : preserves sys_ok (TestRunRepo.ListByTestID id) (λ _, True).
Proof. apply query_sys_ok_True. Qed.
Lemma run_GetByID_sys id : preserves sys_ok (TestRunRepo.GetByID id) (λ _, True).
Proof. apply query_sys_ok_True. Qed.
Lemma shots_ListByRunID_sys id : preserves sys_ok (ScreenshotRepo.ListByRunID id) (λ _, True).
Proof. apply query_sys_ok_True. Qed.
Lemma shot_GetByUUID_sys id : preserves sys_ok (ScreenshotRepo.GetByUUID id) (λ _, True).
Proof. apply query_sys_ok_True. Qed.
Lemma env_List_sys id : preserves sys_ok (EnvRepo.List id) (λ _, True).
Proof. apply query_sys_ok_True. Qed.
Lemma ListExpiredRuns_sys m c l : preserves sys_ok (RetentionRepo.ListExpiredRuns m c l) (λ _, True).
Proof. apply query_sys_ok_True. Qed.
Lemma QCancel_sys t r : preserves sys_ok (Queue.CancelActiveForTest t r) (λ _, True).
Proof. apply CancelActiveForTest_keeps. Qed.
Lemma QFailStale_sys g : preserves sys_ok (Queue.FailStale g) (λ _, True).
Proof. apply FailStale_keeps. Qed.
Lemma IsPaused_sys : preserves sys_ok IsPaused (λ _, True).
Proof. apply gets_keeps. Qed.

#[local] Hint Resolve GetByID_sys ListWithLastRun_sys ListDueScheduled_sys HasActiveJob_sys
  ListActiveForTest_sys GetStatus_sys runs_ListByTestID_sys run_GetByID_sys shots_ListByRunID_sys
  shot_GetByUUID_sys env_List_sys ListExpiredRuns_sys QCancel_sys QFailStale_sys IsPaused_sys : byot.

(** Files and the process-wide state. *)
Lemma MkdirAll_sys p : preserves sys_ok (MkdirAll p) (λ _, True).
Proof. apply syscall_keeps. Qed.
Lemma create_file_sys p m : preserves sys_ok (create_file p m) (λ _, True).
Proof. apply syscall_keeps. Qed.
Lemma write_file_sys p c : preserves sys_ok (write_file p c) (λ _, True).
Proof. apply syscall_keeps. Qed.
Lemma os_Remove_sys p : preserves sys_ok (os_Remove p) (λ _, True).
Proof. apply syscall_keeps. Qed.
Lemma os_RemoveAll_sys p : preserves sys_ok (os_RemoveAll p) (λ _, True).
Proof. apply frame_sys_ok. intros w. unfold os_RemoveAll. by destruct (lresolve _ _). Qed.
Lemma chmod_sys p : preserves sys_ok (chmod p) (λ _, True).
Proof. apply syscall_keeps. Qed.
Lemma MkdirTemp_sys d p : preserves sys_ok (MkdirTemp d p) (λ _, True).
Proof.
  intros w Hw. unfold MkdirTemp. case_match; [by split|].
  apply syscall_keeps. by apply (sys_ok_view w (with_rand _ w)).
Qed.
Lemma registerActive_sys j : preserves sys_ok (registerActive j) (λ _, True).
Proof. unfold registerActive. case_decide; [by apply preserves_ret|by apply modify_keeps]. Qed.
Lemma unregisterActive_sys j : preserves sys_ok (unregisterActive j) (λ _, True).
Proof. unfold unregisterActive. case_decide; [by apply preserves_ret|by apply modify_keeps]. Qed.
Lemma KillContainer_sys n : preserves sys_ok (KillContainer n) (λ _, True).
Proof. unfold KillContainer. case_decide; [by apply preserves_ret|by apply emit_keeps]. Qed.

#[local] Hint Resolve MkdirAll_sys create_file_sys write_file_sys os_Remove_sys os_RemoveAll_sys
  chmod_sys MkdirTemp_sys registerActive_sys unregisterActive_sys KillContainer_sys : byot.

Lemma Cancel_sys j : prog_ok sys_ok (Cancel j) (λ _, True).
Proof.
  unfold Cancel. prog_walk. apply prog_ok_call. eapply preserves_bind; [apply next_fault_keeps|].
  intros f _. eapply preserves_bind; [by apply emit_keeps|]. intros _ _. by apply preserves_ret.
Qed.

Lemma Execute_sys j ws spec timeout : prog_ok sys_ok (Execute Duration_String j ws spec timeout) (λ _, True).
Proof.
  unfold Execute. prog_walk.
  - apply prog_ok_call. by apply emit_keeps.
  - apply prog_ok_call. by apply modify_keeps.
Qed.
#[local] Hint Resolve Cancel_sys Execute_sys : byot.

(** *** Files of a workspace *)

Lemma extractFile_sys f t : prog_ok sys_ok (extractFile f t) (λ _, True).
Proof.
  unfold extractFile. apply prog_ok_seq; [|prog_walk]. apply prog_ok_call.
  eapply preserves_bind; [apply next_fault_keeps|]. intros. by apply preserves_ret.
Qed.
#[local] Hint Resolve extractFile_sys : byot.

Lemma unpack_all_sys d s fs : prog_ok sys_ok (unpack_all d s fs) (λ _, True).
Proof.
  induction fs as [|f fs IH]; cbn [unpack_all]; [done|].
  apply prog_ok_seq; [unfold unpack_entry|intros [u|e]; [exact IH|done]]. prog_walk.
Qed.
#[local] Hint Resolve unpack_all_sys : byot.

Lemma UnzipFile_sys d z : prog_ok sys_ok (UnzipFile d z) (λ _, True).
Proof. unfold UnzipFile. prog_walk. Qed.

Lemma stage_all_sys d fs : prog_ok sys_ok (stage_all d fs) (λ _, True).
Proof.
  induction fs as [|[n c] fs IH]; cbn [stage_all]; [done|].
  apply prog_ok_seq; [unfold WriteFile; prog_walk|]. intros [u|e]; [exact IH|done].
Qed.
#[local] Hint Resolve UnzipFile_sys stage_all_sys : byot.

Lemma StageSupportFiles_sys r ws : prog_ok sys_ok (StageSupportFiles r ws) (λ _, True).
Proof. unfold StageSupportFiles. prog_walk. Qed.
Lemma ChownWorkspace_sys ws : prog_ok sys_ok (ChownWorkspace ws) (λ _, True).
Proof. unfold ChownWorkspace. prog_walk. Qed.
Lemma place_artifact_sys t ws c : prog_ok sys_ok (place_artifact t ws c) (λ _, True).
Proof. unfold place_artifact. prog_walk. Qed.
#[local] Hint Resolve StageSupportFiles_sys ChownWorkspace_sys place_artifact_sys : byot.

(** *** The worker *)

Lemma postSlack_sys u t : prog_ok sys_ok (postSlack u t) (λ _, True).
Proof. unfold postSlack, post. prog_walk. Qed.
Lemma postPagerDuty_sys k a d p : prog_ok sys_ok (postPagerDuty k a d p) (λ _, True).
Proof. unfold postPagerDuty, post. prog_walk. Qed.
#[local] Hint Resolve postSlack_sys postPagerDuty_sys : byot.

Lemma send_alerts_sys t r a : prog_ok sys_ok (send_alerts t r a) (λ _, True).
Proof.
  unfold send_alerts, NotifyFailure, NotifyRecovery, SendFailure, SendRecovery,
    TriggerPagerDuty, ResolvePagerDuty. prog_walk.
Qed.

Lemma uploadScreenshots_sys ws b t r : prog_ok sys_ok (uploadScreenshots ws b t r) (λ _, True).
Proof. unfold uploadScreenshots, uploadScreenshotFile. prog_walk. Qed.
#[local] Hint Resolve send_alerts_sys uploadScreenshots_sys : byot.

Lemma run_and_record_sys job test ws spec sv timeout :
  prog_ok sys_ok (run_and_record Duration_String job test ws spec sv timeout) (λ _, True).
Proof.
  unfold run_and_record. prog_walk; apply prog_ok_call, run_Create_keeps;
    cbn [TestRun.Status]; destruct (_ || _); by apply (bool_decide_unpack _).
Qed.

Lemma loadEnv_sys t : prog_ok sys_ok (loadEnv box t) (λ _, True).
Proof. unfold loadEnv. prog_walk. Qed.
#[local] Hint Resolve run_and_record_sys loadEnv_sys : byot.

Lemma executeJob_sys job : prog_ok sys_ok (executeJob Duration_String box job) (λ _, True).
Proof. unfold executeJob, in_workspace, workspaceRoot. prog_walk. Qed.
#[local] Hint Resolve executeJob_sys : byot.

Lemma handleJob_sys job : prog_ok sys_ok (handleJob Duration_String box job) (λ _, True).
Proof.
  unfold handleJob. prog_walk; apply prog_ok_call; case_match; apply Complete_keeps; by apply (bool_decide_unpack _).
Qed.
#[local] Hint Resolve handleJob_sys : byot.

Lemma work_once_sys wid : prog_ok sys_ok (work_once Duration_String box wid) (λ _, True).
Proof. unfold work_once. prog_walk. Qed.
Lemma sweep_stale_sys : prog_ok sys_ok sweep_stale (λ _, True).
Proof. unfold sweep_stale. prog_walk. Qed.

(** *** The scheduler and retention *)

Lemma tick_sys : prog_ok sys_ok tick (λ _, True).
Proof. unfold tick, fire. prog_walk. Qed.

Lemma delete_files_sys l : prog_ok sys_ok (delete_files l) (λ _, True).
Proof. induction l as [|e l IH]; cbn [delete_files]; prog_walk. Qed.
#[local] Hint Resolve delete_files_sys : byot.

Lemma sweep_batches_sys n alive i policy cutoff total :
  prog_ok sys_ok (sweep_batches n alive i policy cutoff total) (λ _, True).
Proof. revert i total. induction n as [|n IH]; intros i total; cbn [sweep_batches]; prog_walk. Qed.
#[local] Hint Resolve sweep_batches_sys : byot.

Lemma Sweep_sys alive policy : prog_ok sys_ok (Sweep alive policy) (λ _, True).
Proof. unfold Sweep. prog_walk. Qed.
#[local] Hint Resolve Sweep_sys : byot.

(** *** HTTP handlers *)

Lemma cancel_running_sys jobs n : prog_ok sys_ok (cancel_running jobs n) (λ _, True).
Proof. revert n. induction jobs as [|j jobs IH]; intros n; cbn [cancel_running]; prog_walk. Qed.
Lemma delete_logs_sys p s runs : prog_ok sys_ok (delete_logs p s runs) (λ _, True).
Proof. revert s. induction runs as [|r runs IH]; intros s; cbn [delete_logs]; prog_walk. Qed.
#[local] Hint Resolve cancel_running_sys delete_logs_sys : byot.

Lemma save_config_sys testID cfg f r :
  schedule_ok cfg.(TestConfigUpdate.ScheduleEnabled) cfg.(TestConfigUpdate.ScheduleCron)
    cfg.(TestConfigUpdate.NextRunAt) →
  prog_ok sys_ok (save_config testID cfg f r) (λ _, True).
Proof.
  intros Hs. unfold save_config. apply prog_ok_seq; [by apply prog_ok_call, UpdateConfig_keeps|].
  prog_walk.
Qed.

Lemma updateTestConfig_sys testID r : prog_ok sys_ok (updateTestConfig config testID r) (λ _, True).
Proof.
  unfold updateTestConfig. prog_walk. apply save_config_sys.
  match goal with H : patch_config _ _ _ = Ok ?cfg, H' : next_run_for ?cfg _ = _ |- _ =>
    destruct (patch_config_ok _ _ _ _ H) as (_ & _ & _ & _ & Hs & _);
    pose proof (next_run_for_schedule _ _ _ Hs H') as Hn; destruct cfg; exact Hn end.
Qed.
Lemma enableSchedule_sys testID r : prog_ok sys_ok (enableSchedule testID r) (λ _, True).
Proof. unfold enableSchedule. prog_walk. apply save_config_sys. intros _. simpl. eauto. Qed.
Lemma disableSchedule_sys testID r : prog_ok sys_ok (disableSchedule testID r) (λ _, True).
Proof. unfold disableSchedule. prog_walk. by apply save_config_sys. Qed.
Lemma Stop_sys r : prog_ok sys_ok (Stop r) (λ _, True).
Proof. unfold Stop. prog_walk. Qed.
Lemma scheduler_handler_sys b m msg body r :
  prog_ok sys_ok body (λ _, True) → prog_ok sys_ok (scheduler_handler b m msg body r) (λ _, True).
Proof. intros. unfold scheduler_handler. prog_walk. Qed.
Lemma deleteTest_sys testID r : prog_ok sys_ok (deleteTest testID r) (λ _, True).
Proof. unfold deleteTest, delete_objects. prog_walk. Qed.
#[local] Hint Resolve updateTestConfig_sys enableSchedule_sys disableSchedule_sys Stop_sys
  deleteTest_sys : byot.

Lemma save_env_sys testID v : prog_ok sys_ok (save_env testID v) (λ _, True).
Proof. unfold save_env. prog_walk. Qed.
#[local] Hint Resolve save_env_sys : byot.
Lemma envRoutes_sys testID p r : prog_ok sys_ok (envRoutes box testID p r) (λ _, True).
Proof. unfold envRoutes, listEnv, putEnv, deleteEnv. prog_walk. Qed.
#[local] Hint Resolve envRoutes_sys : byot.

Lemma valid_sys v t : prog_ok sys_ok (valid v t) (λ _, True).
Proof. unfold valid. prog_walk. apply prog_ok_call. by apply modify_keeps. Qed.
#[local] Hint Resolve valid_sys : byot.

Lemma Require_sys (h : handler) r :
  (∀ r, prog_ok sys_ok (h r) (λ _, True)) → prog_ok sys_ok (Require verifier h r) (λ _, True).
Proof. intros Hh. unfold Require. destruct verifier as [v|]; [|apply Hh]. prog_walk. Qed.

Lemma Tests_sys r : prog_ok sys_ok (Tests config box (Require verifier) r) (λ _, True).
Proof.
  unfold Tests, test_routes, with_test_id, listTests, listTestRuns. prog_walk.
  apply Require_sys. intros r'. apply envRoutes_sys.
Qed.

Lemma create_test_sys u f o d : prog_ok sys_ok (create_test u f o d) (λ _, True).
Proof.
  unfold create_test. prog_walk. apply prog_ok_call, TestRepo_Create_keeps.
  destruct (decide (Upload.cron u = "")); [by simplify_eq/=|].
  destruct (NextRun _ _); [|done]. simplify_eq/=. intros _. eauto.
Qed.
#[local] Hint Resolve create_test_sys : byot.

Lemma UploadBinary_sys r : prog_ok sys_ok (UploadBinary config r) (λ _, True).
Proof. unfold UploadBinary. prog_walk. Qed.
Lemma Run_sys r : prog_ok sys_ok (Run r) (λ _, True).
Proof. unfold Run. prog_walk. Qed.
Lemma RunRoutes_sys r : prog_ok sys_ok (RunRoutes r) (λ _, True).
Proof. unfold RunRoutes. prog_walk. Qed.
Lemma JobStatus_sys r : prog_ok sys_ok (JobStatus r) (λ _, True).
Proof. unfold JobStatus. prog_walk. Qed.
Lemma ListScreenshots_sys r : prog_ok sys_ok (ListScreenshots r) (λ _, True).
Proof. unfold ListScreenshots. prog_walk. Qed.
Lemma DownloadScreenshot_sys r : prog_ok sys_ok (DownloadScreenshot r) (λ _, True).
Proof. unfold DownloadScreenshot. prog_walk. Qed.

Lemma api_routes_sys p h :
  (p, h) ∈ api_routes config box verifier → ∀ r, prog_ok sys_ok (h r) (λ _, True).
Proof.
  unfold api_routes. intros Hin r.
  repeat (apply elem_of_cons in Hin as [Hin|Hin]; [injection Hin as -> ->|]);
    [done|apply UploadBinary_sys|apply Run_sys|apply Stop_sys|..|apply Tests_sys|apply Tests_sys
    |apply RunRoutes_sys|apply JobStatus_sys|apply ListScreenshots_sys|apply DownloadScreenshot_sys
    |by apply elem_of_nil in Hin];
    apply scheduler_handler_sys; prog_walk; apply prog_ok_call; by apply modify_keeps.
Qed.

Lemma serve_sys r : prog_ok sys_ok (serve config box verifier r) (λ _, True).
Proof.
  unfold serve, PublicConfig. destruct (_ && _); [done|]. destruct (route _ _ _ r) as [h|] eqn:Hr; [|done].
  assert (∀ r, prog_ok sys_ok (h r) (λ _, True)) as Hh.
  { apply route_in in Hr as (p & _ & Hin). by apply (api_routes_sys p). }
  unfold RequireWrites. destruct verifier as [v|] eqn:Hv; [|apply Hh]. rewrite <-Hv.
  destruct (read_only _); [apply Hh|by apply Require_sys].
Qed.

Lemma server_prog_ok p : server_prog p → prog_ok sys_ok p (λ _, True).
Proof.
  intros [r|wid| | |alive policy].
  - apply prog_ok_seq; [apply serve_sys|done].
  - apply work_once_sys.
  - apply sweep_stale_sys.
  - apply tick_sys.
  - apply prog_ok_seq; [apply Sweep_sys|done].
Qed.

Lemma environment_ok w w' : environment w w' → sys_ok w → sys_ok w'.
Proof. intros [w0 now faults http _]. by apply sys_ok_view. Qed.

Lemma reachable_ok w0 c : sys_ok w0 → reachable server_prog environment w0 c → sys_ok c.1.
Proof.
  intros H0 Hr. eapply interleaving_invariant; [exact H0|apply server_prog_ok|apply environment_ok|exact Hr].
Qed.

(** C1: however the server's goroutines interleave, fail, or are killed, the
    tables stay in order: every row is under its key, points to rows that exist
    and has the shape of its state; the variables of a test stay within the
    limit; and a test with an enabled schedule has a cron and a next run. *)
Theorem tables_always_ok w0 c :
  sys_ok w0 → reachable server_prog environment w0 c → db_ok c.1.(w_db).
Proof. intros H0 Hr. by destruct (reachable_ok w0 c H0 Hr). Qed.

(** C2: no job is ever handed to two workers, or to the same one twice, and a
    job that was handed out is never queued again, whatever stops, deletions,
    sweeps and crashes come in between. *)
Theorem job_claimed_at_most_once w0 c :
  sys_ok w0 → reachable server_prog environment w0 c →
  NoDup (claims c.1) ∧
  ∀ k j, k ∈ claims c.1 → c.1.(w_db).(d_jobs) !! k = Some j → j.(Job.Status) ≠ "queued".
Proof. intros H0 Hr. by destruct (reachable_ok w0 c H0 Hr). Qed.
End server.
