(* ===== verification/Pool.v ===== *)
(** * The worker pool (src/worker/pool.go)

    [runPool]: one goroutine claims jobs with [next] and starts a goroutine for
    each, at most [concurrency] at a time.  The goroutines meet in two channels,
    [sem] and [wake], a wait group and the context; a configuration holds those
    and where each goroutine is, and [fire] performs one operation on them.  The
    state [W] is what [next] and [handle] work on. *)

From S2P Require Import Prelude.
From S2P Require Import Prog.

Module RunPool.

(** Where the goroutine of [runPool] is: at the [select] of its loop, at the test
    of [fill]'s loop, holding a new slot before [next], before [<-sem] because
    [next] gave no job, in [wg.Wait()], or back. *)
Inductive pc := Selecting | Filling | Claiming | Refunding | Draining | Returned.

#[export] Instance pc_eq_dec : EqDecision pc.
Proof. solve_decision. Defined.

(** Where a job's goroutine is: in [handle], before the send to [wake] (its slot
    is given back), before [wg.Done()]. *)
Inductive worker (W : Type) := Handling (p : prog W unit) | Waking | Finishing.
Arguments Handling {W} p.
Arguments Waking {W}.
Arguments Finishing {W}.

(** The number of values in [sem], whether [wake] and the ticker's channel hold
    one (both have capacity 1), whether [ctx] is cancelled, the wait group's
    counter, and the goroutines of the jobs. *)
Record t (W : Type) := mk {
  loc : pc;
  sem : nat;
  wake : bool;
  tick : bool;
  cancelled : bool;
  wg : nat;
  workers : list (worker W)
}.
Arguments mk {W} _ _ _ _ _ _ _.
Arguments loc {W} _.
Arguments sem {W} _.
Arguments wake {W} _.
Arguments tick {W} _.
Arguments cancelled {W} _.
Arguments wg {W} _.
Arguments workers {W} _.

Inductive event :=
| Tick | Cancel                         (* the ticker and the owner of ctx *)
| SelectDone | SelectTick | SelectWake  (* the cases of the select *)
| Fill | Next | Refund | WaitDone       (* the rest of runPool's goroutine *)
| Work (i : nat).                       (* the next operation of the i-th job *)

(** The capacity of [sem]. *)
Definition slots (concurrency : Z) : nat :=
  Z.to_nat (if (concurrency <? 1)%Z then 1 else concurrency).

Definition init {W} : t W := mk Selecting 0 false false false 0 [].

(** Setters. *)
Definition goto {W} (l : pc) (s : t W) : t W :=
  mk l s.(sem) s.(wake) s.(tick) s.(cancelled) s.(wg) s.(workers).
Definition with_sem {W} (n : nat) (s : t W) : t W :=
  mk s.(loc) n s.(wake) s.(tick) s.(cancelled) s.(wg) s.(workers).
Definition with_wake {W} (b : bool) (s : t W) : t W :=
  mk s.(loc) s.(sem) b s.(tick) s.(cancelled) s.(wg) s.(workers).
Definition with_tick {W} (b : bool) (s : t W) : t W :=
  mk s.(loc) s.(sem) s.(wake) b s.(cancelled) s.(wg) s.(workers).
Definition with_cancelled {W} (b : bool) (s : t W) : t W :=
  mk s.(loc) s.(sem) s.(wake) s.(tick) b s.(wg) s.(workers).
Definition with_wg {W} (n : nat) (s : t W) : t W :=
  mk s.(loc) s.(sem) s.(wake) s.(tick) s.(cancelled) n s.(workers).
Definition with_workers {W} (l : list (worker W)) (s : t W) : t W :=
  mk s.(loc) s.(sem) s.(wake) s.(tick) s.(cancelled) s.(wg) l.

Section pool.
Context {W J : Type}.
Variable concurrency : Z.
Variable next : M W (res (option J)).
Variable handle : J → prog W unit.

(** The operation of a job's goroutine: a step of [handle]; then the deferred
    calls, last one first: [<-sem], the send to [wake], [wg.Done()]. *)
Definition work (i : nat) (w : W) (s : t W) : option (W * t W) :=
  match s.(workers) !! i with
  | Some (Handling (Step m k)) =>
      let '(r, w') := m w in Some (w', with_workers (<[i := Handling (k r)]> s.(workers)) s)
  | Some (Handling (Ret _)) =>
      guard (0 < s.(sem));;
      Some (w, with_sem (s.(sem) - 1) (with_workers (<[i := Waking]> s.(workers)) s))
  | Some Waking => Some (w, with_wake true (with_workers (<[i := Finishing]> s.(workers)) s))
  | Some Finishing => Some (w, with_wg (s.(wg) - 1) (with_workers (delete i s.(workers)) s))
  | None => None
  end.

(** The loop [for ctx.Err() == nil] of [fill], up to [next]: a free slot is taken,
    or [fill] returns. *)
Definition fill_turn (s : t W) : t W :=
  if s.(cancelled) then goto Selecting s
  else if decide (s.(sem) < slots concurrency) then goto Claiming (with_sem (S s.(sem)) s)
  else goto Selecting s.

Definition claim (w : W) (s : t W) : W * t W :=
  match next w with
  | (Ok (Some job), w') =>
      (w', goto Filling (with_wg (S s.(wg)) (with_workers (s.(workers) ++ [Handling (handle job)]) s)))
  | (_, w') => (w', goto Refunding s)
  end.

(** [None]: the operation is not the goroutine's next one, or it blocks. *)
Definition fire (e : event) (c : W * t W) : option (W * t W) :=
  let '(w, s) := c in
  match e with
  | Tick => Some (w, with_tick true s)
  | Cancel => Some (w, with_cancelled true s)
  | SelectDone => guard (s.(loc) = Selecting ∧ s.(cancelled) = true);; Some (w, goto Draining s)
  | SelectTick => guard (s.(loc) = Selecting ∧ s.(tick) = true);; Some (w, goto Filling (with_tick false s))
  | SelectWake => guard (s.(loc) = Selecting ∧ s.(wake) = true);; Some (w, goto Filling (with_wake false s))
  | Fill => guard (s.(loc) = Filling);; Some (w, fill_turn s)
  | Next => guard (s.(loc) = Claiming);; Some (claim w s)
  | Refund =>
      guard (s.(loc) = Refunding ∧ 0 < s.(sem));; Some (w, goto Selecting (with_sem (s.(sem) - 1) s))
  | WaitDone => guard (s.(loc) = Draining ∧ s.(wg) = 0);; Some (w, goto Returned s)
  | Work i => work i w s
  end.

(** A run of the pool: its operations in some order, and what others do to [W]. *)
Inductive pool_step : W * t W → W * t W → Prop :=
| pool_fires e c c' : fire e c = Some c' → pool_step c c'
| pool_env w w' s : pool_step (w, s) (w', s).

Definition pool_reachable (c : W * t W) : Prop := ∃ w0, rtc pool_step (w0, init) c.

(** A schedule of operations, nothing else happening. *)
Fixpoint fires (es : list event) (c : W * t W) : option (W * t W) :=
  match es with
  | [] => Some c
  | e :: es => match fire e c with Some c => fires es c | None => None end
  end.

Lemma fires_steps es c c' : fires es c = Some c' → rtc pool_step c c'.
Proof.
  revert c. induction es as [|e es IH]; intros c; simpl; [intros [= ->]; apply rtc_refl|].
  destruct (fire e c) as [c1|] eqn:He; [|done]. intros H. eapply rtc_l; [by eapply pool_fires|by apply IH].
Qed.

Lemma fires_reachable es w0 c : fires es (w0, init) = Some c → pool_reachable c.
Proof. intros H. exists w0. by eapply fires_steps. Qed.

(** ** The invariant *)

Definition handling (x : worker W) : nat := match x with Handling _ => 1 | _ => 0 end.

(** The slot that [fill] holds while it claims. *)
Definition claiming (l : pc) : nat := match l with Claiming | Refunding => 1 | _ => 0 end.

Record pool_ok (s : t W) : Prop := {
  ok_sem : s.(sem) = sum_list_with handling s.(workers) + claiming s.(loc);
  ok_cap : s.(sem) ≤ slots concurrency;
  ok_wg : s.(wg) = length s.(workers);
  ok_draining : s.(loc) = Draining → s.(cancelled) = true;
  ok_returned : s.(loc) = Returned → s.(cancelled) = true ∧ s.(workers) = []
}.

Lemma init_ok : pool_ok init.
Proof. by split; simpl; auto with lia. Qed.

(** A list of goroutines around one of them. *)
Lemma split_at {A} (l : list A) i x :
  l !! i = Some x →
  ∃ l1 l2, l = l1 ++ x :: l2 ∧ (∀ y, <[i := y]> l = l1 ++ y :: l2) ∧ delete i l = l1 ++ l2.
Proof.
  intros (l1 & l2 & -> & ->)%list_elem_of_split_length. exists l1, l2. split; [done|]. split.
  - intros y. rewrite insert_app_r_alt by done. by rewrite Nat.sub_diag.
  - rewrite delete_take_drop, take_app_length, drop_app_ge by lia. by replace (S (length l1) - length l1) with 1 by lia.
Qed.

(** What an operation of a job's goroutine does. *)
Lemma work_inv i w s w' s' :
  work i w s = Some (w', s') →
  ∃ l1 x l2 y, s.(workers) = l1 ++ x :: l2 ∧ s'.(workers) = l1 ++ y ++ l2 ∧
    s'.(loc) = s.(loc) ∧ s'.(tick) = s.(tick) ∧ s'.(cancelled) = s.(cancelled) ∧
    match x with
    | Handling (Step m k) =>
        y = [Handling (k (m w).1)] ∧ w' = (m w).2 ∧ s'.(sem) = s.(sem) ∧ s'.(wake) = s.(wake) ∧ s'.(wg) = s.(wg)
    | Handling (Ret _) =>
        y = [Waking] ∧ w' = w ∧ 0 < s.(sem) ∧ s'.(sem) = s.(sem) - 1 ∧ s'.(wake) = s.(wake) ∧ s'.(wg) = s.(wg)
    | Waking => y = [Finishing] ∧ w' = w ∧ s'.(sem) = s.(sem) ∧ s'.(wake) = true ∧ s'.(wg) = s.(wg)
    | Finishing => y = [] ∧ w' = w ∧ s'.(sem) = s.(sem) ∧ s'.(wake) = s.(wake) ∧ s'.(wg) = s.(wg) - 1
    end.
Proof.
  unfold work. destruct (workers s !! i) as [x|] eqn:Hi; [|done].
  destruct (split_at _ _ _ Hi) as (l1 & l2 & Hl & Hins & Hdel). intros H. exists l1, x, l2.
  destruct x as [[u|R m k]| |]; rewrite ?Hins, ?Hdel in H.
  - case_guard; simplify_eq/=. by exists [Waking].
  - destruct (m w) as [r w1]. simplify_eq/=. by exists [Handling (k r)].
  - simplify_eq/=. by exists [Finishing].
  - simplify_eq/=. by exists [].
Qed.

Ltac fields := split; simpl in *; try done; try lia; auto.

Lemma fire_ok e w s w' s' : pool_ok s → fire e (w, s) = Some (w', s') → pool_ok s'.
Proof.
  intros [Hs Hc Hw Hd Hr] H. destruct e; cbn [fire] in H; try (case_guard as Hg; [|done]); simplify_eq/=.
  1,2: by fields; intros ?%Hr; naive_solver.
  - destruct Hg as [Hl Hca]. rewrite Hl in *. fields.
  - destruct Hg as [Hl _]. rewrite Hl in *. fields.
  - destruct Hg as [Hl _]. rewrite Hl in *. fields.
  - unfold fill_turn. rewrite Hg in *. repeat case_match; fields.
  - unfold claim in *. rewrite Hg in *.
    destruct (next w) as [[[job|]|e] w1]; simplify_eq/=; fields.
    + rewrite sum_list_with_app. simpl. lia.
    + rewrite length_app. simpl. lia.
  - destruct Hg as [Hl Hp]. rewrite Hl in *. fields.
  - destruct Hg as [Hl H0]. rewrite Hl, H0 in *. fields.
    intros _. split; [auto|]. by apply nil_length_inv.
  - apply work_inv in H as (l1 & x & l2 & y & Hx & Hy & Hl & _ & Hca & Hcase).
    assert (s.(loc) ≠ Returned) as Hne.
    { intros [_ Hnil]%Hr. rewrite Hnil in Hx. by destruct l1. }
    split; rewrite ?Hy, ?Hl, ?Hca; auto; [| | |done]; revert Hs Hw; rewrite ?Hx, ?sum_list_with_app, ?length_app; simpl;
      destruct x as [[u|R m k]| |]; destruct Hcase as (-> & _ & Hcase); simpl; lia.
Qed.

Lemma pool_inv c : pool_reachable c → pool_ok c.2.
Proof.
  intros [w0 H]. pose proof init_ok as H0. change init with (w0, @init W).2 in H0. revert H H0.
  induction 1 as [c|c1 c2 c3 Hstep _ IH]; [done|]. intros Hok. apply IH.
  destruct Hstep as [e [w s] [w' s'] He|]; [|done]. by eapply fire_ok.
Qed.

(** C16: no more jobs are handled at once than there are slots, the configured
    concurrency and at least one: the goroutines inside [handle], with the job that
    is being claimed, are exactly the values in [sem], and [runPool] returns only
    after a cancellation and when no goroutine of a job is left. *)
Theorem pool_bounded c :
  pool_reachable c →
  sum_list_with handling c.2.(workers) + claiming c.2.(loc) = c.2.(sem) ∧
  (Z.of_nat c.2.(sem) ≤ Z.max 1 concurrency)%Z ∧
  (c.2.(loc) = Returned → c.2.(cancelled) = true ∧ c.2.(workers) = []).
Proof.
  intros [Hs Hc _ _ Hr]%pool_inv. split; [done|]. split; [|done]. revert Hc. unfold slots.
  destruct (Z.ltb_spec concurrency 1); lia.
Qed.

(** ** No lost wake-up *)

(** Steps during which [runPool] stays at its [select]. *)
Definition waiting (c c' : W * t W) : Prop := pool_step c c' ∧ c'.2.(loc) = Selecting.

Definition slot_noticed (s : t W) : Prop :=
  s.(sem) = slots concurrency ∨ s.(wake) = true ∨ Waking ∈ s.(workers).

Lemma waiting_noticed c c' : c.2.(loc) = Selecting → slot_noticed c.2 → waiting c c' → slot_noticed c'.2.
Proof.
  intros Hl Hn [Hstep Hl']. destruct Hstep as [e [w s] [w' s'] He|]; [|done]. cbn [snd] in *.
  destruct e; cbn [fire] in He; try (case_guard as Hg; [|done]); try (destruct Hg; congruence);
    try congruence; simplify_eq/=; try done.
  apply work_inv in He as (l1 & x & l2 & y & Hx & Hy & _ & _ & _ & Hcase).
  unfold slot_noticed in *. rewrite Hy. rewrite Hx in Hn.
  destruct x as [[u|R m k]| |]; destruct Hcase as (-> & _ & Hcase).
  - right; right. set_solver.
  - destruct Hcase as (-> & -> & _). set_solver.
  - right; left. by destruct Hcase as (_ & -> & _).
  - destruct Hcase as (-> & -> & _). set_solver.
Qed.

(** C17: no wake-up is lost.  When [fill] has stopped because every slot is busy,
    then as long as [runPool] waits either all slots still are, or a wake-up is in
    the channel, which the select can take at once, or the goroutine that gave a
    slot back is about to send one. *)
Theorem no_lost_wakeup c1 c2 c3 :
  pool_reachable c1 → c1.2.(cancelled) = false →
  fire Fill c1 = Some c2 → c2.2.(loc) = Selecting → rtc waiting c2 c3 →
  c3.2.(sem) = slots concurrency ∨ Waking ∈ c3.2.(workers) ∨
  ∃ c4, fire SelectWake c3 = Some c4 ∧ c4.2.(loc) = Filling.
Proof.
  intros Hr Hca Hf Hl Hw. pose proof (pool_inv _ Hr) as [_ Hcap _ _ _].
  assert (slot_noticed c2.2) as Hn.
  { left. destruct c1 as [w s]. simpl in *. case_guard; [|done]. simplify_eq/=. revert Hl. unfold fill_turn.
    rewrite Hca. case_decide; simpl; [done|]. intros _. lia. }
  assert (slot_noticed c3.2 ∧ c3.2.(loc) = Selecting) as [[?|[Hwake|?]] Hl3]; [|by left| |by right; left].
  { clear Hr Hca Hf Hcap. induction Hw as [c|c2 c c3 Hstep _ IH]; [done|]. pose proof (waiting_noticed _ _ Hl Hn Hstep).
    destruct Hstep. auto. }
  right; right. destruct c3 as [w s]. simpl in *. eexists. rewrite option_guard_True by done. by split.
Qed.

(** ** Shutdown *)

(** One operation of the pool, between two ticks, on any [W]. *)
Definition progress (s' s : t W) : Prop :=
  ∃ e w w', e ∉ [Tick; Cancel] ∧ fire e (w, s) = Some (w', s').

(** The next operations of one goroutine, and of a list of them. *)
Definition worker_lt (y x : worker W) : Prop :=
  match x with
  | Handling (Step m k) => ∃ r, y = Handling (k r)
  | Handling (Ret _) => y = Waking
  | Waking => y = Finishing
  | Finishing => False
  end.

Inductive workers_lt : list (worker W) → list (worker W) → Prop :=
| lt_here x y l : worker_lt y x → workers_lt (y :: l) (x :: l)
| lt_done x l : workers_lt l (x :: l)
| lt_there x l l' : workers_lt l' l → workers_lt (x :: l') (x :: l).

Lemma worker_acc x : Acc worker_lt x.
Proof.
  assert (Acc worker_lt Finishing) as Hf by by constructor.
  assert (Acc worker_lt Waking) as Hw by by constructor; intros y ->.
  destruct x as [p| |]; [|done..]. induction p as [u|R m k IH].
  - by constructor; intros y ->.
  - constructor. intros y [r ->]. apply IH.
Qed.

Lemma workers_acc l : Acc workers_lt l.
Proof.
  induction l as [|x l IH]; [constructor; inversion 1|].
  revert l IH. induction (worker_acc x) as [x _ IHx]. intros l Hl. induction Hl as [l Hl IHl].
  constructor. inversion 1; subst; [by apply IHx; [|constructor]|by constructor|by apply IHl].
Qed.

Lemma workers_lt_app l1 l2 l2' : workers_lt l2' l2 → workers_lt (l1 ++ l2') (l1 ++ l2).
Proof. intros H. induction l1; simpl; [done|by constructor]. Qed.

Lemma work_lt i w s w' s' : work i w s = Some (w', s') → workers_lt s'.(workers) s.(workers).
Proof.
  intros (l1 & x & l2 & y & -> & -> & _ & _ & _ & Hcase)%work_inv. apply workers_lt_app.
  destruct x as [[u|R m k]| |]; destruct Hcase as [-> _]; simpl; constructor; simpl; eauto.
Qed.

(** How many operations the goroutine of [runPool] still has. *)
Definition rank (s : t W) : nat :=
  let wakeups := 2 * (Nat.b2n s.(wake) + Nat.b2n s.(tick)) in
  match s.(loc) with
  | Returned => 0
  | Draining => 1
  | Selecting => 2 + wakeups
  | Filling | Refunding => 3 + wakeups
  | Claiming => 4 + wakeups
  end.

(** Cancelled, and with no claim under way. *)
Definition settled (s : t W) : Prop := s.(cancelled) = true ∧ s.(loc) ≠ Claiming.

Lemma settled_fire e w s w' s' :
  settled s → fire e (w, s) = Some (w', s') →
  settled s' ∧ length s'.(workers) ≤ length s.(workers) ∧
  (e ∉ [Tick; Cancel] →
   workers_lt s'.(workers) s.(workers) ∨ s'.(workers) = s.(workers) ∧ rank s' < rank s).
Proof.
  intros [Hca Hl] H. destruct e; cbn [fire] in H; try (case_guard as Hg; [|done]); simplify_eq/=.
  1,2: by split; [|split; [|set_solver]].
  1-6: unfold settled, rank, fill_turn in *; rewrite ?Hca; destruct_and?; simpl in *; simplify_eq;
    repeat match goal with H : _ = _ |- _ => rewrite H end; simpl;
    (split; [done|split; [done|intros _; right; split; [done|lia]]]).
  - pose proof (work_lt _ _ _ _ _ H) as Hlt. apply work_inv in H as (l1 & x & l2 & y & Hx & Hy & Hl' & _ & Hca' & Hcase).
    split; [split; congruence|]. split; [|intros _; by left].
    rewrite Hx, Hy, !length_app. simpl. destruct x as [[u|R m k]| |]; destruct Hcase as [-> _]; simpl; lia.
Qed.

Lemma settled_acc s : settled s → Acc progress s.
Proof.
  remember s.(workers) as l eqn:Hw. revert s Hw. induction (workers_acc l) as [l _ IHl].
  intros s. remember (rank s) as n eqn:Hn. revert s Hn. induction (lt_wf n) as [n _ IHn]. intros s -> -> Hs.
  constructor. intros s' (e & w & w' & He & H). destruct (settled_fire _ _ _ _ _ Hs H) as (Hs' & _ & [Hlt|[Heq Hlt]]%(λ f, f He)).
  - by eapply IHl.
  - by eapply IHn.
Qed.

Lemma cancelled_acc s : s.(cancelled) = true → Acc progress s.
Proof.
  remember s.(workers) as l eqn:Hw. revert s Hw. induction (workers_acc l) as [l _ IHl].
  intros s -> Hca. destruct (decide (s.(loc) = Claiming)) as [Hl|Hl]; [|by apply settled_acc].
  constructor. intros s' (e & w & w' & He & H). destruct e; cbn [fire] in H; try set_solver;
    try (case_guard as Hg; [|done]); try (destruct Hg; congruence); try congruence.
  - apply settled_acc. unfold claim in H. destruct (next w) as [[[job|]|] w1]; by simplify_eq/=.
  - pose proof (work_lt _ _ _ _ _ H). apply work_inv in H as (l1 & x & l2 & y & _ & _ & Hl' & _ & Hca' & _).
    eapply IHl; [done..|congruence].
Qed.

(** Something can always be done until the pool has returned. *)
Lemma shutdown_goes_on w s :
  pool_ok s → s.(cancelled) = true → s.(loc) ≠ Returned →
  ∃ e c, e ∉ [Tick; Cancel] ∧ fire e (w, s) = Some c.
Proof.
  intros [Hsem _ Hwg _ _] Hca Hne. destruct (loc s) eqn:Hl; [| | | | |done]; simpl in Hsem.
  - exists SelectDone. simpl. rewrite option_guard_True by done. eexists. split; [set_solver|done].
  - exists Fill. simpl. rewrite option_guard_True by done. eexists. split; [set_solver|done].
  - exists Next. simpl. rewrite option_guard_True by done. eexists. split; [set_solver|done].
  - exists Refund. simpl. rewrite option_guard_True by (split; [done|lia]). eexists. split; [set_solver|done].
  - destruct (workers s) as [|x l] eqn:Hx.
    + exists WaitDone. simpl. rewrite option_guard_True by done. eexists. split; [set_solver|done].
    + exists (Work 0). simpl. unfold work. rewrite Hx. simpl. destruct x as [[u|R m k]| |]; simpl in *.
      * rewrite option_guard_True by lia. eexists. split; [set_solver|done].
      * destruct (m w). eexists. split; [set_solver|done].
      * eexists. split; [set_solver|done].
      * eexists. split; [set_solver|done].
Qed.

Lemma settled_reach c c' : settled c.2 → rtc pool_step c c' → settled c'.2 ∧ length c'.2.(workers) ≤ length c.2.(workers).
Proof.
  intros Hs H. revert Hs. induction H as [c|c1 c2 c3 Hstep _ IH]; [done|]. intros Hs.
  assert (settled c2.2 ∧ length c2.2.(workers) ≤ length c1.2.(workers)) as [Hs2 Hlen].
  { destruct Hstep as [e [w s] [w' s'] He|]; [|done]. by destruct (settled_fire _ _ _ _ _ Hs He) as (? & ? & _). }
  destruct (IH Hs2). split; [done|]. by etrans.
Qed.

(** C15: once its context is cancelled the pool drains and returns.  Its operations
    between two ticks are finite in number, for whatever the jobs do and whatever
    happens to the shared state; until it has returned one of them can be made, so
    no slot, wake-up or counter ever blocks it; and apart from a claim that is
    already under way no further job is claimed, only the jobs in flight go on. *)
Theorem shutdown_ends c :
  pool_reachable c → c.2.(cancelled) = true →
  Acc progress c.2 ∧
  (c.2.(loc) ≠ Returned → ∃ e c', e ∉ [Tick; Cancel] ∧ fire e c = Some c') ∧
  (c.2.(loc) ≠ Claiming → ∀ c', rtc pool_step c c' →
   c'.2.(loc) ≠ Claiming ∧ length c'.2.(workers) ≤ length c.2.(workers)).
Proof.
  intros Hok%pool_inv Hca. split; [by apply cancelled_acc|]. split.
  - intros Hne. destruct c as [w s]. by apply shutdown_goes_on.
  - intros Hl c' H. destruct (settled_reach c c') as [[_ ?] ?]; [by split|done|by split].
Qed.
End pool.
End RunPool.
