(* ===== verification/Startup.v ===== *)
(** * Start-up (src/main.go, src/db/db.go, NewMinioStorage of src/storage/minio.go)

    What [main] does before it listens: the subcommand, the configuration, the
    connection pool, migrations, the choice of the object store, the verifier and
    the secrets box.  The libraries it calls are the class [Platform]. *)

From S2P Require Import Prelude.
From S2P Require Import Prog.
From S2P Require Import GoStrings.
From S2P Require Import Model.
From S2P Require Import World.
From S2P Require Import Config.
From S2P Require Import Auth.
From S2P Require Import Secrets.
From S2P Require Import Runtime.
From S2P Require Import Storage.
From S2P Require Import Minio.
From S2P Require Import Supabase.
From S2P Require Import Scheduler.

(** [minio.Options], with the endpoint and the bucket. *)
Module MinioOptions.
Record t := mk {
  endpoint : string; accessKey : string; secretKey : string;
  Secure : bool; Region : string; bucketName : string
}.
End MinioOptions.

(** [m.Up()]: nil, [migrate.ErrNoChange], or another error. *)
Inductive up_result := UpDone | ErrNoChange | UpFailed (e : error).

Class Platform := {
  pgx_ParseConfig : string → bool;                 (* whether the URL parses *)
  pgx_NewWithConfig : string → act (res unit);
  pgx_Ping : act (res unit);
  iofs_New : res unit;
  migrate_New : string → act (res unit);
  migrate_Up : act up_result;
  docker_pull : string → act (res unit);
  minio_New : MinioOptions.t → res unit;
  minio_BucketExists : string → act (res bool);
  minio_MakeBucket : string → string → act (res unit)
}.

(** The struct that the variable [store] holds. *)
Inductive store := StoreMinio (o : MinioOptions.t) | StoreSupabase (s : SupabaseStorage.t).

(** What [main] has built when it starts its goroutines. *)
Module Server.
Record t := mk {
  config : Config.t; store : store; verifier : option Verifier.t; box : Box; tickInterval : Z
}.
End Server.

(** [log.Fatal] ends the process with the message and the error. *)
Inductive outcome :=
| Pulled
| Fatal (msg : string) (e : option error)
| Panics
| Serving (s : Server.t).

Section startup.
Context `{E : Ext} `{Platform}.

(** db.Connect; the error of [ParseConfig] is dropped, and then its result is nil. *)
Definition Connect (dbURL : string) : prog world (option (res unit)) :=
  if negb (pgx_ParseConfig dbURL) then mret None   (* nil pointer dereference *)
  else
    r ← call (pgx_NewWithConfig dbURL);
    match r with
    | Err e => mret (Some (Err e))
    | Ok _ => r ← call pgx_Ping; mret (Some r)
    end.

Definition runMigrations (dbURL : string) : prog world (res unit) :=
  match iofs_New with
  | Err e => mret (Err e)
  | Ok _ =>
      try _ := call (migrate_New dbURL) in
      r ← call migrate_Up;
      mret (match r with UpFailed e => Err e | UpDone | ErrNoChange => Ok tt end)
  end.

Fixpoint pullImages (images : list string) : prog world outcome :=
  match images with
  | [] => mret Pulled
  | img :: images =>
      r ← call (docker_pull img);
      match r with Err e => mret (Fatal "pull failed" (Some e)) | Ok _ => pullImages images end
  end.

(** The scheme of the endpoint decides about TLS and is cut off. *)
Definition minio_options (endpoint accessKey secretKey bucketName region : string) : MinioOptions.t :=
  let endpoint := TrimSpace endpoint in
  if HasPrefix endpoint "https://"
  then MinioOptions.mk (TrimPrefix endpoint "https://") accessKey secretKey true region bucketName
  else MinioOptions.mk (TrimPrefix endpoint "http://") accessKey secretKey false region bucketName.

Definition NewMinioStorage (endpoint accessKey secretKey bucketName region : string)
    : prog world (res MinioOptions.t) :=
  if decide (endpoint = "") then mret (Err (Errorf "minio endpoint is required"))
  else if decide (accessKey = "") then mret (Err (Errorf "minio access key is required"))
  else if decide (secretKey = "") then mret (Err (Errorf "minio secret key is required"))
  else if decide (bucketName = "") then mret (Err (Errorf "minio bucket is required"))
  else
    let o := minio_options endpoint accessKey secretKey bucketName region in
    match minio_New o with
    | Err e => mret (Err (Wrap "create minio client: " e))
    | Ok _ =>
        exists_ ← call (minio_BucketExists bucketName);
        match exists_ with
        | Ok false =>
            r ← call (minio_MakeBucket bucketName region);
            mret (match r with
                  | Err e => Err (Wrap ("create minio bucket " +:+ Quote bucketName +:+ ": ") e)
                  | Ok _ => Ok o
                  end)
        | _ => mret (Ok o)
        end
    end.

(** The switch over STORAGE_PROVIDER; [None] is its default case. *)
Definition open_store (cfg : Config.t) : prog world (option (res store)) :=
  if decide (cfg.(Config.StorageProvider) = "minio") then
    r ← NewMinioStorage cfg.(Config.MinioEndpoint) cfg.(Config.MinioAccessKey)
          cfg.(Config.MinioSecretKey) cfg.(Config.MinioBucket) cfg.(Config.MinioRegion);
    mret (Some (fmap (M:=res) StoreMinio r))
  else if decide (cfg.(Config.StorageProvider) = "supabase") then
    mret (Some (fmap (M:=res) StoreSupabase
      (NewSupabaseStorage cfg.(Config.SupabaseURL) cfg.(Config.SupabaseKey) cfg.(Config.SupabaseBucket))))
  else mret None.

(** scheduler.NewScheduler *)
Definition NewScheduler (tickInterval : Z) : Z :=
  if (tickInterval <=? 0)%Z then (30 * Second)%Z else tickInterval.

Definition migration_failed : string :=
  "migration failed (set AUTO_MIGRATE=false to manage migrations yourself)".

Definition main (args : list string) : prog world outcome :=
  if bool_decide (args !! 1 = Some "pull-images") then pullImages Images
  else
    let cfg := LoadConfig in
    conn ← Connect cfg.(Config.DBUrl);
    match conn with
    | None => mret Panics
    | Some (Err e) => mret (Fatal "failed to connect to postgres" (Some e))
    | Some (Ok _) =>
        migrated ← (if decide (ext_getenv "AUTO_MIGRATE" = "false") then mret (Ok tt)
                    else runMigrations cfg.(Config.DBUrl));
        match migrated with
        | Err e => mret (Fatal migration_failed (Some e))
        | Ok _ =>
            store ← open_store cfg;
            match store with
            | None => mret (Fatal "unsupported storage provider" None)
            | Some (Err e) => mret (Fatal "failed to initialize storage" (Some e))
            | Some (Ok store) =>
                let verifier := Auth.New cfg.(Config.SupabaseURL) cfg.(Config.SupabasePublishableKey) in
                match Secrets.New cfg.(Config.SecretsKey) with
                | Err e => mret (Fatal "invalid SECRETS_KEY" (Some e))
                | Ok box => mret (Serving (Server.mk cfg store verifier box (NewScheduler (30 * Second))))
                end
            end
        end
    end.

(** ** Theorems *)

(** What holds of the store, the verifier and the box of a server that serves. *)
Definition store_ok (cfg : Config.t) (st : store) : Prop :=
  match st with
  | StoreMinio o =>
      cfg.(Config.StorageProvider) = "minio" ∧
      o.(MinioOptions.accessKey) ≠ "" ∧ o.(MinioOptions.secretKey) ≠ "" ∧ o.(MinioOptions.bucketName) ≠ "" ∧
      (if o.(MinioOptions.Secure)
       then TrimSpace cfg.(Config.MinioEndpoint) = "https://" +:+ o.(MinioOptions.endpoint)
       else TrimSpace cfg.(Config.MinioEndpoint) = "http://" +:+ o.(MinioOptions.endpoint) ∨
            TrimSpace cfg.(Config.MinioEndpoint) = o.(MinioOptions.endpoint)) ∧
      minio_New o = Ok tt
  | StoreSupabase s =>
      cfg.(Config.StorageProvider) = "supabase" ∧
      cfg.(Config.SupabaseURL) ≠ "" ∧
      s.(SupabaseStorage.key) = cfg.(Config.SupabaseKey) ∧ s.(SupabaseStorage.key) ≠ "" ∧
      s.(SupabaseStorage.bucketName) = cfg.(Config.SupabaseBucket) ∧ s.(SupabaseStorage.bucketName) ≠ ""
  end.

Definition verifier_ok (cfg : Config.t) (v : option Verifier.t) : Prop :=
  match v with
  | Some v => v.(Verifier.url) ≠ "" ∧ HasSuffix v.(Verifier.url) "/" = false ∧
              v.(Verifier.publishableKey) = cfg.(Config.SupabasePublishableKey) ∧ v.(Verifier.publishableKey) ≠ ""
  | None => TrimRightByte "/" cfg.(Config.SupabaseURL) = "" ∨ cfg.(Config.SupabasePublishableKey) = ""
  end.

Definition box_ok (cfg : Config.t) (b : Box) : Prop :=
  match b with Some key => len key = 32%Z | None => TrimSpace cfg.(Config.SecretsKey) = "" end.

Lemma minio_options_endpoint e a s b r :
  let o := minio_options e a s b r in
  if o.(MinioOptions.Secure) then TrimSpace e = "https://" +:+ o.(MinioOptions.endpoint)
  else TrimSpace e = "http://" +:+ o.(MinioOptions.endpoint) ∨ TrimSpace e = o.(MinioOptions.endpoint).
Proof.
  unfold minio_options. destruct (HasPrefix (TrimSpace e) "https://") eqn:Hs; cbn [MinioOptions.Secure MinioOptions.endpoint].
  - apply HasPrefix_true in Hs as [t ->]. by rewrite TrimPrefix_app.
  - unfold TrimPrefix at 1 2. destruct (HasPrefix (TrimSpace e) "http://") eqn:Hh; [left|by right].
    apply HasPrefix_true in Hh as [t ->]. by rewrite str_drop_app.
Qed.

Lemma NewMinioStorage_run e a s b r w o w' :
  run (NewMinioStorage e a s b r) w = (Ok o, w') →
  e ≠ "" ∧ a ≠ "" ∧ s ≠ "" ∧ b ≠ "" ∧ o = minio_options e a s b r ∧ minio_New o = Ok tt.
Proof.
  unfold NewMinioStorage. repeat (case_decide; [by rewrite run_ret|]). cbv zeta.
  destruct (minio_New _) as [[]|] eqn:Hn; [|by rewrite run_ret]. rewrite run_call_bind.
  destruct (minio_BucketExists b w) as [[[|]|] w1]; [by rewrite run_ret; intros [= <- _]|
    |by rewrite run_ret; intros [= <- _]].
  rewrite run_call_bind. destruct (minio_MakeBucket b r w1) as [[|] w2]; rewrite run_ret; [by intros [= <- _]|done].
Qed.

Lemma open_store_ok cfg w st w' : run (open_store cfg) w = (Some (Ok st), w') → store_ok cfg st.
Proof.
  unfold open_store. case_decide as Hp.
  - rewrite run_bind. destruct (run (NewMinioStorage _ _ _ _ _) w) as [[o|e] w1] eqn:Hr; rewrite run_ret; [|done].
    intros [= <- _]. apply NewMinioStorage_run in Hr as (_ & Ha & Hs & Hb & -> & Hn).
    pose proof (minio_options_endpoint cfg.(Config.MinioEndpoint) cfg.(Config.MinioAccessKey)
      cfg.(Config.MinioSecretKey) cfg.(Config.MinioBucket) cfg.(Config.MinioRegion)) as He.
    unfold store_ok. split; [done|]. split; [|split; [|split; [|done]]]; unfold minio_options; by case_match.
  - case_decide as Hs; rewrite run_ret; [|done]. unfold NewSupabaseStorage.
    repeat case_decide; intros [= <- _]. by split_and!.
Qed.

Lemma TrimRightByte_suffix c s : HasSuffix (TrimRightByte c s) (String c "") = false.
Proof.
  apply not_true_is_false. rewrite HasSuffix_true. induction s as [|d s IH]; cbn [TrimRightByte].
  - by intros [[|] ?].
  - destruct (TrimRightByte c s) as [|a u].
    + case_decide as Hc; intros [[|x [|]] [=]]; congruence.
    + intros [[|x t] [= _ Ht]]. apply IH. by exists t.
Qed.

Lemma Auth_New_ok cfg :
  verifier_ok cfg (Auth.New cfg.(Config.SupabaseURL) cfg.(Config.SupabasePublishableKey)).
Proof.
  unfold Auth.New. destruct (bool_decide _) eqn:Hu; reflect_bools; simpl; [by left|].
  destruct (bool_decide (cfg.(Config.SupabasePublishableKey) = "")) eqn:Hk; reflect_bools; simpl; [by right|].
  split_and!; [done|apply TrimRightByte_suffix|done..].
Qed.

Lemma Secrets_New_ok cfg b : Secrets.New cfg.(Config.SecretsKey) = Ok b → box_ok cfg b.
Proof.
  unfold Secrets.New. case_decide; [by intros [= <-]|]. destruct (b64_decode _) as [k|]; [|done].
  destruct (len k =? 32)%Z eqn:Hk; [|done]. intros [= <-]. by apply Z.eqb_eq.
Qed.

(** A DB_URL that does not parse is dereferenced as a nil configuration. *)
Lemma bad_DB_URL_panics args w :
  args !! 1 ≠ Some "pull-images" → pgx_ParseConfig LoadConfig.(Config.DBUrl) = false →
  run (main args) w = (Panics, w).
Proof. intros Ha Hu. unfold main. rewrite bool_decide_false by done. cbv zeta. unfold Connect. by rewrite Hu. Qed.

(** C38: the server listens only when it is configured completely.  Then it has
    read the database URL, knows its storage provider and every parameter of it,
    talks TLS to MinIO exactly when the endpoint says https, has a secrets key of
    32 bytes or none at all, checks tokens against a URL without a trailing slash
    or has authentication off because a setting is missing, ticks every 30 seconds,
    runs 1 to 32 jobs at once and has limits for timeouts, memory, CPUs and retention
    that make sense. *)
Theorem main_serves_configured args w srv w' :
  run (main args) w = (Serving srv, w') →
  let cfg := srv.(Server.config) in
  cfg = LoadConfig ∧ pgx_ParseConfig cfg.(Config.DBUrl) = true ∧
  store_ok cfg srv.(Server.store) ∧ verifier_ok cfg srv.(Server.verifier) ∧ box_ok cfg srv.(Server.box) ∧
  srv.(Server.tickInterval) = (30 * Second)%Z ∧
  (1 ≤ cfg.(Config.WorkerConcurrency) ≤ 32)%Z ∧
  (0 < cfg.(Config.MaxTimeoutSeconds) < 2^63)%Z ∧ (0 < cfg.(Config.MaxDockerMemoryMB) < 2^63)%Z ∧
  (0 ≤ cfg.(Config.RetentionMaxRuns) < 2^63)%Z ∧ (0 ≤ cfg.(Config.RetentionDays) < 2^63)%Z ∧
  flt f0 cfg.(Config.MaxDockerCPUs) = true.
Proof.
  unfold main. case_bool_decide.
  { generalize Images. intros images. revert w. induction images as [|i l IH]; intros w; [done|]. cbn [pullImages].
    rewrite run_call_bind. destruct (docker_pull i w) as [[|] w1]; [apply IH|done]. }
  cbv zeta. set (cfg := LoadConfig). rewrite run_bind. unfold Connect.
  destruct (pgx_ParseConfig _) eqn:Hurl; cbn [negb]; [|done].
  destruct (run _ w) as [[[u|e]|] w1]; [|by rewrite run_ret..]. rewrite run_bind.
  destruct (run _ w1) as [[u'|e] w2]; [|by rewrite run_ret]. rewrite run_bind.
  destruct (run (open_store cfg) w2) as [[[st|e]|] w3] eqn:Hst; [|by rewrite run_ret..].
  destruct (Secrets.New _) as [b|] eqn:Hb; rewrite run_ret; [|done]. intros [= <- <-]. simpl.
  split; [done|]. split; [done|]. split; [by eapply open_store_ok|]. split; [apply Auth_New_ok|].
  split; [by apply Secrets_New_ok|]. split; [done|].
  destruct LoadConfig_limits as (? & ? & ? & ? & ? & ? & _). repeat (split; [assumption|]). assumption.
Qed.
End startup.
