(* ===== verification/Main.v ===== *)
(** * The running server (src/main.go, and the loops it starts)

    [Loop] is the shape of the background loops: [Worker.sweepStale],
    [Scheduler.Start] and [Sweeper.Run].  [Site] is the process once it listens:
    the requests in flight, the worker pool, the three loops, and the goroutine of
    [main], which waits for a signal and shuts the others down.  Every run of the
    site is a run of [System], so the invariants proved there hold of it. *)

From S2P Require Import Prelude.
From S2P Require Import Prog.
From S2P Require Import GoStrings.
From S2P Require Import Strconv.
From S2P Require Import Model.
From S2P Require Import World.
From S2P Require Import Config.
From S2P Require Import Http.
From S2P Require Import Auth.
From S2P Require Import TestRepo.
From S2P Require Import JobRepo.
From S2P Require Import RunRepo.
From S2P Require Import Secrets.
From S2P Require Import Storage.
From S2P Require Import Worker.
From S2P Require Import Scheduler.
From S2P Require Import Retention.
From S2P Require Import Endpoints.
From S2P Require Import Invariants.
From S2P Require Import System.
From S2P Require Import Pool.

(** ** Background loops

    [for { select { case <-ctx.Done(): return; case <-ticker.C: body() } }] *)
Module Loop.
Inductive pc := Body (p : prog world unit) | Selecting | Returned.

(** [tick]: a value waits in the channel of the ticker or timer. *)
Record t := mk { loc : pc; tick : bool }.

(** A loop whose turns are programs in [bodies]. *)
Inductive step (bodies : prog world unit → Prop) (cancelled : bool) : world * t → world * t → Prop :=
| ticker_fires w l b : step bodies cancelled (w, mk l b) (w, mk l true)
| select_done w b : cancelled = true → step bodies cancelled (w, mk Selecting b) (w, mk Returned b)
| select_tick w p : bodies p → step bodies cancelled (w, mk Selecting true) (w, mk (Body p) false)
| body_step w R (m : M world R) k b :
    step bodies cancelled (w, mk (Body (Step m k)) b) ((m w).2, mk (Body (k (m w).1)) b)
| body_end w u b : step bodies cancelled (w, mk (Body (Ret u)) b) (w, mk Selecting b).

Definition threads (s : t) : list (prog world unit) :=
  match s.(loc) with Body p => [p] | _ => [] end.
End Loop.

Section loops.
Context `{E : Ext} `{St : Storage}.

(** sweepStale sweeps once before its loop, the scheduler waits for the first
    tick, and retention does not loop at all when it has no limit. *)
Definition sweepStale_start : Loop.t := Loop.mk (Loop.Body sweep_stale) false.
Definition sweepStale_turn (p : prog world unit) : Prop := p = sweep_stale.

Definition scheduler_start : Loop.t := Loop.mk Loop.Selecting false.
Definition scheduler_turn (p : prog world unit) : Prop := p = tick.

Definition retention_start (policy : Policy.t) : Loop.t :=
  Loop.mk (if Policy.Enabled policy then Loop.Selecting else Loop.Returned) false.
Definition retention_turn (policy : Policy.t) (p : prog world unit) : Prop :=
  ∃ alive, p = (_ ← Sweep alive policy; mret tt).
End loops.

(** The policy [main] makes of the configuration. *)
Definition policy_of (cfg : Config.t) : Policy.t :=
  Policy.mk cfg.(Config.RetentionMaxRuns) (max_age_of_days cfg.(Config.RetentionDays)).

(** ** The process *)
Module Site.

(** Where [main] is: waiting for a signal, in [server.Shutdown], in the select
    after [stopWorker()], or back, which ends the process; [Died] is after the
    [log.Fatal] of the goroutine that listens. *)
Inductive phase := Serving | ShuttingDown | Stopping | Exited | Died.
Definition running (ph : phase) : bool := match ph with Exited | Died => false | _ => true end.

(** [deadline]: [shutdownCtx] has expired.  [pool.(cancelled)] is the state of
    [workerCtx], which the loops share. *)
Record t := mk {
  main : phase;
  deadline : bool;
  requests : list (prog world unit);
  pool : RunPool.t world;
  stale : Loop.t;
  sched : Loop.t;
  sweeper : Loop.t
}.

Section site.
Context `{E : Ext} `{St : Storage}.
Variable Duration_String : Z → string.
Variable config : Config.t.
Variable box : Box.
Variable verifier : option Verifier.t.
Variable workerID : string.

(** [Worker.Start]: the sweep of stale jobs and the pool; then the scheduler, the
    retention sweeper and the listener. *)
Definition init : t :=
  mk Serving false [] RunPool.init sweepStale_start scheduler_start (retention_start (policy_of config)).

Definition pool_fire : RunPool.event → world * RunPool.t world → option (world * RunPool.t world) :=
  RunPool.fire config.(Config.WorkerConcurrency) (Queue.Dequeue workerID) (handleJob Duration_String box).

Inductive step : world * t → world * t → Prop :=
(** net/http: a goroutine for each request, while the server listens. *)
| accept w r d rs p a b c :
    step (w, mk Serving d rs p a b c)
         (w, mk Serving d ((_ ← serve config box verifier r; mret tt) :: rs) p a b c)
| request_step w R (m : M world R) k ph d l1 l2 p a b c : running ph = true →
    step (w, mk ph d (l1 ++ Step m k :: l2) p a b c)
         ((m w).2, mk ph d (l1 ++ k (m w).1 :: l2) p a b c)
| request_end w u ph d l1 l2 p a b c : running ph = true →
    step (w, mk ph d (l1 ++ Ret u :: l2) p a b c) (w, mk ph d (l1 ++ l2) p a b c)
| pool_step e w w' ph d rs p p' a b c : running ph = true → e ≠ RunPool.Cancel →
    pool_fire e (w, p) = Some (w', p') →
    step (w, mk ph d rs p a b c) (w', mk ph d rs p' a b c)
| stale_step w w' ph d rs p a a' b c : running ph = true →
    Loop.step sweepStale_turn p.(RunPool.cancelled) (w, a) (w', a') →
    step (w, mk ph d rs p a b c) (w', mk ph d rs p a' b c)
| sched_step w w' ph d rs p a b b' c : running ph = true →
    Loop.step scheduler_turn p.(RunPool.cancelled) (w, b) (w', b') →
    step (w, mk ph d rs p a b c) (w', mk ph d rs p a b' c)
| sweeper_step w w' ph d rs p a b c c' : running ph = true →
    Loop.step (retention_turn (policy_of config)) p.(RunPool.cancelled) (w, c) (w', c') →
    step (w, mk ph d rs p a b c) (w', mk ph d rs p a b c')
(** [<-sigChan], [server.Shutdown(shutdownCtx)], [stopWorker()], and the select
    on [workerDone]; the deadline runs from the signal on. *)
| listen_fails w d rs p a b c :
    step (w, mk Serving d rs p a b c) (w, mk Died d rs p a b c)
| signal w d rs p a b c :
    step (w, mk Serving d rs p a b c) (w, mk ShuttingDown d rs p a b c)
| deadline_passes w ph d rs p a b c : ph = ShuttingDown ∨ ph = Stopping →
    step (w, mk ph d rs p a b c) (w, mk ph true rs p a b c)
| stop_worker w d rs p a b c : rs = [] ∨ d = true →
    step (w, mk ShuttingDown d rs p a b c) (w, mk Stopping d rs (RunPool.with_cancelled true p) a b c)
| exit w d rs p a b c : p.(RunPool.loc) = RunPool.Returned ∨ d = true →
    step (w, mk Stopping d rs p a b c) (w, mk Exited d rs p a b c)
| outside w w' s : environment w w' → step (w, s) (w', s).

Definition site_reachable (w0 : world) (c : world * t) : Prop := rtc step (w0, init) c.

(** The goroutines that are inside a program. *)
Definition pool_threads (l : list (RunPool.worker world)) : list (prog world unit) :=
  omap (λ x, match x with RunPool.Handling p => Some p | _ => None end) l.
Definition threads (s : t) : list (prog world unit) :=
  s.(requests) ++ pool_threads s.(pool).(RunPool.workers) ++
  Loop.threads s.(stale) ++ Loop.threads s.(sched) ++ Loop.threads s.(sweeper).

(** ** The site is a run of the system *)

Abbreviation reaches := (reaches (server_prog Duration_String config box verifier) environment).

Lemma pool_threads_app l l' : pool_threads (l ++ l') = pool_threads l ++ pool_threads l'.
Proof. apply omap_app. Qed.

Lemma pool_sim w0 e w p w' p' rest :
  pool_fire e (w, p) = Some (w', p') →
  reaches w0 w (pool_threads p.(RunPool.workers) ++ rest) →
  reaches w0 w' (pool_threads p'.(RunPool.workers) ++ rest).
Proof.
  intros H Hr. destruct e; cbn [pool_fire RunPool.fire] in H; unfold pool_fire in H; cbn [RunPool.fire] in H;
    try (case_guard; [|done]); simplify_eq/=; try done.
  - unfold RunPool.fill_turn. by repeat case_match.
  - apply (reaches_spawn_atom _ _ _ _ (Queue.Dequeue workerID)
      (λ r, match r with Ok (Some job) => handleJob Duration_String box job | _ => mret tt end)) in Hr;
      [|apply server_work].
    unfold RunPool.claim in H. destruct (Queue.Dequeue workerID w) as [[[job|]|e] w1]; simplify_eq/=.
    + rewrite pool_threads_app. simpl. rewrite <-app_assoc. simpl. by rewrite <-Permutation_middle.
    + by eapply reaches_end.
    + by eapply reaches_end.
  - apply RunPool.work_inv in H as (l1 & x & l2 & y & Hx & Hy & _ & _ & _ & Hcase).
    rewrite Hx, pool_threads_app in Hr. rewrite Hy, !pool_threads_app.
    destruct x as [[u|R m k]| |]; destruct Hcase as (-> & -> & _); simpl in *; try done;
      rewrite <-app_assoc in *; simpl in *; rewrite <-Permutation_middle in Hr.
    + by eapply reaches_end.
    + rewrite <-Permutation_middle. by apply reaches_atom.
Qed.

Lemma loop_sim w0 bodies ca w s w' s' rest :
  (∀ p, bodies p → server_prog Duration_String config box verifier p) →
  Loop.step bodies ca (w, s) (w', s') →
  reaches w0 w (Loop.threads s ++ rest) → reaches w0 w' (Loop.threads s' ++ rest).
Proof.
  intros Hb H Hr. inversion H; simplify_eq/=; try done.
  - apply reaches_spawn; auto.
  - by apply reaches_atom.
  - by eapply reaches_end.
Qed.

Lemma app_third {A} (l1 l2 l3 r : list A) : l1 ++ l2 ++ l3 ++ r ≡ₚ l3 ++ l1 ++ l2 ++ r.
Proof. by rewrite (Permutation_app_swap_app l2 l3), (Permutation_app_swap_app l1 l3). Qed.
Lemma app_fourth {A} (l1 l2 l3 l4 r : list A) : l1 ++ l2 ++ l3 ++ l4 ++ r ≡ₚ l4 ++ l1 ++ l2 ++ l3 ++ r.
Proof. by rewrite (app_third l2 l3 l4), (Permutation_app_swap_app l1 l4). Qed.
Lemma app_fifth {A} (l1 l2 l3 l4 l5 : list A) : l1 ++ l2 ++ l3 ++ l4 ++ l5 ≡ₚ l5 ++ l1 ++ l2 ++ l3 ++ l4.
Proof. by rewrite <-(app_nil_r l5) at 1; rewrite (app_third l3 l4 l5 []), !app_nil_r, (app_third l1 l2 l5). Qed.

Lemma step_sim w0 c c' :
  step c c' → reaches w0 c.1 (threads c.2) → reaches w0 c'.1 (threads c'.2).
Proof.
  unfold threads. intros H. destruct H; simpl; intros Hr; try done.
  - apply reaches_spawn; [constructor|done].
  - rewrite <-app_assoc in *. simpl in *. rewrite <-Permutation_middle in *. by apply reaches_atom.
  - rewrite <-app_assoc in *. simpl in *. rewrite <-Permutation_middle in Hr. by eapply reaches_end.
  - rewrite Permutation_app_swap_app in *. by eapply pool_sim.
  - rewrite app_third in *. eapply loop_sim; [|done|done]. intros p' ->. constructor.
  - rewrite app_fourth in *. eapply loop_sim; [|done|done]. intros p' ->. constructor.
  - rewrite app_fifth in *. eapply loop_sim; [|done|done]. intros p' [alive ->]. constructor.
  - by eapply reaches_env.
Qed.

Lemma init_sim w0 : reaches w0 w0 (threads init).
Proof.
  unfold threads, init, retention_start. simpl.
  replace (Loop.threads _) with (@nil (prog world unit)) by by case_match.
  apply reaches_spawn; [constructor|apply reaches_init].
Qed.

Lemma site_reaches w0 c : site_reachable w0 c → reaches w0 c.1 (threads c.2).
Proof.
  intros H. cut (∀ c0, rtc step c0 c → reaches w0 c0.1 (threads c0.2) → reaches w0 c.1 (threads c.2)).
  { intros Hall. apply (Hall (w0, init)); [done|apply init_sim]. }
  clear H. induction 1 as [|c1 c2 c3 Hs _ IH]; [done|]. intros Hr. by eapply IH, step_sim.
Qed.

(** C14: the server as main.go wires it refines the system of [System]: whatever
    the pool, the loops, the requests, the signal and the deadlines do, the shared
    state is one that the interleaving of server programs reaches, with exactly the
    goroutines that are inside a program, in some order. *)
Theorem site_refines_system w0 c :
  site_reachable w0 c →
  ∃ T, T ≡ₚ threads c.2 ∧ reachable (server_prog Duration_String config box verifier) environment w0 (c.1, T).
Proof. apply site_reaches. Qed.

(** ** Invariants of the site *)

Abbreviation pool_reachable := (RunPool.pool_reachable config.(Config.WorkerConcurrency)
  (Queue.Dequeue workerID) (handleJob Duration_String box)).

Lemma pool_reachable_step w p w' p' :
  RunPool.pool_step config.(Config.WorkerConcurrency) (Queue.Dequeue workerID) (handleJob Duration_String box) (w, p) (w', p') →
  pool_reachable (w, p) → pool_reachable (w', p').
Proof. intros H [w0 Hr]. exists w0. by eapply rtc_r. Qed.

Lemma pool_reachable_env w p w' : pool_reachable (w, p) → pool_reachable (w', p).
Proof. apply pool_reachable_step. constructor. Qed.

(** The pool is one of [RunPool], and main passes each wait only when what it
    waits for has happened or the deadline has passed. *)
Record site_ok (c : world * t) : Prop := {
  ok_pool : pool_reachable (c.1, c.2.(pool));
  ok_requests : c.2.(main) = Stopping ∨ c.2.(main) = Exited → c.2.(deadline) = false → c.2.(requests) = [];
  ok_workers : c.2.(main) = Exited → c.2.(deadline) = false → c.2.(pool).(RunPool.loc) = RunPool.Returned
}.

Lemma step_ok c c' : step c c' → site_ok c → site_ok c'.
Proof.
  intros H [Hp Hr Hw]. destruct H; split; simpl in *; auto; try congruence.
  all: try by eapply pool_reachable_env.
  all: try (intros Hm Hd; specialize (Hr Hm Hd); by destruct l1).
  all: try (intros [?|?]; discriminate).
  - revert Hp. apply pool_reachable_step. by econstructor.
  - intros ->. discriminate.
  - revert Hp. apply pool_reachable_step. by apply (RunPool.pool_fires _ _ _ RunPool.Cancel).
  - intros _ Hd. destruct H; congruence.
  - intros _ Hd. destruct H; congruence.
Qed.

Lemma site_reachable_ok w0 c : site_reachable w0 c → site_ok c.
Proof.
  unfold site_reachable. intros H. assert (site_ok (w0, init)) as H0.
  { split; simpl; [|naive_solver..]. exists w0. apply rtc_refl. }
  revert H0. induction H as [|c1 c2 c3 Hs _ IH]; [done|]. intros H1. by eapply IH, step_ok.
Qed.

(** C20: a shutdown that its deadline does not cut short loses nothing: when the
    process ends every request that was accepted has been answered, every job that
    was claimed has been handled to its end, and the pool has returned. *)
Theorem shutdown_is_graceful w0 c :
  site_reachable w0 c → c.2.(main) = Exited → c.2.(deadline) = false →
  c.2.(requests) = [] ∧ c.2.(pool).(RunPool.loc) = RunPool.Returned ∧ c.2.(pool).(RunPool.workers) = [].
Proof.
  intros [Hp Hr Hw]%site_reachable_ok He Hd. split; [auto|]. split; [auto|].
  apply RunPool.pool_inv in Hp. by apply Hp, Hw.
Qed.

Lemma length_pool_threads l : length (pool_threads l) = sum_list_with RunPool.handling l.
Proof. induction l as [|[p| |] l IH]; simpl; auto. Qed.

(** C37: on the running server the tables stay in order, no job is claimed twice,
    and no more jobs are in hand at once than WORKER_CONCURRENCY allows, which
    [LoadConfig] keeps below 33. *)
Theorem site_is_safe `{!ExtLaws E} `{!StorageFrame St} w0 c :
  sys_ok w0 → config = LoadConfig → site_reachable w0 c →
  db_ok c.1.(w_db) ∧ NoDup (claims c.1) ∧
  (Z.of_nat (length (pool_threads c.2.(pool).(RunPool.workers))) ≤ config.(Config.WorkerConcurrency) ≤ 32)%Z.
Proof.
  intros H0 Hc Hr. pose proof (site_reachable_ok _ _ Hr) as [Hp _ _]. apply RunPool.pool_inv in Hp.
  assert (sys_ok c.1) as [Hdb Hcl _ _ _].
  { apply site_reaches in Hr. revert Hr.
    apply reaches_invariant; [done|apply server_prog_ok|apply environment_ok]. }
  split; [done|]. split; [done|]. rewrite length_pool_threads.
  pose proof (RunPool.ok_sem _ _ Hp) as Hsem. pose proof (RunPool.ok_cap _ _ Hp) as Hcap.
  cbn [snd] in Hsem, Hcap. unfold RunPool.slots in Hcap. pose proof concurrency_range as Hrange. rewrite Hc in *.
  destruct (Z.ltb_spec (Config.WorkerConcurrency LoadConfig) 1); lia.
Qed.
End site.
End Site.
