(* ===== verification/Ticks.v ===== *)
(** * One tick of the scheduler

    What a tick does to the tables when nothing fails and nothing interferes:
    every due test is rescheduled, and gets a job unless one is still active. *)

From S2P Require Import Prelude.
From S2P Require Import Prog.
From S2P Require Import GoStrings.
From S2P Require Import Model.
From S2P Require Import World.
From S2P Require Import TestRepo.
From S2P Require Import JobRepo.
From S2P Require Import Scheduler.
From S2P Require Import Invariants.

Section ticks.
Context `{E : Ext} `{!ExtLaws E}.

(** The job identifiers still to come are unused. *)
Definition fresh_ids (w : world) : Prop :=
  ∀ n, w.(w_uuids) ≤ n → w.(w_db).(d_jobs) !! ext_uuid n = None.

Lemma sys_ok_fresh w : sys_ok w → fresh_ids w.
Proof.
  intros Hw n Hn. destruct (d_jobs (w_db w) !! ext_uuid n) eqn:Hk; [|done].
  destruct (so_jobs_issued _ Hw (ext_uuid n)) as (m & Hm & Heq); [by eexists|].
  apply ext_uuid_inj in Heq. lia.
Qed.

Lemma jobs_where_insert p id j d :
  d.(d_jobs) !! id = None →
  jobs_where p (set_jobs (<[id := j]>) d) ≡ₚ (if p j then [j] else []) ++ jobs_where p d.
Proof.
  intros Hn. unfold jobs_where. simpl. rewrite map_to_list_insert by done. simpl.
  rewrite filter_cons. by destruct (p j).
Qed.

Definition scheduled_job (id testID : string) (now : Z) : Job.t :=
  Job.mk id testID "queued" TriggerScheduled now None None None None.

(** What firing [testID] with the next run [next] does to the world: *)
Definition fired (testID : string) (next : Z) (w : world) : world :=
  let w1 := with_db (set_tests (alter (set_next_run_at next) testID) w.(w_db)) w in
  match jobs_where (active_for testID) w.(w_db) with
  | [] =>
      let id := ext_uuid w.(w_uuids) in
      with_events (w.(w_events) ++ [EvEnqueued id testID TriggerScheduled])
        (with_db (set_jobs (<[id := scheduled_job id testID w.(w_now)]>) w1.(w_db))
           (with_uuids (S w.(w_uuids)) w1))
  | _ => w1
  end.

Lemma fire_run test now w next :
  w.(w_faults) = [] → fresh_ids w → is_Some (w.(w_db).(d_tests) !! test.(Test.UUID)) →
  NextRun test.(Test.ScheduleCron) now = Ok next →
  run (fire test now) w = (tt, fired test.(Test.UUID) next w).
Proof.
  intros Hf Hfresh Ht Hn. unfold fire. rewrite Hn.
  rewrite run_call_bind. unfold TestRepo.UpdateNextRunAt. sql_runs.
  rewrite run_call_bind. unfold JobRepo.HasActiveJob. sql_runs. unfold fired.
  change (jobs_where ?p (set_tests ?f ?d)) with (jobs_where p d).
  destruct (jobs_where _ _) as [|j l]; [|rewrite bool_decide_true by done; rewrite run_ret; done].
  rewrite bool_decide_false by naive_solver. rewrite run_call_bind.
  unfold Queue.Enqueue, mbind, M_bind, NewString, Now, gets, JobRepo.Create.
  rewrite decide_False by done. sql_runs. cbn [with_uuids w_uuids w_db w_now Job.UUID Job.TestID].
  simpl. rewrite (Hfresh (w_uuids w)) by done. rewrite lookup_alter_eq.
  destruct Ht as [r ->]. simpl. done.
Qed.
Lemma fired_facts testID next w :
  w.(w_faults) = [] → fresh_ids w →
  let w1 := fired testID next w in
  w1.(w_faults) = [] ∧ w1.(w_now) = w.(w_now) ∧ fresh_ids w1 ∧
  w1.(w_db).(d_tests) = alter (set_next_run_at next) testID w.(w_db).(d_tests) ∧
  (∀ k, k ≠ testID → jobs_where (active_for k) w1.(w_db) ≡ₚ jobs_where (active_for k) w.(w_db)) ∧
  (if decide (jobs_where (active_for testID) w.(w_db) = [])
   then ∃ id, jobs_where (active_for testID) w1.(w_db) = [scheduled_job id testID w.(w_now)]
   else jobs_where (active_for testID) w1.(w_db) = jobs_where (active_for testID) w.(w_db)).
Proof.
  intros Hf Hfresh. unfold fired.
  destruct (jobs_where (active_for testID) (w_db w)) as [|j l] eqn:Ea; [|done].
  set (id := ext_uuid (w_uuids w)). cbn zeta.
  cbn [with_events with_db with_uuids w_faults w_now w_db w_uuids].
  assert (∀ p, jobs_where p (set_jobs (<[id:=scheduled_job id testID (w_now w)]>)
    (set_tests (alter (set_next_run_at next) testID) (w_db w))) ≡ₚ
    (if p (scheduled_job id testID (w_now w)) then [scheduled_job id testID (w_now w)] else []) ++
    jobs_where p (w_db w)) as Hins.
  { intros p. rewrite jobs_where_insert; [done|]. by apply Hfresh. }
  split; [done|]. split; [done|]. split.
  { intros n Hn. simpl in *. rewrite lookup_insert_ne; [apply Hfresh; lia|].
    intros Hid%ext_uuid_inj. lia. }
  split; [done|]. split.
  - intros k Hk. rewrite Hins. unfold active_for at 1. rewrite bool_decide_false by (simpl; congruence). done.
  - rewrite decide_True by done. exists id. apply Permutation_singleton_r. rewrite Hins, Ea.
    unfold active_for. by rewrite bool_decide_true.
Qed.

(** The new [next_run_at] of a test, if a tick that is given [due] sets one. *)
Definition rescheduled (due : list Test.t) (now : Z) (k : string) : option Z :=
  head (omap (λ t, if decide (t.(Test.UUID) = k)
                   then match NextRun t.(Test.ScheduleCron) now with Ok n => Some n | Err _ => None end
                   else None) due).

Lemma rescheduled_not_in due now k : k ∉ Test.UUID <$> due → rescheduled due now k = None.
Proof.
  intros Hk. unfold rescheduled. induction due as [|t due IH]; [done|]. cbn.
  rewrite decide_False by set_solver. apply IH. set_solver.
Qed.

(** The state of test [k] after firing the tests of [due]. *)
Definition test_after (due : list Test.t) (w w' : world) (k : string) (r : TestRow.t) : Prop :=
  let active w := jobs_where (active_for k) w.(w_db) in
  match rescheduled due w.(w_now) k with
  | Some next =>
      w'.(w_db).(d_tests) !! k = Some (set_next_run_at next r) ∧
      (if decide (active w = []) then ∃ id, active w' = [scheduled_job id k w.(w_now)]
       else active w' ≡ₚ active w)
  | None => w'.(w_db).(d_tests) !! k = Some r ∧ active w' ≡ₚ active w
  end.

Lemma fire_all due w :
  w.(w_faults) = [] → fresh_ids w → NoDup (Test.UUID <$> due) →
  (∀ t, t ∈ due → is_Some (w.(w_db).(d_tests) !! t.(Test.UUID))) →
  ∀ k r, w.(w_db).(d_tests) !! k = Some r →
  test_after due w (run (for_each due (λ t, fire t w.(w_now))) w).2 k r.
Proof.
  remember (w_now w) as now eqn:Hnow. revert w Hnow.
  induction due as [|t due IH]; intros w -> Hf Hfresh Hnd Hin k r Hk; cbn [for_each]; [done|].
  apply NoDup_cons in Hnd as [Hnt Hnd]. rewrite run_bind.
  unfold test_after, rescheduled. cbn [omap list_omap].
  destruct (NextRun (Test.ScheduleCron t) (w_now w)) as [next|e] eqn:Hn.
  2:{ assert (run (fire t (w_now w)) w = (tt, w)) as -> by (unfold fire; by rewrite Hn).
      specialize (IH w eq_refl Hf Hfresh Hnd ltac:(set_solver) k r Hk). by destruct (decide _). }
  rewrite (fire_run t _ w next) by (done || (apply Hin; left)).
  destruct (fired_facts t.(Test.UUID) next w Hf Hfresh) as (Hf1 & Hnow1 & Hfresh1 & Ht1 & Hother & Hself).
  set (w1 := fired _ _ _) in *.
  assert (∀ t', t' ∈ due → is_Some (w1.(w_db).(d_tests) !! t'.(Test.UUID))) as Hin1.
  { intros t' Ht'. rewrite Ht1. apply lookup_alter_is_Some, Hin. by right. }
  rewrite <-Hnow1 in *.
  destruct (decide (Test.UUID t = k)) as [<-|Hne].
  - specialize (IH w1 ltac:(done) Hf1 Hfresh1 Hnd Hin1 (Test.UUID t) (set_next_run_at next r)).
    unfold test_after in IH. rewrite rescheduled_not_in in IH by done.
    rewrite Ht1, lookup_alter_eq, Hk in IH. destruct IH as [IHt IHj]; [done|]. simpl. split; [done|].
    case_decide; [|by rewrite IHj, Hself]. destruct Hself as [id Hid]. exists id.
    apply Permutation_singleton_r. by rewrite IHj, Hid.
  - specialize (IH w1 ltac:(done) Hf1 Hfresh1 Hnd Hin1 k r).
    rewrite Ht1, lookup_alter_ne in IH by done. specialize (IH Hk). unfold test_after in IH.
    fold (rescheduled due (w_now w1) k). destruct (rescheduled _ _ _) as [n|].
    + destruct IH as [IHt IHj]. split; [done|]. specialize (Hother k ltac:(done)). clear Hself.
      destruct (decide (jobs_where _ (w_db w1) = [])) as [E1|E1], (decide (jobs_where _ (w_db w) = [])) as [E2|E2].
      * done.
      * rewrite E1 in Hother. by apply Permutation_nil_l in Hother.
      * rewrite E2 in Hother. by apply Permutation_nil_r in Hother.
      * by rewrite IHj, Hother.
    + destruct IH as [IHt IHj]. split; [done|]. by rewrite IHj, Hother.
Qed.

Lemma due_tests now w due :
  (TestRepo.ListDueScheduled now w).1 = Ok due → tests_ok w.(w_db).(d_tests) →
  NoDup (Test.UUID <$> due) ∧ ∀ t, t ∈ due → is_Some (w.(w_db).(d_tests) !! t.(Test.UUID)).
Proof.
  intros Hdue Hok. unfold TestRepo.ListDueScheduled in Hdue. revert Hdue. sql_cases; [done|]. intros [= <-].
  set (rows := filter _ _). split.
  - rewrite <-list_fmap_compose. change (Test.UUID ∘ scan_due) with TestRow.uuid.
    eapply sublist_NoDup; [|apply fmap_sublist, sublist_take].
    rewrite sort_asc_perm. eapply sublist_NoDup; [|apply fmap_sublist, sublist_filter].
    rewrite <-list_fmap_compose. erewrite list_fmap_ext; [apply (NoDup_fst_map_to_list (d_tests (w_db w)))|].
    intros i [k r] Hi. simpl. apply (to_key k r), Hok, elem_of_map_to_list. by eapply list_elem_of_lookup_2.
  - intros t (r & -> & Hr)%list_elem_of_fmap. apply elem_of_take in Hr as (i & Hi & _).
    apply list_elem_of_lookup_2, elem_of_sort_asc, list_elem_of_filter in Hi as [_ [k Hk]%elem_of_rows].
    change (is_Some (d_tests (w_db w) !! TestRow.uuid r)). rewrite (to_key k r) by by apply Hok. by eexists.
Qed.

(** C21: a tick of the running scheduler that nothing disturbs: each test it is
    given whose cron parses is moved to its next run and ends up with a job, a
    new one exactly if none was active; every other test keeps its row and its
    active jobs. *)
Theorem tick_fires_once w due :
  sys_ok w → w.(w_faults) = [] → w.(w_paused) = false →
  (TestRepo.ListDueScheduled w.(w_now) w).1 = Ok due →
  ∀ k r, w.(w_db).(d_tests) !! k = Some r → test_after due w (run tick w).2 k r.
Proof.
  intros Hw Hf Hp Hdue k r Hk. unfold tick. rewrite run_call_bind. unfold IsPaused, gets. rewrite Hp.
  rewrite run_call_bind. unfold Now, gets. rewrite run_call_bind.
  destruct (due_tests _ _ _ Hdue (ok_tests _ (so_db _ Hw))) as [Hnd Hin].
  unfold TestRepo.ListDueScheduled in *. rewrite query_no_fault in * by done.
  cbn [fst] in Hdue. injection Hdue as ->. apply fire_all; [done|by apply sys_ok_fresh|done..].
Qed.
End ticks.
