(* ===== verification/Witnesses.v ===== *)
(** * Witnesses

    Each theorem with hypotheses, applied to a concrete world where they hold,
    with the concrete third-party code of [Demo]. *)

From S2P Require Import Prelude.
From S2P Require Import Prog.
From S2P Require Import GoStrings.
From S2P Require Import Model.
From S2P Require Import World.
From S2P Require Import Config.
From S2P Require Import Http.
From S2P Require Import Auth.
From S2P Require Import TestRepo.
From S2P Require Import JobRepo.
From S2P Require Import RunRepo.
From S2P Require Import Secrets.
From S2P Require Import Paths.
From S2P Require Import Bundle.
From S2P Require Import Runtime.
From S2P Require Import Storage.
From S2P Require Import Minio.
From S2P Require Import Supabase.
From S2P Require Import Demo.
From S2P Require Import Worker.
From S2P Require Import Scheduler.
From S2P Require Import Retention.
From S2P Require Import Handler.
From S2P Require Import Endpoints.
From S2P Require Import Invariants.
From S2P Require Import System.
From S2P Require Import Ticks.
From S2P Require Import Effects.
From S2P Require Import Variables.
From S2P Require Import Secrecy.
From S2P Require Import Requests.
From S2P Require Import Stores.
From S2P Require Import Access.
From S2P Require Import Workspace.
From S2P Require Import Jobs.

(** ** A server with two tests, a running job and a queued one *)

Definition small_db : db :=
  {| d_tests := {["A" := demo_row "A" "node"; "B" := demo_row "B" "playwright"]};
     d_runs := {["r1" := demo_run "r1" "A" "fail" 10; "r2" := demo_run "r2" "A" "pass" 20]};
     d_jobs := {["0" := set_job_running "w0" 5 (demo_job "0" "A" "queued" 1);
                 "1" := demo_job "1" "B" "queued" 2]};
     d_shots := {["s1" := Screenshot.mk "s1" "r1" "home.png" "A/log/r1/home.png" 11]};
     d_env := {[("A", "TOKEN") := EnvVar.mk "TOKEN" "abc" false 0]} |}.

Definition small : world := with_uuids 2 (demo_world small_db).

Definition demo_config : Config.t := LoadConfig.
Definition no_duration (_ : Z) : string := "30s".

Ltac rows := repeat (apply map_Forall_insert_2; [|]); try apply map_Forall_singleton; try apply map_Forall_empty.

Lemma small_db_ok : db_ok small_db.
Proof.
  split.
  - apply map_Forall_insert_2; [|apply map_Forall_singleton];
      (split; [done|done|intros _; split; by eexists|done|done|done]).
  - apply map_Forall_insert_2; [|apply map_Forall_singleton];
      (split; [done|]; split; apply (bool_decide_unpack _); vm_compute; exact I).
  - apply map_Forall_insert_2; [|apply map_Forall_singleton].
    + split; [done|]. split; [apply (bool_decide_unpack _); vm_compute; exact I|].
      right; left. split; [done|]. split; [by eexists|]. split; [done|by eexists].
    + split; [done|]. split; [apply (bool_decide_unpack _); vm_compute; exact I|]. by left.
  - apply map_Forall_singleton. split; [done|]. apply (bool_decide_unpack _); vm_compute; exact I.
  - split; [apply map_Forall_singleton; split; [done|]; apply (bool_decide_unpack _); vm_compute; exact I|].
    intros t. etrans; [apply map_subseteq_size, map_filter_subseteq|].
    apply (bool_decide_unpack _). vm_compute. exact I.
Defined.

Lemma small_ok : sys_ok small.
Proof.
  split.
  - apply small_db_ok.
  - constructor.
  - intros k j Hk. by apply elem_of_nil in Hk.
  - intros k [j Hk]. unfold small in Hk. simpl in Hk.
    apply lookup_insert_Some in Hk as [[<- _]|[_ Hk]]; [exists 0; by split; [simpl; lia|]|].
    apply lookup_singleton_Some in Hk as [<- _]. exists 1. by split; [simpl; lia|].
  - intros k Hk. by apply elem_of_nil in Hk.
Defined.

(** A worker claims the queued job. *)
Lemma claim_reachable :
  reachable (server_prog no_duration demo_config None None) environment small
    ((Queue.Dequeue "w1" small).2,
     [match (Queue.Dequeue "w1" small).1 with
      | Ok (Some job) => handleJob no_duration None job
      | _ => mret tt end]).
Proof.
  eapply rtc_l; [apply (step_spawn _ _ (work_once no_duration None "w1")); constructor|].
  apply rtc_once. exact (step_atom _ _ _ (Queue.Dequeue "w1") _ small [] []).
Defined.

Lemma tables_always_ok_witness : db_ok (Queue.Dequeue "w1" small).2.(w_db).
Proof. exact (tables_always_ok no_duration demo_config None None _ _ small_ok claim_reachable). Defined.

Lemma job_claimed_at_most_once_witness :
  claims (Queue.Dequeue "w1" small).2 = ["1"] ∧ NoDup (claims (Queue.Dequeue "w1" small).2).
Proof.
  split; [vm_compute; reflexivity|].
  exact (proj1 (job_claimed_at_most_once no_duration demo_config None None _ _ small_ok claim_reachable)).
Defined.

(** ** Repositories *)

Lemma small_jobs_keyed : jobs_keyed small.(w_db).
Proof. apply map_Forall_insert_2; [|apply map_Forall_singleton]; done. Defined.
Lemma small_runs_keyed : runs_keyed small.(w_db).
Proof. apply map_Forall_insert_2; [|apply map_Forall_singleton]; done. Defined.

Lemma Dequeue_fifo_witness :
  (JobRepo.Dequeue "w1" small).1 = Ok (Some (set_job_running "w1" (1000 * Minute) (demo_job "1" "B" "queued" 2))) ∧
  ∃ j, small.(w_db).(d_jobs) !! j.(Job.UUID) = Some j ∧ j.(Job.Status) = "queued".
Proof.
  split; [vm_compute; reflexivity|].
  pose proof (Dequeue_fifo "w1" small small_jobs_keyed) as H.
  assert ((JobRepo.Dequeue "w1" small).1 ≠ Ok None) as Hn by (vm_compute; discriminate).
  assert (is_ok (JobRepo.Dequeue "w1" small).1 = true) as Ho by (vm_compute; reflexivity).
  destruct (JobRepo.Dequeue "w1" small) as [[[j'|]|e] w']; [|by destruct Hn|done].
  destruct H as (j & _ & Hj & Hq & _). exists j. by split.
Defined.

Lemma FailStale_exact_witness :
  (JobRepo.FailStale staleGrace small).1 = Ok ["0"] ∧
  match JobRepo.FailStale staleGrace small with
  | (Ok ids, w') => ∀ k, small.(w_db).(d_jobs) !! k = None → w'.(w_db).(d_jobs) !! k = None
  | _ => False
  end.
Proof.
  split; [vm_compute; reflexivity|].
  pose proof (FailStale_exact staleGrace small small_jobs_keyed) as H.
  assert (is_ok (JobRepo.FailStale staleGrace small).1 = true) as Ho by (vm_compute; reflexivity).
  destruct (JobRepo.FailStale staleGrace small) as [[ids|e] w']; [|done].
  destruct H as (_ & _ & H & _). exact H.
Defined.

(** A test without failures so far; three of them, then a success. *)
Definition fresh_row : TestRow.t := set_outcome 0 false (demo_row "A" "node").
Definition fresh : world := demo_world (set_tests (<["A" := fresh_row]>) small_db).

Lemma record_outcome_streak_witness :
  let w' := record_all "A" [true; false; false; false] fresh in
  (TestRepo.RecordRunOutcome "A" true w').1 ≠ Ok None ∧
  ∃ n r', ends_with_failures [true; false; false; false] n ∧
    w'.(w_db).(d_tests) !! "A" = Some r' ∧ r'.(TestRow.consecutive_failures) = Z.of_nat n.
Proof.
  intros w'. split; [vm_compute; discriminate|].
  destruct (record_outcome_streak "A" [true; false; false; false] fresh fresh_row) as (n & r' & H1 & H2 & H3 & _);
    [reflexivity|vm_compute; reflexivity|vm_compute; reflexivity|reflexivity|reflexivity|vm_compute; reflexivity|].
  exists n, r'. split; [exact H1|]. split; [exact H2|exact H3].
Defined.

Lemma small_env_limit n : 1 ≤ n → ∀ t, size (env_of t small.(w_db)) ≤ n.
Proof.
  intros Hn t. etrans; [apply map_subseteq_size, map_filter_subseteq|]. etrans; [|exact Hn].
  apply (bool_decide_unpack _). vm_compute. exact I.
Defined.

Lemma Upsert_keeps_limit_witness :
  let r := EnvRepo.Upsert "A" (EnvVar.mk "URL" "x" false 0) 1 small in
  r.1 = Err ErrTooManyEnvVars ∧ ∀ t, size (env_of t r.2.(w_db)) ≤ 1.
Proof.
  split; [vm_compute; reflexivity|].
  pose proof (Upsert_keeps_limit "A" (EnvVar.mk "URL" "x" false 0) 1 small (small_env_limit 1 (le_n 1))) as H.
  destruct (EnvRepo.Upsert "A" (EnvVar.mk "URL" "x" false 0) 1 small) as [r w']. exact (proj1 H).
Defined.

Lemma Upsert_decides_witness :
  (EnvRepo.Upsert "A" (EnvVar.mk "URL" "x" false 0) 50 small).1 = Ok tt.
Proof.
  rewrite (Upsert_decides "A" (EnvVar.mk "URL" "x" false 0) 50 small).
  - vm_compute. reflexivity.
  - reflexivity.
  - eexists. vm_compute. reflexivity.
Defined.

Lemma expired_runs_are_old_witness :
  (RetentionRepo.ListExpiredRuns 1 None 200 small).1 = Ok [ExpiredRun.mk "r1" "A" "A/log/r1/log"] ∧
  ∃ r r' : TestRun.t, run_before r' r = true.
Proof.
  split; [vm_compute; reflexivity|].
  destruct (expired_runs_are_old 1 None 200 small [ExpiredRun.mk "r1" "A" "A/log/r1/log"]
    (ExpiredRun.mk "r1" "A" "A/log/r1/log")) as (r & r' & _ & _ & H & _).
  - vm_compute. reflexivity.
  - left.
  - apply small_runs_keyed.
  - exists r, r'. exact H.
Defined.

(** ** Retention *)

Definition keep_one : Policy.t := Policy.mk 1 0.

Lemma newest_r2 : newest small.(w_db) (demo_run "r2" "A" "pass" 20).
Proof.
  split; [vm_compute; reflexivity|]. intros k r Hk. unfold small in Hk. simpl in Hk.
  apply lookup_insert_Some in Hk as [[_ <-]|[_ Hk]]; [vm_compute; reflexivity|].
  apply lookup_singleton_Some in Hk as [_ <-]. vm_compute. reflexivity.
Defined.

Lemma Sweep_keeps_newest_witness :
  (run (Sweep (λ _, true) keep_one) small).1 = 1 ∧
  newest (run (Sweep (λ _, true) keep_one) small).2.(w_db) (demo_run "r2" "A" "pass" 20).
Proof.
  split; [vm_compute; reflexivity|].
  exact (Sweep_keeps_newest (λ _, true) keep_one small _ small_runs_keyed newest_r2).
Defined.

Lemma Sweep_storage_before_rows_witness :
  let '(n, w') := run (Sweep (λ _, true) keep_one) small in
  n ≤ 25 * 200 ∧ size small.(w_db).(d_runs) = size w'.(w_db).(d_runs) + n.
Proof.
  pose proof (Sweep_storage_before_rows (C := demo_minio) (λ _, true) keep_one small small_runs_keyed) as H.
  change (@MinioStorage demo_minio) with demo_storage in H.
  destruct (run (Sweep (λ _, true) keep_one) small) as [n w']. destruct H as (H1 & H2 & _). by split.
Defined.

(** ** Secrets, bundles, containers *)

Lemma Decrypt_Encrypt_witness :
  ∃ stored w', Encrypt (Some "0123456789abcdef0123456789abcdef") "s3cret" small = (Ok stored, w') ∧
    Decrypt (Some "0123456789abcdef0123456789abcdef") stored = Ok "s3cret".
Proof.
  destruct (Decrypt_Encrypt "0123456789abcdef0123456789abcdef" "s3cret" small) as (s & w' & H1 & _ & H2 & _).
  exists s, w'. by split.
Defined.

Lemma plain_no_links touch fs : map_Forall (λ _ n, is_link (Some n) = false) fs → no_links touch fs.
Proof. intros H k _. destruct (fs !! k) as [n|] eqn:Hk; [exact (H k n Hk)|done]. Qed.

(** A server with a bundle to unpack, and with a link outside of the workspace. *)
Definition with_bundle : world :=
  with_fs {[["tmp"] := Dir; ["tmp"; "b.zip"] := File 384 0 "good"; ["tmp"; "ws"] := Dir;
            ["home"] := Symlink "/tmp/ws"]} small.

Lemma UnzipFile_stays_inside_witness :
  let w' := (run (UnzipFile "/tmp/ws" "/tmp/b.zip") with_bundle).2 in
  is_Some (w'.(w_fs) !! ["tmp"; "ws"; "tests"; "a.spec.js"]) ∧
  w'.(w_fs) !! ["etc"; "passwd"] = with_bundle.(w_fs) !! ["etc"; "passwd"].
Proof.
  split; [apply (bool_decide_unpack _); vm_compute; exact I|].
  apply (UnzipFile_stays_inside "/tmp/ws" "/tmp/b.zip" with_bundle).
  - apply (bool_decide_unpack _). vm_compute. exact I.
  - intros k Hk. unfold with_bundle. cbn. destruct (decide (k = ["home"])) as [->|Hn].
    + exfalso. revert Hk. apply (bool_decide_unpack (¬ (_ ∨ _))). vm_compute. exact I.
    + rewrite !lookup_insert. repeat (case_decide; [done|]). rewrite lookup_singleton.
      case_decide; [|done]. by subst.
  - apply (bool_decide_unpack _). vm_compute. exact I.
  - apply (bool_decide_unpack _). vm_compute. exact I.
Defined.

Lemma Execute_outcome_witness :
  let '((_, code), err, w') :=
    run (Execute no_duration "0" "/tmp/ws" (RuntimeSpec.base ImageNode "node ./artifact" false) (30 * Second)) small in
  code = 0%Z ∧ err = None ∧ w'.(w_db) = small.(w_db).
Proof.
  pose proof (Execute_outcome no_duration "0" "/tmp/ws"
    (RuntimeSpec.base ImageNode "node ./artifact" false) (30 * Second) small) as H.
  specialize (H ltac:(reflexivity) ltac:(discriminate) ltac:(reflexivity)).
  destruct (run _ small) as [[[out code] err] w']. destruct H as (_ & _ & Hd & _ & Hc & He). by split.
Defined.

(** ** Handlers *)

Definition patch_threshold : UpdateTestConfigRequest.t :=
  UpdateTestConfigRequest.mk None (Some 60%Z) None None
    (Some (MaskWebhook ext_url_Parse "https://hooks.slack.com/services/T/B/secret"))
    (Some (MaskKey "0123456789abcdef0123456789abcdef")) (Some 5%Z) None (Some 256%Z) None None.

Definition patch_test : Test.t := scan_test (demo_row "A" "node").
Definition patched : TestConfigUpdate.t :=
  match patch_config demo_config patch_test patch_threshold with
  | Ok c => c | Err _ => config_of patch_test false None end.
Lemma patched_ok : patch_config demo_config patch_test patch_threshold = Ok patched.
Proof. vm_compute. reflexivity. Defined.

Lemma patch_config_within_limits_witness :
  (0 < patched.(TestConfigUpdate.TimeoutSeconds) ≤ demo_config.(Config.MaxTimeoutSeconds))%Z.
Proof.
  exact (proj1 (patch_config_within_limits demo_config patch_test patch_threshold patched patched_ok) 60%Z eq_refl).
Defined.

Lemma masked_credentials_unchanged_witness :
  patched.(TestConfigUpdate.PagerDutyKey) = "0123456789abcdef0123456789abcdef".
Proof.
  exact (proj2 (masked_credentials_unchanged demo_config patch_test patch_threshold patched patched_ok
    eq_refl eq_refl)).
Defined.

Lemma Redact_leaves_no_secret_witness :
  Redact "user=bob password=hunter2" ["hunter2"] = "user=bob password=***" ∧
  Contains (Redact "user=bob password=hunter2" ["hunter2"]) "hunter2" = false.
Proof.
  split; [vm_compute; reflexivity|].
  apply (proj1 (Redact_leaves_no_secret "user=bob password=hunter2" ["hunter2"]) "hunter2" "hunter2").
  - left.
  - discriminate.
  - left.
  - reflexivity.
Defined.

(** ** Requests, jobs and ticks *)

Definition plain_request (method path token : string) (body : option json) : Request.t :=
  Request.mk method path token (Body.mk body 0) None.

Definition demo_verifier : Verifier.t := Verifier.mk "https://p.supabase.co" "key".

Definition run_request : Request.t :=
  plain_request "POST" "/run" "" (Some (JObj [("testId", JStr "A")])).

Lemma changes_need_a_token_witness :
  (run (serve demo_config None None run_request) small).1.(Response.Status) = StatusAccepted ∧
  (run (serve demo_config None (Some demo_verifier) run_request) small).1 = unauthorized.
Proof.
  split; [vm_compute; reflexivity|].
  assert (¬ approved run_request small) as Hna by (intros (t & H & _); discriminate H).
  pose proof (changes_need_a_token demo_config None demo_verifier run_request small Hna) as Ht.
  destruct (run (serve demo_config None (Some demo_verifier) run_request) small) as [resp w'].
  apply Ht; [by eexists|left; reflexivity].
Defined.

Lemma reads_change_nothing_witness :
  touches [PCache] small (run (serve demo_config None None (plain_request "GET" "/tests/A" "" None)) small).2.
Proof. exact (reads_change_nothing demo_config None None (plain_request "GET" "/tests/A" "" None) small eq_refl). Defined.

Definition demo_job_A : Job.t := demo_job "0" "A" "queued" 1.

(** The job ran: it has left a row and a log, but no file. *)
Definition removable : Ext := demo_ext_on (λ _, "") (λ _, false).

Lemma executeJob_leaves_no_file_witness :
  let w' := (run (executeJob (H := removable) no_duration None demo_job_A) small).2 in
  size w'.(w_db).(d_runs) = 3 ∧ w'.(w_fs) !! ["etc"; "passwd"] = small.(w_fs) !! ["etc"; "passwd"].
Proof.
  split; [vm_compute; reflexivity|].
  apply (executeJob_leaves_no_file (E := removable) no_duration None demo_job_A small).
  - intros k x Hk [n Hn]. unfold small in Hn. simpl in Hn. apply lookup_singleton_Some in Hn as [Hn _].
    destruct k as [|y [|z k]]; [done|discriminate Hn|discriminate Hn].
  - intros d Hd. repeat (apply elem_of_cons in Hd as [->|Hd]);
      [apply (bool_decide_unpack _); vm_compute; exact I..|by apply elem_of_nil in Hd].
  - apply plain_no_links. apply map_Forall_singleton. reflexivity.
  - reflexivity.
  - intros (d & Hd & Hk). revert Hk.
    repeat (apply elem_of_cons in Hd as [->|Hd]);
      [apply (bool_decide_unpack _); vm_compute; exact I..|by apply elem_of_nil in Hd].
Defined.

(** Both tests are due; A has a job already. *)
Lemma tick_fires_once_witness :
  (∃ due, (TestRepo.ListDueScheduled small.(w_now) small).1 = Ok due ∧ length due = 2) ∧
  ∃ r, (run tick small).2.(w_db).(d_tests) !! "A" = Some r ∧ r.(TestRow.next_run_at) = Some (1001 * Minute)%Z.
Proof.
  destruct (TestRepo.ListDueScheduled small.(w_now) small).1 as [due|] eqn:Hdue;
    [|vm_compute in Hdue; discriminate].
  split; [exists due; split; [reflexivity|]; vm_compute in Hdue; injection Hdue as <-; reflexivity|].
  pose proof (tick_fires_once small due small_ok eq_refl eq_refl Hdue "A" (demo_row "A" "node") eq_refl) as H.
  vm_compute in Hdue. injection Hdue as <-. unfold test_after in H.
  match type of H with context [rescheduled ?a ?b ?c] =>
    change (rescheduled a b c) with (Some (1001 * Minute)%Z) in H end.
  eexists. split; [exact (proj1 H)|reflexivity].
Defined.

(** A job that succeeds, and one that fails because its test is gone. *)
Lemma handleJob_outcome_witness :
  let w1 := (Queue.GetStatus "0" small).2 in
  (∃ t, (run (handleJob no_duration None demo_job_A) small).2.(w_db).(d_jobs) =
     alter (set_job_status "completed" t None) "0" small.(w_db).(d_jobs)) ∧
  (∃ t e, (run (handleJob no_duration None (demo_job "0" "C" "queued" 1)) small).2.(w_db).(d_jobs) =
     alter (set_job_status "failed" t (Some (Error e))) "0" small.(w_db).(d_jobs)).
Proof.
  intros w1.
  assert (∀ j, small.(w_db).(d_jobs) !! "0" = Some j → j.(Job.Status) ≠ "cancelled") as Hj.
  { intros j Hj. injection Hj as <-. discriminate. }
  split.
  - pose proof (handleJob_outcome no_duration None demo_job_A small) as H. cbv zeta in H.
    change (Job.UUID demo_job_A) with "0" in H.
    assert (is_ok (run (executeJob no_duration None demo_job_A) w1).1 = true) as Hok by (vm_compute; reflexivity).
    assert ((run (executeJob no_duration None demo_job_A) w1).2.(w_faults) = []) as Hf by (vm_compute; reflexivity).
    unfold w1 in *. destruct (run (executeJob _ _ _) _) as [[?|e] w2]; [|discriminate Hok].
    exists w2.(w_now). exact (proj2 (proj2 H) Hf Hj).
  - pose proof (handleJob_outcome no_duration None (demo_job "0" "C" "queued" 1) small) as H. cbv zeta in H.
    change (Job.UUID (demo_job "0" "C" "queued" 1)) with "0" in H.
    assert (is_ok (run (executeJob no_duration None (demo_job "0" "C" "queued" 1)) w1).1 = false) as Hok
      by (vm_compute; reflexivity).
    assert ((run (executeJob no_duration None (demo_job "0" "C" "queued" 1)) w1).2.(w_faults) = []) as Hf
      by (vm_compute; reflexivity).
    unfold w1 in *. destruct (run (executeJob _ _ _) _) as [[?|e] w2]; [discriminate Hok|].
    exists w2.(w_now), e. exact (proj2 (proj2 H) Hf Hj).
Defined.

(** The secret value is printed by the container and masked in the stored log. *)
Lemma run_stores_redacted_log_witness :
  let spec := with_env {["K" := "hunter2"]} (RuntimeSpec.base ImageNode "node ./artifact" false) in
  let w' := (run (run_and_record no_duration demo_job_A patch_test "/tmp/ws" spec ["hunter2"] (30 * Second)) small).2 in
  ∃ rid, ∀ k, ¬ under (run_folder "A" rid) k → w'.(w_blobs) !! k = small.(w_blobs) !! k.
Proof.
  intros spec w'.
  pose proof (run_stores_redacted_log no_duration demo_job_A patch_test "/tmp/ws" spec ["hunter2"] (30 * Second) small) as H.
  destruct (run (Execute no_duration (Job.UUID demo_job_A) "/tmp/ws" spec (30 * Second)) small).1 as [[out code] err].
  destruct H as (rid & H & _). exists rid. exact H.
Defined.

(** ** Variables *)

Definition demo_key : string := "0123456789abcdef0123456789abcdef".
Definition put_secret : Request.t :=
  plain_request "PUT" "/tests/A/env" ""
    (Some (JObj [("name", JStr " API_KEY "); ("value", JStr "hunter2"); ("is_secret", JBool true)])).

Lemma small_env_keyed : env_keyed small.(w_db).
Proof. apply map_Forall_singleton. reflexivity. Defined.

Lemma putEnv_decides_witness :
  (run (putEnv (Some demo_key) "A" put_secret) small).1.(Response.Status) = StatusOK ∧
  (run (putEnv None "A" put_secret) small).1.(Response.Status) = StatusServiceUnavailable ∧
  (run (putEnv None "A" put_secret) small).2.(w_db) = small.(w_db).
Proof.
  split; [vm_compute; reflexivity|]. split; [vm_compute; reflexivity|].
  pose proof (putEnv_decides None "A" put_secret small eq_refl) as H.
  assert ((run (putEnv None "A" put_secret) small).1.(Response.Status) ≠ StatusOK) as Hs by (vm_compute; discriminate).
  destruct (run (putEnv None "A" put_secret) small) as [resp w']. apply H. exact Hs.
Defined.

Definition small_env : gmap string string := {["TOKEN" := "abc"]}.
Lemma small_env_loads : (run (loadEnv (Some demo_key) "A") small).1 = Ok (small_env, []).
Proof. vm_compute. reflexivity. Defined.

(** The variable is set, the job runs: its container has the secret in its
    environment and the name alone among its arguments. *)
Lemma put_variable_reaches_the_test_witness :
  let w' := (run (putEnv (Some demo_key) "A" put_secret) small).2 in
  ∃ args env, dockers (run (executeJob no_duration (Some demo_key) demo_job_A) w').2 = [(args, env)] ∧
    "API_KEY=hunter2" ∈ env ∧ ∃ before after, args = before ++ "-e" :: "API_KEY" :: after.
Proof.
  intros w'.
  assert ((run (putEnv (Some demo_key) "A" put_secret) small).1.(Response.Status) = StatusOK) as Hs by (vm_compute; reflexivity).
  assert (tests_keyed w'.(w_db)) as Hk by (apply map_Forall_insert_2; [|apply map_Forall_singleton]; reflexivity).
  assert (length (dockers (run (executeJob no_duration (Some demo_key) demo_job_A) w').2) = 1 ∧ dockers w' = [])
    as [Hone Hnone] by (vm_compute; by split).
  pose proof (put_variable_reaches_the_test no_duration (Some demo_key) "A" put_secret small small_env []
    eq_refl small_env_keyed small_env_loads) as H.
  unfold w' in *. destruct (run (putEnv (Some demo_key) "A" put_secret) small) as [resp w2]. cbn [fst snd] in *.
  destruct (H Hs) as (req & sv & Hreq & _ & _ & _ & Hjob). clear H.
  vm_compute in Hreq. injection Hreq as <-.
  destruct (Hjob demo_job_A w2 eq_refl Hk eq_refl) as (started & Hd & Hrun). rewrite Hnone in Hd. rewrite Hd in Hone |- *.
  destruct started as [|[args env] [|? ?]]; [discriminate Hone| |discriminate Hone].
  exists args, env. split; [reflexivity|]. apply (Hrun args env); [left|].
  apply (bool_decide_unpack _). vm_compute. exact I.
Defined.

(** Two servers that keep different values of one secret. *)
Definition keeps_secret (v : string) : world :=
  with_db (set_env (λ _, {[("A", "API_KEY") := EnvVar.mk "API_KEY" v true 0]}) small.(w_db)) small.

Lemma requests_never_reveal_secrets_witness :
  let env := plain_request "GET" "/tests/A/env" "" None in
  (session demo_config None None [env; put_secret; env] (keeps_secret "v1:one")).1 =
  (session demo_config None None [env; put_secret; env] (keeps_secret "v1:two")).1.
Proof.
  intros env. apply (requests_never_reveal_secrets demo_config None None [env; put_secret; env]).
  exists (keeps_secret "v1:two").(w_db). split; [reflexivity|]. split; [reflexivity|vm_compute; reflexivity|].
  split; apply map_Forall_singleton; reflexivity.
Defined.

(** ** Requests that write *)

Definition delete_request : Request.t :=
  plain_request "DELETE" "/tests/A" "" (Some (JObj [("confirm", JStr "delete")])).

Lemma deleteTest_removes_the_test_witness :
  let '(resp, w') := run (deleteTest "A" delete_request) small in
  resp.(Response.Status) = StatusOK ∧ w'.(w_db) = without_test "A" small.(w_db).
Proof.
  assert (tests_keyed small.(w_db)) as Hk by (apply map_Forall_insert_2; [|apply map_Forall_singleton]; reflexivity).
  pose proof (deleteTest_removes_the_test (C := demo_minio) "A" delete_request small Hk) as H.
  change (@MinioStorage demo_minio) with demo_storage in H.
  assert ((run (deleteTest "A" delete_request) small).1.(Response.Status) = StatusOK) as Hs by (vm_compute; reflexivity).
  destruct (run (deleteTest "A" delete_request) small) as [resp w']. split; [exact Hs|].
  destruct (decide (resp.(Response.Status) = StatusOK)) as [_|Hn]; [|destruct (Hn Hs)]. apply H.
Defined.

Definition upload_request : Request.t :=
  Request.mk "POST" "/uploadBinary" "" (Body.mk None 0)
    (Some (Form.mk {["runtime" := "node"; "cron" := "* * * * *"; "timeout" := "60"]}
             (Some (FileHeader.mk "smoke.js" "console.log(1)")))).

Lemma UploadBinary_stores_a_test_witness :
  let '(resp, w') := run (UploadBinary demo_config upload_request) small in
  resp.(Response.Status) = StatusOK ∧
  w'.(w_blobs) = <[artifact_key (ext_uuid 3) := "console.log(1)"]> small.(w_blobs).
Proof.
  pose proof (UploadBinary_stores_a_test demo_config upload_request small) as H.
  assert ((run (UploadBinary demo_config upload_request) small).1.(Response.Status) = StatusOK) as Hs by (vm_compute; reflexivity).
  destruct (run (UploadBinary demo_config upload_request) small) as [resp w']. split; [exact Hs|].
  cbn zeta in H. destruct (decide (resp.(Response.Status) = StatusOK)) as [_|Hn]; [|destruct (Hn Hs)].
  destruct H as (form & file & u & limit & row & _ & Hform & _ & Hfile & _ & _ & Hb & _).
  injection Hform as <-. injection Hfile as <-. exact Hb.
Defined.

Lemma Minio_refines_Storage_witness : StorageLaws MinioStorage ∧ StorageBlind MinioStorage.
Proof. exact (Minio_refines_Storage (C := demo_minio)). Defined.

(** ** Supabase *)

Lemma listObjects_complete_witness :
  (run (listObjects demo_supabase 1 "A/log/") demo).1 = Ok ["r1"; "r2"] ∧
  (run (listObjects demo_supabase 7 "A/log/") demo).1 = Ok ["r1"; "r2"].
Proof.
  pose proof (listObjects_complete (C := demo_client) demo_supabase 1 "A/log/" demo) as H.
  assert ((run (listObjects demo_supabase 1 "A/log/") demo).1 = Ok ["r1"; "r2"]) as Hr by (vm_compute; reflexivity).
  destruct (run (listObjects demo_supabase 1 "A/log/") demo) as [r w'].
  destruct H as (_ & _ & _ & Hm); [vm_compute; lia|]. split; [exact Hr|]. rewrite (Hm 7) by lia. exact Hr.
Defined.

Lemma DeletePrefix_keeps_every_object_witness :
  is_ok (run (sb_DeletePrefix demo_supabase 1 "A/") demo).1 = true ∧
  (run (sb_DeletePrefix demo_supabase 1 "A/") demo).2.(w_blobs) !! "A/artifact" = Some "js".
Proof.
  pose proof (DeletePrefix_keeps_every_object (C := demo_client) demo_supabase 1 "A" demo) as H.
  change ("A" +:+ "/") with "A/" in H. split; [vm_compute; reflexivity|].
  destruct (run (sb_DeletePrefix demo_supabase 1 "A/") demo) as [r w'].
  destruct H as [H _]. cbn [snd]. rewrite (H "A/artifact" eq_refl). vm_compute. reflexivity.
Defined.

Lemma Supabase_keeps_objects_witness :
  (run (sb_UploadBlob demo_supabase "A/new" "x") demo).2.(w_blobs) = <["A/new" := "x"]> demo.(w_blobs).
Proof.
  pose proof (Supabase_keeps_objects (C := demo_client) demo_supabase "A/new" "x" demo eq_refl) as (H & _).
  assert (is_ok (run (sb_UploadBlob demo_supabase "A/new" "x") demo).1 = true) as Hok by (vm_compute; reflexivity).
  destruct (run (sb_UploadBlob demo_supabase "A/new" "x") demo) as [[k|e] w']; [apply H|discriminate Hok].
Defined.
