(* ===== verification/WitnessesServer.v ===== *)
(** * Witnesses for the pool, the running server and its start-up

    Schedules of the pool and of the site, and a platform on which every call
    succeeds, for the theorems of [Pool], [Main] and [Startup]. *)

From S2P Require Import Prelude.
From S2P Require Import Prog.
From S2P Require Import GoStrings.
From S2P Require Import Model.
From S2P Require Import World.
From S2P Require Import Config.
From S2P Require Import Auth.
From S2P Require Import JobRepo.
From S2P Require Import RunRepo.
From S2P Require Import Secrets.
From S2P Require Import Storage.
From S2P Require Import Minio.
From S2P Require Import Supabase.
From S2P Require Import Demo.
From S2P Require Import Worker.
From S2P Require Import Invariants.
From S2P Require Import System.
From S2P Require Import Pool.
From S2P Require Import Main.
From S2P Require Import Startup.
From S2P Require Import Witnesses.

(** ** A pool of two slots on a queue of numbers, whose jobs make one step *)

Definition count_down : M nat (res (option nat)) := λ n,
  match n with O => (Ok None, O) | S m => (Ok (Some n), m) end.
Definition log_job (j : nat) : prog nat unit := call (λ n, (tt, n)).

Definition two_busy : list RunPool.event :=
  [RunPool.Tick; RunPool.SelectTick; RunPool.Fill; RunPool.Next; RunPool.Fill; RunPool.Next].

Definition busy : nat * RunPool.t nat :=
  (3, RunPool.mk RunPool.Filling 2 false false false 2
        [RunPool.Handling (log_job 5); RunPool.Handling (log_job 4)]).

Lemma busy_reachable : RunPool.pool_reachable 2 count_down log_job busy.
Proof. apply (RunPool.fires_reachable _ _ _ two_busy 5). reflexivity. Defined.

Lemma pool_bounded_witness :
  sum_list_with RunPool.handling busy.2.(RunPool.workers) = 2 ∧ (Z.of_nat busy.2.(RunPool.sem) ≤ Z.max 1 2)%Z.
Proof. split; [reflexivity|]. apply (RunPool.pool_bounded 2 count_down log_job busy busy_reachable). Defined.

(** [fill] finds both slots taken; then the first job ends. *)
Definition full : nat * RunPool.t nat := (busy.1, RunPool.goto RunPool.Selecting busy.2).
Definition freed : nat * RunPool.t nat :=
  (3, RunPool.mk RunPool.Selecting 1 true false false 2 [RunPool.Finishing; RunPool.Handling (log_job 4)]).

Lemma freed_waiting : rtc (RunPool.waiting 2 count_down log_job) full freed.
Proof.
  do 3 (eapply rtc_l; [split; [apply (RunPool.pool_fires _ _ _ (RunPool.Work 0)); reflexivity|reflexivity]|]).
  apply rtc_refl.
Defined.

Lemma no_lost_wakeup_witness :
  RunPool.sem freed.2 = 1 ∧
  ∃ c, RunPool.fire 2 count_down log_job RunPool.SelectWake freed = Some c ∧ c.2.(RunPool.loc) = RunPool.Filling.
Proof.
  split; [reflexivity|].
  destruct (RunPool.no_lost_wakeup 2 count_down log_job busy full freed busy_reachable) as [H|[H|H]];
    [reflexivity|reflexivity|reflexivity|exact freed_waiting|discriminate H| |exact H].
  exfalso. repeat (apply elem_of_cons in H as [H|H]; [discriminate H|]). by apply elem_of_nil in H.
Defined.

Definition stopping : nat * RunPool.t nat := (busy.1, RunPool.with_cancelled true busy.2).

Lemma shutdown_ends_witness :
  Acc (RunPool.progress 2 count_down log_job) stopping.2 ∧
  ∃ e c, e ∉ [RunPool.Tick; RunPool.Cancel] ∧ RunPool.fire 2 count_down log_job e stopping = Some c.
Proof.
  destruct (RunPool.shutdown_ends 2 count_down log_job stopping) as (Hacc & Hgo & _).
  - apply (RunPool.fires_reachable _ _ _ (two_busy ++ [RunPool.Cancel]) 5). reflexivity.
  - reflexivity.
  - split; [exact Hacc|]. apply Hgo. discriminate.
Defined.

(** ** The site: a claim, and a shutdown *)

Abbreviation demo_step := (Site.step no_duration demo_config None None "w1").
Abbreviation demo_init := (Site.init demo_config).

Ltac pool_does e :=
  eapply rtc_l; [apply (Site.pool_step _ _ _ _ _ e); [reflexivity|discriminate|reflexivity]|].

Definition claimed_pool : RunPool.t world :=
  RunPool.mk RunPool.Filling 1 false false false 1
    [RunPool.Handling (match (Queue.Dequeue "w1" small).1 with
       | Ok (Some job) => handleJob no_duration None job | _ => mret tt end)].
Definition claimed : world * Site.t :=
  ((Queue.Dequeue "w1" small).2,
   Site.mk Site.Serving false [] claimed_pool sweepStale_start scheduler_start (Site.sweeper demo_init)).

Lemma claimed_reachable : Site.site_reachable no_duration demo_config None None "w1" small claimed.
Proof.
  unfold Site.site_reachable. unfold Site.init. pool_does RunPool.Tick. pool_does RunPool.SelectTick.
  pool_does RunPool.Fill. pool_does RunPool.Next. apply rtc_refl.
Defined.

Lemma site_refines_system_witness :
  claims claimed.1 = ["1"] ∧
  ∃ T, length T = 2 ∧
    reachable (server_prog no_duration demo_config None None) environment small (claimed.1, T).
Proof.
  split; [vm_compute; reflexivity|].
  destruct (Site.site_refines_system no_duration demo_config None None "w1" small claimed claimed_reachable) as (T & HT & H).
  exists T. split; [|exact H]. rewrite HT. reflexivity.
Defined.

Lemma site_is_safe_witness : db_ok claimed.1.(w_db) ∧ NoDup (claims claimed.1).
Proof.
  destruct (Site.site_is_safe no_duration demo_config None None "w1" small claimed small_ok eq_refl claimed_reachable)
    as (Hdb & Hc & _). split; [exact Hdb|exact Hc].
Defined.

Definition stopped_pool : RunPool.t world := RunPool.mk RunPool.Returned 0 false false true 0 [].
Definition stopped : world * Site.t :=
  (small, Site.mk Site.Exited false [] stopped_pool sweepStale_start scheduler_start (Site.sweeper demo_init)).

Lemma stopped_reachable : Site.site_reachable no_duration demo_config None None "w1" small stopped.
Proof.
  unfold Site.site_reachable. unfold Site.init. eapply rtc_l; [apply Site.signal|].
  eapply rtc_l; [apply Site.stop_worker; left; reflexivity|].
  pool_does RunPool.SelectDone. pool_does RunPool.WaitDone.
  eapply rtc_l; [apply Site.exit; left; reflexivity|]. apply rtc_refl.
Defined.

Lemma shutdown_is_graceful_witness :
  stopped.2.(Site.requests) = [] ∧ stopped.2.(Site.pool).(RunPool.workers) = [].
Proof.
  destruct (Site.shutdown_is_graceful no_duration demo_config None None "w1" small stopped stopped_reachable
    eq_refl eq_refl) as (Hr & _ & Hw). split; [exact Hr|exact Hw].
Defined.

(** ** Start-up *)

Definition demo_env : string → string := λ k,
  if decide (k = "MINIO_ENDPOINT") then "https://minio.example.com"
  else if decide (k ∈ ["MINIO_ACCESS_KEY"; "MINIO_SECRET_KEY"; "MINIO_BUCKET"]) then "byot" else "".

#[local] Instance demo_platform : Platform := {|
  pgx_ParseConfig := λ _, true;
  pgx_NewWithConfig := λ _, mret (Ok tt);
  pgx_Ping := mret (Ok tt);
  iofs_New := Ok tt;
  migrate_New := λ _, mret (Ok tt);
  migrate_Up := mret ErrNoChange;
  docker_pull := λ _, mret (Ok tt);
  minio_New := λ _, Ok tt;
  minio_BucketExists := λ _, mret (Ok false);
  minio_MakeBucket := λ _ _, mret (Ok tt)
|}.

Definition demo_server : Server.t :=
  Server.mk (LoadConfig (H := demo_ext_with demo_env))
    (StoreMinio (MinioOptions.mk "minio.example.com" "byot" "byot" true "us-east-1" "byot"))
    None None (30 * Second).

Lemma main_serves_configured_witness :
  (run (main (E := demo_ext_with demo_env) ["byot"]) small).1 = Serving demo_server ∧
  (0 < demo_server.(Server.config).(Config.MaxTimeoutSeconds) < 2^63)%Z.
Proof.
  assert (run (main (E := demo_ext_with demo_env) ["byot"]) small = (Serving demo_server, small)) as H
    by (vm_compute; reflexivity).
  split; [rewrite H; reflexivity|].
  apply (main_serves_configured (E := demo_ext_with demo_env) ["byot"] small demo_server small H).
Defined.
